(** * AquaCrop daily update engine: a shallow embedding of [solution_aot.py]

    The routines of [src/aquacrop/solution_aot.py] are translated function
    by function.  Floating-point quantities are read as real numbers ([R]);
    Python integers are [Z]; NumPy arrays are lists.  A computation that
    raises (ZeroDivisionError, IndexError, AssertionError, an unbound local)
    or that leaves the real numbers (logarithm of a non-positive number)
    yields [None]: every routine returns an [option].

    Reading floats as reals is an idealisation.  It matters most for
    equalities and tight inequalities between results of different
    chains of operations (a water balance, a round trip): statements of
    this kind say "in exact real arithmetic", and computed in binary64
    their two sides agree up to rounding only.

    Two pieces are embedded a second time over binary64 floats (module
    [Binary64]): [biomass_accumulation], whose subject is non-finite
    values, and the seasonal cap of [irrigation], where rounding decides
    whether the cumulative counter stays within the seasonal maximum. *)

From Stdlib Require Import Reals Lra Lia ZArith List String Bool.
From Stdlib Require Import PrimFloat.
From Stdlib Require Import Sorted.
Import ListNotations.

Open Scope R_scope.

(** ** Error monad and the partial primitives *)

Definition bind {A B : Type} (c : option A) (k : A -> option B) : option B :=
  match c with
  | Some a => k a
  | None => None
  end.

Notation "x <- c ;; k" := (bind c (fun x => k))
  (at level 61, c at next level, right associativity).
Notation "' p <- c ;; k" := (bind c (fun p => k))
  (at level 61, p pattern, c at next level, right associativity).

Definition ret {A : Type} (a : A) : option A := Some a.

(** [a / b]: ZeroDivisionError on a zero divisor. *)
Definition fdiv (a b : R) : option R :=
  if Req_dec_T b 0 then None else Some (a / b).

(** [np.log]: defined on positive arguments only. *)
Definition flog (x : R) : option R :=
  if Rlt_dec 0 x then Some (ln x) else None.

(** [np.log10]. *)
Definition flog10 (x : R) : option R :=
  if Rlt_dec 0 x then Some (ln x / ln 10) else None.

(** Comparisons as booleans, for conditions joined by [&], [and], [or]. *)
Definition Rlt_b (a b : R) : bool := if Rlt_dec a b then true else false.
Definition Rle_b (a b : R) : bool := if Rle_dec a b then true else false.
Definition Rgt_b (a b : R) : bool := if Rgt_dec a b then true else false.
Definition Rge_b (a b : R) : bool := if Rge_dec a b then true else false.

(** [assert c]. *)
Definition assert (c : bool) : option unit :=
  if c then Some tt else None.

(** Python's [min(a, b)] and [max(a, b)] on numbers: the first argument is
    kept unless the second is strictly smaller (resp. larger). *)
Definition pymin (a b : R) : R := if Rlt_dec b a then b else a.
Definition pymax (a b : R) : R := if Rgt_dec b a then b else a.

(** Array indexing [a[i]] with Python's wrap-around for negative indices;
    IndexError out of range. *)
Definition getitem {A : Type} (a : list A) (i : Z) : option A :=
  let n := Z.of_nat (List.length a) in
  if (0 <=? i)%Z then nth_error a (Z.to_nat i)
  else if (- n <=? i)%Z then nth_error a (Z.to_nat (n + i))
  else None.

(** ** Growing degree days *)

Definition growing_degree_day (GDDmethod : Z) (Tupp Tbase Tmax Tmin : R)
  : option R :=
  if (GDDmethod =? 1)%Z then
    let Tmean := (Tmax + Tmin) / 2 in
    let Tmean := pymin Tmean Tupp in
    let Tmean := pymax Tmean Tbase in
    ret (Tmean - Tbase)
  else if (GDDmethod =? 2)%Z then
    let Tmax := pymin Tmax Tupp in
    let Tmax := pymax Tmax Tbase in
    let Tmin := pymin Tmin Tupp in
    let Tmin := pymax Tmin Tbase in
    let Tmean := (Tmax + Tmin) / 2 in
    ret (Tmean - Tbase)
  else if (GDDmethod =? 3)%Z then
    let Tmax := pymin Tmax Tupp in
    let Tmax := pymax Tmax Tbase in
    let Tmin := pymin Tmin Tupp in
    let Tmean := (Tmax + Tmin) / 2 in
    let Tmean := pymax Tmean Tbase in
    ret (Tmean - Tbase)
  else None.

(** ** Soil profile and the transient structures *)

Record SoilProfileClass := {
  dz : list R;
  dzsum : list R;
  th_s : list R;
  th_fc : list R;
  th_wp : list R;
  th_dry : list R
}.

Record TAWClass := { TAW_Rz : R; TAW_Zt : R }.
Record DrClass := { Dr_Rz : R; Dr_Zt : R }.
Record thRZClass := {
  thRZ_Act : R;
  thRZ_S : R;
  thRZ_FC : R;
  thRZ_WP : R;
  thRZ_Dry : R;
  thRZ_Aer : R
}.

(** Python's [round(x, 2)] in exact arithmetic: [100 * x] is rounded to the
    nearest integer, ties going to the even one. *)
Definition round_half_even (x : R) : Z :=
  let f := Int_part x in
  let r := frac_part x in
  if Rlt_dec r (1 / 2) then f
  else if Rlt_dec (1 / 2) r then (f + 1)%Z
  else if Z.even f then f else (f + 1)%Z.

Definition round2 (x : R) : R := IZR (round_half_even (x * 100)) / 100.

(** [np.argwhere(a >= x).flatten()[0]]: the first index whose entry is at
    least [x]; IndexError when there is none. *)
Fixpoint argwhere_ge_first (a : list R) (x : R) : option nat :=
  match a with
  | [] => None
  | y :: a' =>
      if Rge_dec y x then Some 0%nat
      else option_map S (argwhere_ge_first a' x)
  end.

(** [np.sum(a <= x)]: how many entries are at most [x]. *)
Fixpoint count_le (a : list R) (x : R) : nat :=
  match a with
  | [] => 0%nat
  | y :: a' => ((if Rle_dec y x then 1 else 0) + count_le a' x)%nat
  end.

(** [for ii in range(n): s = body(ii, s)]. *)
Definition for_range {St : Type} (n : nat) (body : nat -> St -> option St)
  (s : St) : option St :=
  fold_left (fun acc ii => s' <- acc ;; body ii s') (seq 0 n) (Some s).

(** The six root-zone accumulators of [root_zone_water]. *)
Record RootZoneSums := {
  WrAct : R;
  WrS : R;
  WrFC : R;
  WrWP : R;
  WrDry : R;
  WrAer : R
}.

(** Fraction of compartment [ii] that lies above [depth]. *)
Definition cover_factor (prof : SoilProfileClass) (depth : R) (ii : nat)
  : option R :=
  dzsum_ii <- nth_error (dzsum prof) ii ;;
  if Rgt_dec dzsum_ii depth then
    dz_ii <- nth_error (dz prof) ii ;;
    q <- fdiv (dzsum_ii - depth) dz_ii ;;
    ret (1 - q)
  else ret 1.

(** Body of the first loop of [root_zone_water]. *)
Definition root_zone_step (prof : SoilProfileClass) (rootdepth : R)
  (InitCond_th : list R) (Crop_Aer : R) (ii : nat) (w : RootZoneSums)
  : option RootZoneSums :=
  factor <- cover_factor prof rootdepth ii ;;
  th_ii <- nth_error InitCond_th ii ;;
  dz_ii <- nth_error (dz prof) ii ;;
  th_s_ii <- nth_error (th_s prof) ii ;;
  th_fc_ii <- nth_error (th_fc prof) ii ;;
  th_wp_ii <- nth_error (th_wp prof) ii ;;
  th_dry_ii <- nth_error (th_dry prof) ii ;;
  ret {| WrAct := WrAct w + round2 (factor * 1000 * th_ii * dz_ii);
         WrS := WrS w + round2 (factor * 1000 * th_s_ii * dz_ii);
         WrFC := WrFC w + round2 (factor * 1000 * th_fc_ii * dz_ii);
         WrWP := WrWP w + round2 (factor * 1000 * th_wp_ii * dz_ii);
         WrDry := WrDry w + round2 (factor * 1000 * th_dry_ii * dz_ii);
         WrAer := WrAer w + round2 (factor * 1000 * (th_s_ii - Crop_Aer / 100) * dz_ii) |}.

Definition root_zone_sums (prof : SoilProfileClass) (rootdepth : R)
  (InitCond_th : list R) (Crop_Aer : R) (comp_sto : nat)
  : option RootZoneSums :=
  for_range (comp_sto + 1)
    (root_zone_step prof rootdepth InitCond_th Crop_Aer)
    {| WrAct := 0; WrS := 0; WrFC := 0; WrWP := 0; WrDry := 0; WrAer := 0 |}.

(** Body of the top-soil loop; the accumulators are
    [(WrAct_Zt, WrFC_Zt, WrWP_Zt)] and nothing is rounded. *)
Definition top_soil_step (prof : SoilProfileClass) (ztopdepth : R)
  (InitCond_th : list R) (ii : nat) (w : R * R * R) : option (R * R * R) :=
  let '(WrAct_Zt, WrFC_Zt, WrWP_Zt) := w in
  factor <- cover_factor prof ztopdepth ii ;;
  th_ii <- nth_error InitCond_th ii ;;
  dz_ii <- nth_error (dz prof) ii ;;
  th_fc_ii <- nth_error (th_fc prof) ii ;;
  th_wp_ii <- nth_error (th_wp prof) ii ;;
  ret (WrAct_Zt + factor * 1000 * th_ii * dz_ii,
       WrFC_Zt + factor * 1000 * th_fc_ii * dz_ii,
       WrWP_Zt + factor * 1000 * th_wp_ii * dz_ii).

Definition root_zone_water (prof : SoilProfileClass) (InitCond_Zroot : R)
  (InitCond_th : list R) (Soil_zTop Crop_Zmin Crop_Aer : R)
  : option (R * DrClass * TAWClass * thRZClass) :=
  let rootdepth := round2 (Rmax InitCond_Zroot Crop_Zmin) in
  comp_sto <- argwhere_ge_first (dzsum prof) rootdepth ;;
  w <- root_zone_sums prof rootdepth InitCond_th Crop_Aer comp_sto ;;
  let WrAct := if Rlt_dec (WrAct w) 0 then 0 else WrAct w in
  let TAW_Rz := pymax (WrFC w - WrWP w) 0 in
  let Dr_Rz := pymin (WrFC w - WrAct) TAW_Rz in
  Act <- fdiv WrAct (rootdepth * 1000) ;;
  Sat <- fdiv (WrS w) (rootdepth * 1000) ;;
  FC <- fdiv (WrFC w) (rootdepth * 1000) ;;
  WP <- fdiv (WrWP w) (rootdepth * 1000) ;;
  Dry <- fdiv (WrDry w) (rootdepth * 1000) ;;
  Aer <- fdiv (WrAer w) (rootdepth * 1000) ;;
  let thRZ := {| thRZ_Act := Act; thRZ_S := Sat; thRZ_FC := FC;
                 thRZ_WP := WP; thRZ_Dry := Dry; thRZ_Aer := Aer |} in
  if Rgt_dec rootdepth Soil_zTop then
    let ztopdepth := round2 Soil_zTop in
    let comp_sto := count_le (dzsum prof) ztopdepth in
    _ <- assert (0 <? comp_sto)%nat ;;
    '(WrAct_Zt, WrFC_Zt, WrWP_Zt) <-
      for_range comp_sto (top_soil_step prof ztopdepth InitCond_th)
        (0, 0, 0) ;;
    let WrAct_Zt := if Rlt_dec WrAct_Zt 0 then 0 else WrAct_Zt in
    let TAW_Zt := pymax (WrFC_Zt - WrWP_Zt) 0 in
    let Dr_Zt := pymin (WrFC_Zt - WrAct_Zt) TAW_Zt in
    ret (WrAct, {| Dr_Rz := Dr_Rz; Dr_Zt := Dr_Zt |},
         {| TAW_Rz := TAW_Rz; TAW_Zt := TAW_Zt |}, thRZ)
  else
    ret (WrAct, {| Dr_Rz := Dr_Rz; Dr_Zt := Dr_Rz |},
         {| TAW_Rz := TAW_Rz; TAW_Zt := TAW_Rz |}, thRZ).

(** ** The daily condition

    The fields of [InitCondClass] that the embedded routines read or write.
    The routines update one shared object in place ([NewCond = InitCond]
    is an alias); here the record is threaded through and each assignment
    [NewCond.f = v] is [set_f v NewCond]. *)

Record InitCondClass := {
  Zroot : R;
  th : list R;
  Tpot : R;
  Epot : R;
  Depletion : R;
  TAW : R;
  DAP : Z;
  DelayedCDs : Z;
  GrowthStage : Z;
  TimeStepCounter : Z;
  IrrCum : R;
  tEarlySen : R;
  CC : R;
  CC_NS : R;
  CCxAct_NS : R;
  CCadj : R;
  CCadj_NS : R;
  HIref : R;
  YieldForm : bool;
  PreAdj : bool;
  Fpol : R;
  Fpre : R;
  Fpost : R;
  fpost_upp : R;
  fpost_dwn : R;
  sCor1 : R;
  sCor2 : R;
  HI : R;
  HIadj : R;
  B : R;
  B_NS : R
}.

Definition set_Depletion (v : R) (c : InitCondClass) : InitCondClass :=
  {| Zroot := Zroot c; th := th c; Tpot := Tpot c; Epot := Epot c;
     Depletion := v; TAW := TAW c; DAP := DAP c; DelayedCDs := DelayedCDs c;
     GrowthStage := GrowthStage c; TimeStepCounter := TimeStepCounter c;
     IrrCum := IrrCum c; tEarlySen := tEarlySen c; CC := CC c;
     CC_NS := CC_NS c; CCxAct_NS := CCxAct_NS c; CCadj := CCadj c;
     CCadj_NS := CCadj_NS c; HIref := HIref c; YieldForm := YieldForm c;
     PreAdj := PreAdj c; Fpol := Fpol c; Fpre := Fpre c; Fpost := Fpost c;
     fpost_upp := fpost_upp c; fpost_dwn := fpost_dwn c; sCor1 := sCor1 c;
     sCor2 := sCor2 c; HI := HI c; HIadj := HIadj c; B := B c; B_NS := B_NS c |}.

Definition set_TAW (v : R) (c : InitCondClass) : InitCondClass :=
  {| Zroot := Zroot c; th := th c; Tpot := Tpot c; Epot := Epot c;
     Depletion := Depletion c; TAW := v; DAP := DAP c;
     DelayedCDs := DelayedCDs c; GrowthStage := GrowthStage c;
     TimeStepCounter := TimeStepCounter c; IrrCum := IrrCum c;
     tEarlySen := tEarlySen c; CC := CC c; CC_NS := CC_NS c;
     CCxAct_NS := CCxAct_NS c; CCadj := CCadj c; CCadj_NS := CCadj_NS c;
     HIref := HIref c; YieldForm := YieldForm c; PreAdj := PreAdj c;
     Fpol := Fpol c; Fpre := Fpre c; Fpost := Fpost c;
     fpost_upp := fpost_upp c; fpost_dwn := fpost_dwn c; sCor1 := sCor1 c;
     sCor2 := sCor2 c; HI := HI c; HIadj := HIadj c; B := B c; B_NS := B_NS c |}.

Definition set_GrowthStage (v : Z) (c : InitCondClass) : InitCondClass :=
  {| Zroot := Zroot c; th := th c; Tpot := Tpot c; Epot := Epot c;
     Depletion := Depletion c; TAW := TAW c; DAP := DAP c;
     DelayedCDs := DelayedCDs c; GrowthStage := v;
     TimeStepCounter := TimeStepCounter c; IrrCum := IrrCum c;
     tEarlySen := tEarlySen c; CC := CC c; CC_NS := CC_NS c;
     CCxAct_NS := CCxAct_NS c; CCadj := CCadj c; CCadj_NS := CCadj_NS c;
     HIref := HIref c; YieldForm := YieldForm c; PreAdj := PreAdj c;
     Fpol := Fpol c; Fpre := Fpre c; Fpost := Fpost c;
     fpost_upp := fpost_upp c; fpost_dwn := fpost_dwn c; sCor1 := sCor1 c;
     sCor2 := sCor2 c; HI := HI c; HIadj := HIadj c; B := B c; B_NS := B_NS c |}.

Definition set_IrrCum (v : R) (c : InitCondClass) : InitCondClass :=
  {| Zroot := Zroot c; th := th c; Tpot := Tpot c; Epot := Epot c;
     Depletion := Depletion c; TAW := TAW c; DAP := DAP c;
     DelayedCDs := DelayedCDs c; GrowthStage := GrowthStage c;
     TimeStepCounter := TimeStepCounter c; IrrCum := v;
     tEarlySen := tEarlySen c; CC := CC c; CC_NS := CC_NS c;
     CCxAct_NS := CCxAct_NS c; CCadj := CCadj c; CCadj_NS := CCadj_NS c;
     HIref := HIref c; YieldForm := YieldForm c; PreAdj := PreAdj c;
     Fpol := Fpol c; Fpre := Fpre c; Fpost := Fpost c;
     fpost_upp := fpost_upp c; fpost_dwn := fpost_dwn c; sCor1 := sCor1 c;
     sCor2 := sCor2 c; HI := HI c; HIadj := HIadj c; B := B c; B_NS := B_NS c |}.

Definition set_CC_NS (v : R) (c : InitCondClass) : InitCondClass :=
  {| Zroot := Zroot c; th := th c; Tpot := Tpot c; Epot := Epot c;
     Depletion := Depletion c; TAW := TAW c; DAP := DAP c;
     DelayedCDs := DelayedCDs c; GrowthStage := GrowthStage c;
     TimeStepCounter := TimeStepCounter c; IrrCum := IrrCum c;
     tEarlySen := tEarlySen c; CC := CC c; CC_NS := v;
     CCxAct_NS := CCxAct_NS c; CCadj := CCadj c; CCadj_NS := CCadj_NS c;
     HIref := HIref c; YieldForm := YieldForm c; PreAdj := PreAdj c;
     Fpol := Fpol c; Fpre := Fpre c; Fpost := Fpost c;
     fpost_upp := fpost_upp c; fpost_dwn := fpost_dwn c; sCor1 := sCor1 c;
     sCor2 := sCor2 c; HI := HI c; HIadj := HIadj c; B := B c; B_NS := B_NS c |}.

Definition set_CCxAct_NS (v : R) (c : InitCondClass) : InitCondClass :=
  {| Zroot := Zroot c; th := th c; Tpot := Tpot c; Epot := Epot c;
     Depletion := Depletion c; TAW := TAW c; DAP := DAP c;
     DelayedCDs := DelayedCDs c; GrowthStage := GrowthStage c;
     TimeStepCounter := TimeStepCounter c; IrrCum := IrrCum c;
     tEarlySen := tEarlySen c; CC := CC c; CC_NS := CC_NS c; CCxAct_NS := v;
     CCadj := CCadj c; CCadj_NS := CCadj_NS c; HIref := HIref c;
     YieldForm := YieldForm c; PreAdj := PreAdj c; Fpol := Fpol c;
     Fpre := Fpre c; Fpost := Fpost c; fpost_upp := fpost_upp c;
     fpost_dwn := fpost_dwn c; sCor1 := sCor1 c; sCor2 := sCor2 c;
     HI := HI c; HIadj := HIadj c; B := B c; B_NS := B_NS c |}.

Definition set_CCadj (v : R) (c : InitCondClass) : InitCondClass :=
  {| Zroot := Zroot c; th := th c; Tpot := Tpot c; Epot := Epot c;
     Depletion := Depletion c; TAW := TAW c; DAP := DAP c;
     DelayedCDs := DelayedCDs c; GrowthStage := GrowthStage c;
     TimeStepCounter := TimeStepCounter c; IrrCum := IrrCum c;
     tEarlySen := tEarlySen c; CC := CC c; CC_NS := CC_NS c;
     CCxAct_NS := CCxAct_NS c; CCadj := v; CCadj_NS := CCadj_NS c;
     HIref := HIref c; YieldForm := YieldForm c; PreAdj := PreAdj c;
     Fpol := Fpol c; Fpre := Fpre c; Fpost := Fpost c;
     fpost_upp := fpost_upp c; fpost_dwn := fpost_dwn c; sCor1 := sCor1 c;
     sCor2 := sCor2 c; HI := HI c; HIadj := HIadj c; B := B c; B_NS := B_NS c |}.

Definition set_CCadj_NS (v : R) (c : InitCondClass) : InitCondClass :=
  {| Zroot := Zroot c; th := th c; Tpot := Tpot c; Epot := Epot c;
     Depletion := Depletion c; TAW := TAW c; DAP := DAP c;
     DelayedCDs := DelayedCDs c; GrowthStage := GrowthStage c;
     TimeStepCounter := TimeStepCounter c; IrrCum := IrrCum c;
     tEarlySen := tEarlySen c; CC := CC c; CC_NS := CC_NS c;
     CCxAct_NS := CCxAct_NS c; CCadj := CCadj c; CCadj_NS := v;
     HIref := HIref c; YieldForm := YieldForm c; PreAdj := PreAdj c;
     Fpol := Fpol c; Fpre := Fpre c; Fpost := Fpost c;
     fpost_upp := fpost_upp c; fpost_dwn := fpost_dwn c; sCor1 := sCor1 c;
     sCor2 := sCor2 c; HI := HI c; HIadj := HIadj c; B := B c; B_NS := B_NS c |}.

Definition set_PreAdj (v : bool) (c : InitCondClass) : InitCondClass :=
  {| Zroot := Zroot c; th := th c; Tpot := Tpot c; Epot := Epot c;
     Depletion := Depletion c; TAW := TAW c; DAP := DAP c;
     DelayedCDs := DelayedCDs c; GrowthStage := GrowthStage c;
     TimeStepCounter := TimeStepCounter c; IrrCum := IrrCum c;
     tEarlySen := tEarlySen c; CC := CC c; CC_NS := CC_NS c;
     CCxAct_NS := CCxAct_NS c; CCadj := CCadj c; CCadj_NS := CCadj_NS c;
     HIref := HIref c; YieldForm := YieldForm c; PreAdj := v; Fpol := Fpol c;
     Fpre := Fpre c; Fpost := Fpost c; fpost_upp := fpost_upp c;
     fpost_dwn := fpost_dwn c; sCor1 := sCor1 c; sCor2 := sCor2 c;
     HI := HI c; HIadj := HIadj c; B := B c; B_NS := B_NS c |}.

Definition set_Fpol (v : R) (c : InitCondClass) : InitCondClass :=
  {| Zroot := Zroot c; th := th c; Tpot := Tpot c; Epot := Epot c;
     Depletion := Depletion c; TAW := TAW c; DAP := DAP c;
     DelayedCDs := DelayedCDs c; GrowthStage := GrowthStage c;
     TimeStepCounter := TimeStepCounter c; IrrCum := IrrCum c;
     tEarlySen := tEarlySen c; CC := CC c; CC_NS := CC_NS c;
     CCxAct_NS := CCxAct_NS c; CCadj := CCadj c; CCadj_NS := CCadj_NS c;
     HIref := HIref c; YieldForm := YieldForm c; PreAdj := PreAdj c;
     Fpol := v; Fpre := Fpre c; Fpost := Fpost c; fpost_upp := fpost_upp c;
     fpost_dwn := fpost_dwn c; sCor1 := sCor1 c; sCor2 := sCor2 c;
     HI := HI c; HIadj := HIadj c; B := B c; B_NS := B_NS c |}.

Definition set_Fpre (v : R) (c : InitCondClass) : InitCondClass :=
  {| Zroot := Zroot c; th := th c; Tpot := Tpot c; Epot := Epot c;
     Depletion := Depletion c; TAW := TAW c; DAP := DAP c;
     DelayedCDs := DelayedCDs c; GrowthStage := GrowthStage c;
     TimeStepCounter := TimeStepCounter c; IrrCum := IrrCum c;
     tEarlySen := tEarlySen c; CC := CC c; CC_NS := CC_NS c;
     CCxAct_NS := CCxAct_NS c; CCadj := CCadj c; CCadj_NS := CCadj_NS c;
     HIref := HIref c; YieldForm := YieldForm c; PreAdj := PreAdj c;
     Fpol := Fpol c; Fpre := v; Fpost := Fpost c; fpost_upp := fpost_upp c;
     fpost_dwn := fpost_dwn c; sCor1 := sCor1 c; sCor2 := sCor2 c;
     HI := HI c; HIadj := HIadj c; B := B c; B_NS := B_NS c |}.

Definition set_Fpost (v : R) (c : InitCondClass) : InitCondClass :=
  {| Zroot := Zroot c; th := th c; Tpot := Tpot c; Epot := Epot c;
     Depletion := Depletion c; TAW := TAW c; DAP := DAP c;
     DelayedCDs := DelayedCDs c; GrowthStage := GrowthStage c;
     TimeStepCounter := TimeStepCounter c; IrrCum := IrrCum c;
     tEarlySen := tEarlySen c; CC := CC c; CC_NS := CC_NS c;
     CCxAct_NS := CCxAct_NS c; CCadj := CCadj c; CCadj_NS := CCadj_NS c;
     HIref := HIref c; YieldForm := YieldForm c; PreAdj := PreAdj c;
     Fpol := Fpol c; Fpre := Fpre c; Fpost := v; fpost_upp := fpost_upp c;
     fpost_dwn := fpost_dwn c; sCor1 := sCor1 c; sCor2 := sCor2 c;
     HI := HI c; HIadj := HIadj c; B := B c; B_NS := B_NS c |}.

Definition set_fpost_upp (v : R) (c : InitCondClass) : InitCondClass :=
  {| Zroot := Zroot c; th := th c; Tpot := Tpot c; Epot := Epot c;
     Depletion := Depletion c; TAW := TAW c; DAP := DAP c;
     DelayedCDs := DelayedCDs c; GrowthStage := GrowthStage c;
     TimeStepCounter := TimeStepCounter c; IrrCum := IrrCum c;
     tEarlySen := tEarlySen c; CC := CC c; CC_NS := CC_NS c;
     CCxAct_NS := CCxAct_NS c; CCadj := CCadj c; CCadj_NS := CCadj_NS c;
     HIref := HIref c; YieldForm := YieldForm c; PreAdj := PreAdj c;
     Fpol := Fpol c; Fpre := Fpre c; Fpost := Fpost c; fpost_upp := v;
     fpost_dwn := fpost_dwn c; sCor1 := sCor1 c; sCor2 := sCor2 c;
     HI := HI c; HIadj := HIadj c; B := B c; B_NS := B_NS c |}.

Definition set_fpost_dwn (v : R) (c : InitCondClass) : InitCondClass :=
  {| Zroot := Zroot c; th := th c; Tpot := Tpot c; Epot := Epot c;
     Depletion := Depletion c; TAW := TAW c; DAP := DAP c;
     DelayedCDs := DelayedCDs c; GrowthStage := GrowthStage c;
     TimeStepCounter := TimeStepCounter c; IrrCum := IrrCum c;
     tEarlySen := tEarlySen c; CC := CC c; CC_NS := CC_NS c;
     CCxAct_NS := CCxAct_NS c; CCadj := CCadj c; CCadj_NS := CCadj_NS c;
     HIref := HIref c; YieldForm := YieldForm c; PreAdj := PreAdj c;
     Fpol := Fpol c; Fpre := Fpre c; Fpost := Fpost c;
     fpost_upp := fpost_upp c; fpost_dwn := v; sCor1 := sCor1 c;
     sCor2 := sCor2 c; HI := HI c; HIadj := HIadj c; B := B c; B_NS := B_NS c |}.

Definition set_sCor1 (v : R) (c : InitCondClass) : InitCondClass :=
  {| Zroot := Zroot c; th := th c; Tpot := Tpot c; Epot := Epot c;
     Depletion := Depletion c; TAW := TAW c; DAP := DAP c;
     DelayedCDs := DelayedCDs c; GrowthStage := GrowthStage c;
     TimeStepCounter := TimeStepCounter c; IrrCum := IrrCum c;
     tEarlySen := tEarlySen c; CC := CC c; CC_NS := CC_NS c;
     CCxAct_NS := CCxAct_NS c; CCadj := CCadj c; CCadj_NS := CCadj_NS c;
     HIref := HIref c; YieldForm := YieldForm c; PreAdj := PreAdj c;
     Fpol := Fpol c; Fpre := Fpre c; Fpost := Fpost c;
     fpost_upp := fpost_upp c; fpost_dwn := fpost_dwn c; sCor1 := v;
     sCor2 := sCor2 c; HI := HI c; HIadj := HIadj c; B := B c; B_NS := B_NS c |}.

Definition set_sCor2 (v : R) (c : InitCondClass) : InitCondClass :=
  {| Zroot := Zroot c; th := th c; Tpot := Tpot c; Epot := Epot c;
     Depletion := Depletion c; TAW := TAW c; DAP := DAP c;
     DelayedCDs := DelayedCDs c; GrowthStage := GrowthStage c;
     TimeStepCounter := TimeStepCounter c; IrrCum := IrrCum c;
     tEarlySen := tEarlySen c; CC := CC c; CC_NS := CC_NS c;
     CCxAct_NS := CCxAct_NS c; CCadj := CCadj c; CCadj_NS := CCadj_NS c;
     HIref := HIref c; YieldForm := YieldForm c; PreAdj := PreAdj c;
     Fpol := Fpol c; Fpre := Fpre c; Fpost := Fpost c;
     fpost_upp := fpost_upp c; fpost_dwn := fpost_dwn c; sCor1 := sCor1 c;
     sCor2 := v; HI := HI c; HIadj := HIadj c; B := B c; B_NS := B_NS c |}.

Definition set_HI (v : R) (c : InitCondClass) : InitCondClass :=
  {| Zroot := Zroot c; th := th c; Tpot := Tpot c; Epot := Epot c;
     Depletion := Depletion c; TAW := TAW c; DAP := DAP c;
     DelayedCDs := DelayedCDs c; GrowthStage := GrowthStage c;
     TimeStepCounter := TimeStepCounter c; IrrCum := IrrCum c;
     tEarlySen := tEarlySen c; CC := CC c; CC_NS := CC_NS c;
     CCxAct_NS := CCxAct_NS c; CCadj := CCadj c; CCadj_NS := CCadj_NS c;
     HIref := HIref c; YieldForm := YieldForm c; PreAdj := PreAdj c;
     Fpol := Fpol c; Fpre := Fpre c; Fpost := Fpost c;
     fpost_upp := fpost_upp c; fpost_dwn := fpost_dwn c; sCor1 := sCor1 c;
     sCor2 := sCor2 c; HI := v; HIadj := HIadj c; B := B c; B_NS := B_NS c |}.

Definition set_HIadj (v : R) (c : InitCondClass) : InitCondClass :=
  {| Zroot := Zroot c; th := th c; Tpot := Tpot c; Epot := Epot c;
     Depletion := Depletion c; TAW := TAW c; DAP := DAP c;
     DelayedCDs := DelayedCDs c; GrowthStage := GrowthStage c;
     TimeStepCounter := TimeStepCounter c; IrrCum := IrrCum c;
     tEarlySen := tEarlySen c; CC := CC c; CC_NS := CC_NS c;
     CCxAct_NS := CCxAct_NS c; CCadj := CCadj c; CCadj_NS := CCadj_NS c;
     HIref := HIref c; YieldForm := YieldForm c; PreAdj := PreAdj c;
     Fpol := Fpol c; Fpre := Fpre c; Fpost := Fpost c;
     fpost_upp := fpost_upp c; fpost_dwn := fpost_dwn c; sCor1 := sCor1 c;
     sCor2 := sCor2 c; HI := HI c; HIadj := v; B := B c; B_NS := B_NS c |}.

(** ** Crop and irrigation-management parameters *)

Record CropClass := {
  Zmin : R;
  Aer : R;
  p_up : list R;
  p_lo : list R;
  fshape_w : list R;
  ETadj : Z;
  Crop_beta : R;
  CanopyDevEnd : R;
  CropType : Z;
  HI0 : R;
  dHI0 : R;
  dHI_pre : R;
  HIstartCD : Z;
  FloweringCD : Z;
  CanopyDevEndCD : Z;
  HIendCD : Z;
  YldFormCD : Z;
  CCmin : R;
  exc : R;
  a_HI : R;
  b_HI : R;
  PolHeatStress : Z;
  PolColdStress : Z;
  Tmax_lo : R;
  Tmax_up : R;
  Tmin_lo : R;
  Tmin_up : R;
  fshape_b : R
}.

Record IrrMngtStruct := {
  IrrMethod : Z;
  SMT : list R;
  AppEff : R;
  MaxIrr : R;
  IrrInterval : Z;
  Schedule : list R;
  depth : R;
  MaxIrrSeason : R
}.

(** ** Irrigation *)

(** The depth chosen by the irrigation method, before it is floored at
    zero; an [IrrMethod] outside 0..5 leaves [Irr] unbound. *)
Definition irrigation_depth (NewCond : InitCondClass)
  (IrrMngt : IrrMngtStruct) : option R :=
  if (IrrMethod IrrMngt =? 0)%Z then ret 0
  else if (IrrMethod IrrMngt =? 1)%Z then
    Dr <- fdiv (Depletion NewCond) (TAW NewCond) ;;
    let index := (GrowthStage NewCond - 1)%Z in
    SMT_index <- getitem (SMT IrrMngt) index ;;
    if Rgt_dec Dr (1 - SMT_index / 100) then
      let IrrReq := pymax 0 (Depletion NewCond) in
      let EffAdj := ((100 - AppEff IrrMngt) + 100) / 100 in
      let IrrReq := IrrReq * EffAdj in
      ret (pymin (MaxIrr IrrMngt) IrrReq)
    else ret 0
  else if (IrrMethod IrrMngt =? 2)%Z then
    let Dr := Depletion NewCond in
    let nDays := (DAP NewCond - 1)%Z in
    if (IrrInterval IrrMngt =? 0)%Z then None
    else if (nDays mod IrrInterval IrrMngt =? 0)%Z then
      let IrrReq := pymax 0 Dr in
      let EffAdj := ((100 - AppEff IrrMngt) + 100) / 100 in
      let IrrReq := IrrReq * EffAdj in
      ret (pymin (MaxIrr IrrMngt) IrrReq)
    else ret 0
  else if (IrrMethod IrrMngt =? 3)%Z then
    let idx := TimeStepCounter NewCond in
    Irr <- getitem (Schedule IrrMngt) idx ;;
    _ <- assert (Rge_b Irr 0) ;;
    ret (pymin (MaxIrr IrrMngt) Irr)
  else if (IrrMethod IrrMngt =? 4)%Z then ret 0
  else if (IrrMethod IrrMngt =? 5)%Z then
    ret (pymin (MaxIrr IrrMngt) (depth IrrMngt))
  else None.

Definition irrigation (InitCond : InitCondClass) (IrrMngt : IrrMngtStruct)
  (Crop : CropClass) (prof : SoilProfileClass) (Soil_zTop : R)
  (GrowingSeason : bool) (Rain Runoff : R) : option (InitCondClass * R) :=
  let NewCond := InitCond in
  '(NewCond, Irr) <-
    (if GrowingSeason then
       '(WrAct, Dr_, TAW_, thRZ) <-
         root_zone_water prof (Zroot NewCond) (th NewCond) Soil_zTop
           (Zmin Crop) (Aer Crop) ;;
       let Dr := Dr_Rz Dr_ in
       let TAW := TAW_Rz TAW_ in
       let AbvFc :=
         if Rgt_dec (thRZ_Act thRZ) (thRZ_FC thRZ) then
           let rootdepth := pymax (Zroot InitCond) (Zmin Crop) in
           (thRZ_Act thRZ - thRZ_FC thRZ) * 1000 * rootdepth
         else 0 in
       let WCadj := Tpot InitCond + Epot InitCond - Rain + Runoff - AbvFc in
       let NewCond := set_Depletion (Dr + WCadj) NewCond in
       let NewCond := set_TAW TAW NewCond in
       let NewCond :=
         if (DAP NewCond =? 1)%Z then set_GrowthStage 1 NewCond
         else NewCond in
       Irr <- irrigation_depth NewCond IrrMngt ;;
       ret (NewCond, pymax 0 Irr)
     else ret (set_IrrCum 0 NewCond, 0)) ;;
  let Irr :=
    if Rgt_dec (IrrCum NewCond + Irr) (MaxIrrSeason IrrMngt) then
      pymax 0 (MaxIrrSeason IrrMngt - IrrCum NewCond)
    else Irr in
  let NewCond := set_IrrCum (IrrCum NewCond + Irr) NewCond in
  ret (NewCond, Irr).

(** ** Water stress *)

Record KswClass := {
  Ksw_Exp : R;
  Ksw_Sto : R;
  Ksw_Sen : R;
  Ksw_Pol : R;
  Ksw_StoLin : R
}.

(** [for x in xs: ys.append(f(x))] in the error monad. *)
Fixpoint mapM {A B : Type} (f : A -> option B) (xs : list A)
  : option (list B) :=
  match xs with
  | [] => ret []
  | x :: xs' => y <- f x ;; ys <- mapM f xs' ;; ret (y :: ys)
  end.

(** In-place store [a[i] = v]; IndexError out of range. *)
Fixpoint setitem (a : list R) (i : nat) (v : R) : option (list R) :=
  match a, i with
  | [], _ => None
  | _ :: a', O => Some (v :: a')
  | x :: a', S i' => option_map (cons x) (setitem a' i' v)
  end.

(** NumPy broadcasting of an array against one of length [n]: equal
    lengths, or one of the two has length one. *)
Definition broadcast (n : nat) (a : list R) : option (list R) :=
  if (List.length a =? n)%nat then Some a
  else match a with
       | [x] => Some (repeat x n)
       | _ => if (n =? 1)%nat then Some a else None
       end.

(** [p + (0.04 * (5 - Et0)) * log10(10 - 9 * p)]. *)
Definition adjust_threshold (Et0 p : R) : option R :=
  l <- flog10 (10 - 9 * p) ;;
  ret (p + (0.04 * (5 - Et0)) * l).

(** Loop body of the adjustment for [Et0]: both thresholds of stress [ii]. *)
Definition adjust_thresholds_step (Et0 : R) (ii : nat)
  (p : list R * list R) : option (list R * list R) :=
  let '(p_up, p_lo) := p in
  p_up_ii <- nth_error p_up ii ;;
  v <- adjust_threshold Et0 p_up_ii ;;
  p_up <- setitem p_up ii v ;;
  p_lo_ii <- nth_error p_lo ii ;;
  v <- adjust_threshold Et0 p_lo_ii ;;
  p_lo <- setitem p_lo ii v ;;
  ret (p_up, p_lo).

(** The effective thresholds: first half of [water_stress], up to and
    including "Limit values". *)
Definition stress_thresholds (Crop : CropClass) (InitCond : InitCondClass)
  (Et0 : R) (beta : bool) : option (list R * list R) :=
  let nstress := List.length (p_up Crop) in
  p_up <- broadcast nstress (p_up Crop) ;;
  p_lo <- broadcast nstress (p_lo Crop) ;;
  '(p_up, p_lo) <-
    (if (ETadj Crop =? 1)%Z then
       for_range 3 (adjust_thresholds_step Et0) (p_up, p_lo)
     else ret (p_up, p_lo)) ;;
  p_up <-
    (if beta && Rgt_b (tEarlySen InitCond) 0 then
       p_up_2 <- nth_error p_up 2 ;;
       setitem p_up 2 (p_up_2 * (1 - Crop_beta Crop / 100))
     else ret p_up) ;;
  p_up <- broadcast 4 p_up ;;
  p_lo <- broadcast 4 p_lo ;;
  let p_up := map (fun x => Rmax x 0) p_up in
  let p_lo := map (fun x => Rmax x 0) p_lo in
  let p_up := map (fun x => Rmin x 1) p_up in
  let p_lo := map (fun x => Rmin x 1) p_lo in
  ret (p_up, p_lo).

(** Relative depletion of one stress type. *)
Definition relative_depletion (Dr TAW p_up_ii p_lo_ii : R) : option R :=
  if Rle_dec Dr (p_up_ii * TAW) then ret 0
  else if Rgt_b Dr (p_up_ii * TAW) && Rlt_b Dr (p_lo_ii * TAW) then
    q <- fdiv Dr TAW ;;
    r <- fdiv (p_lo_ii - q) (p_lo_ii - p_up_ii) ;;
    ret (1 - r)
  else if Rge_dec Dr (p_lo_ii * TAW) then ret 1
  else ret 0.

(** The shape transform [1 - (exp(d * k) - 1) / (exp(k) - 1)]. *)
Definition stress_curve (Drel_ii fshape_ii : R) : option R :=
  q <- fdiv (exp (Drel_ii * fshape_ii) - 1) (exp fshape_ii - 1) ;;
  ret (1 - q).

Definition water_stress (Crop : CropClass) (InitCond : InitCondClass)
  (Dr TAW Et0 : R) (beta : bool) : option KswClass :=
  let nstress := List.length (p_up Crop) in
  '(p_up, p_lo) <- stress_thresholds Crop InitCond Et0 beta ;;
  Drel <-
    mapM (fun ii =>
            p_up_ii <- nth_error p_up ii ;;
            p_lo_ii <- nth_error p_lo ii ;;
            relative_depletion Dr TAW p_up_ii p_lo_ii)
         (seq 0 nstress) ;;
  Ks <-
    mapM (fun ii =>
            Drel_ii <- nth_error Drel ii ;;
            fshape_ii <- nth_error (fshape_w Crop) ii ;;
            stress_curve Drel_ii fshape_ii)
         (seq 0 3) ;;
  Ks_0 <- nth_error Ks 0 ;;
  Ks_1 <- nth_error Ks 1 ;;
  Ks_2 <- nth_error Ks 2 ;;
  Drel_3 <- nth_error Drel 3 ;;
  Drel_1 <- nth_error Drel 1 ;;
  ret {| Ksw_Exp := Ks_0; Ksw_Sto := Ks_1; Ksw_Sen := Ks_2;
         Ksw_Pol := 1 - Drel_3; Ksw_StoLin := 1 - Drel_1 |}.

(** ** Canopy development *)

(** Exponential growth stage. *)
Definition cc_growth_exp (CCo CGC dt : R) : R := CCo * exp (CGC * dt).

(** Exponential decay stage. *)
Definition cc_growth_decay (CCo CCx CGC dt : R) : option R :=
  q <- fdiv CCx CCo ;;
  ret (CCx - 0.25 * q * CCx * exp (- CGC * dt)).

Definition cc_development (CCo CCx CGC CDC dt : R) (Mode : string)
  (CCx0 : R) : option R :=
  CC <-
    (if (Mode =? "Growth")%string then
       let CC := cc_growth_exp CCo CGC dt in
       CC <- (if Rgt_dec CC (CCx / 2) then cc_growth_decay CCo CCx CGC dt
              else ret CC) ;;
       ret (if Rgt_dec CC CCx then CCx else CC)
     else if (Mode =? "Decline")%string then
       if Rlt_dec CCx 0.001 then ret 0
       else
         q <- fdiv (CCx + 2.29) (CCx0 + 2.29) ;;
         e <- fdiv (dt * CDC * 3.33 * q) (CCx + 2.29) ;;
         ret (CCx * (1 - 0.05 * (exp e - 1)))
     else None) ;;
  ret (if Rgt_dec CC 1 then 1 else if Rlt_dec CC 0 then 0 else CC).

Definition cc_required_time (CCprev CCo CCx CGC CDC : R) (Mode : string)
  : option R :=
  if (Mode =? "CGC")%string then
    CGCx <-
      (if Rle_dec CCprev (CCx / 2) then
         q <- fdiv CCprev CCo ;;
         flog q
       else
         n <- fdiv (0.25 * CCx * CCx) CCo ;;
         q <- fdiv n (CCx - CCprev) ;;
         flog q) ;;
    fdiv CGCx CGC
  else if (Mode =? "CDC")%string then
    q <- fdiv CCprev CCx ;;
    l <- flog (1 + (1 - q) / 0.05) ;;
    d <- fdiv CDC CCx ;;
    fdiv l d
  else None.

(** Ground-shading adjustment of a canopy cover. *)
Definition cc_adjusted (CC : R) : R := (1.72 * CC) - (CC ^ 2) + (0.3 * (CC ^ 3)).

(** The closing block of [canopy_cover] in the growing season ("Calculate
    canopy size adjusted for micro-advective effects"): from the day's
    actual and potential cover to the two adjusted covers. *)
Definition canopy_cover_adjust (Crop : CropClass) (tCCadj : R)
  (NewCond : InitCondClass) : InitCondClass :=
  let NewCond :=
    if Rlt_dec (CC_NS NewCond) (CC NewCond) then
      let NewCond := set_CC_NS (CC NewCond) NewCond in
      if Rlt_dec tCCadj (CanopyDevEnd Crop) then
        set_CCxAct_NS (CC_NS NewCond) NewCond
      else NewCond
    else NewCond in
  let NewCond := set_CCadj (cc_adjusted (CC NewCond)) NewCond in
  set_CCadj_NS (cc_adjusted (CC_NS NewCond)) NewCond.

(** ** Aeration stress *)

Definition aeration_stress (NewCond_AerDays Crop_LagAer : Z)
  (thRZ : thRZClass) : option (R * Z) :=
  if Rgt_dec (thRZ_Act thRZ) (thRZ_Aer thRZ) then
    Ksa_Aer <-
      (if (NewCond_AerDays <? Crop_LagAer)%Z then
         q <- fdiv (thRZ_S thRZ - thRZ_Act thRZ)
                (thRZ_S thRZ - thRZ_Aer thRZ) ;;
         let stress := 1 - q in
         ret (1 - ((IZR NewCond_AerDays / 3) * stress))
       else
         fdiv (thRZ_S thRZ - thRZ_Act thRZ)
           (thRZ_S thRZ - thRZ_Aer thRZ)) ;;
    let NewCond_AerDays := (NewCond_AerDays + 1)%Z in
    let NewCond_AerDays :=
      if (NewCond_AerDays >? Crop_LagAer)%Z then Crop_LagAer
      else NewCond_AerDays in
    ret (Ksa_Aer, NewCond_AerDays)
  else ret (1, 0%Z).

(** ** Temperature stress *)

Record KstClass := { Kst_PolH : R; Kst_PolC : R }.

(** [Kst] is the freshly constructed [KstClass()]; its constructor is not
    part of this file, and a field keeps its initial value when the
    corresponding switch is neither 0 nor 1. *)
Definition temperature_stress (Kst : KstClass) (Crop : CropClass)
  (Tmax Tmin : R) : option KstClass :=
  let KsPol_up := 1 in
  let KsPol_lo := 0.001 in
  PolH <-
    (if (PolHeatStress Crop =? 0)%Z then ret 1
     else if (PolHeatStress Crop =? 1)%Z then
       if Rle_dec Tmax (Tmax_lo Crop) then ret 1
       else if Rge_dec Tmax (Tmax_up Crop) then ret 0
       else
         Trel <- fdiv (Tmax - Tmax_lo Crop) (Tmax_up Crop - Tmax_lo Crop) ;;
         fdiv (KsPol_up * KsPol_lo)
           (KsPol_lo
            + (KsPol_up - KsPol_lo) * exp (- fshape_b Crop * (1 - Trel)))
     else ret (Kst_PolH Kst)) ;;
  PolC <-
    (if (PolColdStress Crop =? 0)%Z then ret 1
     else if (PolColdStress Crop =? 1)%Z then
       if Rge_dec Tmin (Tmin_up Crop) then ret 1
       else if Rle_dec Tmin (Tmin_lo Crop) then ret 0
       else
         Trel <- fdiv (Tmin_up Crop - Tmin) (Tmin_up Crop - Tmin_lo Crop) ;;
         fdiv (KsPol_up * KsPol_lo)
           (KsPol_lo
            + (KsPol_up - KsPol_lo) * exp (- fshape_b Crop * (1 - Trel)))
     else ret (Kst_PolC Kst)) ;;
  ret {| Kst_PolH := PolH; Kst_PolC := PolC |}.

(** ** Harvest index *)

(** [np.power(x, y)] for the exponent used here (0.1): a negative base has
    no real power. *)
Definition fpower (x y : R) : option R :=
  if Rlt_dec 0 x then Some (Rpower x y)
  else if Req_dec_T x 0 then
    if Rlt_dec 0 y then Some 0
    else if Req_dec_T y 0 then Some 1 else None
  else None.

Definition HIadj_pre_anthesis (InitCond : InitCondClass) (Crop_dHI_pre : R)
  : option InitCondClass :=
  let NewCond := InitCond in
  NewCond <-
    (if Rgt_dec Crop_dHI_pre 0 then
       Br <- fdiv (B InitCond) (B_NS InitCond) ;;
       l <- flog Crop_dHI_pre ;;
       let Br_range := l / 5.62 in
       let Br_upp := 1 in
       let Br_low := 1 - Br_range in
       let Br_top := Br_upp - (Br_range / 3) in
       ratio_low <- fdiv (Br - Br_low) (Br_top - Br_low) ;;
       ratio_upp <- fdiv (Br - Br_top) (Br_upp - Br_top) ;;
       if Rge_b Br Br_low && Rlt_b Br Br_top then
         ret (set_Fpre
                (1 + (((1 + sin ((1.5 - ratio_low) * PI)) / 2)
                      * (Crop_dHI_pre / 100))) NewCond)
       else if Rgt_b Br Br_top && Rle_b Br Br_upp then
         ret (set_Fpre
                (1 + (((1 + sin ((0.5 + ratio_upp) * PI)) / 2)
                      * (Crop_dHI_pre / 100))) NewCond)
       else ret (set_Fpre 1 NewCond)
     else ret (set_Fpre 1 NewCond)) ;;
  ret (if Rle_dec (CC NewCond) 0.01 then set_Fpre 0 NewCond else NewCond).

(** Fractional flowering after [t] days: the block that
    [HIadj_pollination] runs once for the previous day ([F1]) and once for
    the current day ([F2]). *)
Definition flowering_fraction (t Crop_FloweringCD : Z) : option R :=
  F <-
    (if (t =? 0)%Z then ret 0
     else
       q <- fdiv (IZR t) (IZR Crop_FloweringCD) ;;
       let tPct := 100 * q in
       let tPct := if Rgt_dec tPct 100 then 100 else tPct in
       l <- flog tPct ;;
       ret (0.00558 * exp (0.63 * l) - (0.000969 * tPct) - 0.00383)) ;;
  ret (if Rlt_dec F 0 then 0 else F).

Definition HIadj_pollination (InitCond_CC InitCond_Fpol : R)
  (Crop_FloweringCD : Z) (Crop_CCmin Crop_exc : R) (Ksw : KswClass)
  (Kst : KstClass) (HIt : Z) : option R :=
  (* [FracFlow] stays unbound when [HIt < 0] *)
  FracFlow <-
    (if (HIt =? 0)%Z then ret (Some 0)
     else if (HIt >? 0)%Z then
       let t1 := (HIt - 1)%Z in
       F1 <- flowering_fraction t1 Crop_FloweringCD ;;
       let t2 := HIt in
       F2 <- flowering_fraction t2 Crop_FloweringCD ;;
       F <-
         (if Rlt_dec (Rabs (F1 - F2)) 0.0000001 then ret 0
          else fdiv (100 * ((F1 + F2) / 2)) (IZR Crop_FloweringCD)) ;;
       ret (Some F)
     else ret None) ;;
  dFpol <-
    (if Rlt_dec InitCond_CC Crop_CCmin then ret 0
     else
       let Ks := pymin (pymin (Ksw_Pol Ksw) (Kst_PolC Kst)) (Kst_PolH Kst) in
       FracFlow <- FracFlow ;;
       ret (Ks * FracFlow * (1 + (Crop_exc / 100)))) ;;
  let NewCond_Fpol := InitCond_Fpol + dFpol in
  ret (if Rgt_dec NewCond_Fpol 1 then 1 else NewCond_Fpol).

Definition HIadj_post_anthesis (InitCond : InitCondClass) (Crop : CropClass)
  (Ksw : KswClass) : option InitCondClass :=
  let NewCond := InitCond in
  let InitCond_DelayedCDs := DelayedCDs InitCond in
  let InitCond_sCor1 := sCor1 InitCond in
  let InitCond_sCor2 := sCor2 InitCond in
  (* 1. Adjustment for leaf expansion *)
  let tmax1 := (CanopyDevEndCD Crop - HIstartCD Crop)%Z in
  let DAP_ := (DAP NewCond - InitCond_DelayedCDs)%Z in
  NewCond <-
    (if (DAP_ <=? CanopyDevEndCD Crop + 1)%Z && (tmax1 >? 0)%Z
        && Rgt_b (Fpre NewCond) 0.99 && Rgt_b (CC NewCond) 0.001
        && Rgt_b (a_HI Crop) 0
     then
       q <- fdiv (1 - Ksw_Exp Ksw) (a_HI Crop) ;;
       let dCor := 1 + q in
       q <- fdiv dCor (IZR tmax1) ;;
       let NewCond := set_sCor1 (InitCond_sCor1 + q) NewCond in
       let DayCor := (DAP_ - 1 - HIstartCD Crop)%Z in
       q <- fdiv (IZR tmax1) (IZR DayCor) ;;
       ret (set_fpost_upp (q * sCor1 NewCond) NewCond)
     else ret NewCond) ;;
  (* 2. Adjustment for stomatal closure *)
  let tmax2 := YldFormCD Crop in
  let DAP_ := (DAP NewCond - InitCond_DelayedCDs)%Z in
  NewCond <-
    (if (DAP_ <=? HIendCD Crop + 1)%Z && (tmax2 >? 0)%Z
        && Rgt_b (Fpre NewCond) 0.99 && Rgt_b (CC NewCond) 0.001
        && Rgt_b (b_HI Crop) 0
     then
       p <- fpower (Ksw_Sto Ksw) 0.1 ;;
       q <- fdiv (1 - Ksw_Sto Ksw) (b_HI Crop) ;;
       let dCor := p * (1 - q) in
       q <- fdiv dCor (IZR tmax2) ;;
       let NewCond := set_sCor2 (InitCond_sCor2 + q) NewCond in
       let DayCor := (DAP_ - 1 - HIstartCD Crop)%Z in
       q <- fdiv (IZR tmax2) (IZR DayCor) ;;
       ret (set_fpost_dwn (q * sCor2 NewCond) NewCond)
     else ret NewCond) ;;
  (* Determine total multiplier *)
  if (tmax1 =? 0)%Z && (tmax2 =? 0)%Z then ret (set_Fpost 1 NewCond)
  else if (tmax2 =? 0)%Z then ret (set_Fpost (fpost_upp NewCond) NewCond)
  else if (tmax1 =? 0)%Z then ret (set_Fpost (fpost_dwn NewCond) NewCond)
  else if (tmax1 <=? tmax2)%Z then
    q <- fdiv ((IZR tmax1 * fpost_upp NewCond) + IZR (tmax2 - tmax1))
           (IZR tmax2) ;;
    ret (set_Fpost (fpost_dwn NewCond * q) NewCond)
  else
    q <- fdiv ((IZR tmax2 * fpost_dwn NewCond) + IZR (tmax1 - tmax2))
           (IZR tmax1) ;;
    ret (set_Fpost (fpost_upp NewCond * q) NewCond).

(** The harvest index of a day inside the yield-formation window: the
    branch [(NewCond.YieldForm == True) & (HIt >= 0)] of [harvest_index].
    Returns the condition and [HIadj]; a [CropType] outside 1..3 leaves
    [HIadj] unbound. *)
Definition harvest_index_build_up (Crop : CropClass)
  (NewCond : InitCondClass) (InitCond_PreAdj : bool) (Ksw : KswClass)
  (Kst : KstClass) (HIi : R) (HIt : Z) : option (InitCondClass * R) :=
  if (CropType Crop =? 2)%Z || (CropType Crop =? 3)%Z then
    NewCond <-
      (if negb InitCond_PreAdj then
         let NewCond := set_PreAdj true NewCond in
         HIadj_pre_anthesis NewCond (dHI_pre Crop)
       else ret NewCond) ;;
    '(NewCond, HImax) <-
      (if (CropType Crop =? 3)%Z then
         NewCond <-
           (if (HIt >? 0)%Z && (HIt <=? FloweringCD Crop)%Z then
              Fpol <- HIadj_pollination (CC NewCond) (Fpol NewCond)
                        (FloweringCD Crop) (CCmin Crop) (exc Crop) Ksw Kst
                        HIt ;;
              ret (set_Fpol Fpol NewCond)
            else ret NewCond) ;;
         ret (NewCond, Fpol NewCond * HI0 Crop)
       else ret (NewCond, HI0 Crop)) ;;
    NewCond <-
      (if (HIt >? 0)%Z then HIadj_post_anthesis NewCond Crop Ksw
       else ret NewCond) ;;
    let HImult := Fpre NewCond * Fpost NewCond in
    let HImult :=
      if Rgt_dec HImult (1 + (dHI0 Crop / 100)) then 1 + (dHI0 Crop / 100)
      else HImult in
    let HIadj := if Rge_dec HImax HIi then HImult * HIi else HImult * HImax in
    ret (NewCond, HIadj)
  else if (CropType Crop =? 1)%Z then ret (NewCond, HIi)
  else None.

Definition harvest_index (Kst0 : KstClass) (Soil_Profile : SoilProfileClass)
  (Soil_zTop : R) (Crop : CropClass) (InitCond : InitCondClass)
  (Et0 Tmax Tmin : R) (GrowingSeason : bool) : option InitCondClass :=
  let NewCond := InitCond in
  let InitCond_HI := HI InitCond in
  let InitCond_HIadj := HIadj InitCond in
  let InitCond_PreAdj := PreAdj InitCond in
  if GrowingSeason then
    '(_, Dr, TAW, _) <-
      root_zone_water Soil_Profile (Zroot NewCond) (th NewCond) Soil_zTop
        (Zmin Crop) (Aer Crop) ;;
    qRz <- fdiv (Dr_Rz Dr) (TAW_Rz TAW) ;;
    qZt <- fdiv (Dr_Zt Dr) (TAW_Zt TAW) ;;
    let '(Dr, TAW) :=
      if Rle_dec qRz qZt then (Dr_Rz Dr, TAW_Rz TAW)
      else (Dr_Zt Dr, TAW_Zt TAW) in
    let beta := true in
    Ksw <- water_stress Crop NewCond Dr TAW Et0 beta ;;
    Kst <- temperature_stress Kst0 Crop Tmax Tmin ;;
    let HIi := HIref NewCond in
    let HIt := (DAP NewCond - DelayedCDs NewCond - HIstartCD Crop - 1)%Z in
    '(NewCond, HIi, HIadj) <-
      (if YieldForm NewCond && (HIt >=? 0)%Z then
         '(NewCond, HIadj) <-
           harvest_index_build_up Crop NewCond InitCond_PreAdj Ksw Kst HIi
             HIt ;;
         ret (NewCond, HIi, HIadj)
       else ret (NewCond, InitCond_HI, InitCond_HIadj)) ;;
    let NewCond := set_HI HIi NewCond in
    let NewCond := set_HIadj HIadj NewCond in
    ret NewCond
  else
    let NewCond := set_HI 0 NewCond in
    let NewCond := set_HIadj 0 NewCond in
    ret NewCond.

(** ** Biomass accumulation and the seasonal irrigation cap over binary64
    floats *)

Module Binary64.

Local Open Scope float_scope.

(** How a float division by zero behaves: Python floats (and compiled
    code under the default error model) raise ZeroDivisionError; NumPy
    scalars follow IEEE 754 and return an infinity or NaN. *)
Inductive error_model := PythonModel | NumpyModel.

Definition fdiv (em : error_model) (a b : float) : option float :=
  match em with
  | PythonModel => if is_zero b then None else Some (a / b)
  | NumpyModel => Some (a / b)
  end.

(** The fields read by [biomass_accumulation].  Day counts are integers
    in the source; they are given here as the floats they convert to. *)
Record CropClass := {
  CropType : Z;
  Determinant : Z;
  HIstartCD : float;
  YldFormCD : float;
  WP : float;
  WPy : float;
  fCO2 : float
}.

Record InitCondClass := {
  DAP : float;
  DelayedCDs : float;
  HIref : float;
  PctLagPhase : float;
  B : float;
  B_NS : float
}.

Definition set_B (v : float) (c : InitCondClass) : InitCondClass :=
  {| DAP := DAP c; DelayedCDs := DelayedCDs c; HIref := HIref c;
     PctLagPhase := PctLagPhase c; B := v; B_NS := B_NS c |}.

Definition set_B_NS (v : float) (c : InitCondClass) : InitCondClass :=
  {| DAP := DAP c; DelayedCDs := DelayedCDs c; HIref := HIref c;
     PctLagPhase := PctLagPhase c; B := B c; B_NS := v |}.

Definition biomass_accumulation (em : error_model) (Crop : CropClass)
  (InitCond : InitCondClass) (Tr TrPot Et0 : float) (GrowingSeason : bool)
  : option InitCondClass :=
  let NewCond := InitCond in
  if GrowingSeason then
    let HIt := DAP NewCond - DelayedCDs NewCond - HIstartCD Crop - 1 in
    WPadj <-
      (if ((CropType Crop =? 2)%Z || (CropType Crop =? 3)%Z)
          && (0 <? HIref NewCond)
       then
         fswitch <-
           (if (Determinant Crop =? 1)%Z then
              ret (PctLagPhase NewCond / 100)
            else if HIt <? (YldFormCD Crop / 3) then
              fdiv em HIt (YldFormCD Crop / 3)
            else ret 1) ;;
         ret (WP Crop * (1 - (1 - WPy Crop / 100) * fswitch))
       else ret (WP Crop)) ;;
    let WPadj := WPadj * fCO2 Crop in
    q <- fdiv em TrPot Et0 ;;
    let dB_NS := WPadj * q in
    q <- fdiv em Tr Et0 ;;
    let dB := WPadj * q in
    let dB := if is_nan dB then 0 else dB in
    let NewCond := set_B (B NewCond + dB) NewCond in
    let NewCond := set_B_NS (B_NS NewCond + dB_NS) NewCond in
    ret NewCond
  else
    let NewCond := set_B 0 NewCond in
    let NewCond := set_B_NS 0 NewCond in
    ret NewCond.

(** A fruit/grain crop before yield formation, with finite biomass
    totals carried over from the previous day. *)
Definition crop0 : CropClass :=
  {| CropType := 3; Determinant := 1; HIstartCD := 60; YldFormCD := 50;
     WP := 15; WPy := 100; fCO2 := 1 |}.

Definition cond0 : InitCondClass :=
  {| DAP := 30; DelayedCDs := 0; HIref := 0; PctLagPhase := 0;
     B := 100; B_NS := 120 |}.

(** Python's [min] and [max] of two numbers: the first argument is kept
    unless the second is strictly smaller (larger). *)
Definition pymin (a b : float) : float := if b <? a then b else a.

Definition pymax (a b : float) : float := if a <? b then b else a.


End Binary64.


(** ** Growth stage *)

Module Stage.

(** The fields read or written by [growth_stage]. *)
Record CropClass := {
  CalendarType : Z;
  Canopy10Pct : R;
  MaxCanopy : R;
  Senescence : R
}.

Record InitCondClass := {
  DAP : Z;
  DelayedCDs : Z;
  GDDcum : R;
  DelayedGDDs : R;
  GrowthStage : Z
}.

Definition set_GrowthStage (v : Z) (c : InitCondClass) : InitCondClass :=
  {| DAP := DAP c; DelayedCDs := DelayedCDs c; GDDcum := GDDcum c;
     DelayedGDDs := DelayedGDDs c; GrowthStage := v |}.

(** Time adjusted for delayed growth; [tAdj] stays unbound for a calendar
    type other than 1 and 2. *)
Definition adjusted_time (Crop : CropClass) (NewCond : InitCondClass)
  : option R :=
  if (CalendarType Crop =? 1)%Z then
    ret (IZR (DAP NewCond - DelayedCDs NewCond))
  else if (CalendarType Crop =? 2)%Z then
    ret (GDDcum NewCond - DelayedGDDs NewCond)
  else None.

Definition growth_stage (Crop : CropClass) (InitCond : InitCondClass)
  (GrowingSeason : bool) : option InitCondClass :=
  let NewCond := InitCond in
  if GrowingSeason then
    tAdj <- adjusted_time Crop NewCond ;;
    if Rle_dec tAdj (Canopy10Pct Crop) then ret (set_GrowthStage 1 NewCond)
    else if Rle_dec tAdj (MaxCanopy Crop) then ret (set_GrowthStage 2 NewCond)
    else if Rle_dec tAdj (Senescence Crop) then ret (set_GrowthStage 3 NewCond)
    else if Rgt_dec tAdj (Senescence Crop) then ret (set_GrowthStage 4 NewCond)
    else ret NewCond
  else ret (set_GrowthStage 0 NewCond).

End Stage.

(** ** Germination *)

(** Python's [round(x, 3)] in exact arithmetic. *)
Definition round3 (x : R) : R := IZR (round_half_even (x * 1000)) / 1000.

Module Germ.

(** The fields read or written by [germination]. *)
Record InitCondClass := {
  th : list R;
  Germination : bool;
  ProtectedSeed : bool;
  DelayedCDs : Z;
  DelayedGDDs : R
}.

Definition set_Germination (v : bool) (c : InitCondClass) : InitCondClass :=
  {| th := th c; Germination := v; ProtectedSeed := ProtectedSeed c;
     DelayedCDs := DelayedCDs c; DelayedGDDs := DelayedGDDs c |}.

Definition set_ProtectedSeed (v : bool) (c : InitCondClass) : InitCondClass :=
  {| th := th c; Germination := Germination c; ProtectedSeed := v;
     DelayedCDs := DelayedCDs c; DelayedGDDs := DelayedGDDs c |}.

Definition set_DelayedCDs (v : Z) (c : InitCondClass) : InitCondClass :=
  {| th := th c; Germination := Germination c;
     ProtectedSeed := ProtectedSeed c; DelayedCDs := v;
     DelayedGDDs := DelayedGDDs c |}.

Definition set_DelayedGDDs (v : R) (c : InitCondClass) : InitCondClass :=
  {| th := th c; Germination := Germination c;
     ProtectedSeed := ProtectedSeed c; DelayedCDs := DelayedCDs c;
     DelayedGDDs := v |}.

(** Body of the loop: the accumulators are [(Wr, WrFC, WrWP)]. *)
Definition germination_step (prof : SoilProfileClass) (Soil_zGerm : R)
  (InitCond_th : list R) (ii : nat) (w : R * R * R) : option (R * R * R) :=
  let '(Wr, WrFC, WrWP) := w in
  factor <- cover_factor prof Soil_zGerm ii ;;
  th_ii <- nth_error InitCond_th ii ;;
  dz_ii <- nth_error (dz prof) ii ;;
  th_fc_ii <- nth_error (th_fc prof) ii ;;
  th_wp_ii <- nth_error (th_wp prof) ii ;;
  ret (Wr + round3 (factor * 1000 * th_ii * dz_ii),
       WrFC + round3 (factor * 1000 * th_fc_ii * dz_ii),
       WrWP + round3 (factor * 1000 * th_wp_ii * dz_ii)).

(** Proportional water content of the germination layer. *)
Definition germination_water (InitCond : InitCondClass) (Soil_zGerm : R)
  (prof : SoilProfileClass) : option R :=
  comp_sto <- argwhere_ge_first (dzsum prof) Soil_zGerm ;;
  '(Wr, WrFC, WrWP) <-
    for_range (comp_sto + 1)
      (germination_step prof Soil_zGerm (th InitCond)) (0, 0, 0) ;;
  let Wr := if Rlt_dec Wr 0 then 0 else Wr in
  q <- fdiv (WrFC - Wr) (WrFC - WrWP) ;;
  ret (1 - q).

Definition germination (InitCond : InitCondClass) (Soil_zGerm : R)
  (prof : SoilProfileClass) (Crop_GermThr : R) (Crop_PlantMethod : bool)
  (GDD : R) (GrowingSeason : bool) : option InitCondClass :=
  let NewCond := InitCond in
  if GrowingSeason then
    WcProp <- germination_water InitCond Soil_zGerm prof ;;
    let NewCond :=
      if Rge_b WcProp Crop_GermThr && negb (Germination NewCond) then
        let NewCond := set_Germination true NewCond in
        if Crop_PlantMethod then set_ProtectedSeed true NewCond
        else set_ProtectedSeed false NewCond
      else NewCond in
    let NewCond :=
      if negb (Germination NewCond) then
        let NewCond := set_DelayedCDs (DelayedCDs InitCond + 1) NewCond in
        let NewCond :=
          set_DelayedGDDs (DelayedGDDs InitCond + GDD) NewCond in
        set_ProtectedSeed false NewCond
      else NewCond in
    ret NewCond
  else
    let NewCond := set_Germination false NewCond in
    let NewCond := set_ProtectedSeed false NewCond in
    let NewCond := set_DelayedCDs 0 NewCond in
    let NewCond := set_DelayedGDDs 0 NewCond in
    ret NewCond.

End Germ.

(** ** Reference harvest index *)

Module ReferenceHI.

(** The fields read or written by [HIref_current_day]. *)
Record CropClass := {
  HIstartCD : Z;
  CCmin : R;
  CCx : R;
  CropType : Z;
  HIini : R;
  HI0 : R;
  HIGC : R;
  tLinSwitch : R;
  dHILinear : R
}.

Record InitCondClass := {
  DAP : Z;
  DelayedCDs : Z;
  CCprev : R;
  HIref : R;
  YieldForm : bool;
  PctLagPhase : R
}.

Definition set_HIref (v : R) (c : InitCondClass) : InitCondClass :=
  {| DAP := DAP c; DelayedCDs := DelayedCDs c; CCprev := CCprev c;
     HIref := v; YieldForm := YieldForm c; PctLagPhase := PctLagPhase c |}.

Definition set_YieldForm (v : bool) (c : InitCondClass) : InitCondClass :=
  {| DAP := DAP c; DelayedCDs := DelayedCDs c; CCprev := CCprev c;
     HIref := HIref c; YieldForm := v; PctLagPhase := PctLagPhase c |}.

Definition set_PctLagPhase (v : R) (c : InitCondClass) : InitCondClass :=
  {| DAP := DAP c; DelayedCDs := DelayedCDs c; CCprev := CCprev c;
     HIref := HIref c; YieldForm := YieldForm c; PctLagPhase := v |}.

(** Logistic build-up of the harvest index after [t] days. *)
Definition logistic_HI (Crop : CropClass) (t : R) : option R :=
  fdiv (HIini Crop * HI0 Crop)
    (HIini Crop + (HI0 Crop - HIini Crop) * exp (- HIGC Crop * t)).

(** The build-up by crop type, before the limits. *)
Definition HIref_build_up (Crop : CropClass) (NewCond : InitCondClass)
  (HIt : Z) : option InitCondClass :=
  if (CropType Crop =? 1)%Z || (CropType Crop =? 2)%Z then
    let NewCond := set_PctLagPhase 100 NewCond in
    h <- logistic_HI Crop (IZR HIt) ;;
    let NewCond := set_HIref h NewCond in
    ret (if Rge_dec (HIref NewCond) (0.9799 * HI0 Crop)
         then set_HIref (HI0 Crop) NewCond else NewCond)
  else if (CropType Crop =? 3)%Z then
    if Rlt_dec (IZR HIt) (tLinSwitch Crop) then
      q <- fdiv (IZR HIt) (tLinSwitch Crop) ;;
      let NewCond := set_PctLagPhase (100 * q) NewCond in
      h <- logistic_HI Crop (IZR HIt) ;;
      ret (set_HIref h NewCond)
    else
      let NewCond := set_PctLagPhase 100 NewCond in
      h <- logistic_HI Crop (tLinSwitch Crop) ;;
      let NewCond := set_HIref h NewCond in
      ret (set_HIref
             (HIref NewCond
              + (dHILinear Crop * (IZR HIt - tLinSwitch Crop))) NewCond)
  else ret NewCond.

(** "Limit HIref & round off computed value". *)
Definition HIref_limit (Crop : CropClass) (NewCond : InitCondClass)
  : InitCondClass :=
  if Rgt_dec (HIref NewCond) (HI0 Crop) then set_HIref (HI0 Crop) NewCond
  else if Rle_dec (HIref NewCond) (HIini Crop + 0.004) then
    set_HIref 0 NewCond
  else if Rlt_dec (HI0 Crop - HIref NewCond) 0.004 then
    set_HIref (HI0 Crop) NewCond
  else NewCond.

Definition HIref_current_day (InitCond : InitCondClass) (Crop : CropClass)
  (GrowingSeason : bool) : option InitCondClass :=
  let NewCond := InitCond in
  let InitCond_HIref := HIref InitCond in
  if GrowingSeason then
    let tAdj := (DAP NewCond - DelayedCDs NewCond)%Z in
    let NewCond :=
      if (tAdj >? HIstartCD Crop)%Z then set_YieldForm true NewCond
      else set_YieldForm false NewCond in
    let HIt :=
      (DAP NewCond - DelayedCDs NewCond - HIstartCD Crop - 1)%Z in
    if (HIt <=? 0)%Z then
      let NewCond := set_HIref 0 NewCond in
      ret (set_PctLagPhase 0 NewCond)
    else if Rle_dec (CCprev NewCond) (CCmin Crop * CCx Crop) then
      ret (set_HIref InitCond_HIref NewCond)
    else
      NewCond <- HIref_build_up Crop NewCond HIt ;;
      ret (HIref_limit Crop NewCond)
  else ret (set_HIref 0 NewCond).

End ReferenceHI.

(** ** Rainfall partition *)

(** Python's [round(x)]: the nearest integer, ties to even. *)
Definition round0 (x : R) : R := IZR (round_half_even x).

(** [a[a >= x].shape[0]]: how many entries are at least [x]. *)
Fixpoint count_ge (a : list R) (x : R) : nat :=
  match a with
  | [] => 0%nat
  | y :: a' => ((if Rge_dec y x then 1 else 0) + count_ge a' x)%nat
  end.

Module Runoff.

(** The fields read or written by [rainfall_partition]. *)
Record FieldMngtStruct := {
  SRinhb : bool;
  Bunds : bool;
  zBund : R;
  CNadjPct : R
}.

Record InitCondClass := {
  th : list R;
  DaySubmerged : Z
}.

Definition set_DaySubmerged (v : Z) (c : InitCondClass) : InitCondClass :=
  {| th := th c; DaySubmerged := v |}.

(** The profile with its cumulative depths replaced: the weighting loop
    stores into [prof.dzsum]. *)
Definition set_dzsum (v : list R) (prof : SoilProfileClass)
  : SoilProfileClass :=
  {| dz := dz prof; dzsum := v; th_s := th_s prof; th_fc := th_fc prof;
     th_wp := th_wp prof; th_dry := th_dry prof |}.

(** Body of the weighting loop; the state is
    [(prof.dzsum, xx, wrel)]. *)
Definition weighting_step (Soil_zCN : R) (ii : nat)
  (s : list R * R * list R) : option (list R * R * list R) :=
  let '(dzsum_, xx, wrel) := s in
  dzsum_ii <- nth_error dzsum_ ii ;;
  dzsum_ <-
    (if Rgt_dec dzsum_ii Soil_zCN then setitem dzsum_ ii Soil_zCN
     else ret dzsum_) ;;
  dzsum_ii <- nth_error dzsum_ ii ;;
  q <- fdiv dzsum_ii Soil_zCN ;;
  let wx := 1.016 * (1 - exp (-4.16 * q)) in
  let w := wx - xx in
  let w := if Rlt_dec w 0 then 0 else if Rgt_dec w 1 then 1 else w in
  wrel <- setitem wrel ii w ;;
  ret (dzsum_, wx, wrel).

(** Body of the wetness loop; the state is [wet_top]. *)
Definition wetness_step (prof : SoilProfileClass) (InitCond_th : list R)
  (wrel : list R) (ii : nat) (wet_top : R) : option R :=
  th_wp_ii <- nth_error (th_wp prof) ii ;;
  th_ii <- nth_error InitCond_th ii ;;
  let th_ := pymax th_wp_ii th_ii in
  wrel_ii <- nth_error wrel ii ;;
  th_fc_ii <- nth_error (th_fc prof) ii ;;
  q <- fdiv (th_ - th_wp_ii) (th_fc_ii - th_wp_ii) ;;
  ret (wet_top + (wrel_ii * q)).

(** "Calculate upper & lowe curve number bounds". *)
Definition CNbot (CN : R) : R :=
  round0 (1.4 * (exp (-14 * ln 10)) + (0.507 * CN)
          - (0.00374 * CN ^ 2) + (0.0000867 * CN ^ 3)).

Definition CNtop (CN : R) : R :=
  round0 (5.6 * (exp (-14 * ln 10)) + (2.33 * CN)
          - (0.0209 * CN ^ 2) + (0.000076 * CN ^ 3)).

(** The curve number used for the partition, with the profile as the
    weighting loop leaves it. *)
Definition curve_number (InitCond : InitCondClass)
  (FieldMngt : FieldMngtStruct) (Soil_CN : R) (Soil_AdjCN : Z)
  (Soil_zCN : R) (Soil_nComp : Z) (prof : SoilProfileClass)
  : option (R * SoilProfileClass) :=
  let CN := Soil_CN * (1 + (CNadjPct FieldMngt / 100)) in
  if (Soil_AdjCN =? 1)%Z then
    let CNbot := CNbot CN in
    let CNtop := CNtop CN in
    let n := Z.of_nat (count_ge (dzsum prof) Soil_zCN) in
    let comp_sto := if (n =? 0)%Z then Soil_nComp else (Soil_nComp - n)%Z in
    _ <- assert (0 <=? comp_sto)%Z ;;
    let comp_sto := Z.to_nat comp_sto in
    '(dzsum_, xx, wrel) <-
      for_range comp_sto (weighting_step Soil_zCN)
        (dzsum prof, 0, repeat 0 comp_sto) ;;
    let prof := set_dzsum dzsum_ prof in
    wet_top <-
      for_range comp_sto (wetness_step prof (th InitCond) wrel) 0 ;;
    let wet_top :=
      if Rgt_dec wet_top 1 then 1
      else if Rlt_dec wet_top 0 then 0 else wet_top in
    ret (round0 (CNbot + (CNtop - CNbot) * wet_top), prof)
  else ret (CN, prof).

(** "Partition rainfall into runoff & infiltration (mm)". *)
Definition partition (P CN : R) : option (R * R) :=
  q <- fdiv 25400 CN ;;
  let S := q - 254 in
  let term := P - ((5 / 100) * S) in
  if Rle_dec term 0 then ret (0, P)
  else
    Runoff <- fdiv (term ^ 2) (P + (1 - (5 / 100)) * S) ;;
    ret (Runoff, P - Runoff).

(** Surface runoff is generated: not inhibited, and no bunds (or bunds
    lower than 1 mm). *)
Definition runoff_enabled (FieldMngt : FieldMngtStruct) : bool :=
  negb (SRinhb FieldMngt)
  && (negb (Bunds FieldMngt) || Rlt_b (zBund FieldMngt) 0.001).

(** The profile is returned with the condition: the source stores into
    [prof.dzsum] in place. *)
Definition rainfall_partition (P : R) (InitCond : InitCondClass)
  (FieldMngt : FieldMngtStruct) (Soil_CN : R) (Soil_AdjCN : Z)
  (Soil_zCN : R) (Soil_nComp : Z) (prof : SoilProfileClass)
  : option (R * R * InitCondClass * SoilProfileClass) :=
  let NewCond := InitCond in
  if runoff_enabled FieldMngt then
    let NewCond := set_DaySubmerged 0 NewCond in
    '(CN, prof) <-
      curve_number InitCond FieldMngt Soil_CN Soil_AdjCN Soil_zCN
        Soil_nComp prof ;;
    '(Runoff, Infl) <- partition P CN ;;
    ret (Runoff, Infl, NewCond, prof)
  else ret (0, P, NewCond, prof).

End Runoff.

(** ** Pre-irrigation and groundwater inflow *)

(** Python's [range(a, b)] as a loop with state; empty when [b <= a]. *)
Definition for_range_from {St : Type} (a b : nat)
  (body : nat -> St -> option St) (s : St) : option St :=
  fold_left (fun acc ii => s' <- acc ;; body ii s') (seq a (b - a)) (Some s).

(** Water held by the compartments, in mm: [1000 * th * dz] summed over
    the compartments that have both a thickness and a water content. *)
Fixpoint profile_water (dz th : list R) : R :=
  match dz, th with
  | d :: dz', t :: th' => 1000 * t * d + profile_water dz' th'
  | _, _ => 0
  end.

(** The running total [acc] after the water that compartment [ii] has
    gained between the water contents [th0] and [th'] is added to it, in
    mm and with the operations in the order in which the loops of
    [pre_irrigation] and [groundwater_inflow] apply them. *)
Definition add_water_gained (dz th0 th' : list R) (acc : R) (ii : nat) : R :=
  match nth_error th' ii, nth_error th0 ii, nth_error dz ii with
  | Some t', Some t, Some d => acc + (t' - t) * 1000 * d
  | _, _, _ => acc
  end.

Module PreIrrigation.

(** The fields read or written by [pre_irrigation]. *)
Record IrrMngtStruct := {
  IrrMethod : Z;
  NetIrrSMT : R
}.

Record InitCondClass := {
  Zroot : R;
  DAP : Z;
  th : list R
}.

Definition set_th (v : list R) (c : InitCondClass) : InitCondClass :=
  {| Zroot := Zroot c; DAP := DAP c; th := v |}.

(** "Determine critical water content threshold". *)
Definition thCrit (prof : SoilProfileClass) (IrrMngt : IrrMngtStruct)
  (ii : nat) : option R :=
  th_wp_ii <- nth_error (th_wp prof) ii ;;
  th_fc_ii <- nth_error (th_fc prof) ii ;;
  ret (th_wp_ii + ((NetIrrSMT IrrMngt / 100) * (th_fc_ii - th_wp_ii))).

(** Body of the loop over the compartments; the state is
    [(NewCond.th, PreIrr)]. *)
Definition pre_irrigation_step (prof : SoilProfileClass)
  (IrrMngt : IrrMngtStruct) (ii : nat) (s : list R * R)
  : option (list R * R) :=
  let '(th_, PreIrr) := s in
  thCrit <- thCrit prof IrrMngt ii ;;
  th_ii <- nth_error th_ ii ;;
  if Rlt_dec th_ii thCrit then
    dz_ii <- nth_error (dz prof) ii ;;
    let PreIrr := PreIrr + ((thCrit - th_ii) * 1000 * dz_ii) in
    th_ <- setitem th_ ii thCrit ;;
    ret (th_, PreIrr)
  else ret (th_, PreIrr).

Definition pre_irrigation (prof : SoilProfileClass) (Crop : CropClass)
  (InitCond : InitCondClass) (GrowingSeason : bool)
  (IrrMngt : IrrMngtStruct) : option (InitCondClass * R) :=
  let NewCond := InitCond in
  if GrowingSeason then
    if negb (IrrMethod IrrMngt =? 4)%Z || negb (DAP NewCond =? 1)%Z then
      ret (NewCond, 0)
    else
      let rootdepth := round2 (pymax (Zroot NewCond) (Zmin Crop)) in
      compRz <- argwhere_ge_first (dzsum prof) rootdepth ;;
      '(th_, PreIrr) <-
        for_range compRz (pre_irrigation_step prof IrrMngt)
          (th NewCond, 0) ;;
      ret (set_th th_ NewCond, PreIrr)
  else ret (NewCond, 0).

End PreIrrigation.

Module Groundwater.

(** The fields read or written by [check_groundwater_table] and
    [groundwater_inflow]; the adjusted field capacity is stored in the
    condition and in the profile ([prof_th_fc_Adj] is the profile's
    [th_fc_Adj]). *)
Record SoilProfileClass := {
  Comp : list Z;
  dz : list R;
  zMid : list R;
  th_s : list R;
  th_fc : list R;
  prof_th_fc_Adj : list R
}.

Record InitCondClass := {
  WTinSoil : bool;
  zGW : R;
  th : list R;
  th_fc_Adj : list R
}.

Definition set_th (v : list R) (c : InitCondClass) : InitCondClass :=
  {| WTinSoil := WTinSoil c; zGW := zGW c; th := v;
     th_fc_Adj := th_fc_Adj c |}.

Definition set_zGW (v : R) (c : InitCondClass) : InitCondClass :=
  {| WTinSoil := WTinSoil c; zGW := v; th := th c;
     th_fc_Adj := th_fc_Adj c |}.

Definition set_WTinSoil (v : bool) (c : InitCondClass) : InitCondClass :=
  {| WTinSoil := v; zGW := zGW c; th := th c;
     th_fc_Adj := th_fc_Adj c |}.

Definition set_th_fc_Adj (v : list R) (c : InitCondClass) : InitCondClass :=
  {| WTinSoil := WTinSoil c; zGW := zGW c; th := th c; th_fc_Adj := v |}.

Definition set_prof_th_fc_Adj (v : list R) (prof : SoilProfileClass)
  : SoilProfileClass :=
  {| Comp := Comp prof; dz := dz prof; zMid := zMid prof;
     th_s := th_s prof; th_fc := th_fc prof; prof_th_fc_Adj := v |}.

(** Body of the loop over the compartments below the water table; the
    state is [(NewCond.th, GwIn)]. *)
Definition groundwater_inflow_step (prof : SoilProfileClass) (ii : nat)
  (s : list R * R) : option (list R * R) :=
  let '(th_, GwIn) := s in
  th_ii <- nth_error th_ ii ;;
  th_s_ii <- nth_error (th_s prof) ii ;;
  if Rlt_dec th_ii th_s_ii then
    let dth := th_s_ii - th_ii in
    th_ <- setitem th_ ii th_s_ii ;;
    dz_ii <- nth_error (dz prof) ii ;;
    ret (th_, GwIn + (dth * 1000 * dz_ii))
  else ret (th_, GwIn).

Definition groundwater_inflow (prof : SoilProfileClass)
  (NewCond : InitCondClass) : option (InitCondClass * R) :=
  let GwIn := 0 in
  if WTinSoil NewCond then
    let zGW_ := zGW NewCond in
    let zMid_ := zMid prof in
    idx <- argwhere_ge_first zMid_ zGW_ ;;
    '(th_, GwIn) <-
      for_range_from idx (List.length (Comp prof))
        (groundwater_inflow_step prof) (th NewCond, GwIn) ;;
    ret (set_th th_ NewCond, GwIn)
  else ret (NewCond, GwIn).

(** The capillary reach above the water table, from the field capacity
    of the compartment. *)
Definition Xmax_of (th_fc_compi : R) : R :=
  if Rle_dec th_fc_compi 0.1 then 1
  else if Rge_dec th_fc_compi 0.3 then 2
  else
    let pF := 2 + 0.3 * (th_fc_compi - 0.1) / 0.2 in
    (exp (pF * ln 10)) / 100.

(** [for ii in range(idx, len(prof.Comp)): NewCond.th[ii] = prof.th_s[ii]]. *)
Definition saturate_step (prof : SoilProfileClass) (ii : nat)
  (th_ : list R) : option (list R) :=
  th_s_ii <- nth_error (th_s prof) ii ;;
  setitem th_ ii th_s_ii.

(** [for ii in range(compi): thfcAdj[ii] = prof.th_fc[ii]]. *)
Definition copy_step (prof : SoilProfileClass) (ii : nat)
  (thfcAdj : list R) : option (list R) :=
  th_fc_ii <- nth_error (th_fc prof) ii ;;
  setitem thfcAdj ii th_fc_ii.

(** The adjusted field capacity of compartment [compi] where the water
    table is within reach. *)
Definition adjusted_capacity (prof : SoilProfileClass) (zGW_ : R)
  (compi : nat) (th_fc_compi Xmax : R) : option R :=
  th_s_compi <- nth_error (th_s prof) compi ;;
  if Rge_dec th_fc_compi th_s_compi then ret th_fc_compi
  else
    zMid_compi <- nth_error (zMid prof) compi ;;
    if Rge_dec zMid_compi zGW_ then ret th_s_compi
    else
      let dV := th_s_compi - th_fc_compi in
      q <- fdiv dV (Xmax * Xmax) ;;
      let dFC := q * ((zMid_compi - (zGW_ - Xmax)) ^ 2) in
      ret (th_fc_compi + dFC).

(** The loop [while compi >= 0], which walks up from the bottom
    compartment; the argument [k] is [compi + 1], and the assignment
    [compi = -1] ends the loop. *)
Fixpoint field_capacity_loop (prof : SoilProfileClass) (zGW_ : R)
  (k : nat) (thfcAdj : list R) : option (list R) :=
  match k with
  | O => ret thfcAdj
  | S compi =>
      th_fc_compi <- nth_error (th_fc prof) compi ;;
      let Xmax := Xmax_of th_fc_compi in
      out_of_reach <-
        (if Rlt_dec zGW_ 0 then ret true
         else
           zMid_compi <- nth_error (zMid prof) compi ;;
           ret (Rge_b (zGW_ - zMid_compi) Xmax)) ;;
      if (out_of_reach : bool) then
        for_range compi (copy_step prof) thfcAdj
      else
        v <- adjusted_capacity prof zGW_ compi th_fc_compi Xmax ;;
        thfcAdj <- setitem thfcAdj compi v ;;
        field_capacity_loop prof zGW_ compi thfcAdj
  end.

Definition check_groundwater_table (ClockStruct_TimeStepCounter : Z)
  (prof : SoilProfileClass) (NewCond : InitCondClass)
  (ParamStruct_WaterTable : Z) (zGW_ : R)
  : option (InitCondClass * SoilProfileClass) :=
  if (ParamStruct_WaterTable =? 1)%Z then
    let NewCond := set_zGW zGW_ NewCond in
    let zMid_ := zMid prof in
    let NewCond :=
      if Rge_dec (zGW NewCond) 0 then
        if (count_ge zMid_ (zGW NewCond) =? 0)%nat
        then set_WTinSoil false NewCond
        else set_WTinSoil true NewCond
      else NewCond in
    NewCond <-
      (if WTinSoil NewCond then
         idx <- argwhere_ge_first zMid_ (zGW NewCond) ;;
         th_ <- for_range_from idx (List.length (Comp prof))
                  (saturate_step prof) (th NewCond) ;;
         ret (set_th th_ NewCond)
       else ret NewCond) ;;
    let n := List.length (Comp prof) in
    thfcAdj <- field_capacity_loop prof (zGW NewCond) n (repeat 0 n) ;;
    ret (set_th_fc_Adj thfcAdj NewCond, set_prof_th_fc_Adj thfcAdj prof)
  else ret (NewCond, prof).

End Groundwater.

(** ** Drainage *)

Module Drainage.

(** The fields of the profile read by [drainage]. *)
Record SoilProfileClass := {
  th_fc : list R;
  th_s : list R;
  tau : list R;
  dz : list R;
  dzsum : list R;
  Ksat : list R
}.

(** "Calculate drainage ability": the block the source repeats for the
    water contents [th_init[ii]], [thX] and [thnew[ii]]. *)
Definition drainage_ability (th_ fcAdj cth_s cth_fc ctau : R) : option R :=
  if Rle_dec th_ fcAdj then ret 0
  else if Rge_dec th_ cth_s then
    let dthdt := ctau * (cth_s - cth_fc) in
    if Rlt_dec (th_ - dthdt) fcAdj then ret (th_ - fcAdj) else ret dthdt
  else
    q <- fdiv (exp (th_ - cth_fc) - 1) (exp (cth_s - cth_fc) - 1) ;;
    let dthdt := ctau * (cth_s - cth_fc) * q in
    if Rlt_dec (th_ - dthdt) fcAdj then ret (th_ - fcAdj) else ret dthdt.

(** "Restrict cumulative drainage to saturated hydraulic conductivity &
    adjust excess drainage flow"; the result is [(drainsum, excess)]. *)
Definition restrict (drainsum excess cKsat : R) : R * R :=
  if Rgt_dec drainsum cKsat then (cKsat, excess + drainsum - cKsat)
  else (drainsum, excess).

(** "Calculate value of theta (thX) needed to provide a drainage ability
    equal to cumulative drainage". *)
Definition theta_x (dthdt fcAdj cth_s cth_fc ctau : R) : option R :=
  if Rle_dec dthdt 0 then ret fcAdj
  else if Rgt_dec ctau 0 then
    q <- fdiv (dthdt * (exp (cth_s - cth_fc) - 1)) (ctau * (cth_s - cth_fc)) ;;
    let A := 1 + q in
    l <- flog A ;;
    let thX := cth_fc + l in
    if Rlt_dec thX fcAdj then ret fcAdj else ret thX
  else ret (cth_s + 0.01).

(** One compartment: from its water content [th_ii] and the cumulative
    drainage [drainsum] arriving from above to
    [(thnew[ii], drainsum, excess)].  On real numbers the source's
    [elif drainability == False], [elif thX > cth_s] and
    [elif thnew[ii] > cth_s] are the negations of the tests before
    them. *)
Definition drain_compartment (cth_fc cth_s ctau cdz cdzsum cKsat : R)
  (th_ii fcAdj drainsum : R) : option (R * R * R) :=
  dthdt <- drainage_ability th_ii fcAdj cth_s cth_fc ctau ;;
  let draincomp := dthdt * cdz * 1000 in
  let excess := 0 in
  let prethick := cdzsum - cdz in
  let drainmax := dthdt * 1000 * prethick in
  if Rle_dec drainsum drainmax then
    let thnew_ii := th_ii - dthdt in
    let drainsum := drainsum + draincomp in
    let '(drainsum, excess) := restrict drainsum excess cKsat in
    ret (thnew_ii, drainsum, excess)
  else
    dthdt <- fdiv drainsum (1000 * prethick) ;;
    thX <- theta_x dthdt fcAdj cth_s cth_fc ctau ;;
    if Rle_dec thX cth_s then
      q <- fdiv drainsum (1000 * cdz) ;;
      let thnew_ii := th_ii + q in
      if Rgt_dec thnew_ii thX then
        let drainsum := (thnew_ii - thX) * 1000 * cdz in
        dthdt <- drainage_ability thX fcAdj cth_s cth_fc ctau ;;
        let drainsum := drainsum + (dthdt * 1000 * cdz) in
        let '(drainsum, excess) := restrict drainsum excess cKsat in
        ret (thX - dthdt, drainsum, excess)
      else if Rgt_dec thnew_ii fcAdj then
        dthdt <- drainage_ability thnew_ii fcAdj cth_s cth_fc ctau ;;
        let thnew_ii := thnew_ii - dthdt in
        let drainsum := dthdt * 1000 * cdz in
        let '(drainsum, excess) := restrict drainsum excess cKsat in
        ret (thnew_ii, drainsum, excess)
      else ret (thnew_ii, 0, excess)
    else
      q <- fdiv drainsum (1000 * cdz) ;;
      let thnew_ii := th_ii + q in
      if Rle_dec thnew_ii cth_s then
        if Rgt_dec thnew_ii fcAdj then
          dthdt <- drainage_ability thnew_ii fcAdj cth_s cth_fc ctau ;;
          let thnew_ii := thnew_ii - dthdt in
          let drainsum := dthdt * 1000 * cdz in
          let '(drainsum, excess) := restrict drainsum excess cKsat in
          ret (thnew_ii, drainsum, excess)
        else ret (thnew_ii, 0, excess)
      else
        let excess := (thnew_ii - cth_s) * 1000 * cdz in
        dthdt <- drainage_ability thnew_ii fcAdj cth_s cth_fc ctau ;;
        let thnew_ii := cth_s - dthdt in
        let draincomp := dthdt * 1000 * cdz in
        let drainmax := dthdt * 1000 * prethick in
        let drainmax := if Rgt_dec drainmax excess then excess else drainmax in
        let excess := excess - drainmax in
        let drainsum := draincomp + drainmax in
        let '(drainsum, excess) := restrict drainsum excess cKsat in
        ret (thnew_ii, drainsum, excess).

(** "Redistribute excess in compartment above": the loop
    [while (excess > 0) & (precomp != 0)]; the argument [k] is
    [precomp] before it is decremented. *)
Fixpoint redistribute (prof : SoilProfileClass) (ii k : nat) (excess : R)
  (thnew FluxOut : list R) : option (list R * list R) :=
  match k with
  | O => ret (thnew, FluxOut)
  | S precomp =>
      if Rgt_dec excess 0 then
        FluxOut <-
          (if (precomp <? ii)%nat then
             f <- nth_error FluxOut precomp ;;
             setitem FluxOut precomp (f - excess)
           else ret FluxOut) ;;
        t <- nth_error thnew precomp ;;
        dz_p <- nth_error (dz prof) precomp ;;
        q <- fdiv excess (1000 * dz_p) ;;
        let t := t + q in
        thnew <- setitem thnew precomp t ;;
        th_s_p <- nth_error (th_s prof) precomp ;;
        if Rgt_dec t th_s_p then
          let excess := (t - th_s_p) * 1000 * dz_p in
          thnew <- setitem thnew precomp th_s_p ;;
          redistribute prof ii precomp excess thnew FluxOut
        else
          redistribute prof ii precomp 0 thnew FluxOut
      else ret (thnew, FluxOut)
  end.

(** Body of the loop over the compartments; the state is
    [(thnew, FluxOut, drainsum)]. *)
Definition drainage_step (prof : SoilProfileClass)
  (th_init th_fc_Adj_init : list R) (ii : nat)
  (s : list R * list R * R) : option (list R * list R * R) :=
  let '(thnew, FluxOut, drainsum) := s in
  cth_fc <- nth_error (th_fc prof) ii ;;
  cth_s <- nth_error (th_s prof) ii ;;
  ctau <- nth_error (tau prof) ii ;;
  cdz <- nth_error (dz prof) ii ;;
  cdzsum <- nth_error (dzsum prof) ii ;;
  cKsat <- nth_error (Ksat prof) ii ;;
  th_ii <- nth_error th_init ii ;;
  fcAdj <- nth_error th_fc_Adj_init ii ;;
  '(thnew_ii, drainsum, excess) <-
    drain_compartment cth_fc cth_s ctau cdz cdzsum cKsat th_ii fcAdj
      drainsum ;;
  thnew <- setitem thnew ii thnew_ii ;;
  FluxOut <- setitem FluxOut ii drainsum ;;
  '(thnew, FluxOut) <-
    (if Rgt_dec excess 0
     then redistribute prof ii (ii + 1) excess thnew FluxOut
     else ret (thnew, FluxOut)) ;;
  ret (thnew, FluxOut, drainsum).

(** The result is [(thnew, DeepPerc, FluxOut)]. *)
Definition drainage (prof : SoilProfileClass)
  (th_init th_fc_Adj_init : list R) : option (list R * R * list R) :=
  let n := List.length th_init in
  '(thnew, FluxOut, drainsum) <-
    for_range n (drainage_step prof th_init th_fc_Adj_init)
      (repeat 0 n, repeat 0 n, 0) ;;
  let DeepPerc := drainsum in
  ret (thnew, DeepPerc, FluxOut).

End Drainage.

(** ** Infiltration *)

Module Infiltration.

(** The fields read or written by [infiltration]. *)
Record SoilProfileClass := {
  Ksat : list R;
  tau : list R;
  th_s : list R;
  th_fc : list R;
  dz : list R
}.

Record InitCondClass := {
  SurfaceStorage : R;
  th_fc_Adj : list R;
  th : list R
}.

Record FieldMngtStruct := {
  Bunds : bool;
  zBund : R
}.

Definition set_SurfaceStorage (v : R) (c : InitCondClass) : InitCondClass :=
  {| SurfaceStorage := v; th_fc_Adj := th_fc_Adj c; th := th c |}.

Definition set_th (v : list R) (c : InitCondClass) : InitCondClass :=
  {| SurfaceStorage := SurfaceStorage c; th_fc_Adj := th_fc_Adj c; th := v |}.

(** "Determine surface storage (if bunds are present)"; the result is
    [(ToStore, RunoffIni, NewCond)].  With bunds of at most 1 mm neither
    [ToStore] nor [RunoffIni] is bound, and the test [ToStore > 0] that
    follows fails. *)
Definition surface_storage (prof : SoilProfileClass)
  (NewCond : InitCondClass) (Infl : R) (FieldMngt : FieldMngtStruct)
  (InitCond_SurfaceStorage : R) : option (R * R * InitCondClass) :=
  if Bunds FieldMngt then
    if Rgt_dec (zBund FieldMngt) 0.001 then
      let InflTot := Infl + SurfaceStorage NewCond in
      if Rgt_dec InflTot 0 then
        Ksat_0 <- nth_error (Ksat prof) 0 ;;
        let '(ToStore, NewCond) :=
          if Rgt_dec InflTot Ksat_0
          then (Ksat_0, set_SurfaceStorage (InflTot - Ksat_0) NewCond)
          else (InflTot, set_SurfaceStorage 0 NewCond) in
        if Rgt_dec (SurfaceStorage NewCond) (zBund FieldMngt * 1000) then
          let RunoffIni :=
            SurfaceStorage NewCond - (zBund FieldMngt * 1000) in
          ret (ToStore, RunoffIni,
               set_SurfaceStorage (zBund FieldMngt * 1000) NewCond)
        else ret (ToStore, 0, NewCond)
      else ret (0, 0, NewCond)
    else None
  else
    Ksat_0 <- nth_error (Ksat prof) 0 ;;
    let '(ToStore, RunoffIni) :=
      if Rgt_dec Infl Ksat_0 then (Ksat_0, Infl - Ksat_0) else (Infl, 0) in
    let NewCond := set_SurfaceStorage 0 NewCond in
    let RunoffIni := RunoffIni + InitCond_SurfaceStorage in
    ret (ToStore, RunoffIni, NewCond).

(** "Calculate water content, thX, needed to meet drainage dthdt0", and
    its limits; the result is [(theta0, dthdt0)]. *)
Definition theta_0 (InitCond_th_fc_Adj : list R) (ii : nat)
  (tau_ii th_s_ii th_fc_ii dthdtS dthdt0 : R) : option (R * R) :=
  if Rlt_dec dthdt0 dthdtS then
    theta0 <-
      (if Rle_dec dthdt0 0 then nth_error InitCond_th_fc_Adj ii
       else
         q <- fdiv (dthdt0 * (exp (th_s_ii - th_fc_ii) - 1))
                   (tau_ii * (th_s_ii - th_fc_ii)) ;;
         let A := 1 + q in
         l <- flog A ;;
         ret (th_fc_ii + l)) ;;
    if Rgt_dec theta0 th_s_ii then ret (th_s_ii, dthdt0)
    else
      fcAdj <- nth_error InitCond_th_fc_Adj ii ;;
      if Rle_dec theta0 fcAdj then ret (fcAdj, 0)
      else ret (theta0, dthdt0)
  else ret (th_s_ii, dthdtS).

(** One pass of the loop over the compartments, up to the point where
    the excess is known; the result is
    [(ToStore, excess, thnew, FluxOut)]. *)
Definition infiltrate_compartment (prof : SoilProfileClass)
  (InitCond_th InitCond_th_fc_Adj : list R) (ii : nat) (ToStore : R)
  (thnew FluxOut : list R) : option (R * R * list R * list R) :=
  tau_ii <- nth_error (tau prof) ii ;;
  th_s_ii <- nth_error (th_s prof) ii ;;
  th_fc_ii <- nth_error (th_fc prof) ii ;;
  let dthdtS := tau_ii * (th_s_ii - th_fc_ii) in
  Ksat_ii <- nth_error (Ksat prof) ii ;;
  dz_ii <- nth_error (dz prof) ii ;;
  factor <- fdiv Ksat_ii (dthdtS * 1000 * dz_ii) ;;
  dthdt0 <- fdiv ToStore (1000 * dz_ii) ;;
  '(theta0, dthdt0) <-
    theta_0 InitCond_th_fc_Adj ii tau_ii th_s_ii th_fc_ii dthdtS dthdt0 ;;
  let drainmax := factor * dthdt0 * 1000 * dz_ii in
  FluxOut_ii <- nth_error FluxOut ii ;;
  let drainage := drainmax + FluxOut_ii in
  let drainmax :=
    if Rgt_dec drainage Ksat_ii then Ksat_ii - FluxOut_ii else drainmax in
  th_ii <- nth_error InitCond_th ii ;;
  let diff := theta0 - th_ii in
  '(thnew, ToStore) <-
    (if Rgt_dec diff 0 then
       thnew_ii <- nth_error thnew ii ;;
       q <- fdiv ToStore (1000 * dz_ii) ;;
       let thnew_ii := thnew_ii + q in
       thnew <- setitem thnew ii thnew_ii ;;
       if Rgt_dec thnew_ii theta0 then
         let ToStore := (thnew_ii - theta0) * 1000 * dz_ii in
         thnew <- setitem thnew ii theta0 ;;
         ret (thnew, ToStore)
       else ret (thnew, 0)
     else ret (thnew, ToStore)) ;;
  FluxOut <- setitem FluxOut ii (FluxOut_ii + ToStore) ;;
  let excess := ToStore - drainmax in
  let excess := if Rlt_dec excess 0 then 0 else excess in
  let ToStore := ToStore - excess in
  ret (ToStore, excess, thnew, FluxOut).

(** "Redistribute excess to compartments above": the loop
    [while (excess > 0) & (precomp != 0)]; the argument [k] is [precomp]
    before it is decremented, and the excess left over is returned. *)
Fixpoint back_up (prof : SoilProfileClass) (k : nat) (excess : R)
  (thnew FluxOut : list R) : option (R * list R * list R) :=
  match k with
  | O => ret (excess, thnew, FluxOut)
  | S precomp =>
      if Rgt_dec excess 0 then
        f <- nth_error FluxOut precomp ;;
        FluxOut <- setitem FluxOut precomp (f - excess) ;;
        t <- nth_error thnew precomp ;;
        dz_p <- nth_error (dz prof) precomp ;;
        q <- fdiv excess (dz_p * 1000) ;;
        let t := t + q in
        thnew <- setitem thnew precomp t ;;
        th_s_p <- nth_error (th_s prof) precomp ;;
        if Rgt_dec t th_s_p then
          let excess := (t - th_s_p) * 1000 * dz_p in
          thnew <- setitem thnew precomp th_s_p ;;
          back_up prof precomp excess thnew FluxOut
        else back_up prof precomp 0 thnew FluxOut
      else ret (excess, thnew, FluxOut)
  end.

(** The loop [while (ToStore > 0) & (ii < Soil_nComp - 1)]; [k] counts
    the compartments that are left and [ii] is the compartment the next
    pass handles.  The result is [(ToStore, Runoff, thnew, FluxOut)]. *)
Fixpoint infiltrate_loop (prof : SoilProfileClass)
  (InitCond_th InitCond_th_fc_Adj : list R) (k ii : nat)
  (ToStore Runoff : R) (thnew FluxOut : list R)
  : option (R * R * list R * list R) :=
  match k with
  | O => ret (ToStore, Runoff, thnew, FluxOut)
  | S k' =>
      if Rgt_dec ToStore 0 then
        '(ToStore, excess, thnew, FluxOut) <-
          infiltrate_compartment prof InitCond_th InitCond_th_fc_Adj ii
            ToStore thnew FluxOut ;;
        '(Runoff, thnew, FluxOut) <-
          (if Rgt_dec excess 0 then
             '(excess, thnew, FluxOut) <-
               back_up prof (ii + 1) excess thnew FluxOut ;;
             let Runoff :=
               if Rgt_dec excess 0 then Runoff + excess else Runoff in
             ret (Runoff, thnew, FluxOut)
           else ret (Runoff, thnew, FluxOut)) ;;
        infiltrate_loop prof InitCond_th InitCond_th_fc_Adj k' (S ii)
          ToStore Runoff thnew FluxOut
      else ret (ToStore, Runoff, thnew, FluxOut)
  end.

(** "Update surface storage (if bunds are present)"; the result is
    [(Runoff, NewCond)]. *)
Definition pond_runoff (FieldMngt : FieldMngtStruct) (Runoff RunoffIni : R)
  (NewCond : InitCondClass) : R * InitCondClass :=
  if Rgt_dec Runoff RunoffIni then
    if Bunds FieldMngt then
      if Rgt_dec (zBund FieldMngt) 0.001 then
        let NewCond :=
          set_SurfaceStorage
            (SurfaceStorage NewCond + (Runoff - RunoffIni)) NewCond in
        if Rgt_dec (SurfaceStorage NewCond) (zBund FieldMngt * 1000) then
          (RunoffIni + (SurfaceStorage NewCond - (zBund FieldMngt * 1000)),
           set_SurfaceStorage (zBund FieldMngt * 1000) NewCond)
        else (RunoffIni, NewCond)
      else (Runoff, NewCond)
    else (Runoff, NewCond)
  else (Runoff, NewCond).

(** The result is [(NewCond, DeepPerc, RunoffTot, Infl, FluxOut)]. *)
Definition infiltration (prof : SoilProfileClass) (InitCond : InitCondClass)
  (Infl Irr IrrMngt_AppEff : R) (FieldMngt : FieldMngtStruct)
  (FluxOut : list R) (DeepPerc0 Runoff0 : R) (GrowingSeason : bool)
  : option (InitCondClass * R * R * R * list R) :=
  let NewCond := InitCond in
  let InitCond_SurfaceStorage := SurfaceStorage InitCond in
  let InitCond_th_fc_Adj := th_fc_Adj InitCond in
  let InitCond_th := th InitCond in
  let thnew := th NewCond in
  let Soil_nComp := List.length thnew in
  let Infl :=
    if GrowingSeason then Infl + (Irr * (IrrMngt_AppEff / 100)) else Infl in
  _ <- assert (Rge_b Infl 0) ;;
  '(ToStore, RunoffIni, NewCond) <-
    surface_storage prof NewCond Infl FieldMngt InitCond_SurfaceStorage ;;
  '(DeepPerc, Runoff, thnew, FluxOut) <-
    (if Rgt_dec ToStore 0 then
       infiltrate_loop prof InitCond_th InitCond_th_fc_Adj Soil_nComp 0
         ToStore 0 thnew FluxOut
     else ret (0, 0, thnew, FluxOut)) ;;
  let Runoff := Runoff + RunoffIni in
  let '(Runoff, NewCond) := pond_runoff FieldMngt Runoff RunoffIni NewCond in
  let NewCond := set_th thnew NewCond in
  let DeepPerc := DeepPerc + DeepPerc0 in
  let Infl := Infl - Runoff in
  let RunoffTot := Runoff + Runoff0 in
  ret (NewCond, DeepPerc, RunoffTot, Infl, FluxOut).

End Infiltration.

(** ** Water content of the evaporation layer *)

(** [np.sum(a < x)]: how many entries are below [x]. *)
Fixpoint count_lt (a : list R) (x : R) : nat :=
  match a with
  | [] => 0%nat
  | y :: a' => ((if Rlt_dec y x then 1 else 0) + count_lt a' x)%nat
  end.

(** [np.cumsum]: the cumulative depths of a profile are the running sums
    of its compartment thicknesses. *)
Fixpoint cumsum_from (acc : R) (l : list R) : list R :=
  match l with
  | [] => []
  | d :: l' => (acc + d) :: cumsum_from (acc + d) l'
  end.

Definition cumsum (l : list R) : list R := cumsum_from 0 l.

(** Body of the loop over the compartments of the evaporation layer; the
    state is [(Wevap_Sat, Wevap_Fc, Wevap_Wp, Wevap_Dry, Wevap_Act)]. *)
Definition evap_layer_step (InitCond_th : list R) (InitCond_EvapZ : R)
  (prof : SoilProfileClass) (ii : nat) (w : R * R * R * R * R)
  : option (R * R * R * R * R) :=
  let '(Wevap_Sat, Wevap_Fc, Wevap_Wp, Wevap_Dry, Wevap_Act) := w in
  factor <- cover_factor prof InitCond_EvapZ ii ;;
  th_ii <- nth_error InitCond_th ii ;;
  dz_ii <- nth_error (dz prof) ii ;;
  let Wevap_Act := Wevap_Act + factor * 1000 * th_ii * dz_ii in
  th_s_ii <- nth_error (th_s prof) ii ;;
  let Wevap_Sat := Wevap_Sat + factor * 1000 * th_s_ii * dz_ii in
  th_fc_ii <- nth_error (th_fc prof) ii ;;
  let Wevap_Fc := Wevap_Fc + factor * 1000 * th_fc_ii * dz_ii in
  th_wp_ii <- nth_error (th_wp prof) ii ;;
  let Wevap_Wp := Wevap_Wp + factor * 1000 * th_wp_ii * dz_ii in
  th_dry_ii <- nth_error (th_dry prof) ii ;;
  let Wevap_Dry := Wevap_Dry + factor * 1000 * th_dry_ii * dz_ii in
  ret (Wevap_Sat, Wevap_Fc, Wevap_Wp, Wevap_Dry, Wevap_Act).

Definition evap_layer_water_content (InitCond_th : list R)
  (InitCond_EvapZ : R) (prof : SoilProfileClass)
  : option (R * R * R * R * R) :=
  let comp_sto := (count_lt (dzsum prof) InitCond_EvapZ + 1)%nat in
  '(Wevap_Sat, Wevap_Fc, Wevap_Wp, Wevap_Dry, Wevap_Act) <-
    for_range comp_sto (evap_layer_step InitCond_th InitCond_EvapZ prof)
      (0, 0, 0, 0, 0) ;;
  let Wevap_Act := if Rlt_dec Wevap_Act 0 then 0 else Wevap_Act in
  ret (Wevap_Sat, Wevap_Fc, Wevap_Wp, Wevap_Dry, Wevap_Act).

(** ** Canopy development: adjusted maximum cover *)

Definition adjust_CCx (CCprev CCo CCx CGC CDC dt tSum Crop_CanopyDevEnd
  Crop_CCx : R) : option R :=
  tCCtmp <- cc_required_time CCprev CCo CCx CGC CDC "CGC" ;;
  if Rgt_dec tCCtmp 0 then
    let tCCtmp := tCCtmp + (Crop_CanopyDevEnd - tSum) + dt in
    cc_development CCo CCx CGC CDC tCCtmp "Growth" Crop_CCx
  else ret 0.

Definition update_CCx_CDC (CCprev CDC CCx dt : R) : option (R * R) :=
  r <- fdiv (CDC * 3.33) (CCx + 2.29) ;;
  CCXadj <- fdiv CCprev (1 - 0.05 * (exp (dt * r) - 1)) ;;
  q <- fdiv (CCXadj + 2.29) (CCx + 2.29) ;;
  let CDCadj := CDC * q in
  ret (CCXadj, CDCadj).

(** ** Example inputs *)

(** A maize-like crop; the thresholds are not adjusted for [Et0]. *)
Definition crop_maize : CropClass :=
  {| Zmin := 0.1; Aer := 5;
     p_up := [0.14; 0.69; 0.69; 0.8]; p_lo := [0.72; 1; 1; 1];
     fshape_w := [2.9; 6; 2.7]; ETadj := 0; Crop_beta := 12;
     CanopyDevEnd := 66; CropType := 3; HI0 := 0.48; dHI0 := 15;
     dHI_pre := 0; HIstartCD := 66; FloweringCD := 13;
     CanopyDevEndCD := 66; HIendCD := 120; YldFormCD := 61;
     CCmin := 0.05; exc := 50; a_HI := 7; b_HI := 3;
     PolHeatStress := 0; PolColdStress := 0;
     Tmax_lo := 40; Tmax_up := 45; Tmin_lo := 5; Tmin_up := 10;
     fshape_b := 13.8135 |}.

(** A one-compartment profile, 0.1 m thick. *)
Definition prof_one : SoilProfileClass :=
  {| dz := [0.1]; dzsum := [0.1]; th_s := [0.5]; th_fc := [0.3];
     th_wp := [0.15]; th_dry := [0.075] |}.

(** Day 30 of a season, before yield formation, canopy fully closed. *)
Definition cond_day30 : InitCondClass :=
  {| Zroot := 0.1; th := [0.25]; Tpot := 0; Epot := 0; Depletion := 0;
     TAW := 0; DAP := 30; DelayedCDs := 0; GrowthStage := 2;
     TimeStepCounter := 29; IrrCum := 40; tEarlySen := 0; CC := 1;
     CC_NS := 1; CCxAct_NS := 1; CCadj := 0; CCadj_NS := 0; HIref := 0;
     YieldForm := false; PreAdj := false; Fpol := 0; Fpre := 1;
     Fpost := 1; fpost_upp := 1; fpost_dwn := 1; sCor1 := 0; sCor2 := 0;
     HI := 0; HIadj := 0; B := 100; B_NS := 120 |}.

(** A saturated root zone: water content at saturation, aeration
    threshold five points below. *)
Definition thRZ_saturated : thRZClass :=
  {| thRZ_Act := 0.5; thRZ_S := 0.5; thRZ_FC := 0.3; thRZ_WP := 0.15;
     thRZ_Dry := 0.075; thRZ_Aer := 0.45 |}.

(** Irrigation with a fixed daily depth of 30 mm, at most 25 mm per
    application and 60 mm per season. *)
Definition irr_daily : IrrMngtStruct :=
  {| IrrMethod := 5; SMT := [70; 70; 70; 70]; AppEff := 100; MaxIrr := 25;
     IrrInterval := 3; Schedule := []; depth := 30; MaxIrrSeason := 60 |}.

(** ** What the water-stress claims say of one coefficient *)

(** Coefficient [K] is computed from stress type [ii]: its thresholds
    give the relative depletion [d], and [K] is the shape transform of
    [d]. *)
Definition curve_entry (Crop : CropClass) (Dr TAW : R) (p_up p_lo : list R)
  (ii : nat) (K : R) : Prop :=
  exists pu pl d k,
    nth_error p_up ii = Some pu /\ nth_error p_lo ii = Some pl /\
    relative_depletion Dr TAW pu pl = Some d /\
    nth_error (fshape_w Crop) ii = Some k /\
    stress_curve d k = Some K.

(** Coefficient [K] is one minus the relative depletion of stress type
    [ii]. *)
Definition linear_entry (Dr TAW : R) (p_up p_lo : list R) (ii : nat) (K : R)
  : Prop :=
  exists pu pl d,
    nth_error p_up ii = Some pu /\ nth_error p_lo ii = Some pl /\
    relative_depletion Dr TAW pu pl = Some d /\
    K = 1 - d.

(** A coefficient of stress type [ii] behaves well: the effective
    thresholds lie in [[0,1]], the coefficient lies in [[0,1]], it is one
    up to the upper threshold, and zero from the lower threshold on,
    provided the relative depletion is past the upper threshold. *)
Definition coefficient_ok (Dr TAW : R) (p_up p_lo : list R) (ii : nat) (K : R)
  : Prop :=
  exists pu pl,
    nth_error p_up ii = Some pu /\ nth_error p_lo ii = Some pl /\
    0 <= pu <= 1 /\ 0 <= pl <= 1 /\
    0 <= K <= 1 /\
    (Dr / TAW <= pu -> K = 1) /\
    (pl <= Dr / TAW -> pu < Dr / TAW -> K = 0).

(** A crop whose upper and lower thresholds coincide. *)
Definition crop_flat : CropClass :=
  {| Zmin := 0.1; Aer := 5;
     p_up := [0.5; 0.5; 0.5; 0.5]; p_lo := [0.5; 0.5; 0.5; 0.5];
     fshape_w := [2.9; 6; 2.7]; ETadj := 0; Crop_beta := 12;
     CanopyDevEnd := 66; CropType := 3; HI0 := 0.48; dHI0 := 15;
     dHI_pre := 0; HIstartCD := 66; FloweringCD := 13;
     CanopyDevEndCD := 66; HIendCD := 120; YldFormCD := 61;
     CCmin := 0.05; exc := 50; a_HI := 7; b_HI := 3;
     PolHeatStress := 0; PolColdStress := 0;
     Tmax_lo := 40; Tmax_up := 45; Tmin_lo := 5; Tmin_up := 10;
     fshape_b := 13.8135 |}.

(** The value of a freshly constructed [KstClass()]: no stress. *)
Definition kst_one : KstClass := {| Kst_PolH := 1; Kst_PolC := 1 |}.

(** Day 67 of a season, the first day of yield formation for
    [crop_maize] ([HIt = 0]), with the pre-anthesis adjustment already
    made; the reference harvest index and the pre-anthesis multiplier are
    left open. *)
Definition cond_day67 (HIref_ Fpre_ : R) : InitCondClass :=
  {| Zroot := 0.1; th := [0.25]; Tpot := 0; Epot := 0; Depletion := 0;
     TAW := 0; DAP := 67; DelayedCDs := 0; GrowthStage := 3;
     TimeStepCounter := 66; IrrCum := 40; tEarlySen := 0; CC := 0.9;
     CC_NS := 0.9; CCxAct_NS := 0.9; CCadj := 0; CCadj_NS := 0;
     HIref := HIref_; YieldForm := true; PreAdj := true; Fpol := 0.5;
     Fpre := Fpre_; Fpost := 1; fpost_upp := 1; fpost_dwn := 1; sCor1 := 0;
     sCor2 := 0; HI := 0; HIadj := 0; B := 100; B_NS := 120 |}.

(** A profile and a water-content array that fit together: all arrays
    have one entry per compartment and every compartment has a positive
    thickness. *)
Definition well_formed_profile (prof : SoilProfileClass) (InitCond_th : list R)
  : Prop :=
  List.length (dzsum prof) = List.length (dz prof) /\
  List.length (th_s prof) = List.length (dz prof) /\
  List.length (th_fc prof) = List.length (dz prof) /\
  List.length (th_wp prof) = List.length (dz prof) /\
  List.length (th_dry prof) = List.length (dz prof) /\
  List.length InitCond_th = List.length (dz prof) /\
  Forall (fun d => 0 < d) (dz prof).

(** Water-stress coefficients of an unstressed day. *)
Definition ksw_one : KswClass :=
  {| Ksw_Exp := 1; Ksw_Sto := 1; Ksw_Sen := 1; Ksw_Pol := 1;
     Ksw_StoLin := 1 |}.

(** A crop on a calendar-day clock: 10 % canopy on day 10, full canopy
    on day 50, senescence from day 90. *)
Definition stage_crop : Stage.CropClass :=
  {| Stage.CalendarType := 1; Stage.Canopy10Pct := 10;
     Stage.MaxCanopy := 50; Stage.Senescence := 90 |}.

Definition stage_cond (DAP_ : Z) : Stage.InitCondClass :=
  {| Stage.DAP := DAP_; Stage.DelayedCDs := 0; Stage.GDDcum := 0;
     Stage.DelayedGDDs := 0; Stage.GrowthStage := 0 |}.

(** A seed bed that has not germinated yet. *)
Definition germ_cond : Germ.InitCondClass :=
  {| Germ.th := [0.25]; Germ.Germination := false;
     Germ.ProtectedSeed := false; Germ.DelayedCDs := 2;
     Germ.DelayedGDDs := 20 |}.

Definition hiref_crop : ReferenceHI.CropClass :=
  {| ReferenceHI.HIstartCD := 66; ReferenceHI.CCmin := 0.05;
     ReferenceHI.CCx := 0.96; ReferenceHI.CropType := 3;
     ReferenceHI.HIini := 0.01; ReferenceHI.HI0 := 0.48;
     ReferenceHI.HIGC := 0.1; ReferenceHI.tLinSwitch := 20;
     ReferenceHI.dHILinear := 0.008 |}.

Definition hiref_cond : ReferenceHI.InitCondClass :=
  {| ReferenceHI.DAP := 30; ReferenceHI.DelayedCDs := 0;
     ReferenceHI.CCprev := 0.5; ReferenceHI.HIref := 0;
     ReferenceHI.YieldForm := false; ReferenceHI.PctLagPhase := 0 |}.

(** A field without bunds, and a condition for the runoff routine. *)
Definition field_open : Runoff.FieldMngtStruct :=
  {| Runoff.SRinhb := false; Runoff.Bunds := false; Runoff.zBund := 0;
     Runoff.CNadjPct := 0 |}.

Definition runoff_cond : Runoff.InitCondClass :=
  {| Runoff.th := [0.25]; Runoff.DaySubmerged := 3 |}.

(** Three compartments of 0.1 m; the second is moist, the others dry. *)
Definition prof_three : SoilProfileClass :=
  {| dz := [0.1; 0.1; 0.1]; dzsum := [0.1; 0.2; 0.3];
     th_s := [0.5; 0.5; 0.5]; th_fc := [0.3; 0.3; 0.3];
     th_wp := [0.15; 0.15; 0.15]; th_dry := [0.075; 0.075; 0.075] |}.

(** First day of a season in net-irrigation mode, roots at 0.25 m. *)
Definition preirr_cond : PreIrrigation.InitCondClass :=
  {| PreIrrigation.Zroot := 0.25; PreIrrigation.DAP := 1;
     PreIrrigation.th := [0.1; 0.3; 0.1] |}.

Definition irr_net : PreIrrigation.IrrMngtStruct :=
  {| PreIrrigation.IrrMethod := 4; PreIrrigation.NetIrrSMT := 80 |}.

(** The same three compartments with a water table at 0.12 m. *)
Definition gw_prof : Groundwater.SoilProfileClass :=
  {| Groundwater.Comp := [0; 1; 2]%Z; Groundwater.dz := [0.1; 0.1; 0.1];
     Groundwater.zMid := [0.05; 0.15; 0.25];
     Groundwater.th_s := [0.5; 0.5; 0.5];
     Groundwater.th_fc := [0.3; 0.3; 0.3];
     Groundwater.prof_th_fc_Adj := [0.3; 0.3; 0.3] |}.

Definition gw_cond : Groundwater.InitCondClass :=
  {| Groundwater.WTinSoil := true; Groundwater.zGW := 0.12;
     Groundwater.th := [0.2; 0.3; 0.5];
     Groundwater.th_fc_Adj := [0.3; 0.3; 0.3] |}.

(** No water table yet. *)
Definition gw_cond_none : Groundwater.InitCondClass :=
  {| Groundwater.WTinSoil := false; Groundwater.zGW := -1;
     Groundwater.th := [0.2; 0.3; 0.5];
     Groundwater.th_fc_Adj := [0.3; 0.3; 0.3] |}.

(** Two compartments of 0.1 m; the lower one does not drain on its
    own ([tau = 0]). *)
Definition drain_prof : Drainage.SoilProfileClass :=
  {| Drainage.th_fc := [0.3; 0.3]; Drainage.th_s := [0.5; 0.5];
     Drainage.tau := [0.5; 0]; Drainage.dz := [0.1; 0.1];
     Drainage.dzsum := [0.1; 0.2]; Drainage.Ksat := [500; 500] |}.

(** Two dry compartments of 0.1 m under a field without bunds. *)
Definition infl_prof : Infiltration.SoilProfileClass :=
  {| Infiltration.Ksat := [500; 500]; Infiltration.tau := [0.5; 0.5];
     Infiltration.th_s := [0.5; 0.5]; Infiltration.th_fc := [0.3; 0.3];
     Infiltration.dz := [0.1; 0.1] |}.

Definition infl_cond : Infiltration.InitCondClass :=
  {| Infiltration.SurfaceStorage := 0;
     Infiltration.th_fc_Adj := [0.3; 0.3];
     Infiltration.th := [0.2; 0.2] |}.

Definition field_flat : Infiltration.FieldMngtStruct :=
  {| Infiltration.Bunds := false; Infiltration.zBund := 0 |}.

(** A grain crop like [crop_maize] whose harvest index can rise by up
    to 25 % through water stress before flowering, more than the 15 %
    allowed in total. *)
Definition crop_grain : CropClass :=
  {| Zmin := 0.1; Aer := 5;
     p_up := [0.14; 0.69; 0.69; 0.8]; p_lo := [0.72; 1; 1; 1];
     fshape_w := [2.9; 6; 2.7]; ETadj := 0; Crop_beta := 12;
     CanopyDevEnd := 66; CropType := 3; HI0 := 0.48; dHI0 := 15;
     dHI_pre := 25; HIstartCD := 66; FloweringCD := 13;
     CanopyDevEndCD := 66; HIendCD := 120; YldFormCD := 61;
     CCmin := 0.05; exc := 50; a_HI := 7; b_HI := 3;
     PolHeatStress := 0; PolColdStress := 0;
     Tmax_lo := 40; Tmax_up := 45; Tmin_lo := 5; Tmin_up := 10;
     fshape_b := 13.8135 |}.

(** Day 120 of a season of [crop_grain], the 53rd day of yield
    formation ([HIt = 53]): flowering is over with full pollination, the
    reference harvest index has reached [HI0], the pre-anthesis
    multiplier is 1.2, the stomatal correction has accumulated without
    stress for 52 days, and the harvest index of the day before was
    0.47, adjusted to [1.15 * 0.47]. *)
Definition cond_day120 : InitCondClass :=
  {| Zroot := 0.1; th := [0.25]; Tpot := 0; Epot := 0; Depletion := 0;
     TAW := 0; DAP := 120; DelayedCDs := 0; GrowthStage := 4;
     TimeStepCounter := 119; IrrCum := 40; tEarlySen := 0; CC := 0.9;
     CC_NS := 0.9; CCxAct_NS := 0.9; CCadj := 0; CCadj_NS := 0;
     HIref := 0.48; YieldForm := true; PreAdj := true; Fpol := 1;
     Fpre := 1.2; Fpost := 1; fpost_upp := 1; fpost_dwn := 1; sCor1 := 0;
     sCor2 := 52 / 61; HI := 0.47; HIadj := 0.5405; B := 100;
     B_NS := 120 |}.

(** ** Basic facts about the primitives *)

Lemma pymin_Rmin (a b : R) : pymin a b = Rmin a b.
Proof.
  unfold pymin, Rmin.
  destruct (Rlt_dec b a), (Rle_dec a b); lra.
Qed.

Lemma pymax_Rmax (a b : R) : pymax a b = Rmax a b.
Proof.
  unfold pymax, Rmax.
  destruct (Rgt_dec b a), (Rle_dec a b); lra.
Qed.

Lemma pymin_spec (a b : R) :
  (b < a /\ pymin a b = b) \/ (a <= b /\ pymin a b = a).
Proof. unfold pymin. destruct (Rlt_dec b a); lra. Qed.

Lemma pymax_spec (a b : R) :
  (a < b /\ pymax a b = b) \/ (b <= a /\ pymax a b = a).
Proof. unfold pymax. destruct (Rgt_dec b a); lra. Qed.

Ltac minmax :=
  repeat match goal with
  | |- context [pymin ?a ?b] =>
      let H := fresh in
      destruct (pymin_spec a b) as [[? H]|[? H]]; rewrite H in *; clear H
  | |- context [pymax ?a ?b] =>
      let H := fresh in
      destruct (pymax_spec a b) as [[? H]|[? H]]; rewrite H in *; clear H
  end.

(** [field] with decimal literals read as fractions. *)
Ltac rfield := cbv [Q2R QArith_base.Qnum QArith_base.Qden]; field.

(** Settle the next comparison of the goal by [lra]. *)
Ltac decide_real :=
  match goal with
  | |- context [Rge_dec ?a ?b] =>
      destruct (Rge_dec a b); [try (exfalso; lra) | try (exfalso; lra)]
  | |- context [Rgt_dec ?a ?b] =>
      destruct (Rgt_dec a b); [try (exfalso; lra) | try (exfalso; lra)]
  | |- context [Rle_dec ?a ?b] =>
      destruct (Rle_dec a b); [try (exfalso; lra) | try (exfalso; lra)]
  | |- context [Rlt_dec ?a ?b] =>
      destruct (Rlt_dec a b); [try (exfalso; lra) | try (exfalso; lra)]
  end.

Ltac decide_zero :=
  match goal with
  | |- context [Req_dec_T ?a ?b] =>
      destruct (Req_dec_T a b); [try (exfalso; lra) | try (exfalso; lra)]
  end.

Lemma fdiv_Some (a b : R) : b <> 0 -> fdiv a b = Some (a / b).
Proof. unfold fdiv. destruct (Req_dec_T b 0); congruence. Qed.

Lemma fdiv_inv (a b q : R) : fdiv a b = Some q -> b <> 0 /\ q = a / b.
Proof. unfold fdiv. destruct (Req_dec_T b 0); intros [=]; auto. Qed.

Lemma flog_Some (x : R) : 0 < x -> flog x = Some (ln x).
Proof. unfold flog. destruct (Rlt_dec 0 x); tauto. Qed.

(** ** Growing degree days: bounds *)

(** Claim C10: for each of the three methods and [Tbase <= Tupp], the
    routine returns a value [GDD] with [0 <= GDD <= Tupp - Tbase], whatever
    the order of [Tmax] and [Tmin]. *)
Theorem growing_degree_day_bounds (GDDmethod : Z) (Tupp Tbase Tmax Tmin : R) :
  (GDDmethod = 1 \/ GDDmethod = 2 \/ GDDmethod = 3)%Z ->
  Tbase <= Tupp ->
  exists GDD,
    growing_degree_day GDDmethod Tupp Tbase Tmax Tmin = Some GDD /\
    0 <= GDD <= Tupp - Tbase.
Proof.
  intros [-> | [-> | ->]] Hb; unfold growing_degree_day, ret; simpl;
    eexists; (split; [reflexivity|]); minmax; lra.
Qed.

Lemma growing_degree_day_bounds_witness :
  exists GDD,
    growing_degree_day 3 30 8 25 5 = Some GDD /\ 0 <= GDD <= 30 - 8.
Proof.
  apply (growing_degree_day_bounds 3 30 8 25 5); [auto | lra].
Defined.

(** ** Inversion of the error monad *)

Lemma bind_inv {A B : Type} (c : option A) (k : A -> option B) (b : B) :
  bind c k = Some b -> exists a, c = Some a /\ k a = Some b.
Proof. destruct c as [a|]; simpl; [eauto | discriminate]. Qed.

Ltac inv_bind H :=
  let a := fresh "a" in
  let Ha := fresh "Ha" in
  apply bind_inv in H; destruct H as (a & Ha & H).

Tactic Notation "inv_bind_as" hyp(H) ident(a) ident(Ha) :=
  apply bind_inv in H; destruct H as (a & Ha & H).

(** ** Rounding to two decimals *)

Lemma round_half_even_IZR (z : Z) : round_half_even (IZR z) = z.
Proof.
  assert (Hi : Int_part (IZR z) = z) by
    (symmetry; apply Int_part_spec; lra).
  unfold round_half_even, frac_part. rewrite Hi.
  destruct (Rlt_dec (IZR z - IZR z) (1 / 2)); [reflexivity | lra].
Qed.

Lemma round2_exact (x : R) (z : Z) : x * 100 = IZR z -> round2 x = IZR z / 100.
Proof.
  intros H. unfold round2. rewrite H, round_half_even_IZR. reflexivity.
Qed.

(** ** Root-zone water accounting *)

Lemma argwhere_ge_first_covers (a : list R) (x : R) (i : nat) :
  argwhere_ge_first a x = Some i ->
  exists y, nth_error a i = Some y /\ y >= x.
Proof.
  revert i. induction a as [|y a IH]; intros i H; simpl in H.
  - discriminate.
  - destruct (Rge_dec y x).
    + injection H as <-. exists y. split; [reflexivity | assumption].
    + destruct (argwhere_ge_first a x) as [j|]; [|discriminate].
      injection H as <-. apply (IH j). reflexivity.
Qed.

(** The index found is the first one whose entry covers [x]. *)
Lemma argwhere_ge_first_least (a : list R) (x : R) (i : nat) :
  argwhere_ge_first a x = Some i ->
  forall j y, (j < i)%nat -> nth_error a j = Some y -> y < x.
Proof.
  revert i. induction a as [|z a IH]; intros i H j y Hj Hy; simpl in H.
  - discriminate.
  - destruct (Rge_dec z x).
    + injection H as <-. lia.
    + destruct (argwhere_ge_first a x) as [k|]; [|discriminate].
      injection H as <-. destruct j as [|j]; simpl in Hy.
      * injection Hy as <-. lra.
      * apply (IH k eq_refl j y); [lia | assumption].
Qed.

(** Claim C1: whenever [root_zone_water] returns, the sums are taken up
    to the first compartment whose cumulative depth covers the rounded
    root depth, the actual root-zone water is the actual sum raised to
    zero, the total available water is [max (WrFC - WrWP) 0] and the
    depletion is [min (WrFC - WrAct) TAW], where [WrFC] and [WrWP] are
    the field-capacity and wilting-point sums over these compartments. *)
Theorem root_zone_water_guarantees (prof : SoilProfileClass)
  (InitCond_Zroot : R) (InitCond_th : list R)
  (Soil_zTop Crop_Zmin Crop_Aer : R)
  (WrAct_ : R) (Dr : DrClass) (TAW_ : TAWClass) (thRZ : thRZClass) :
  root_zone_water prof InitCond_Zroot InitCond_th Soil_zTop Crop_Zmin
    Crop_Aer = Some (WrAct_, Dr, TAW_, thRZ) ->
  let rootdepth := round2 (Rmax InitCond_Zroot Crop_Zmin) in
  exists comp_sto dzsum_sto w,
    argwhere_ge_first (dzsum prof) rootdepth = Some comp_sto /\
    nth_error (dzsum prof) comp_sto = Some dzsum_sto /\
    dzsum_sto >= rootdepth /\
    (forall j y, (j < comp_sto)%nat -> nth_error (dzsum prof) j = Some y ->
                 y < rootdepth) /\
    root_zone_sums prof rootdepth InitCond_th Crop_Aer comp_sto = Some w /\
    WrAct_ = Rmax (WrAct w) 0 /\
    0 <= WrAct_ /\
    TAW_Rz TAW_ = Rmax (WrFC w - WrWP w) 0 /\
    Dr_Rz Dr = Rmin (WrFC w - WrAct_) (TAW_Rz TAW_).
Proof.
  intros H rootdepth. unfold root_zone_water in H. fold rootdepth in H.
  inv_bind H. rename a into comp_sto.
  inv_bind H. rename a into w.
  do 6 inv_bind H.
  destruct (argwhere_ge_first_covers _ _ _ Ha) as (y & Hy & Hge).
  pose proof (argwhere_ge_first_least _ _ _ Ha) as Hleast.
  exists comp_sto, y, w.
  assert (Hact : (if Rlt_dec (WrAct w) 0 then 0 else WrAct w) =
                 Rmax (WrAct w) 0) by
    (unfold Rmax; destruct (Rlt_dec (WrAct w) 0), (Rle_dec (WrAct w) 0);
     lra).
  assert (Hpos : 0 <= Rmax (WrAct w) 0) by apply Rmax_r.
  destruct (Rgt_dec rootdepth Soil_zTop).
  - inv_bind H. inv_bind H. destruct a6 as [[WrAct_Zt WrFC_Zt] WrWP_Zt].
    injection H as <- <- <- <-. cbn [TAW_Rz Dr_Rz].
    rewrite pymax_Rmax, pymin_Rmin, Hact. repeat split; assumption.
  - injection H as <- <- <- <-. cbn [TAW_Rz Dr_Rz].
    rewrite pymax_Rmax, pymin_Rmin, Hact. repeat split; assumption.
Qed.

(** *** The call returns on a well-formed profile *)

Lemma fold_range_returns {St : Type} (body : nat -> St -> option St)
  (n a : nat) (s : St) :
  (forall ii s0, (a <= ii < a + n)%nat -> exists s', body ii s0 = Some s') ->
  exists s',
    fold_left (fun acc ii => s0 <- acc ;; body ii s0) (seq a n) (Some s)
    = Some s'.
Proof.
  revert a s. induction n as [|n IH]; intros a s Hbody; simpl.
  - eauto.
  - destruct (Hbody a s) as [s1 Hs1]; [lia|]. rewrite Hs1.
    apply IH. intros ii s0 Hii. apply Hbody. lia.
Qed.

Lemma for_range_returns {St : Type} (n : nat) (body : nat -> St -> option St)
  (s : St) :
  (forall ii s0, (ii < n)%nat -> exists s', body ii s0 = Some s') ->
  exists s', for_range n body s = Some s'.
Proof.
  intros H. apply fold_range_returns. intros ii s0 Hii. apply H. lia.
Qed.

Lemma argwhere_ge_first_returns (a : list R) (x : R) :
  (exists y, In y a /\ y >= x) ->
  exists i, argwhere_ge_first a x = Some i /\ (i < List.length a)%nat.
Proof.
  intros (y & Hin & Hge). induction a as [|z a IH]; [contradiction|].
  simpl. destruct (Rge_dec z x).
  - exists 0%nat. split; [reflexivity | lia].
  - destruct Hin as [-> | Hin]; [contradiction|].
    destruct (IH Hin) as (i & -> & Hi). exists (S i). split; [reflexivity | lia].
Qed.

Lemma count_le_bounds (a : list R) (x : R) :
  (count_le a x <= List.length a)%nat /\
  ((exists y, In y a /\ y <= x) -> (0 < count_le a x)%nat).
Proof.
  induction a as [|z a [IHle IHpos]]; simpl.
  - split; [lia|]. intros (y & [] & _).
  - destruct (Rle_dec z x); split; try lia.
    intros (y & [-> | Hin] & Hle); [contradiction|].
    assert (0 < count_le a x)%nat by eauto. lia.
Qed.

Lemma nth_error_in_range {A : Type} (l : list A) (ii : nat) :
  (ii < List.length l)%nat -> exists x, nth_error l ii = Some x.
Proof.
  intros H. destruct (nth_error l ii) eqn:E; [eauto|].
  apply nth_error_None in E. lia.
Qed.

Lemma cover_factor_returns (prof : SoilProfileClass) (InitCond_th : list R)
  (depth_ : R) (ii : nat) :
  well_formed_profile prof InitCond_th ->
  (ii < List.length (dz prof))%nat ->
  exists factor, cover_factor prof depth_ ii = Some factor.
Proof.
  intros (Hsum & _ & _ & _ & _ & _ & Hpos) Hii. unfold cover_factor.
  destruct (nth_error_in_range (dzsum prof) ii) as [y ->]; [lia|].
  destruct (nth_error_in_range (dz prof) ii) as [d Hd]; [lia|].
  cbn [bind]. destruct (Rgt_dec y depth_); [|unfold ret; eauto].
  rewrite Hd. cbn [bind].
  rewrite Forall_forall in Hpos.
  assert (0 < d) by (apply Hpos; eapply nth_error_In; eassumption).
  rewrite fdiv_Some by lra. cbn [bind]. unfold ret. eauto.
Qed.

(** [root_zone_water] returns when the arrays fit together, the rounded
    root depth is not zero, some cumulative depth covers it and, where
    the top soil is shallower than the root zone, some cumulative depth
    lies within the top soil. *)
Lemma root_zone_water_returns (prof : SoilProfileClass)
  (InitCond_Zroot : R) (InitCond_th : list R)
  (Soil_zTop Crop_Zmin Crop_Aer : R) :
  let rootdepth := round2 (Rmax InitCond_Zroot Crop_Zmin) in
  well_formed_profile prof InitCond_th ->
  rootdepth <> 0 ->
  (exists y, In y (dzsum prof) /\ y >= rootdepth) ->
  (rootdepth > Soil_zTop ->
   exists y, In y (dzsum prof) /\ y <= round2 Soil_zTop) ->
  exists r,
    root_zone_water prof InitCond_Zroot InitCond_th Soil_zTop Crop_Zmin
      Crop_Aer = Some r.
Proof.
  intros rootdepth Hwf Hrd Hcover Htop.
  pose proof Hwf as (Hsum & Hs & Hfc & Hwp & Hdry & Hth & Hpos).
  unfold root_zone_water. fold rootdepth.
  destruct (argwhere_ge_first_returns _ _ Hcover) as (comp_sto & -> & Hcs).
  cbn [bind].
  destruct (for_range_returns (comp_sto + 1)
              (root_zone_step prof rootdepth InitCond_th Crop_Aer)
              {| WrAct := 0; WrS := 0; WrFC := 0; WrWP := 0; WrDry := 0;
                 WrAer := 0 |}) as [w Hw].
  { intros ii s0 Hii. unfold root_zone_step.
    destruct (cover_factor_returns prof InitCond_th rootdepth ii Hwf)
      as [f ->]; [lia|].
    destruct (nth_error_in_range InitCond_th ii) as [? ->]; [lia|].
    destruct (nth_error_in_range (dz prof) ii) as [? ->]; [lia|].
    destruct (nth_error_in_range (th_s prof) ii) as [? ->]; [lia|].
    destruct (nth_error_in_range (th_fc prof) ii) as [? ->]; [lia|].
    destruct (nth_error_in_range (th_wp prof) ii) as [? ->]; [lia|].
    destruct (nth_error_in_range (th_dry prof) ii) as [? ->]; [lia|].
    cbn [bind]. unfold ret. eauto. }
  unfold root_zone_sums. rewrite Hw. cbn [bind].
  rewrite !fdiv_Some by lra. cbn [bind].
  destruct (Rgt_dec rootdepth Soil_zTop) as [Hgt | Hle];
    [|unfold ret; eauto].
  destruct (count_le_bounds (dzsum prof) (round2 Soil_zTop)) as [Hcle Hcpos].
  specialize (Hcpos (Htop Hgt)).
  destruct (Nat.ltb_spec 0 (count_le (dzsum prof) (round2 Soil_zTop)));
    [|lia].
  cbn [assert bind].
  destruct (for_range_returns (count_le (dzsum prof) (round2 Soil_zTop))
              (top_soil_step prof (round2 Soil_zTop) InitCond_th)
              (0, 0, 0)) as [[[a b] c] ->].
  { intros ii [[a b] c] Hii. unfold top_soil_step.
    destruct (cover_factor_returns prof InitCond_th (round2 Soil_zTop) ii Hwf)
      as [f ->]; [lia|].
    destruct (nth_error_in_range InitCond_th ii) as [? ->]; [lia|].
    destruct (nth_error_in_range (dz prof) ii) as [? ->]; [lia|].
    destruct (nth_error_in_range (th_fc prof) ii) as [? ->]; [lia|].
    destruct (nth_error_in_range (th_wp prof) ii) as [? ->]; [lia|].
    cbn [bind]. unfold ret. eauto. }
  cbn [bind]. unfold ret. eauto.
Qed.

(** The call on the one-compartment profile, root depth 0.1 m, water
    content 0.25. *)
Lemma root_zone_water_prof_one :
  root_zone_water prof_one 0.1 [0.25] 0.1 0.1 5 =
  Some (25, {| Dr_Rz := 5; Dr_Zt := 5 |}, {| TAW_Rz := 15; TAW_Zt := 15 |},
        {| thRZ_Act := 0.25; thRZ_S := 0.5; thRZ_FC := 0.3;
           thRZ_WP := 0.15; thRZ_Dry := 0.075; thRZ_Aer := 0.45 |}).
Proof.
  unfold root_zone_water.
  assert (Hrd : round2 (Rmax 0.1 0.1) = 0.1).
  { rewrite (round2_exact _ 10); [lra|].
    unfold Rmax. destruct (Rle_dec 0.1 0.1); lra. }
  rewrite Hrd.
  cbn [prof_one dzsum argwhere_ge_first].
  destruct (Rge_dec 0.1 0.1); [|lra].
  cbn [bind].
  unfold root_zone_sums, for_range.
  cbn [Nat.add seq fold_left bind].
  unfold root_zone_step, cover_factor.
  cbn [prof_one dzsum dz th_s th_fc th_wp th_dry nth_error bind].
  destruct (Rgt_dec 0.1 0.1); [lra|].
  cbn [bind ret WrAct WrS WrFC WrWP WrDry WrAer].
  rewrite (round2_exact (1 * 1000 * 0.25 * 0.1) 2500) by lra.
  rewrite (round2_exact (1 * 1000 * 0.5 * 0.1) 5000) by lra.
  rewrite (round2_exact (1 * 1000 * 0.3 * 0.1) 3000) by lra.
  rewrite (round2_exact (1 * 1000 * 0.15 * 0.1) 1500) by lra.
  rewrite (round2_exact (1 * 1000 * 0.075 * 0.1) 750) by lra.
  rewrite (round2_exact (1 * 1000 * (0.5 - 5 / 100) * 0.1) 4500) by lra.
  destruct (Rlt_dec (0 + 2500 / 100) 0); [lra|].
  rewrite !fdiv_Some by lra. cbn [bind].
  destruct (Rgt_dec 0.1 0.1); [lra|].
  unfold ret. rewrite pymax_Rmax, pymin_Rmin.
  replace (Rmax (0 + 3000 / 100 - (0 + 1500 / 100)) 0) with 15
    by (unfold Rmax; destruct (Rle_dec _ _); lra).
  replace (Rmin (0 + 3000 / 100 - (0 + 2500 / 100)) 15) with 5
    by (unfold Rmin; destruct (Rle_dec _ _); lra).
  repeat f_equal; lra.
Qed.

(** The root-zone sums of the three-compartment profile for a root
    depth of 0.25 m: the third compartment counts for one half. *)
Lemma root_zone_sums_prof_three :
  root_zone_sums prof_three 0.25 [0.25; 0.25; 0.25] 5 2 =
  Some {| WrAct := 62.5; WrS := 125; WrFC := 75; WrWP := 37.5;
          WrDry := 18.75; WrAer := 112.5 |}.
Proof.
  unfold root_zone_sums, for_range.
  cbn [Nat.add seq fold_left bind].
  unfold root_zone_step, cover_factor.
  cbn [prof_three dzsum dz th_s th_fc th_wp th_dry nth_error bind].
  repeat decide_real.
  rewrite fdiv_Some by lra.
  cbn [bind ret WrAct WrS WrFC WrWP WrDry WrAer].
  rewrite (round2_exact (1 * 1000 * 0.25 * 0.1) 2500) by lra.
  rewrite (round2_exact (1 * 1000 * 0.5 * 0.1) 5000) by lra.
  rewrite (round2_exact (1 * 1000 * 0.3 * 0.1) 3000) by lra.
  rewrite (round2_exact (1 * 1000 * 0.15 * 0.1) 1500) by lra.
  rewrite (round2_exact (1 * 1000 * 0.075 * 0.1) 750) by lra.
  rewrite (round2_exact (1 * 1000 * (0.5 - 5 / 100) * 0.1) 4500) by lra.
  rewrite (round2_exact (_ * 1000 * 0.25 * 0.1) 1250) by lra.
  rewrite (round2_exact (_ * 1000 * 0.5 * 0.1) 2500) by lra.
  rewrite (round2_exact (_ * 1000 * 0.3 * 0.1) 1500) by lra.
  rewrite (round2_exact (_ * 1000 * 0.15 * 0.1) 750) by lra.
  rewrite (round2_exact (_ * 1000 * 0.075 * 0.1) 375) by lra.
  rewrite (round2_exact (_ * 1000 * (0.5 - 5 / 100) * 0.1) 2250) by lra.
  unfold ret. f_equal. f_equal; lra.
Qed.

(** The call on the three-compartment profile with a root depth of
    0.25 m: the third compartment is the first to cover the roots; the
    top soil is the first compartment. *)
Lemma root_zone_water_prof_three :
  root_zone_water prof_three 0.25 [0.25; 0.25; 0.25] 0.1 0.1 5 =
  Some (62.5, {| Dr_Rz := 12.5; Dr_Zt := 5 |},
        {| TAW_Rz := 37.5; TAW_Zt := 15 |},
        {| thRZ_Act := 0.25; thRZ_S := 0.5; thRZ_FC := 0.3;
           thRZ_WP := 0.15; thRZ_Dry := 0.075; thRZ_Aer := 0.45 |}).
Proof.
  unfold root_zone_water.
  assert (Hrd : round2 (Rmax 0.25 0.1) = 0.25).
  { rewrite (round2_exact _ 25); [lra|].
    unfold Rmax. destruct (Rle_dec 0.25 0.1); lra. }
  rewrite Hrd.
  assert (Hzt : round2 0.1 = 0.1) by (rewrite (round2_exact _ 10); lra).
  rewrite Hzt.
  cbn [prof_three dzsum argwhere_ge_first count_le].
  repeat decide_real.
  cbn [option_map bind Nat.add].
  rewrite root_zone_sums_prof_three.
  cbn [bind WrAct WrS WrFC WrWP WrDry WrAer].
  decide_real.
  rewrite !fdiv_Some by lra.
  cbn [bind assert Nat.ltb Nat.leb].
  unfold for_range, top_soil_step, cover_factor.
  cbn [seq fold_left prof_three dzsum dz th_fc th_wp nth_error bind ret].
  decide_real.
  cbn [bind ret].
  decide_real.
  rewrite !pymax_Rmax, !pymin_Rmin.
  replace (Rmax (75 - 37.5) 0) with 37.5
    by (unfold Rmax; destruct (Rle_dec _ _); lra).
  replace (Rmin (75 - 62.5) 37.5) with 12.5
    by (unfold Rmin; destruct (Rle_dec _ _); lra).
  match goal with
  | |- context [Rmax ?x 0] =>
      replace (Rmax x 0) with 15
        by (unfold Rmax; destruct (Rle_dec _ _); lra)
  end.
  match goal with
  | |- context [Rmin ?x 15] =>
      replace (Rmin x 15) with 5
        by (unfold Rmin; destruct (Rle_dec _ _); lra)
  end.
  unfold ret. do 2 f_equal. f_equal; lra.
Qed.

Lemma root_zone_water_guarantees_witness :
  exists w,
    argwhere_ge_first (dzsum prof_three) (round2 (Rmax 0.25 0.1)) =
      Some 2%nat /\
    nth_error (dzsum prof_three) 2 = Some 0.3 /\
    0.3 >= round2 (Rmax 0.25 0.1) /\
    root_zone_sums prof_three (round2 (Rmax 0.25 0.1)) [0.25; 0.25; 0.25]
      5 2 = Some w /\
    62.5 = Rmax (WrAct w) 0 /\
    0 <= 62.5 /\
    37.5 = Rmax (WrFC w - WrWP w) 0 /\
    12.5 = Rmin (WrFC w - 62.5) 37.5.
Proof.
  destruct (root_zone_water_guarantees prof_three 0.25 [0.25; 0.25; 0.25]
              0.1 0.1 5 _ _ _ _ root_zone_water_prof_three)
    as (comp_sto & y & w & Hc & Hy & Hge & _ & Hw & H1 & H2 & H3 & H4).
  cbn [TAW_Rz Dr_Rz] in H3, H4.
  assert (Hrd : round2 (Rmax 0.25 0.1) = 0.25).
  { rewrite (round2_exact _ 25); [lra|].
    unfold Rmax. destruct (Rle_dec 0.25 0.1); lra. }
  assert (Hcs : comp_sto = 2%nat).
  { rewrite Hrd in Hc. cbn [prof_three dzsum argwhere_ge_first] in Hc.
    destruct (Rge_dec 0.1 0.25); [lra|].
    destruct (Rge_dec 0.2 0.25); [lra|].
    destruct (Rge_dec 0.3 0.25); [|lra].
    cbn [option_map] in Hc. congruence. }
  subst comp_sto.
  assert (Hy3 : y = 0.3) by (cbn in Hy; congruence).
  subst y.
  exists w. repeat split; assumption.
Defined.

(** ** Irrigation *)

Lemma irrigation_depth_le_MaxIrr (NewCond : InitCondClass)
  (IrrMngt : IrrMngtStruct) (Irr : R) :
  0 <= MaxIrr IrrMngt ->
  irrigation_depth NewCond IrrMngt = Some Irr ->
  Irr <= MaxIrr IrrMngt.
Proof.
  intros Hmax H. unfold irrigation_depth, ret in H.
  assert (Hmin : forall x, pymin (MaxIrr IrrMngt) x <= MaxIrr IrrMngt) by
    (intros x; destruct (pymin_spec (MaxIrr IrrMngt) x) as [[? ->]|[? ->]];
     lra).
  repeat match type of H with
  | (if ?c then _ else _) = Some _ => destruct c
  | bind _ _ = Some _ => inv_bind H
  | Some _ = Some _ => injection H as <-
  | None = Some _ => discriminate H
  end; auto; lra.
Qed.

(** The state and the depth with which [irrigation] reaches its closing
    block. *)
Lemma irrigation_before_cap (InitCond : InitCondClass)
  (IrrMngt : IrrMngtStruct) (Crop : CropClass) (prof : SoilProfileClass)
  (Soil_zTop : R) (GrowingSeason : bool) (Rain Runoff : R)
  (NewCond : InitCondClass) (Irr : R) :
  0 <= MaxIrr IrrMngt ->
  irrigation InitCond IrrMngt Crop prof Soil_zTop GrowingSeason Rain Runoff
    = Some (NewCond, Irr) ->
  let IrrCum0 := if GrowingSeason then IrrCum InitCond else 0 in
  exists Irr0,
    0 <= Irr0 <= MaxIrr IrrMngt /\
    (if GrowingSeason then
       exists c a, irrigation_depth c IrrMngt = Some a /\ Irr0 = pymax 0 a
     else Irr0 = 0) /\
    Irr = (if Rgt_dec (IrrCum0 + Irr0) (MaxIrrSeason IrrMngt)
           then pymax 0 (MaxIrrSeason IrrMngt - IrrCum0) else Irr0) /\
    IrrCum NewCond = IrrCum0 + Irr.
Proof.
  intros Hmax H IrrCum0. unfold irrigation in H.
  inv_bind H. destruct a as [c Irr0].
  assert (Hpre : 0 <= Irr0 <= MaxIrr IrrMngt /\ IrrCum c = IrrCum0 /\
                 (if GrowingSeason then
                    exists c a,
                      irrigation_depth c IrrMngt = Some a /\
                      Irr0 = pymax 0 a
                  else Irr0 = 0)).
  { subst IrrCum0. destruct GrowingSeason.
    - inv_bind Ha. destruct a as [[[WrAct_ Dr_] TAW_] thRZ].
      inv_bind_as Ha a Hdepth. injection Ha as <- <-.
      pose proof (irrigation_depth_le_MaxIrr _ _ _ Hmax Hdepth) as Hle.
      split; [|split].
      + destruct (pymax_spec 0 a) as [[? ->]|[? ->]]; lra.
      + destruct (DAP _ =? 1)%Z; reflexivity.
      + eauto.
    - injection Ha as <- <-. simpl.
      split; [lra|]. split; reflexivity. }
  destruct Hpre as (Hirr & Hc & Hmethod).
  unfold ret in H. injection H as <- <-. cbn [IrrCum set_IrrCum].
  rewrite Hc. exists Irr0. repeat split; try assumption; lra.
Qed.


(** In exact real arithmetic the daily cap leaves the counter within
    the seasonal maximum.  With binary64 sums this fails by one unit in
    the last place, see [Binary64Facts]. *)
Lemma irrigation_seasonal_bound_exact (InitCond : InitCondClass)
  (IrrMngt : IrrMngtStruct) (Crop : CropClass) (prof : SoilProfileClass)
  (Soil_zTop : R) (GrowingSeason : bool) (Rain Runoff : R)
  (NewCond : InitCondClass) (Irr : R) :
  0 <= MaxIrr IrrMngt ->
  0 <= MaxIrrSeason IrrMngt ->
  IrrCum InitCond <= MaxIrrSeason IrrMngt ->
  irrigation InitCond IrrMngt Crop prof Soil_zTop GrowingSeason Rain Runoff
    = Some (NewCond, Irr) ->
  IrrCum NewCond <= MaxIrrSeason IrrMngt.
Proof.
  intros Hmax Hseason Hcum H.
  destruct (irrigation_before_cap _ _ _ _ _ _ _ _ _ _ Hmax H)
    as (Irr0 & Hirr & _ & HIrr & Hc).
  rewrite Hc, HIrr.
  assert (Hc0 : (if GrowingSeason then IrrCum InitCond else 0) <=
                MaxIrrSeason IrrMngt) by (destruct GrowingSeason; lra).
  destruct (Rgt_dec _ (MaxIrrSeason IrrMngt)); [|lra].
  match goal with
  | |- context [pymax 0 ?x] =>
      destruct (pymax_spec 0 x) as [[? ->]|[? ->]]; lra
  end.
Qed.

(** [irrigation] returns outside the growing season, and inside it for
    the methods that need no table look-up (none, fixed interval, net,
    fixed daily depth) whenever the root-zone accounting returns. *)
Lemma irrigation_returns (InitCond : InitCondClass) (IrrMngt : IrrMngtStruct)
  (Crop : CropClass) (prof : SoilProfileClass) (Soil_zTop : R)
  (GrowingSeason : bool) (Rain Runoff : R) :
  (GrowingSeason = true ->
   (exists r,
       root_zone_water prof (Zroot InitCond) (th InitCond) Soil_zTop
         (Zmin Crop) (Aer Crop) = Some r) /\
   (IrrMethod IrrMngt = 0 \/
    (IrrMethod IrrMngt = 2 /\ IrrInterval IrrMngt <> 0) \/
    IrrMethod IrrMngt = 4 \/ IrrMethod IrrMngt = 5)%Z) ->
  exists NewCond Irr,
    irrigation InitCond IrrMngt Crop prof Soil_zTop GrowingSeason Rain Runoff
    = Some (NewCond, Irr).
Proof.
  intros H. unfold irrigation.
  destruct GrowingSeason; [|cbn [bind ret]; eauto].
  destruct (H eq_refl) as [[[[[WrAct_ Dr_] TAW_] thRZ] ->] Hm].
  cbn [bind].
  match goal with
  | |- context [irrigation_depth ?c IrrMngt] =>
      assert (Hd : exists Irr, irrigation_depth c IrrMngt = Some Irr)
  end.
  { unfold irrigation_depth, ret.
    destruct Hm as [-> | [[-> Hint] | [-> | ->]]]; cbn [Z.eqb Pos.eqb];
      eauto.
    destruct (Z.eqb_spec (IrrInterval IrrMngt) 0); [contradiction|].
    destruct (_ =? 0)%Z; eauto. }
  destruct Hd as [Irr ->]. cbn [bind ret]. eauto.
Qed.



(** ** Water stress *)

Lemma mapM_nth_error {A B : Type} (f : A -> option B) (xs : list A)
  (ys : list B) (i : nat) (y : B) :
  mapM f xs = Some ys -> nth_error ys i = Some y ->
  exists x, nth_error xs i = Some x /\ f x = Some y.
Proof.
  revert ys i. induction xs as [|x xs IH]; intros ys i H Hy; simpl in H.
  - injection H as <-. destruct i; discriminate.
  - inv_bind H. inv_bind H. injection H as <-.
    destruct i as [|i]; simpl in *.
    + injection Hy as <-. eauto.
    + eauto.
Qed.

Lemma mapM_seq_nth_error {B : Type} (f : nat -> option B) (n : nat)
  (ys : list B) (i : nat) (y : B) :
  mapM f (seq 0 n) = Some ys -> nth_error ys i = Some y -> f i = Some y.
Proof.
  intros H Hy. destruct (mapM_nth_error _ _ _ _ _ H Hy) as (x & Hx & Hf).
  rewrite nth_error_seq in Hx.
  destruct (i <? n)%nat; [|discriminate]. injection Hx as <-. exact Hf.
Qed.

Lemma mapM_returns {A B : Type} (f : A -> option B) (xs : list A) :
  (forall x, In x xs -> exists y, f x = Some y) ->
  exists ys, mapM f xs = Some ys /\ List.length ys = List.length xs.
Proof.
  induction xs as [|x xs IH]; intros Hf; simpl.
  - exists []. split; reflexivity.
  - destruct (Hf x) as [y Hy]; [left; reflexivity|].
    destruct IH as (ys & Hys & Hlen); [intros; apply Hf; right; assumption|].
    exists (y :: ys). rewrite Hy, Hys. simpl. auto.
Qed.

Lemma exp_le (x y : R) : x <= y -> exp x <= exp y.
Proof.
  intros [H | ->]; [left; apply exp_increasing; assumption | right; reflexivity].
Qed.

Lemma quotient_unit_interval (a b : R) :
  (0 <= a <= b /\ 0 < b) \/ (b <= a <= 0 /\ b < 0) -> 0 <= a / b <= 1.
Proof.
  intros [[[Ha Hb] Hpos] | [[Ha Hb] Hneg]].
  - split.
    + apply Rmult_le_pos; [lra | left; apply Rinv_0_lt_compat; lra].
    + apply (Rmult_le_reg_r b); [lra|].
      unfold Rdiv. rewrite Rmult_assoc, Rinv_l by lra. lra.
  - replace (a / b) with ((- a) / (- b)) by (field; lra).
    split.
    + apply Rmult_le_pos; [lra | left; apply Rinv_0_lt_compat; lra].
    + apply (Rmult_le_reg_r (- b)); [lra|].
      unfold Rdiv. rewrite Rmult_assoc, Rinv_l by lra. lra.
Qed.

(** The relative depletion of one stress type. *)
Lemma relative_depletion_spec (Dr TAW pu pl d : R) :
  0 < TAW ->
  relative_depletion Dr TAW pu pl = Some d ->
  0 <= d <= 1 /\
  (Dr / TAW <= pu -> d = 0) /\
  (pl <= Dr / TAW -> pu < Dr / TAW -> d = 1).
Proof.
  intros HTAW H.
  assert (HDr : Dr = Dr / TAW * TAW) by (field; lra).
  set (q := Dr / TAW) in *.
  unfold relative_depletion, Rgt_b, Rlt_b, ret in H.
  destruct (Rle_dec Dr (pu * TAW)) as [Hle | Hnle].
  { injection H as <-. repeat split; try lra. intros; nra. }
  assert (Hq : pu < q) by nra.
  destruct (Rgt_dec Dr (pu * TAW)) as [_ | Hn]; [|lra].
  destruct (Rlt_dec Dr (pl * TAW)) as [Hlt | Hnlt]; simpl in H.
  - inv_bind H. inv_bind H. injection H as <-.
    apply fdiv_inv in Ha as [_ ->]. apply fdiv_inv in Ha0 as [Hne ->].
    fold q. fold q in Hne.
    assert (Hq' : q < pl) by nra.
    assert (Hr : 0 <= (pl - q) / (pl - pu) <= 1) by
      (apply quotient_unit_interval; lra).
    repeat split; lra.
  - destruct (Rge_dec Dr (pl * TAW)); injection H as <-;
      repeat split; try lra; intros; nra.
Qed.

Lemma relative_depletion_returns (Dr TAW pu pl : R) :
  TAW <> 0 -> exists d, relative_depletion Dr TAW pu pl = Some d.
Proof.
  intros HTAW. unfold relative_depletion, Rgt_b, Rlt_b, ret.
  destruct (Rle_dec Dr (pu * TAW)); [eauto|].
  destruct (Rgt_dec Dr (pu * TAW)); simpl;
    [destruct (Rlt_dec Dr (pl * TAW)); simpl|].
  - rewrite fdiv_Some by assumption. simpl.
    rewrite fdiv_Some by (intros Heq; assert (pl = pu) by lra; subst; lra).
    simpl. eauto.
  - destruct (Rge_dec Dr (pl * TAW)); eauto.
  - destruct (Rge_dec Dr (pl * TAW)); eauto.
Qed.

(** The shape transform maps [[0,1]] into [[0,1]], zero to one and one to
    zero. *)
Lemma stress_curve_spec (d k K : R) :
  stress_curve d k = Some K ->
  0 <= d <= 1 ->
  0 <= K <= 1 /\ (d = 0 -> K = 1) /\ (d = 1 -> K = 0).
Proof.
  intros H [Hd0 Hd1]. unfold stress_curve, ret in H.
  inv_bind H. injection H as <-. apply fdiv_inv in Ha as [Hne ->].
  assert (Hr : 0 <= (exp (d * k) - 1) / (exp k - 1) <= 1).
  { apply quotient_unit_interval.
    destruct (Rtotal_order k 0) as [Hk | [-> | Hk]].
    - right.
      assert (exp k < exp 0) by (apply exp_increasing; assumption).
      assert (exp k <= exp (d * k)) by (apply exp_le; nra).
      assert (exp (d * k) <= exp 0) by (apply exp_le; nra).
      rewrite exp_0 in *. lra.
    - rewrite exp_0 in Hne. lra.
    - left.
      assert (exp 0 < exp k) by (apply exp_increasing; assumption).
      assert (exp (d * k) <= exp k) by (apply exp_le; nra).
      assert (exp 0 <= exp (d * k)) by (apply exp_le; nra).
      rewrite exp_0 in *. lra. }
  split; [lra|]. split; intros ->.
  - rewrite Rmult_0_l, exp_0. unfold Rdiv. rewrite Rminus_diag. lra.
  - rewrite Rmult_1_l. unfold Rdiv. rewrite Rinv_r by assumption. lra.
Qed.

Lemma stress_curve_returns (d k : R) :
  k <> 0 -> exists K, stress_curve d k = Some K.
Proof.
  intros Hk. unfold stress_curve.
  rewrite fdiv_Some; [simpl; eauto|].
  destruct (Rtotal_order k 0) as [H | [H | H]]; [| contradiction |].
  - pose proof (exp_increasing _ _ H) as He. rewrite exp_0 in He. lra.
  - pose proof (exp_increasing _ _ H) as He. rewrite exp_0 in He. lra.
Qed.

(** The effective thresholds are clamped to [[0,1]]. *)
Lemma stress_thresholds_clamped (Crop : CropClass) (InitCond : InitCondClass)
  (Et0 : R) (beta : bool) (p_up p_lo : list R) :
  stress_thresholds Crop InitCond Et0 beta = Some (p_up, p_lo) ->
  forall ii p,
    nth_error p_up ii = Some p \/ nth_error p_lo ii = Some p ->
    0 <= p <= 1.
Proof.
  intros H. unfold stress_thresholds in H.
  do 3 inv_bind H. destruct a1 as [pu0 pl0].
  do 3 inv_bind H. unfold ret in H. injection H as <- <-.
  assert (Hclamp : forall x, 0 <= Rmin (Rmax x 0) 1 <= 1).
  { intros x. unfold Rmin, Rmax.
    destruct (Rle_dec x 0); destruct (Rle_dec _ 1); lra. }
  intros ii p [Hp | Hp]; rewrite !nth_error_map in Hp;
    match type of Hp with
    | option_map _ (option_map _ ?o) = _ => destruct o; [|discriminate]
    end; injection Hp as <-; apply Hclamp.
Qed.

(** Without the adjustment for [Et0] and for early senescence, the
    effective thresholds are the crop's thresholds, clamped. *)
Lemma stress_thresholds_plain (Crop : CropClass) (InitCond : InitCondClass)
  (Et0 : R) (beta : bool) :
  List.length (p_up Crop) = 4%nat -> List.length (p_lo Crop) = 4%nat ->
  ETadj Crop <> 1%Z ->
  beta = false \/ tEarlySen InitCond <= 0 ->
  stress_thresholds Crop InitCond Et0 beta =
  Some (map (fun x => Rmin x 1) (map (fun x => Rmax x 0) (p_up Crop)),
        map (fun x => Rmin x 1) (map (fun x => Rmax x 0) (p_lo Crop))).
Proof.
  intros Hup Hlo HET Hbeta. unfold stress_thresholds, broadcast.
  rewrite Hup, Hlo. simpl.
  destruct (Z.eqb_spec (ETadj Crop) 1); [contradiction|]. simpl.
  assert (Hb : beta && Rgt_b (tEarlySen InitCond) 0 = false).
  { destruct Hbeta as [-> | Hle]; [reflexivity|].
    unfold Rgt_b. destruct (Rgt_dec (tEarlySen InitCond) 0); [lra|].
    apply andb_false_r. }
  rewrite Hb. simpl. rewrite Hup, Hlo. reflexivity.
Qed.

(** Where each returned coefficient comes from. *)
Lemma water_stress_inv (Crop : CropClass) (InitCond : InitCondClass)
  (Dr TAW Et0 : R) (beta : bool) (Ksw : KswClass) :
  water_stress Crop InitCond Dr TAW Et0 beta = Some Ksw ->
  exists p_up p_lo,
    stress_thresholds Crop InitCond Et0 beta = Some (p_up, p_lo) /\
    curve_entry Crop Dr TAW p_up p_lo 0 (Ksw_Exp Ksw) /\
    curve_entry Crop Dr TAW p_up p_lo 1 (Ksw_Sto Ksw) /\
    curve_entry Crop Dr TAW p_up p_lo 2 (Ksw_Sen Ksw) /\
    linear_entry Dr TAW p_up p_lo 3 (Ksw_Pol Ksw) /\
    linear_entry Dr TAW p_up p_lo 1 (Ksw_StoLin Ksw).
Proof.
  intros H. unfold water_stress in H.
  inv_bind H. destruct a as [p_up p_lo].
  inv_bind H. rename a into Drel, Ha0 into HDrel.
  inv_bind H. rename a into Ks, Ha0 into HKs.
  inv_bind_as H Ks_0 HK0. inv_bind_as H Ks_1 HK1. inv_bind_as H Ks_2 HK2.
  inv_bind_as H Drel_3 HD3. inv_bind_as H Drel_1 HD1.
  unfold ret in H. injection H as <-. simpl.
  exists p_up, p_lo. split; [assumption|].
  assert (Hlin : forall ii d,
             nth_error Drel ii = Some d ->
             exists pu pl,
               nth_error p_up ii = Some pu /\ nth_error p_lo ii = Some pl /\
               relative_depletion Dr TAW pu pl = Some d).
  { intros ii d Hd.
    pose proof (mapM_seq_nth_error _ _ _ _ _ HDrel Hd) as Hf. simpl in Hf.
    inv_bind Hf. inv_bind Hf. eauto. }
  assert (Hcur : forall ii K,
             nth_error Ks ii = Some K ->
             curve_entry Crop Dr TAW p_up p_lo ii K).
  { intros ii K HK.
    pose proof (mapM_seq_nth_error _ _ _ _ _ HKs HK) as Hf. simpl in Hf.
    inv_bind_as Hf d Hd. inv_bind_as Hf k Hk.
    destruct (Hlin _ _ Hd) as (pu & pl & Hpu & Hpl & Hrel).
    exists pu, pl, d, k. auto. }
  repeat split; try (apply Hcur; assumption).
  - destruct (Hlin _ _ HD3) as (pu & pl & Hpu & Hpl & Hd).
    exists pu, pl, Drel_3. auto.
  - destruct (Hlin _ _ HD1) as (pu & pl & Hpu & Hpl & Hd).
    exists pu, pl, Drel_1. auto.
Qed.

Lemma curve_entry_ok (Crop : CropClass) (InitCond : InitCondClass)
  (Dr TAW Et0 : R) (beta : bool) (p_up p_lo : list R) (ii : nat) (K : R) :
  0 < TAW ->
  stress_thresholds Crop InitCond Et0 beta = Some (p_up, p_lo) ->
  curve_entry Crop Dr TAW p_up p_lo ii K ->
  coefficient_ok Dr TAW p_up p_lo ii K.
Proof.
  intros HTAW Hth (pu & pl & d & k & Hpu & Hpl & Hd & Hk & HK).
  destruct (relative_depletion_spec _ _ _ _ _ HTAW Hd) as (Hd01 & Hd0 & Hd1).
  destruct (stress_curve_spec _ _ _ HK Hd01) as (HK01 & HK1 & HK0).
  pose proof (stress_thresholds_clamped _ _ _ _ _ _ Hth ii pu
                (or_introl Hpu)) as Hpu01.
  pose proof (stress_thresholds_clamped _ _ _ _ _ _ Hth ii pl
                (or_intror Hpl)) as Hpl01.
  exists pu, pl. repeat split; try lra; auto.
Qed.

Lemma linear_entry_ok (Crop : CropClass) (InitCond : InitCondClass)
  (Dr TAW Et0 : R) (beta : bool) (p_up p_lo : list R) (ii : nat) (K : R) :
  0 < TAW ->
  stress_thresholds Crop InitCond Et0 beta = Some (p_up, p_lo) ->
  linear_entry Dr TAW p_up p_lo ii K ->
  coefficient_ok Dr TAW p_up p_lo ii K.
Proof.
  intros HTAW Hth (pu & pl & d & Hpu & Hpl & Hd & ->).
  destruct (relative_depletion_spec _ _ _ _ _ HTAW Hd) as (Hd01 & Hd0 & Hd1).
  pose proof (stress_thresholds_clamped _ _ _ _ _ _ Hth ii pu
                (or_introl Hpu)) as Hpu01.
  pose proof (stress_thresholds_clamped _ _ _ _ _ _ Hth ii pl
                (or_intror Hpl)) as Hpl01.
  exists pu, pl. repeat split; try lra; try assumption;
    intros; rewrite ?Hd0, ?Hd1 by assumption; lra.
Qed.

(** [water_stress] returns whenever the thresholds are available, the
    total available water is not zero and the three shape factors are not
    zero. *)
Lemma water_stress_returns (Crop : CropClass) (InitCond : InitCondClass)
  (Dr TAW Et0 : R) (beta : bool) (pus pls : list R) (k0 k1 k2 : R) :
  stress_thresholds Crop InitCond Et0 beta = Some (pus, pls) ->
  List.length (p_up Crop) = 4%nat ->
  TAW <> 0 ->
  fshape_w Crop = [k0; k1; k2] -> k0 <> 0 -> k1 <> 0 -> k2 <> 0 ->
  exists Ksw, water_stress Crop InitCond Dr TAW Et0 beta = Some Ksw.
Proof.
  intros Hth Hlen HTAW Hfs Hk0 Hk1 Hk2.
  assert (Hlens : List.length pus = 4%nat /\ List.length pls = 4%nat).
  { unfold stress_thresholds in Hth.
    do 3 inv_bind Hth. destruct a1 as [pu0 pl0].
    do 3 inv_bind Hth. unfold ret in Hth. injection Hth as <- <-.
    rewrite !length_map.
    assert (Hb : forall l l', broadcast 4 l = Some l' -> List.length l' = 4%nat).
    { intros l l' Hl. unfold broadcast in Hl.
      destruct (Nat.eqb_spec (List.length l) 4).
      - injection Hl as <-. assumption.
      - destruct l as [|x [|y l]]; simpl in Hl; try discriminate.
        injection Hl as <-. reflexivity. }
    split; eapply Hb; eassumption. }
  destruct Hlens as [Hlu Hll].
  unfold water_stress. rewrite Hth, Hlen. cbn [bind].
  destruct (mapM_returns
              (fun ii =>
                 p_up_ii <- nth_error pus ii ;;
                 p_lo_ii <- nth_error pls ii ;;
                 relative_depletion Dr TAW p_up_ii p_lo_ii) (seq 0 4))
    as (Drel & HDrel & HlenD).
  { intros ii Hin. apply in_seq in Hin.
    destruct (nth_error pus ii) as [pu|] eqn:Hpu;
      [|apply nth_error_None in Hpu; lia].
    destruct (nth_error pls ii) as [pl|] eqn:Hpl;
      [|apply nth_error_None in Hpl; lia].
    simpl. apply relative_depletion_returns. assumption. }
  rewrite HDrel. cbn [bind]. rewrite Hfs.
  rewrite length_seq in HlenD.
  destruct Drel as [|d0 [|d1 [|d2 [|d3 [|? ?]]]]]; try discriminate.
  cbn [seq mapM nth_error bind].
  destruct (stress_curve_returns d0 k0 Hk0) as [K0 ->].
  destruct (stress_curve_returns d1 k1 Hk1) as [K1 ->].
  destruct (stress_curve_returns d2 k2 Hk2) as [K2 ->].
  cbn [bind ret nth_error]. eauto.
Qed.

(** Claim C2, as the code has it: with a positive total available water,
    each of the five returned coefficients lies in [[0,1]], equals one
    when the relative depletion is at or below the upper threshold of its
    stress type, and equals zero when it is at or above the lower
    threshold and above the upper one.  The thresholds are the effective
    ones, which always lie in [[0,1]]. *)
Theorem water_stress_coefficients (Crop : CropClass)
  (InitCond : InitCondClass) (Dr TAW Et0 : R) (beta : bool)
  (Ksw : KswClass) :
  0 < TAW ->
  water_stress Crop InitCond Dr TAW Et0 beta = Some Ksw ->
  exists p_up p_lo,
    stress_thresholds Crop InitCond Et0 beta = Some (p_up, p_lo) /\
    coefficient_ok Dr TAW p_up p_lo 0 (Ksw_Exp Ksw) /\
    coefficient_ok Dr TAW p_up p_lo 1 (Ksw_Sto Ksw) /\
    coefficient_ok Dr TAW p_up p_lo 2 (Ksw_Sen Ksw) /\
    coefficient_ok Dr TAW p_up p_lo 3 (Ksw_Pol Ksw) /\
    coefficient_ok Dr TAW p_up p_lo 1 (Ksw_StoLin Ksw).
Proof.
  intros HTAW H.
  destruct (water_stress_inv _ _ _ _ _ _ _ H)
    as (p_up & p_lo & Hth & HExp & HSto & HSen & HPol & HLin).
  exists p_up, p_lo. split; [assumption|].
  repeat split;
    first [ eapply curve_entry_ok; eassumption
          | eapply linear_entry_ok; eassumption ].
Qed.

(** With no depletion at all, every coefficient is one. *)
Lemma water_stress_no_depletion (Crop : CropClass) (InitCond : InitCondClass)
  (TAW Et0 : R) (beta : bool) (Ksw : KswClass) :
  0 < TAW ->
  water_stress Crop InitCond 0 TAW Et0 beta = Some Ksw ->
  Ksw_Exp Ksw = 1 /\ Ksw_Sto Ksw = 1 /\ Ksw_Sen Ksw = 1 /\
  Ksw_Pol Ksw = 1 /\ Ksw_StoLin Ksw = 1.
Proof.
  intros HTAW H.
  destruct (water_stress_inv _ _ _ _ _ _ _ H)
    as (pus & pls & Hth & HExp & HSto & HSen & HPol & HLin).
  assert (Hok : forall ii K,
             coefficient_ok 0 TAW pus pls ii K -> K = 1).
  { intros ii K (pu & pl & _ & _ & Hpu & _ & _ & H1 & _).
    apply H1. unfold Rdiv. rewrite Rmult_0_l. lra. }
  repeat split; eapply Hok;
    first [ eapply curve_entry_ok; eassumption
          | eapply linear_entry_ok; eassumption ].
Qed.

Lemma clamp_unit_interval (x : R) : 0 <= x <= 1 -> Rmin (Rmax x 0) 1 = x.
Proof.
  intros H. unfold Rmin, Rmax.
  destruct (Rle_dec x 0); destruct (Rle_dec _ 1); lra.
Qed.

Lemma stress_thresholds_maize (InitCond : InitCondClass) :
  tEarlySen InitCond <= 0 ->
  stress_thresholds crop_maize InitCond 5 true =
  Some ([0.14; 0.69; 0.69; 0.8], [0.72; 1; 1; 1]).
Proof.
  intros Hsen. rewrite stress_thresholds_plain; try reflexivity.
  - cbn [map p_up p_lo crop_maize].
    rewrite !clamp_unit_interval by lra. reflexivity.
  - discriminate.
  - right. assumption.
Qed.

Lemma cond_day30_no_early_senescence : tEarlySen cond_day30 <= 0.
Proof. simpl. lra. Qed.

Lemma water_stress_coefficients_witness :
  exists Ksw p_up p_lo,
    water_stress crop_maize cond_day30 5 15 5 true = Some Ksw /\
    stress_thresholds crop_maize cond_day30 5 true = Some (p_up, p_lo) /\
    coefficient_ok 5 15 p_up p_lo 0 (Ksw_Exp Ksw) /\
    coefficient_ok 5 15 p_up p_lo 1 (Ksw_Sto Ksw) /\
    coefficient_ok 5 15 p_up p_lo 2 (Ksw_Sen Ksw) /\
    coefficient_ok 5 15 p_up p_lo 3 (Ksw_Pol Ksw) /\
    coefficient_ok 5 15 p_up p_lo 1 (Ksw_StoLin Ksw).
Proof.
  destruct (water_stress_returns crop_maize cond_day30 5 15 5 true _ _
              2.9 6 2.7
              (stress_thresholds_maize _ cond_day30_no_early_senescence))
    as [Ksw HK]; try reflexivity; try lra.
  assert (HTAW : 0 < 15) by lra.
  destruct (water_stress_coefficients crop_maize cond_day30 5 15 5 true Ksw
              HTAW HK) as (p_up & p_lo & H).
  exists Ksw, p_up, p_lo. split; [exact HK | exact H].
Defined.

Lemma stress_thresholds_flat :
  stress_thresholds crop_flat cond_day30 5 false =
  Some ([0.5; 0.5; 0.5; 0.5], [0.5; 0.5; 0.5; 0.5]).
Proof.
  rewrite stress_thresholds_plain; try reflexivity.
  - cbn [map p_up p_lo crop_flat].
    rewrite !clamp_unit_interval by lra. reflexivity.
  - discriminate.
  - left. reflexivity.
Qed.

(** Claim C2 as stated fails where the two thresholds of a stress type
    coincide: with thresholds [0 <= 0.5 <= 0.5 <= 1], [TAW = 100 > 0] and
    [Dr / TAW = 0.5], which is at the lower threshold, the pollination
    coefficient is one, not zero. *)
Lemma water_stress_at_equal_thresholds :
  exists Ksw,
    water_stress crop_flat cond_day30 50 100 5 false = Some Ksw /\
    stress_thresholds crop_flat cond_day30 5 false =
      Some ([0.5; 0.5; 0.5; 0.5], [0.5; 0.5; 0.5; 0.5]) /\
    0 <= 0.5 <= 0.5 /\ 0.5 <= 1 /\ 0 < 100 /\
    0.5 <= 50 / 100 /\
    Ksw_Pol Ksw = 1 /\ Ksw_Pol Ksw <> 0.
Proof.
  destruct (water_stress_returns crop_flat cond_day30 50 100 5 false _ _
              2.9 6 2.7 stress_thresholds_flat)
    as [Ksw HK]; try reflexivity; try lra.
  exists Ksw. split; [exact HK|]. split; [exact stress_thresholds_flat|].
  assert (HPol : Ksw_Pol Ksw = 1).
  { destruct (water_stress_inv _ _ _ _ _ _ _ HK)
      as (pus & pls & Hth & _ & _ & _ & HPol & _).
    rewrite stress_thresholds_flat in Hth. injection Hth as <- <-.
    destruct HPol as (pu & pl & d & Hpu & Hpl & Hd & ->).
    simpl in Hpu, Hpl. injection Hpu as <-. injection Hpl as <-.
    assert (HTAW : 0 < 100) by lra.
    destruct (relative_depletion_spec _ _ _ _ _ HTAW Hd) as (_ & Hd0 & _).
    rewrite Hd0; lra. }
  repeat split; lra.
Qed.

(** ** Canopy cover: the ground-shading adjustment *)

Lemma cc_adjusted_range (CC : R) :
  0 <= CC <= 1 -> 0 <= cc_adjusted CC <= 1.02.
Proof.
  intros [H0 H1]. unfold cc_adjusted. split.
  - assert (0 <= CC * (1.72 - CC + 0.3 * (CC * CC))) by
      (apply Rmult_le_pos; nra).
    nra.
  - assert (0 <= (1 - CC) * (1.02 - 0.7 * CC + 0.3 * (CC * CC))) by
      (apply Rmult_le_pos; nra).
    nra.
Qed.

Lemma canopy_cover_adjust_CCadj (Crop : CropClass) (tCCadj : R)
  (NewCond : InitCondClass) :
  CCadj (canopy_cover_adjust Crop tCCadj NewCond) = cc_adjusted (CC NewCond).
Proof.
  unfold canopy_cover_adjust.
  destruct (Rlt_dec (CC_NS NewCond) (CC NewCond));
    [destruct (Rlt_dec tCCadj (CanopyDevEnd Crop))|]; reflexivity.
Qed.

Lemma canopy_cover_adjust_CCadj_NS (Crop : CropClass) (tCCadj : R)
  (NewCond : InitCondClass) :
  CCadj_NS (canopy_cover_adjust Crop tCCadj NewCond) =
  cc_adjusted (Rmax (CC_NS NewCond) (CC NewCond)).
Proof.
  unfold canopy_cover_adjust, Rmax.
  destruct (Rlt_dec (CC_NS NewCond) (CC NewCond)),
    (Rle_dec (CC_NS NewCond) (CC NewCond));
    try destruct (Rlt_dec tCCadj (CanopyDevEnd Crop)); simpl;
    try reflexivity; try lra; f_equal; lra.
Qed.

(** Claim C4, as the code has it: for covers in [[0,1]] the adjusted
    covers written by [canopy_cover] lie in [[0, 1.02]]. *)
Theorem canopy_cover_adjusted_range (Crop : CropClass) (tCCadj : R)
  (NewCond : InitCondClass) :
  0 <= CC NewCond <= 1 ->
  0 <= CC_NS NewCond <= 1 ->
  0 <= CCadj (canopy_cover_adjust Crop tCCadj NewCond) <= 1.02 /\
  0 <= CCadj_NS (canopy_cover_adjust Crop tCCadj NewCond) <= 1.02.
Proof.
  intros HCC HNS.
  rewrite canopy_cover_adjust_CCadj, canopy_cover_adjust_CCadj_NS.
  split; apply cc_adjusted_range; [assumption|].
  unfold Rmax. destruct (Rle_dec (CC_NS NewCond) (CC NewCond)); lra.
Qed.

Lemma canopy_cover_adjusted_range_witness :
  0 <= CCadj (canopy_cover_adjust crop_maize 30 cond_day30) <= 1.02 /\
  0 <= CCadj_NS (canopy_cover_adjust crop_maize 30 cond_day30) <= 1.02.
Proof.
  apply (canopy_cover_adjusted_range crop_maize 30 cond_day30);
    simpl; lra.
Defined.

(** Claim C4 as stated fails: a fully closed canopy, [CC = 1], is mapped
    to 1.02. *)
Lemma canopy_cover_adjusted_above_one :
  0 <= CC cond_day30 <= 1 /\
  ~ (0 <= CCadj (canopy_cover_adjust crop_maize 30 cond_day30) <= 1).
Proof.
  split; [simpl; lra|].
  rewrite canopy_cover_adjust_CCadj. unfold cc_adjusted. simpl. lra.
Qed.

(** ** Canopy development: the two growth formulas *)

(** Claim C6: where the exponential-growth formula reaches [CCx / 2], the
    exponential-decay formula has the same value. *)
Theorem cc_growth_switch_continuous (CCo CCx CGC dt : R) :
  0 < CCo -> 0 < CCx ->
  cc_growth_exp CCo CGC dt = CCx / 2 ->
  cc_growth_decay CCo CCx CGC dt = Some (CCx / 2).
Proof.
  intros HCCo HCCx Hsw. unfold cc_growth_exp in Hsw.
  unfold cc_growth_decay, bind, ret.
  rewrite fdiv_Some by lra. f_equal.
  replace (- CGC * dt) with (- (CGC * dt)) by ring.
  rewrite exp_Ropp.
  assert (He : exp (CGC * dt) = CCx / (2 * CCo)) by
    (apply (Rmult_eq_reg_l CCo); [rewrite Hsw; field|]; lra).
  rewrite He. rfield. lra.
Qed.

Lemma cc_growth_switch_continuous_witness :
  cc_growth_decay 0.2 0.8 1 (ln 2) = Some (0.8 / 2).
Proof.
  apply (cc_growth_switch_continuous 0.2 0.8 1 (ln 2)); try lra.
  unfold cc_growth_exp. rewrite Rmult_1_l, exp_ln by lra. lra.
Defined.

(** The switch is seamless in [cc_development] as well: at the switch
    point itself the growth branch returns [CCx / 2]. *)
Lemma cc_development_at_switch (CCo CCx CGC CDC dt CCx0 : R) :
  0 < CCo -> 0 < CCx <= 1 ->
  cc_growth_exp CCo CGC dt = CCx / 2 ->
  cc_development CCo CCx CGC CDC dt "Growth" CCx0 = Some (CCx / 2).
Proof.
  intros HCCo HCCx Hsw. unfold cc_development. simpl.
  rewrite Hsw.
  destruct (Rgt_dec (CCx / 2) (CCx / 2)); [lra|].
  unfold bind, ret.
  destruct (Rgt_dec (CCx / 2) CCx); [lra|].
  destruct (Rgt_dec (CCx / 2) 1); [lra|].
  destruct (Rlt_dec (CCx / 2) 0); [lra|]. reflexivity.
Qed.

(** Claim C7: the time that [cc_required_time] computes for a cover
    [CCprev] brings [cc_development] back to [CCprev]. *)
Theorem cc_required_time_round_trip (CCprev CCo CCx CGC CDC CCx0 : R) :
  0 < CCo -> CCo < CCprev -> CCprev < CCx -> CCx <= 1 -> 0 < CGC ->
  exists tReq,
    cc_required_time CCprev CCo CCx CGC CDC "CGC" = Some tReq /\
    cc_development CCo CCx CGC CDC tReq "Growth" CCx0 = Some CCprev.
Proof.
  intros HCCo Hprev Hx Hx1 HCGC.
  unfold cc_required_time, cc_development. simpl.
  destruct (Rle_dec CCprev (CCx / 2)) as [Hlow | Hhigh].
  - (* exponential stage *)
    assert (Hq : 0 < CCprev / CCo) by (apply Rdiv_lt_0_compat; lra).
    unfold bind at 1 2. rewrite fdiv_Some by lra.
    rewrite flog_Some by assumption. rewrite fdiv_Some by lra.
    eexists. split; [reflexivity|].
    unfold cc_growth_exp.
    replace (CGC * (ln (CCprev / CCo) / CGC)) with (ln (CCprev / CCo))
      by (field; lra).
    rewrite exp_ln by assumption.
    replace (CCo * (CCprev / CCo)) with CCprev by (field; lra).
    destruct (Rgt_dec CCprev (CCx / 2)); [lra|].
    unfold bind, ret.
    destruct (Rgt_dec CCprev CCx); [lra|].
    destruct (Rgt_dec CCprev 1); [lra|].
    destruct (Rlt_dec CCprev 0); [lra|]. reflexivity.
  - (* decay stage *)
    assert (Hn : 0 < 0.25 * CCx * CCx / CCo) by
      (apply Rdiv_lt_0_compat; nra).
    assert (Hq : 0 < 0.25 * CCx * CCx / CCo / (CCx - CCprev)) by
      (apply Rdiv_lt_0_compat; lra).
    unfold bind at 1 2 3. rewrite fdiv_Some by lra.
    rewrite fdiv_Some by lra.
    rewrite flog_Some by assumption. rewrite fdiv_Some by lra.
    eexists. split; [reflexivity|].
    unfold cc_growth_exp, cc_growth_decay.
    set (q := 0.25 * CCx * CCx / CCo / (CCx - CCprev)) in *.
    replace (- CGC * (ln q / CGC)) with (- ln q) by (field; lra).
    replace (CGC * (ln q / CGC)) with (ln q) by (field; lra).
    rewrite exp_Ropp, exp_ln by assumption.
    assert (Hgrow : CCo * q = 0.25 * CCx * CCx / (CCx - CCprev)) by
      (unfold q; rfield; lra).
    assert (Hhalf : CCo * q > CCx / 2).
    { rewrite Hgrow.
      apply Rlt_gt, (Rmult_lt_reg_r (CCx - CCprev)); [lra|].
      replace (0.25 * CCx * CCx / (CCx - CCprev) * (CCx - CCprev))
        with (0.25 * CCx * CCx) by (rfield; lra).
      nra. }
    destruct (Rgt_dec (CCo * q) (CCx / 2)); [|lra].
    unfold bind, ret. rewrite fdiv_Some by lra.
    replace (CCx - 0.25 * (CCx / CCo) * CCx * / q) with CCprev
      by (unfold q; rfield; lra).
    destruct (Rgt_dec CCprev CCx); [lra|].
    destruct (Rgt_dec CCprev 1); [lra|].
    destruct (Rlt_dec CCprev 0); [lra|]. reflexivity.
Qed.

Lemma cc_required_time_round_trip_witness :
  exists tReq,
    cc_required_time 0.6 0.1 0.8 0.1 0.05 "CGC" = Some tReq /\
    cc_development 0.1 0.8 0.1 0.05 tReq "Growth" 0.8 = Some 0.6.
Proof.
  apply (cc_required_time_round_trip 0.6 0.1 0.8 0.1 0.05 0.8); lra.
Defined.

(** ** Aeration stress *)

(** The reset half of claim C9: at or below the aeration threshold the
    coefficient is one and the day counter returns to zero. *)
Lemma aeration_stress_reset (NewCond_AerDays Crop_LagAer : Z)
  (thRZ : thRZClass) :
  thRZ_Act thRZ <= thRZ_Aer thRZ ->
  aeration_stress NewCond_AerDays Crop_LagAer thRZ = Some (1, 0%Z).
Proof.
  intros H. unfold aeration_stress.
  destruct (Rgt_dec (thRZ_Act thRZ) (thRZ_Aer thRZ)); [lra|reflexivity].
Qed.

(** Once the lag is over, the coefficient is the linear ratio and lies in
    [[0,1]]. *)
Lemma aeration_stress_after_lag (NewCond_AerDays Crop_LagAer : Z)
  (thRZ : thRZClass) :
  (Crop_LagAer <= NewCond_AerDays)%Z ->
  thRZ_Aer thRZ < thRZ_Act thRZ <= thRZ_S thRZ ->
  exists Ksa_Aer,
    aeration_stress NewCond_AerDays Crop_LagAer thRZ =
      Some (Ksa_Aer, Crop_LagAer) /\
    0 <= Ksa_Aer <= 1.
Proof.
  intros Hlag [Haer Hsat]. unfold aeration_stress.
  destruct (Rgt_dec (thRZ_Act thRZ) (thRZ_Aer thRZ)); [|lra].
  destruct (Z.ltb_spec NewCond_AerDays Crop_LagAer); [lia|].
  rewrite fdiv_Some by lra. unfold bind, ret.
  destruct (Z.gtb_spec (NewCond_AerDays + 1) Crop_LagAer); [|lia].
  eexists. split; [reflexivity|].
  split.
  - apply Rmult_le_pos; [lra|]. left. apply Rinv_0_lt_compat. lra.
  - apply (Rmult_le_reg_r (thRZ_S thRZ - thRZ_Aer thRZ)); [lra|].
    unfold Rdiv. rewrite Rmult_assoc, Rinv_l by lra. lra.
Qed.

(** During the lag the ramp divides the day count by the constant 3: the
    coefficient stays in [[0,1]] for the first three days. *)
Lemma aeration_stress_ramp_three_days (NewCond_AerDays Crop_LagAer : Z)
  (thRZ : thRZClass) :
  (0 <= NewCond_AerDays < Crop_LagAer)%Z ->
  (NewCond_AerDays <= 3)%Z ->
  thRZ_Aer thRZ < thRZ_Act thRZ <= thRZ_S thRZ ->
  exists Ksa_Aer,
    aeration_stress NewCond_AerDays Crop_LagAer thRZ =
      Some (Ksa_Aer, (NewCond_AerDays + 1)%Z) /\
    0 <= Ksa_Aer <= 1.
Proof.
  intros [Hd0 Hlag] Hd3 [Haer Hsat]. unfold aeration_stress.
  destruct (Rgt_dec (thRZ_Act thRZ) (thRZ_Aer thRZ)); [|lra].
  destruct (Z.ltb_spec NewCond_AerDays Crop_LagAer); [|lia].
  rewrite fdiv_Some by lra. unfold bind, ret.
  destruct (Z.gtb_spec (NewCond_AerDays + 1) Crop_LagAer); [lia|].
  eexists. split; [reflexivity|].
  set (q := (thRZ_S thRZ - thRZ_Act thRZ) / (thRZ_S thRZ - thRZ_Aer thRZ)).
  assert (Hq : 0 <= q <= 1).
  { unfold q. split.
    - apply Rmult_le_pos; [lra|]. left. apply Rinv_0_lt_compat. lra.
    - apply (Rmult_le_reg_r (thRZ_S thRZ - thRZ_Aer thRZ)); [lra|].
      unfold Rdiv. rewrite Rmult_assoc, Rinv_l by lra. lra. }
  assert (Hd : 0 <= IZR NewCond_AerDays <= 3)
    by (split; apply IZR_le; lia).
  nra.
Qed.

(** Claim C9 at a lag of ten days: on the seventh day of a saturated root
    zone the day counter (6) is below the lag, the water content is above
    the aeration threshold and not above saturation, and the coefficient
    returned is -1. *)
Theorem aeration_stress_negative_coefficient :
  (0 <= 6 < 10)%Z /\
  thRZ_Aer thRZ_saturated < thRZ_Act thRZ_saturated <= thRZ_S thRZ_saturated /\
  aeration_stress 6 10 thRZ_saturated = Some (-1, 7%Z).
Proof.
  split; [lia|]. split; [simpl; lra|].
  unfold aeration_stress. simpl.
  destruct (Rgt_dec 0.5 0.45); [|lra].
  rewrite fdiv_Some by lra. unfold bind, ret.
  replace (1 - 6 / 3 * (1 - (0.5 - 0.5) / (0.5 - 0.45))) with (-1)
    by (rfield; lra).
  reflexivity.
Qed.

(** ** Harvest index *)

Lemma HIadj_pre_anthesis_Fpol (InitCond : InitCondClass) (Crop_dHI_pre : R)
  (NewCond : InitCondClass) :
  HIadj_pre_anthesis InitCond Crop_dHI_pre = Some NewCond ->
  Fpol NewCond = Fpol InitCond.
Proof.
  intros H. unfold HIadj_pre_anthesis, ret in H.
  inv_bind_as H c Hc.
  assert (Hc' : Fpol c = Fpol InitCond).
  { repeat match type of Hc with
    | (if ?b then _ else _) = Some _ => destruct b
    | bind _ _ = Some _ => inv_bind Hc
    | Some _ = Some _ => injection Hc as <-
    end; reflexivity. }
  destruct (Rle_dec (CC c) 0.01); injection H as <-; simpl; assumption.
Qed.

Lemma HIadj_post_anthesis_Fpol (InitCond : InitCondClass) (Crop : CropClass)
  (Ksw : KswClass) (NewCond : InitCondClass) :
  HIadj_post_anthesis InitCond Crop Ksw = Some NewCond ->
  Fpol NewCond = Fpol InitCond.
Proof.
  intros H. unfold HIadj_post_anthesis, ret in H.
  inv_bind_as H c1 Hc1.
  assert (H1 : Fpol c1 = Fpol InitCond).
  { repeat match type of Hc1 with
    | (if ?b then _ else _) = Some _ => destruct b
    | bind _ _ = Some _ => inv_bind Hc1
    | Some _ = Some _ => injection Hc1 as <-
    end; reflexivity. }
  inv_bind_as H c2 Hc2.
  assert (H2 : Fpol c2 = Fpol c1).
  { repeat match type of Hc2 with
    | (if ?b then _ else _) = Some _ => destruct b
    | bind _ _ = Some _ => inv_bind Hc2
    | Some _ = Some _ => injection Hc2 as <-
    end; reflexivity. }
  rewrite <- H1, <- H2.
  repeat match type of H with
  | (if ?b then _ else _) = Some _ => destruct b
  | bind _ _ = Some _ => inv_bind H
  | Some _ = Some _ => injection H as <-
  end; reflexivity.
Qed.

(** The product of a multiplier capped at [c] and a harvest index between
    zero and [HI0] stays below [HI0 * c]. *)
Lemma capped_product (m c x HI0_ : R) :
  m <= c -> 0 <= c -> 0 <= x <= HI0_ -> m * x <= HI0_ * c.
Proof. intros Hm Hc [Hx0 Hx1]. nra. Qed.

(** Inside the yield-formation window. *)
Lemma harvest_index_build_up_cap (Crop : CropClass)
  (NewCond : InitCondClass) (InitCond_PreAdj : bool) (Ksw : KswClass)
  (Kst : KstClass) (HIi : R) (HIt : Z) (NewCond' : InitCondClass)
  (HIadj_ : R) :
  harvest_index_build_up Crop NewCond InitCond_PreAdj Ksw Kst HIi HIt
    = Some (NewCond', HIadj_) ->
  0 <= HIi <= HI0 Crop ->
  0 <= dHI0 Crop ->
  0 <= Fpol NewCond' ->
  HIadj_ <= HI0 Crop * (1 + dHI0 Crop / 100).
Proof.
  intros H [HHi0 HHi1] HdHI HFpol.
  unfold harvest_index_build_up in H.
  destruct ((CropType Crop =? 2)%Z || (CropType Crop =? 3)%Z).
  - inv_bind_as H c1 Hc1.
    inv_bind_as H p Hp. destruct p as [c2 HImax].
    inv_bind_as H c3 Hc3.
    unfold ret in H. injection H as <- <-.
    assert (Hpost : Fpol c3 = Fpol c2).
    { destruct (HIt >? 0)%Z;
        [apply HIadj_post_anthesis_Fpol in Hc3; assumption|].
      injection Hc3 as <-. reflexivity. }
    assert (HHImax : 0 <= HImax).
    { destruct (CropType Crop =? 3)%Z.
      - inv_bind_as Hp c2' Hc2'. unfold ret in Hp.
        injection Hp as <- <-.
        apply Rmult_le_pos; [rewrite <- Hpost; assumption | lra].
      - unfold ret in Hp. injection Hp as <- <-. lra. }
    destruct (Rge_dec HImax HIi); apply capped_product;
      try (destruct (Rgt_dec _ _)); lra.
  - destruct (CropType Crop =? 1)%Z; [|discriminate].
    unfold ret in H. injection H as <- <-. nra.
Qed.

(** The harvest-index call on the one-compartment profile, for a maize
    condition without early senescence, up to the yield-formation test. *)
Lemma harvest_index_maize_prefix (InitCond : InitCondClass) :
  Zroot InitCond = 0.1 -> th InitCond = [0.25] ->
  tEarlySen InitCond <= 0 ->
  exists Ksw,
    harvest_index kst_one prof_one 0.1 crop_maize InitCond 5 30 15 true =
    (let HIi := HIref InitCond in
     let HIt :=
       (DAP InitCond - DelayedCDs InitCond - HIstartCD crop_maize - 1)%Z in
     '(NewCond, HIi, HIadj) <-
       (if YieldForm InitCond && (HIt >=? 0)%Z then
          '(NewCond, HIadj) <-
            harvest_index_build_up crop_maize InitCond (PreAdj InitCond)
              Ksw kst_one HIi HIt ;;
          ret (NewCond, HIi, HIadj)
        else ret (InitCond, HI InitCond, HIadj InitCond)) ;;
     ret (set_HIadj HIadj (set_HI HIi NewCond))).
Proof.
  intros HZ Hth Hsen. unfold harvest_index. rewrite HZ, Hth.
  cbn [crop_maize Zmin Aer].
  rewrite root_zone_water_prof_one.
  cbn [bind Dr_Rz Dr_Zt TAW_Rz TAW_Zt].
  rewrite !fdiv_Some by lra. cbn [bind].
  destruct (Rle_dec (5 / 15) (5 / 15)); [|lra].
  destruct (water_stress_returns crop_maize InitCond 5 15 5 true _ _
              2.9 6 2.7 (stress_thresholds_maize _ Hsen))
    as [Ksw HK]; try reflexivity; try lra.
  exists Ksw. rewrite HK. cbn [bind].
  unfold temperature_stress.
  cbn [crop_maize PolHeatStress PolColdStress Z.eqb bind ret].
  reflexivity.
Qed.

Lemma harvest_index_day67 (HIref_ Fpre_ : R) :
  exists NewCond,
    harvest_index kst_one prof_one 0.1 crop_maize (cond_day67 HIref_ Fpre_)
      5 30 15 true = Some NewCond /\
    Fpol NewCond = 0.5 /\
    HIadj NewCond =
      (if Rgt_dec (Fpre_ * 1) (1 + 15 / 100) then 1 + 15 / 100
       else Fpre_ * 1)
      * (if Rge_dec (0.5 * 0.48) HIref_ then HIref_ else 0.5 * 0.48).
Proof.
  destruct (harvest_index_maize_prefix (cond_day67 HIref_ Fpre_))
    as [Ksw ->]; try reflexivity; try (simpl; lra).
  unfold harvest_index_build_up. cbn.
  eexists. split; [reflexivity|]. cbn. split; [reflexivity|].
  destruct (Rge_dec (0.5 * 0.48) HIref_); reflexivity.
Qed.

(** *** The pollination fraction stays non-negative *)

Lemma root_zone_water_TAW_nonneg (prof : SoilProfileClass)
  (InitCond_Zroot : R) (InitCond_th : list R)
  (Soil_zTop Crop_Zmin Crop_Aer : R)
  (WrAct_ : R) (Dr : DrClass) (TAW_ : TAWClass) (thRZ : thRZClass) :
  root_zone_water prof InitCond_Zroot InitCond_th Soil_zTop Crop_Zmin
    Crop_Aer = Some (WrAct_, Dr, TAW_, thRZ) ->
  0 <= TAW_Rz TAW_ /\ 0 <= TAW_Zt TAW_.
Proof.
  intros H. unfold root_zone_water in H.
  inv_bind_as H comp_sto Hcomp. inv_bind_as H w Hw.
  do 6 inv_bind H.
  assert (Hmax : forall x, 0 <= pymax x 0) by
    (intros x; destruct (pymax_spec x 0) as [[? ->]|[? ->]]; lra).
  destruct (Rgt_dec _ Soil_zTop).
  - inv_bind H. inv_bind_as H t Ht. destruct t as [[WrAct_Zt WrFC_Zt] WrWP_Zt].
    injection H as <- <- <- <-. simpl. auto.
  - injection H as <- <- <- <-. simpl. auto.
Qed.

Lemma temperature_stress_nonneg (Kst0 : KstClass) (Crop : CropClass)
  (Tmax Tmin : R) (Kst : KstClass) :
  temperature_stress Kst0 Crop Tmax Tmin = Some Kst ->
  0 <= Kst_PolH Kst0 -> 0 <= Kst_PolC Kst0 ->
  0 <= Kst_PolH Kst /\ 0 <= Kst_PolC Kst.
Proof.
  intros H HH HC. unfold temperature_stress, ret in H.
  inv_bind_as H PolH HPolH. inv_bind_as H PolC HPolC.
  injection H as <-. simpl.
  assert (Hlog : forall x q,
             fdiv (1 * 0.001) (0.001 + (1 - 0.001) * exp x) = Some q ->
             0 <= q).
  { intros x q Hq. apply fdiv_inv in Hq as [_ ->].
    pose proof (exp_pos x) as He.
    apply Rmult_le_pos; [lra|]. left. apply Rinv_0_lt_compat. nra. }
  split.
  - repeat match type of HPolH with
    | (if ?b then _ else _) = Some _ => destruct b
    | bind _ _ = Some _ => inv_bind HPolH
    | Some _ = Some _ => injection HPolH as <-
    end; try lra. eapply Hlog; eassumption.
  - repeat match type of HPolC with
    | (if ?b then _ else _) = Some _ => destruct b
    | bind _ _ = Some _ => inv_bind HPolC
    | Some _ = Some _ => injection HPolC as <-
    end; try lra. eapply Hlog; eassumption.
Qed.

Lemma flowering_fraction_nonneg (t Crop_FloweringCD : Z) (F : R) :
  flowering_fraction t Crop_FloweringCD = Some F -> 0 <= F.
Proof.
  intros H. unfold flowering_fraction, ret in H.
  inv_bind_as H F0 HF0.
  destruct (Rlt_dec F0 0); injection H as <-; lra.
Qed.

Lemma HIadj_pollination_nonneg (InitCond_CC InitCond_Fpol : R)
  (Crop_FloweringCD : Z) (Crop_CCmin Crop_exc : R) (Ksw : KswClass)
  (Kst : KstClass) (HIt : Z) (NewCond_Fpol : R) :
  HIadj_pollination InitCond_CC InitCond_Fpol Crop_FloweringCD Crop_CCmin
    Crop_exc Ksw Kst HIt = Some NewCond_Fpol ->
  (0 < Crop_FloweringCD)%Z ->
  0 <= InitCond_Fpol -> -100 <= Crop_exc ->
  0 <= Ksw_Pol Ksw -> 0 <= Kst_PolC Kst -> 0 <= Kst_PolH Kst ->
  0 <= NewCond_Fpol.
Proof.
  intros H HFl HFpol Hexc HPol HPolC HPolH.
  unfold HIadj_pollination, ret in H.
  inv_bind_as H FracFlow HFrac. inv_bind_as H dFpol HdFpol.
  assert (HFrac0 : forall F, FracFlow = Some F -> 0 <= F).
  { intros F ->.
    destruct (HIt =? 0)%Z; [injection HFrac as <-; lra|].
    destruct (HIt >? 0)%Z; [|discriminate].
    inv_bind_as HFrac F1 HF1. inv_bind_as HFrac F2 HF2.
    inv_bind_as HFrac F' HF'. injection HFrac as <-.
    apply flowering_fraction_nonneg in HF1, HF2.
    destruct (Rlt_dec _ _); [injection HF' as <-; lra|].
    apply fdiv_inv in HF' as [_ ->].
    apply Rmult_le_pos; [lra|]. left. apply Rinv_0_lt_compat.
    apply IZR_lt. assumption. }
  assert (HdF : 0 <= dFpol).
  { destruct (Rlt_dec InitCond_CC Crop_CCmin); [injection HdFpol as <-; lra|].
    inv_bind_as HdFpol F HF. injection HdFpol as <-.
    specialize (HFrac0 F HF).
    assert (HKs : 0 <= pymin (pymin (Ksw_Pol Ksw) (Kst_PolC Kst))
                         (Kst_PolH Kst)).
    { rewrite !pymin_Rmin. unfold Rmin.
      repeat destruct (Rle_dec _ _); lra. }
    apply Rmult_le_pos; [apply Rmult_le_pos; assumption | lra]. }
  destruct (Rgt_dec _ 1); injection H as <-; lra.
Qed.

Lemma harvest_index_build_up_Fpol (Crop : CropClass)
  (NewCond : InitCondClass) (InitCond_PreAdj : bool) (Ksw : KswClass)
  (Kst : KstClass) (HIi : R) (HIt : Z) (NewCond' : InitCondClass)
  (HIadj_ : R) :
  harvest_index_build_up Crop NewCond InitCond_PreAdj Ksw Kst HIi HIt
    = Some (NewCond', HIadj_) ->
  0 <= Fpol NewCond -> -100 <= exc Crop ->
  0 <= Ksw_Pol Ksw -> 0 <= Kst_PolC Kst -> 0 <= Kst_PolH Kst ->
  0 <= Fpol NewCond'.
Proof.
  intros H HFpol Hexc HPol HPolC HPolH.
  unfold harvest_index_build_up in H.
  destruct ((CropType Crop =? 2)%Z || (CropType Crop =? 3)%Z).
  - inv_bind_as H c1 Hc1.
    inv_bind_as H p Hp. destruct p as [c2 HImax].
    inv_bind_as H c3 Hc3.
    unfold ret in H. injection H as <- _.
    assert (H1 : Fpol c1 = Fpol NewCond).
    { destruct (negb InitCond_PreAdj).
      - apply HIadj_pre_anthesis_Fpol in Hc1. exact Hc1.
      - injection Hc1 as <-. reflexivity. }
    assert (H3 : Fpol c3 = Fpol c2).
    { destruct (HIt >? 0)%Z;
        [apply HIadj_post_anthesis_Fpol in Hc3; assumption|].
      injection Hc3 as <-. reflexivity. }
    rewrite H3.
    destruct (CropType Crop =? 3)%Z.
    + inv_bind_as Hp c2' Hc2'. unfold ret in Hp. injection Hp as <- _.
      destruct (Z.gtb_spec HIt 0); simpl in Hc2';
        [destruct (Z.leb_spec HIt (FloweringCD Crop)); simpl in Hc2'|].
      * inv_bind_as Hc2' F HF. injection Hc2' as <-. simpl.
        eapply HIadj_pollination_nonneg; try eassumption; lia || lra.
      * injection Hc2' as <-. lra.
      * injection Hc2' as <-. lra.
    + unfold ret in Hp. injection Hp as <- _. lra.
  - destruct (CropType Crop =? 1)%Z; [|discriminate].
    unfold ret in H. injection H as <- _. assumption.
Qed.

(** The pollination fraction returned by [harvest_index] is not negative
    under conditions on the inputs: a non-negative fraction before the
    call, an excess of potential fruits of at least -100 %, and
    non-negative initial temperature-stress coefficients. *)
Lemma harvest_index_Fpol_nonneg (Kst0 : KstClass)
  (Soil_Profile : SoilProfileClass) (Soil_zTop : R) (Crop : CropClass)
  (InitCond : InitCondClass) (Et0 Tmax Tmin : R) (GrowingSeason : bool)
  (NewCond : InitCondClass) :
  harvest_index Kst0 Soil_Profile Soil_zTop Crop InitCond Et0 Tmax Tmin
    GrowingSeason = Some NewCond ->
  0 <= Fpol InitCond -> -100 <= exc Crop ->
  0 <= Kst_PolH Kst0 -> 0 <= Kst_PolC Kst0 ->
  0 <= Fpol NewCond.
Proof.
  intros H HFpol Hexc HH HC. unfold harvest_index in H.
  destruct GrowingSeason;
    [|unfold ret in H; injection H as <-; simpl; assumption].
  inv_bind_as H rz Hrz. destruct rz as [[[WrAct_ Dr] TAW_] thRZ].
  destruct (root_zone_water_TAW_nonneg _ _ _ _ _ _ _ _ _ _ Hrz)
    as [HRz HZt].
  inv_bind_as H qRz HqRz. inv_bind_as H qZt HqZt.
  apply fdiv_inv in HqRz as [HRz0 _]. apply fdiv_inv in HqZt as [HZt0 _].
  assert (HTAW : 0 < snd (if Rle_dec qRz qZt then (Dr_Rz Dr, TAW_Rz TAW_)
                          else (Dr_Zt Dr, TAW_Zt TAW_))) by
    (destruct (Rle_dec qRz qZt); simpl; lra).
  destruct (if Rle_dec qRz qZt then (Dr_Rz Dr, TAW_Rz TAW_)
            else (Dr_Zt Dr, TAW_Zt TAW_)) as [Dr' TAW'].
  simpl in HTAW.
  inv_bind_as H Ksw HKsw. inv_bind_as H Kst HKst.
  inv_bind_as H r Hr. destruct r as [[c HIi] HIadj_].
  unfold ret in H. injection H as <-. simpl.
  destruct (temperature_stress_nonneg _ _ _ _ _ HKst HH HC) as [HPolH HPolC].
  assert (HPol : 0 <= Ksw_Pol Ksw).
  { destruct (water_stress_inv _ _ _ _ _ _ _ HKsw)
      as (pus & pls & Hth & _ & _ & _ & HPol & _).
    destruct (linear_entry_ok _ _ _ _ _ _ _ _ _ _ HTAW Hth HPol)
      as (pu & pl & _ & _ & _ & _ & HK & _).
    lra. }
  destruct (YieldForm InitCond && _).
  - inv_bind_as Hr p Hp. destruct p as [c' HIadj'].
    unfold ret in Hr. injection Hr as <- _ _.
    eapply harvest_index_build_up_Fpol; eassumption.
  - unfold ret in Hr. injection Hr as <- _ _. assumption.
Qed.

(** *** The pollination fraction stays at most one *)

Lemma HIadj_pollination_le_1 (InitCond_CC InitCond_Fpol : R)
  (Crop_FloweringCD : Z) (Crop_CCmin Crop_exc : R) (Ksw : KswClass)
  (Kst : KstClass) (HIt : Z) (NewCond_Fpol : R) :
  HIadj_pollination InitCond_CC InitCond_Fpol Crop_FloweringCD Crop_CCmin
    Crop_exc Ksw Kst HIt = Some NewCond_Fpol ->
  NewCond_Fpol <= 1.
Proof.
  intros H. unfold HIadj_pollination, ret in H.
  inv_bind_as H FracFlow HFrac. inv_bind_as H dFpol HdFpol.
  destruct (Rgt_dec _ 1); injection H as <-; lra.
Qed.

Lemma harvest_index_build_up_Fpol_le_1 (Crop : CropClass)
  (NewCond : InitCondClass) (InitCond_PreAdj : bool) (Ksw : KswClass)
  (Kst : KstClass) (HIi : R) (HIt : Z) (NewCond' : InitCondClass)
  (HIadj_ : R) :
  harvest_index_build_up Crop NewCond InitCond_PreAdj Ksw Kst HIi HIt
    = Some (NewCond', HIadj_) ->
  Fpol NewCond <= 1 ->
  Fpol NewCond' <= 1.
Proof.
  intros H HFpol.
  unfold harvest_index_build_up in H.
  destruct ((CropType Crop =? 2)%Z || (CropType Crop =? 3)%Z).
  - inv_bind_as H c1 Hc1.
    inv_bind_as H p Hp. destruct p as [c2 HImax].
    inv_bind_as H c3 Hc3.
    unfold ret in H. injection H as <- _.
    assert (H1 : Fpol c1 = Fpol NewCond).
    { destruct (negb InitCond_PreAdj).
      - apply HIadj_pre_anthesis_Fpol in Hc1. exact Hc1.
      - injection Hc1 as <-. reflexivity. }
    assert (H3 : Fpol c3 = Fpol c2).
    { destruct (HIt >? 0)%Z;
        [apply HIadj_post_anthesis_Fpol in Hc3; assumption|].
      injection Hc3 as <-. reflexivity. }
    rewrite H3.
    destruct (CropType Crop =? 3)%Z.
    + inv_bind_as Hp c2' Hc2'. unfold ret in Hp. injection Hp as <- _.
      destruct ((HIt >? 0)%Z && (HIt <=? FloweringCD Crop)%Z).
      * inv_bind_as Hc2' F HF. injection Hc2' as <-. simpl.
        eapply HIadj_pollination_le_1; eassumption.
      * injection Hc2' as <-. lra.
    + unfold ret in Hp. injection Hp as <- _. lra.
  - destruct (CropType Crop =? 1)%Z; [|discriminate].
    unfold ret in H. injection H as <- _. assumption.
Qed.

Lemma harvest_index_Fpol_le_1 (Kst0 : KstClass)
  (Soil_Profile : SoilProfileClass) (Soil_zTop : R) (Crop : CropClass)
  (InitCond : InitCondClass) (Et0 Tmax Tmin : R) (GrowingSeason : bool)
  (NewCond : InitCondClass) :
  harvest_index Kst0 Soil_Profile Soil_zTop Crop InitCond Et0 Tmax Tmin
    GrowingSeason = Some NewCond ->
  Fpol InitCond <= 1 ->
  Fpol NewCond <= 1.
Proof.
  intros H HFpol. unfold harvest_index in H.
  destruct GrowingSeason;
    [|unfold ret in H; injection H as <-; simpl; assumption].
  inv_bind_as H rz Hrz. destruct rz as [[[WrAct_ Dr] TAW_] thRZ].
  inv_bind_as H qRz HqRz. inv_bind_as H qZt HqZt.
  destruct (if Rle_dec qRz qZt then (Dr_Rz Dr, TAW_Rz TAW_)
            else (Dr_Zt Dr, TAW_Zt TAW_)) as [Dr' TAW'].
  inv_bind_as H Ksw HKsw. inv_bind_as H Kst HKst.
  inv_bind_as H r Hr. destruct r as [[c HIi] HIadj_].
  unfold ret in H. injection H as <-. simpl.
  destruct (YieldForm InitCond && _).
  - inv_bind_as Hr p Hp. destruct p as [c' HIadj'].
    unfold ret in Hr. injection Hr as <- _ _.
    eapply harvest_index_build_up_Fpol_le_1; eassumption.
  - unfold ret in Hr. injection Hr as <- _ _. assumption.
Qed.

(** Outside the yield-formation window [harvest_index] returns the
    previous [HI] and [HIadj]. *)
Lemma harvest_index_hold (Kst0 : KstClass)
  (Soil_Profile : SoilProfileClass) (Soil_zTop : R) (Crop : CropClass)
  (InitCond : InitCondClass) (Et0 Tmax Tmin : R) (NewCond : InitCondClass) :
  harvest_index Kst0 Soil_Profile Soil_zTop Crop InitCond Et0 Tmax Tmin true
    = Some NewCond ->
  YieldForm InitCond &&
    (DAP InitCond - DelayedCDs InitCond - HIstartCD Crop - 1 >=? 0)%Z
    = false ->
  HI NewCond = HI InitCond /\ HIadj NewCond = HIadj InitCond.
Proof.
  intros H Hb. unfold harvest_index in H.
  inv_bind_as H rz Hrz. destruct rz as [[[WrAct_ Dr] TAW_] thRZ].
  inv_bind_as H qRz HqRz. inv_bind_as H qZt HqZt.
  destruct (if Rle_dec qRz qZt then (Dr_Rz Dr, TAW_Rz TAW_)
            else (Dr_Zt Dr, TAW_Zt TAW_)) as [Dr' TAW'].
  inv_bind_as H Ksw HKsw. inv_bind_as H Kst HKst.
  inv_bind_as H r Hr. destruct r as [[c HIi] HIadj_].
  unfold ret in H. injection H as <-. simpl.
  rewrite Hb in Hr. unfold ret in Hr. injection Hr as <- <- <-.
  split; reflexivity.
Qed.

(** Inside the window the value returned as [HIadj] is the one computed
    by [harvest_index_build_up]. *)
Lemma harvest_index_window (Kst0 : KstClass)
  (Soil_Profile : SoilProfileClass) (Soil_zTop : R) (Crop : CropClass)
  (InitCond : InitCondClass) (Et0 Tmax Tmin : R) (NewCond : InitCondClass) :
  harvest_index Kst0 Soil_Profile Soil_zTop Crop InitCond Et0 Tmax Tmin true
    = Some NewCond ->
  YieldForm InitCond &&
    (DAP InitCond - DelayedCDs InitCond - HIstartCD Crop - 1 >=? 0)%Z
    = true ->
  exists Ksw Kst c,
    harvest_index_build_up Crop InitCond (PreAdj InitCond) Ksw Kst
      (HIref InitCond)
      (DAP InitCond - DelayedCDs InitCond - HIstartCD Crop - 1)
    = Some (c, HIadj NewCond) /\
    Fpol c = Fpol NewCond.
Proof.
  intros H Hb. unfold harvest_index in H.
  inv_bind_as H rz Hrz. destruct rz as [[[WrAct_ Dr] TAW_] thRZ].
  inv_bind_as H qRz HqRz. inv_bind_as H qZt HqZt.
  destruct (if Rle_dec qRz qZt then (Dr_Rz Dr, TAW_Rz TAW_)
            else (Dr_Zt Dr, TAW_Zt TAW_)) as [Dr' TAW'].
  inv_bind_as H Ksw HKsw. inv_bind_as H Kst HKst.
  inv_bind_as H r Hr. destruct r as [[c HIi] HIadj_].
  unfold ret in H. injection H as <-. simpl.
  rewrite Hb in Hr.
  inv_bind_as Hr p Hp. destruct p as [c' HIadj'].
  unfold ret in Hr. injection Hr as <- <- <-.
  exists Ksw, Kst, c'. split; [exact Hp | reflexivity].
Qed.

(** Claim C5.  On a day of the growing season for which [harvest_index]
    returns, write [cap] for [HI0 * (1 + dHI0 / 100)].

    The values the routine is called with in a simulation are: a
    reference harvest index in [[0, HI0]] (kept there by
    [HIref_current_day]), a pollination fraction in [[0, 1]] (written
    only by this routine, from zero), crop parameters [dHI0 >= 0] and
    [exc >= -100], and non-negative initial temperature-stress
    coefficients.  For such a call the pollination fraction stays in
    [[0, 1]]; inside the yield-formation window the returned [HIadj] is
    at most [cap]; and on any day it is at most [cap] if the previous
    [HIadj] was.  As [HIadj] starts at zero and is written only here,
    it never exceeds [cap].

    Outside the window, for every input, [HI] and [HIadj] keep their
    previous values. *)
Theorem harvest_index_cap_and_hold (Kst0 : KstClass)
  (Soil_Profile : SoilProfileClass) (Soil_zTop : R) (Crop : CropClass)
  (InitCond : InitCondClass) (Et0 Tmax Tmin : R) (NewCond : InitCondClass) :
  harvest_index Kst0 Soil_Profile Soil_zTop Crop InitCond Et0 Tmax Tmin true
    = Some NewCond ->
  let HIt := (DAP InitCond - DelayedCDs InitCond - HIstartCD Crop - 1)%Z in
  let cap := HI0 Crop * (1 + dHI0 Crop / 100) in
  (0 <= HIref InitCond <= HI0 Crop ->
   0 <= Fpol InitCond <= 1 ->
   0 <= dHI0 Crop -> -100 <= exc Crop ->
   0 <= Kst_PolH Kst0 -> 0 <= Kst_PolC Kst0 ->
   0 <= Fpol NewCond <= 1 /\
   (YieldForm InitCond = true -> (0 <= HIt)%Z -> HIadj NewCond <= cap) /\
   (HIadj InitCond <= cap -> HIadj NewCond <= cap)) /\
  (YieldForm InitCond = false \/ (HIt < 0)%Z ->
   HI NewCond = HI InitCond /\ HIadj NewCond = HIadj InitCond).
Proof.
  intros H HIt cap.
  assert (Hout : YieldForm InitCond = false \/ (HIt < 0)%Z ->
                 YieldForm InitCond && (HIt >=? 0)%Z = false).
  { intros [-> | Hlt]; [reflexivity|].
    destruct (Z.geb_spec HIt 0); [lia|]. apply andb_false_r. }
  split.
  - intros HHI [HF0 HF1] HdHI Hexc HH HC.
    pose proof (harvest_index_Fpol_nonneg _ _ _ _ _ _ _ _ _ _ H HF0 Hexc
                  HH HC) as HFpol0.
    pose proof (harvest_index_Fpol_le_1 _ _ _ _ _ _ _ _ _ _ H HF1)
      as HFpol1.
    assert (Hin : YieldForm InitCond && (HIt >=? 0)%Z = true ->
                  HIadj NewCond <= cap).
    { intros Hb.
      destruct (harvest_index_window _ _ _ _ _ _ _ _ _ H Hb)
        as (Ksw & Kst & c & Hbuild & Hc).
      eapply harvest_index_build_up_cap; try eassumption.
      rewrite Hc. assumption. }
    split; [split; assumption|]. split.
    + intros HY Ht. apply Hin. rewrite HY.
      destruct (Z.geb_spec HIt 0); [reflexivity | lia].
    + intros Hprev.
      destruct (YieldForm InitCond && (HIt >=? 0)%Z) eqn:Hb.
      * apply Hin. reflexivity.
      * destruct (harvest_index_hold _ _ _ _ _ _ _ _ _ H Hb) as [_ ->].
        assumption.
  - intros Ho. apply (harvest_index_hold _ _ _ _ _ _ _ _ _ H).
    apply Hout. assumption.
Qed.

(** The harvest-index call on the one-compartment profile for
    [crop_grain] without early senescence, up to the yield-formation
    test: a depletion of one third of the available water closes no
    stomata. *)
Lemma harvest_index_grain_prefix (InitCond : InitCondClass) :
  Zroot InitCond = 0.1 -> th InitCond = [0.25] ->
  tEarlySen InitCond <= 0 ->
  exists Ksw,
    Ksw_Sto Ksw = 1 /\
    harvest_index kst_one prof_one 0.1 crop_grain InitCond 5 30 15 true =
    (let HIi := HIref InitCond in
     let HIt :=
       (DAP InitCond - DelayedCDs InitCond - HIstartCD crop_grain - 1)%Z in
     '(NewCond, HIi, HIadj) <-
       (if YieldForm InitCond && (HIt >=? 0)%Z then
          '(NewCond, HIadj) <-
            harvest_index_build_up crop_grain InitCond (PreAdj InitCond)
              Ksw kst_one HIi HIt ;;
          ret (NewCond, HIi, HIadj)
        else ret (InitCond, HI InitCond, HIadj InitCond)) ;;
     ret (set_HIadj HIadj (set_HI HIi NewCond))).
Proof.
  intros HZ Hth Hsen. unfold harvest_index. rewrite HZ, Hth.
  cbn [crop_grain Zmin Aer].
  rewrite root_zone_water_prof_one.
  cbn [bind Dr_Rz Dr_Zt TAW_Rz TAW_Zt].
  rewrite !fdiv_Some by lra. cbn [bind].
  destruct (Rle_dec (5 / 15) (5 / 15)); [|lra].
  assert (Hth' : stress_thresholds crop_grain InitCond 5 true =
                 Some ([0.14; 0.69; 0.69; 0.8], [0.72; 1; 1; 1])).
  { rewrite stress_thresholds_plain; try reflexivity.
    - cbn [map p_up p_lo crop_grain].
      rewrite !clamp_unit_interval by lra. reflexivity.
    - discriminate.
    - right. assumption. }
  destruct (water_stress_returns crop_grain InitCond 5 15 5 true _ _
              2.9 6 2.7 Hth')
    as [Ksw HK]; try reflexivity; try lra.
  assert (HSto : Ksw_Sto Ksw = 1).
  { destruct (water_stress_inv _ _ _ _ _ _ _ HK)
      as (pus & pls & Hth2 & _ & HSto & _).
    assert (HTAW : 0 < 15) by lra.
    destruct (curve_entry_ok _ _ _ _ _ _ _ _ _ _ HTAW Hth2 HSto)
      as (pu & pl & Hpu & _ & _ & _ & _ & H1 & _).
    rewrite Hth' in Hth2. injection Hth2 as <- <-.
    cbn in Hpu. injection Hpu as <-. apply H1. lra. }
  exists Ksw. split; [exact HSto|]. rewrite HK. cbn [bind].
  unfold temperature_stress.
  cbn [crop_grain PolHeatStress PolColdStress Z.eqb bind ret].
  reflexivity.
Qed.

(** Day 120: the stomatal correction runs and leaves the post-anthesis
    multiplier at one, the product [1.2 * 1] exceeds the allowed 1.15
    and is cut back to it, and the returned [HIadj] is exactly the cap
    [0.48 * 1.15]. *)
Lemma harvest_index_day120 :
  exists NewCond,
    harvest_index kst_one prof_one 0.1 crop_grain cond_day120 5 30 15 true
      = Some NewCond /\
    sCor2 NewCond = 53 / 61 /\
    Fpost NewCond = 1 /\
    HIadj NewCond = HI0 crop_grain * (1 + dHI0 crop_grain / 100).
Proof.
  destruct (harvest_index_grain_prefix cond_day120)
    as (Ksw & HSto & ->); try reflexivity; try (simpl; lra).
  unfold harvest_index_build_up. cbn.
  rewrite HSto.
  assert (Hp : fpower 1 0.1 = Some 1).
  { unfold fpower. destruct (Rlt_dec 0 1); [|lra].
    unfold Rpower. rewrite ln_1, Rmult_0_r, exp_0. reflexivity. }
  rewrite Hp.
  unfold Rgt_b. repeat decide_real.
  cbn [andb bind].
  repeat (rewrite fdiv_Some by lra; cbn [bind]).
  cbn [bind ret].
  cbn [set_fpost_dwn set_sCor2 set_Fpost cond_day120 Fpre Fpost fpost_dwn
       sCor2].
  assert (Hd : 61 / 53 * (52 / 61 + 1 * (1 - (1 - 1) / 3) / 61) = 1)
    by lra.
  rewrite Hd.
  repeat decide_real.
  eexists. split; [reflexivity|]. cbn. repeat split; lra.
Qed.

Lemma harvest_index_cap_and_hold_witness :
  exists NewCond,
    harvest_index kst_one prof_one 0.1 crop_grain cond_day120 5 30 15 true
      = Some NewCond /\
    0 <= Fpol NewCond <= 1 /\
    HIadj NewCond <= HI0 crop_grain * (1 + dHI0 crop_grain / 100) /\
    HIadj NewCond = HI0 crop_grain * (1 + dHI0 crop_grain / 100).
Proof.
  destruct harvest_index_day120 as (NewCond & Heq & _ & _ & Hcap).
  exists NewCond. split; [exact Heq|].
  destruct (harvest_index_cap_and_hold kst_one prof_one 0.1 crop_grain
              cond_day120 5 30 15 NewCond Heq) as [Hin _].
  destruct Hin as (HFpol & Hwin & _); try (simpl; lra).
  split; [exact HFpol|]. split; [|exact Hcap].
  apply Hwin; [reflexivity | simpl; lia].
Defined.

(** * Further properties of the embedded routines *)

(** ** Canopy development *)

(** The cover returned by [cc_development] lies in [[0,1]] in either
    mode, and in growth mode it does not exceed a non-negative maximum
    cover [CCx]. *)
Theorem cc_development_range (CCo CCx CGC CDC dt : R) (Mode : string)
  (CCx0 CC_ : R) :
  cc_development CCo CCx CGC CDC dt Mode CCx0 = Some CC_ ->
  0 <= CC_ <= 1 /\
  (Mode = "Growth"%string -> 0 <= CCx -> CC_ <= CCx).
Proof.
  intros H. unfold cc_development in H.
  inv_bind_as H c Hc. unfold ret in H. injection H as <-.
  split.
  - destruct (Rgt_dec c 1); [lra|]. destruct (Rlt_dec c 0); lra.
  - intros -> HCCx. simpl in Hc.
    inv_bind_as Hc c' Hc'. unfold ret in Hc. injection Hc as <-.
    destruct (Rgt_dec c' CCx);
      destruct (Rgt_dec _ 1); try lra; destruct (Rlt_dec _ 0); lra.
Qed.

Lemma cc_development_range_witness :
  0 <= 0.8 / 2 <= 1 /\
  ("Growth"%string = "Growth"%string -> 0 <= 0.8 -> 0.8 / 2 <= 0.8).
Proof.
  apply (cc_development_range 0.2 0.8 1 0.05 (ln 2) "Growth" 0.8 (0.8 / 2)).
  apply cc_development_at_switch; try lra.
  unfold cc_growth_exp. rewrite Rmult_1_l, exp_ln by lra. lra.
Defined.

Lemma if_Some {A : Type} {P Q : Prop} (c : {P} + {Q}) (a b : A) :
  (if c then Some a else Some b) = Some (if c then a else b).
Proof. destruct c; reflexivity. Qed.

(** The value of the growth branch before the two limits, as a function
    of [e = exp (CGC * dt)], does not decrease with [e]. *)
Lemma growth_piece_monotone (CCo CCx e1 e2 : R) :
  0 < CCo -> 0 < CCx -> 0 < e1 -> e1 <= e2 ->
  (if Rgt_dec (CCo * e1) (CCx / 2)
   then CCx - 0.25 * (CCx / CCo) * CCx * / e1 else CCo * e1) <=
  (if Rgt_dec (CCo * e2) (CCx / 2)
   then CCx - 0.25 * (CCx / CCo) * CCx * / e2 else CCo * e2).
Proof.
  intros HCCo HCCx He1 He12.
  set (k := 0.25 * (CCx / CCo) * CCx).
  assert (Hk : k * CCo = 0.25 * CCx * CCx) by (unfold k; rfield; lra).
  assert (Hk0 : 0 < k) by nra.
  assert (Hi1 : 0 < / e1) by (apply Rinv_0_lt_compat; lra).
  assert (Hi2 : 0 < / e2) by (apply Rinv_0_lt_compat; lra).
  assert (Hi : / e2 <= / e1) by (apply Rinv_le_contravar; lra).
  assert (Hhalf : forall e, 0 < e -> CCo * e > CCx / 2 -> k * / e <= CCx / 2).
  { intros e He Hgt.
    apply (Rmult_le_reg_r e); [assumption|].
    rewrite Rmult_assoc, Rinv_l by lra.
    apply (Rmult_le_reg_r CCo); [assumption|]. nra. }
  destruct (Rgt_dec (CCo * e1) (CCx / 2)) as [H1 | H1];
    destruct (Rgt_dec (CCo * e2) (CCx / 2)) as [H2 | H2].
  - nra.
  - nra.
  - specialize (Hhalf e2 ltac:(lra) H2). lra.
  - nra.
Qed.

(** The two limits of [cc_development]: at most [CCx], then within
    [[0,1]]. *)
Lemma cc_limits_bounds (g CCx : R) :
  let c := if Rgt_dec g CCx then CCx else g in
  let r := if Rgt_dec c 1 then 1 else if Rlt_dec c 0 then 0 else c in
  0 <= r <= 1 /\ (0 <= CCx -> r <= CCx).
Proof.
  cbv zeta. destruct (Rgt_dec g CCx);
    destruct (Rgt_dec _ 1); try lra; destruct (Rlt_dec _ 0); lra.
Qed.

Lemma cc_limits_monotone (g1 g2 CCx : R) :
  g1 <= g2 ->
  (let c := if Rgt_dec g1 CCx then CCx else g1 in
   if Rgt_dec c 1 then 1 else if Rlt_dec c 0 then 0 else c) <=
  (let c := if Rgt_dec g2 CCx then CCx else g2 in
   if Rgt_dec c 1 then 1 else if Rlt_dec c 0 then 0 else c).
Proof.
  intros Hg. cbv zeta.
  destruct (Rgt_dec g1 CCx); destruct (Rgt_dec g2 CCx);
  repeat match goal with
  | |- context [if Rgt_dec ?a ?b then _ else _] =>
      destruct (Rgt_dec a b)
  | |- context [if Rlt_dec ?a ?b then _ else _] =>
      destruct (Rlt_dec a b)
  end; lra.
Qed.

(** The growth branch in closed form. *)
Lemma cc_development_growth_value (CCo CCx CGC CDC dt CCx0 : R) :
  CCo <> 0 ->
  cc_development CCo CCx CGC CDC dt "Growth" CCx0 =
  Some (let c :=
          if Rgt_dec
               (if Rgt_dec (CCo * exp (CGC * dt)) (CCx / 2)
                then CCx - 0.25 * (CCx / CCo) * CCx * / exp (CGC * dt)
                else CCo * exp (CGC * dt)) CCx
          then CCx
          else if Rgt_dec (CCo * exp (CGC * dt)) (CCx / 2)
               then CCx - 0.25 * (CCx / CCo) * CCx * / exp (CGC * dt)
               else CCo * exp (CGC * dt) in
        if Rgt_dec c 1 then 1 else if Rlt_dec c 0 then 0 else c).
Proof.
  intros HCCo.
  unfold cc_development, cc_growth_exp, cc_growth_decay. simpl.
  rewrite fdiv_Some by assumption. cbn [bind ret].
  replace (- CGC * dt) with (- (CGC * dt)) by ring.
  rewrite exp_Ropp, if_Some. reflexivity.
Qed.

(** In growth mode with positive [CCo], [CCx] and a non-negative growth
    coefficient, the cover does not decrease with the elapsed time. *)
Theorem cc_development_growth_monotone (CCo CCx CGC CDC dt1 dt2 CCx0 : R) :
  0 < CCo -> 0 < CCx -> 0 <= CGC -> dt1 <= dt2 ->
  exists CC1 CC2,
    cc_development CCo CCx CGC CDC dt1 "Growth" CCx0 = Some CC1 /\
    cc_development CCo CCx CGC CDC dt2 "Growth" CCx0 = Some CC2 /\
    CC1 <= CC2.
Proof.
  intros HCCo HCCx HCGC Hdt.
  assert (He : exp (CGC * dt1) <= exp (CGC * dt2)) by (apply exp_le; nra).
  pose proof (exp_pos (CGC * dt1)) as Hp1.
  rewrite !cc_development_growth_value by lra.
  eexists. eexists. split; [reflexivity|]. split; [reflexivity|].
  apply cc_limits_monotone, growth_piece_monotone; assumption.
Qed.

Lemma cc_development_growth_monotone_witness :
  exists CC1 CC2,
    cc_development 0.1 0.8 0.1 0.05 10 "Growth" 0.8 = Some CC1 /\
    cc_development 0.1 0.8 0.1 0.05 20 "Growth" 0.8 = Some CC2 /\
    CC1 <= CC2.
Proof.
  apply (cc_development_growth_monotone 0.1 0.8 0.1 0.05 10 20 0.8); lra.
Defined.

(** The decline curve through yesterday's cover, in exact real
    arithmetic: the pair [(CCXadj, CDCadj)] computed by [update_CCx_CDC]
    for the cover [CCprev] at time [dt] makes [cc_development] in decline
    mode, with [CCXadj] as both maxima, return [CCprev] at that time.  The
    decline must not have reached zero at [dt] ([E < 21]) and [CCprev]
    must not be so small that the adjusted maximum falls below 0.001.
    The equality is one of real numbers; computed in binary64 the cover
    returned agrees with [CCprev] up to rounding only. *)
Theorem update_CCx_CDC_round_trip (CCprev CDC CCx dt CCo CGC : R) :
  let E := exp (dt * (CDC * 3.33 / (CCx + 2.29))) in
  0 <= CCx -> E < 21 ->
  0.001 * (1 - 0.05 * (E - 1)) <= CCprev -> CCprev <= 1 ->
  exists CCXadj CDCadj,
    update_CCx_CDC CCprev CDC CCx dt = Some (CCXadj, CDCadj) /\
    cc_development CCo CCXadj CGC CDCadj dt "Decline" CCXadj = Some CCprev.
Proof.
  intros E HCCx HE Hlow Hhigh.
  set (D := 1 - 0.05 * (E - 1)) in *.
  assert (HD : 0 < D) by (unfold D; lra).
  assert (HX : 0.001 <= CCprev / D).
  { apply (Rmult_le_reg_r D); [assumption|].
    unfold Rdiv. rewrite Rmult_assoc, Rinv_l by lra. lra. }
  unfold update_CCx_CDC.
  rewrite fdiv_Some by lra. cbn [bind]. fold E. fold D.
  rewrite fdiv_Some by lra. cbn [bind].
  rewrite fdiv_Some by lra. cbn [bind ret].
  eexists. eexists. split; [reflexivity|].
  set (X := CCprev / D) in *.
  unfold cc_development. simpl.
  destruct (Rlt_dec X 0.001); [lra|].
  rewrite fdiv_Some by lra. cbn [bind].
  rewrite fdiv_Some by lra. cbn [bind ret].
  replace (dt * (CDC * ((X + 2.29) / (CCx + 2.29))) * 3.33
           * ((X + 2.29) / (X + 2.29)) / (X + 2.29))
    with (dt * (CDC * 3.33 / (CCx + 2.29))) by (rfield; lra).
  fold E. fold D.
  replace (X * D) with CCprev by (unfold X; field; lra).
  destruct (Rgt_dec CCprev 1); [lra|].
  destruct (Rlt_dec CCprev 0); [nra|]. reflexivity.
Qed.

Lemma update_CCx_CDC_round_trip_witness :
  exists CCXadj CDCadj,
    update_CCx_CDC 0.5 0.1 0.8 1 = Some (CCXadj, CDCadj) /\
    cc_development 0.05 CCXadj 0.1 CDCadj 1 "Decline" CCXadj = Some 0.5.
Proof.
  assert (He : exp (1 * (0.1 * 3.33 / (0.8 + 2.29))) <= 3).
  { apply Rle_trans with (exp 1); [|exact exp_le_3].
    apply exp_le.
    apply (Rmult_le_reg_r (0.8 + 2.29)); [lra|].
    replace (1 * (0.1 * 3.33 / (0.8 + 2.29)) * (0.8 + 2.29))
      with (0.1 * 3.33) by (rfield; lra).
    lra. }
  pose proof (exp_pos (1 * (0.1 * 3.33 / (0.8 + 2.29)))) as Hp.
  apply (update_CCx_CDC_round_trip 0.5 0.1 0.8 1 0.05 0.1); lra.
Defined.

(** The time required to reach a cover between [CCo] and [CCx] is
    positive, and developing for that time gives the cover back. *)
Lemma cc_required_time_positive (CCprev CCo CCx CGC CDC CCx0 : R) :
  0 < CCo -> CCo < CCprev -> CCprev < CCx -> CCx <= 1 -> 0 < CGC ->
  exists tReq,
    cc_required_time CCprev CCo CCx CGC CDC "CGC" = Some tReq /\
    0 < tReq /\
    cc_development CCo CCx CGC CDC tReq "Growth" CCx0 = Some CCprev.
Proof.
  intros HCCo Hprev Hx Hx1 HCGC.
  assert (Hpos : forall q, 1 < q -> 0 < ln q / CGC).
  { intros q Hq. apply Rdiv_lt_0_compat; [|assumption].
    rewrite <- ln_1. apply ln_increasing; lra. }
  unfold cc_required_time, cc_development. simpl.
  destruct (Rle_dec CCprev (CCx / 2)) as [Hlow | Hhigh].
  - assert (Hq : 1 < CCprev / CCo).
    { apply (Rmult_lt_reg_r CCo); [assumption|].
      unfold Rdiv. rewrite Rmult_assoc, Rinv_l by lra. lra. }
    unfold bind at 1 2. rewrite fdiv_Some by lra.
    rewrite flog_Some by lra. rewrite fdiv_Some by lra.
    eexists. split; [reflexivity|]. split; [apply Hpos; assumption|].
    unfold cc_growth_exp.
    replace (CGC * (ln (CCprev / CCo) / CGC)) with (ln (CCprev / CCo))
      by (field; lra).
    rewrite exp_ln by lra.
    replace (CCo * (CCprev / CCo)) with CCprev by (field; lra).
    destruct (Rgt_dec CCprev (CCx / 2)); [lra|].
    unfold bind, ret.
    destruct (Rgt_dec CCprev CCx); [lra|].
    destruct (Rgt_dec CCprev 1); [lra|].
    destruct (Rlt_dec CCprev 0); [lra|]. reflexivity.
  - set (q := 0.25 * CCx * CCx / CCo / (CCx - CCprev)).
    assert (Hq : 1 < q).
    { unfold q.
      apply (Rmult_lt_reg_r (CCo * (CCx - CCprev))); [nra|].
      replace (0.25 * CCx * CCx / CCo / (CCx - CCprev)
               * (CCo * (CCx - CCprev)))
        with (0.25 * CCx * CCx) by (rfield; lra).
      nra. }
    unfold bind at 1 2 3. rewrite fdiv_Some by lra.
    rewrite fdiv_Some by lra. fold q.
    rewrite flog_Some by lra. rewrite fdiv_Some by lra.
    eexists. split; [reflexivity|]. split; [apply Hpos; assumption|].
    unfold cc_growth_exp, cc_growth_decay.
    replace (- CGC * (ln q / CGC)) with (- ln q) by (field; lra).
    replace (CGC * (ln q / CGC)) with (ln q) by (field; lra).
    rewrite exp_Ropp, exp_ln by lra.
    assert (Hgrow : CCo * q = 0.25 * CCx * CCx / (CCx - CCprev)) by
      (unfold q; rfield; lra).
    assert (Hhalf : CCo * q > CCx / 2).
    { rewrite Hgrow.
      apply Rlt_gt, (Rmult_lt_reg_r (CCx - CCprev)); [lra|].
      replace (0.25 * CCx * CCx / (CCx - CCprev) * (CCx - CCprev))
        with (0.25 * CCx * CCx) by (rfield; lra).
      nra. }
    destruct (Rgt_dec (CCo * q) (CCx / 2)); [|lra].
    unfold bind, ret. rewrite fdiv_Some by lra.
    replace (CCx - 0.25 * (CCx / CCo) * CCx * / q) with CCprev
      by (unfold q; rfield; lra).
    destruct (Rgt_dec CCprev CCx); [lra|].
    destruct (Rgt_dec CCprev 1); [lra|].
    destruct (Rlt_dec CCprev 0); [lra|]. reflexivity.
Qed.

(** [adjust_CCx] returns a cover in [[0,1]].  For a previous cover
    strictly between [CCo] and [CCx], and with time left before the end of
    canopy development, the routine returns and the adjusted maximum is
    at most [CCx]; in exact real arithmetic it is also at least the
    previous cover.  The lower bound is one of real numbers: with no time
    left the adjusted maximum is the previous cover itself, and computed
    in binary64 it can fall below it in the last place. *)
Theorem adjust_CCx_range (CCprev CCo CCx CGC CDC dt tSum Crop_CanopyDevEnd
  Crop_CCx : R) :
  (forall CCxAdj,
      adjust_CCx CCprev CCo CCx CGC CDC dt tSum Crop_CanopyDevEnd Crop_CCx
        = Some CCxAdj -> 0 <= CCxAdj <= 1) /\
  (0 < CCo -> CCo < CCprev -> CCprev < CCx -> CCx <= 1 -> 0 < CGC ->
   0 <= (Crop_CanopyDevEnd - tSum) + dt ->
   exists CCxAdj,
     adjust_CCx CCprev CCo CCx CGC CDC dt tSum Crop_CanopyDevEnd Crop_CCx
       = Some CCxAdj /\
     CCprev <= CCxAdj <= CCx).
Proof.
  split.
  - intros CCxAdj H. unfold adjust_CCx in H.
    inv_bind_as H t Ht. destruct (Rgt_dec t 0).
    + unfold cc_development in H. inv_bind_as H c Hc.
      unfold ret in H. injection H as <-.
      destruct (Rgt_dec c 1); [lra|]. destruct (Rlt_dec c 0); lra.
    + unfold ret in H. injection H as <-. lra.
  - intros HCCo Hprev Hx Hx1 HCGC Hleft.
    destruct (cc_required_time_positive CCprev CCo CCx CGC CDC Crop_CCx)
      as (tReq & Ht & Htpos & Hdev); try assumption.
    unfold adjust_CCx. rewrite Ht. cbn [bind].
    destruct (Rgt_dec tReq 0); [|lra].
    rewrite cc_development_growth_value in Hdev by lra.
    injection Hdev as Hdev.
    rewrite cc_development_growth_value by lra.
    eexists. split; [reflexivity|]. split.
    + rewrite <- Hdev at 1.
      apply cc_limits_monotone, growth_piece_monotone;
        try lra; [apply exp_pos | apply exp_le; nra].
    + apply cc_limits_bounds. lra.
Qed.

Lemma adjust_CCx_range_witness :
  exists CCxAdj,
    adjust_CCx 0.6 0.1 0.8 0.1 0.05 1 50 60 0.8 = Some CCxAdj /\
    0.6 <= CCxAdj <= 0.8.
Proof.
  apply (proj2 (adjust_CCx_range 0.6 0.1 0.8 0.1 0.05 1 50 60 0.8)); lra.
Defined.

(** ** Temperature stress *)

(** The logistic value used for partial temperature stress lies strictly
    between zero and one. *)
Lemma logistic_pollination_range (x q : R) :
  fdiv (1 * 0.001) (0.001 + (1 - 0.001) * exp x) = Some q -> 0 < q < 1.
Proof.
  intros Hq. apply fdiv_inv in Hq as [_ ->].
  pose proof (exp_pos x) as He.
  assert (Hd : 0.001 < 0.001 + (1 - 0.001) * exp x) by nra.
  split.
  - apply Rdiv_lt_0_compat; lra.
  - apply (Rmult_lt_reg_r (0.001 + (1 - 0.001) * exp x)); [lra|].
    unfold Rdiv. rewrite Rmult_assoc, Rinv_l by lra. lra.
Qed.

Ltac finish_cases :=
  repeat split; intros;
  repeat match goal with
  | H : _ \/ _ |- _ => destruct H
  | H : _ /\ _ |- _ => destruct H
  end; first [lra | lia].

(** With the heat and cold switches at 0 or 1, both pollination
    coefficients lie in [[0,1]].  A switch at 0 gives the coefficient one.
    With the heat switch at 1 the coefficient is one up to [Tmax_lo] and
    zero from [Tmax_up] on (above [Tmax_lo]); with the cold switch at 1 it
    is one from [Tmin_up] on and zero down from [Tmin_lo] (below
    [Tmin_up]). *)
Theorem temperature_stress_range (Kst0 : KstClass) (Crop : CropClass)
  (Tmax Tmin : R) (Kst : KstClass) :
  temperature_stress Kst0 Crop Tmax Tmin = Some Kst ->
  ((PolHeatStress Crop = 0 \/ PolHeatStress Crop = 1)%Z ->
   0 <= Kst_PolH Kst <= 1) /\
  ((PolColdStress Crop = 0 \/ PolColdStress Crop = 1)%Z ->
   0 <= Kst_PolC Kst <= 1) /\
  (PolHeatStress Crop = 0%Z \/
   (PolHeatStress Crop = 1%Z /\ Tmax <= Tmax_lo Crop) -> Kst_PolH Kst = 1) /\
  (PolHeatStress Crop = 1%Z -> Tmax_lo Crop < Tmax -> Tmax_up Crop <= Tmax ->
   Kst_PolH Kst = 0) /\
  (PolColdStress Crop = 0%Z \/
   (PolColdStress Crop = 1%Z /\ Tmin_up Crop <= Tmin) -> Kst_PolC Kst = 1) /\
  (PolColdStress Crop = 1%Z -> Tmin < Tmin_up Crop -> Tmin <= Tmin_lo Crop ->
   Kst_PolC Kst = 0).
Proof.
  intros H. unfold temperature_stress, ret in H.
  inv_bind_as H PolH HPolH. inv_bind_as H PolC HPolC.
  injection H as <-. simpl.
  assert (HH : ((PolHeatStress Crop = 0 \/ PolHeatStress Crop = 1)%Z ->
                0 <= PolH <= 1) /\
               (PolHeatStress Crop = 0%Z \/
                (PolHeatStress Crop = 1%Z /\ Tmax <= Tmax_lo Crop) ->
                PolH = 1) /\
               (PolHeatStress Crop = 1%Z -> Tmax_lo Crop < Tmax ->
                Tmax_up Crop <= Tmax -> PolH = 0)).
  { destruct (Z.eqb_spec (PolHeatStress Crop) 0) as [E0 | E0].
    - injection HPolH as <-. finish_cases.
    - destruct (Z.eqb_spec (PolHeatStress Crop) 1) as [E1 | E1].
      + destruct (Rle_dec Tmax (Tmax_lo Crop)).
        * injection HPolH as <-. finish_cases.
        * destruct (Rge_dec Tmax (Tmax_up Crop)).
          -- injection HPolH as <-. finish_cases.
          -- inv_bind_as HPolH Trel HTrel.
             apply logistic_pollination_range in HPolH.
             finish_cases.
      + finish_cases. }
  assert (HC : ((PolColdStress Crop = 0 \/ PolColdStress Crop = 1)%Z ->
                0 <= PolC <= 1) /\
               (PolColdStress Crop = 0%Z \/
                (PolColdStress Crop = 1%Z /\ Tmin_up Crop <= Tmin) ->
                PolC = 1) /\
               (PolColdStress Crop = 1%Z -> Tmin < Tmin_up Crop ->
                Tmin <= Tmin_lo Crop -> PolC = 0)).
  { destruct (Z.eqb_spec (PolColdStress Crop) 0) as [E0 | E0].
    - injection HPolC as <-. finish_cases.
    - destruct (Z.eqb_spec (PolColdStress Crop) 1) as [E1 | E1].
      + destruct (Rge_dec Tmin (Tmin_up Crop)).
        * injection HPolC as <-. finish_cases.
        * destruct (Rle_dec Tmin (Tmin_lo Crop)).
          -- injection HPolC as <-. finish_cases.
          -- inv_bind_as HPolC Trel HTrel.
             apply logistic_pollination_range in HPolC.
             finish_cases.
      + finish_cases. }
  tauto.
Qed.

Lemma temperature_stress_maize :
  temperature_stress kst_one crop_maize 30 15 = Some kst_one.
Proof. unfold temperature_stress. cbn. reflexivity. Qed.

Lemma temperature_stress_range_witness :
  0 <= Kst_PolH kst_one <= 1 /\ 0 <= Kst_PolC kst_one <= 1.
Proof.
  pose proof (temperature_stress_range kst_one crop_maize 30 15 kst_one
                temperature_stress_maize) as (HH & HC & _).
  split; [apply HH | apply HC]; left; reflexivity.
Defined.

(** ** Harvest-index adjustments *)

(** What [HIadj_pollination] adds to the pollination fraction. *)
Lemma HIadj_pollination_increment (InitCond_CC InitCond_Fpol : R)
  (Crop_FloweringCD : Z) (Crop_CCmin Crop_exc : R) (Ksw : KswClass)
  (Kst : KstClass) (HIt : Z) (NewCond_Fpol : R) :
  HIadj_pollination InitCond_CC InitCond_Fpol Crop_FloweringCD Crop_CCmin
    Crop_exc Ksw Kst HIt = Some NewCond_Fpol ->
  exists dFpol,
    NewCond_Fpol =
      (if Rgt_dec (InitCond_Fpol + dFpol) 1 then 1
       else InitCond_Fpol + dFpol) /\
    (InitCond_CC < Crop_CCmin -> dFpol = 0) /\
    ((0 < Crop_FloweringCD)%Z -> -100 <= Crop_exc ->
     0 <= Ksw_Pol Ksw -> 0 <= Kst_PolC Kst -> 0 <= Kst_PolH Kst ->
     0 <= dFpol).
Proof.
  intros H. unfold HIadj_pollination, ret in H.
  inv_bind_as H FracFlow HFrac. inv_bind_as H dFpol HdFpol.
  exists dFpol. split; [destruct (Rgt_dec _ 1); injection H as <-; reflexivity|].
  split.
  - intros Hcc. destruct (Rlt_dec InitCond_CC Crop_CCmin); [|lra].
    injection HdFpol as <-. reflexivity.
  - intros HFl Hexc HPol HPolC HPolH.
    destruct (Rlt_dec InitCond_CC Crop_CCmin); [injection HdFpol as <-; lra|].
    inv_bind_as HdFpol F HF. injection HdFpol as <-. subst FracFlow.
    assert (HF0 : 0 <= F).
    { destruct (HIt =? 0)%Z; [injection HFrac as <-; lra|].
      destruct (HIt >? 0)%Z; [|discriminate].
      inv_bind_as HFrac F1 HF1. inv_bind_as HFrac F2 HF2.
      inv_bind_as HFrac F' HF'. injection HFrac as <-.
      apply flowering_fraction_nonneg in HF1, HF2.
      destruct (Rlt_dec _ _); [injection HF' as <-; lra|].
      apply fdiv_inv in HF' as [_ ->].
      apply Rmult_le_pos; [lra|]. left. apply Rinv_0_lt_compat.
      apply IZR_lt. assumption. }
    assert (HKs : 0 <= pymin (pymin (Ksw_Pol Ksw) (Kst_PolC Kst))
                         (Kst_PolH Kst)).
    { rewrite !pymin_Rmin. unfold Rmin.
      repeat destruct (Rle_dec _ _); lra. }
    apply Rmult_le_pos; [apply Rmult_le_pos; assumption | lra].
Qed.

(** The pollination fraction never exceeds one.  Below the minimum canopy
    cover nothing is added to it.  With a positive flowering duration, an
    excess of at least -100 % and non-negative stress coefficients, a
    fraction that is at most one does not decrease. *)
Theorem HIadj_pollination_capped (InitCond_CC InitCond_Fpol : R)
  (Crop_FloweringCD : Z) (Crop_CCmin Crop_exc : R) (Ksw : KswClass)
  (Kst : KstClass) (HIt : Z) (NewCond_Fpol : R) :
  HIadj_pollination InitCond_CC InitCond_Fpol Crop_FloweringCD Crop_CCmin
    Crop_exc Ksw Kst HIt = Some NewCond_Fpol ->
  NewCond_Fpol <= 1 /\
  (InitCond_CC < Crop_CCmin -> InitCond_Fpol <= 1 ->
   NewCond_Fpol = InitCond_Fpol) /\
  ((0 < Crop_FloweringCD)%Z -> -100 <= Crop_exc ->
   0 <= Ksw_Pol Ksw -> 0 <= Kst_PolC Kst -> 0 <= Kst_PolH Kst ->
   InitCond_Fpol <= 1 -> InitCond_Fpol <= NewCond_Fpol).
Proof.
  intros H.
  destruct (HIadj_pollination_increment _ _ _ _ _ _ _ _ _ H)
    as (dFpol & -> & Hsmall & Hpos).
  clear H.
  split; [destruct (Rgt_dec (InitCond_Fpol + dFpol) 1); lra|]. split.
  - intros Hcc Hle. rewrite (Hsmall Hcc).
    destruct (Rgt_dec (InitCond_Fpol + 0) 1); lra.
  - intros HFl Hexc HPol HPolC HPolH Hle.
    specialize (Hpos HFl Hexc HPol HPolC HPolH).
    destruct (Rgt_dec (InitCond_Fpol + dFpol) 1); lra.
Qed.

Lemma HIadj_pollination_day0 :
  HIadj_pollination 0.9 0.5 13 0.05 50 ksw_one kst_one 0 = Some 0.5.
Proof.
  unfold HIadj_pollination. cbn [Z.eqb bind ret].
  destruct (Rlt_dec 0.9 0.05); [lra|]. cbn [bind ret].
  replace (0.5 + pymin (pymin (Ksw_Pol ksw_one) (Kst_PolC kst_one))
                   (Kst_PolH kst_one) * 0 * (1 + 50 / 100))
    with 0.5 by ring.
  destruct (Rgt_dec 0.5 1); [lra | reflexivity].
Qed.

Lemma HIadj_pollination_capped_witness :
  0.5 <= 1 /\
  (0.9 < 0.05 -> 0.5 <= 1 -> 0.5 = 0.5) /\
  ((0 < 13)%Z -> -100 <= 50 ->
   0 <= Ksw_Pol ksw_one -> 0 <= Kst_PolC kst_one -> 0 <= Kst_PolH kst_one ->
   0.5 <= 1 -> 0.5 <= 0.5).
Proof.
  exact (HIadj_pollination_capped 0.9 0.5 13 0.05 50 ksw_one kst_one 0 0.5
           HIadj_pollination_day0).
Defined.

(** The pre-anthesis multiplier: zero when at most 1 % green canopy is
    left; otherwise one when no adjustment is configured
    ([dHI_pre <= 0]) and between one and [1 + dHI_pre / 100] when it is.
    Only [Fpre] is written: the canopy cover stays as it was. *)
Theorem HIadj_pre_anthesis_range (InitCond : InitCondClass)
  (Crop_dHI_pre : R) (NewCond : InitCondClass) :
  HIadj_pre_anthesis InitCond Crop_dHI_pre = Some NewCond ->
  CC NewCond = CC InitCond /\
  (CC InitCond <= 0.01 -> Fpre NewCond = 0) /\
  (0.01 < CC InitCond -> Crop_dHI_pre <= 0 -> Fpre NewCond = 1) /\
  (0.01 < CC InitCond -> 0 < Crop_dHI_pre ->
   1 <= Fpre NewCond <= 1 + Crop_dHI_pre / 100).
Proof.
  intros H. unfold HIadj_pre_anthesis, ret in H.
  inv_bind_as H c Hc.
  assert (Hsin : forall x,
             0 < Crop_dHI_pre ->
             1 <= 1 + (1 + sin x) / 2 * (Crop_dHI_pre / 100)
               <= 1 + Crop_dHI_pre / 100).
  { intros x Hd. pose proof (SIN_bound x) as [Hs1 Hs2]. split; nra. }
  assert (Hc' : CC c = CC InitCond /\
                (Crop_dHI_pre <= 0 -> Fpre c = 1) /\
                (0 < Crop_dHI_pre ->
                 1 <= Fpre c <= 1 + Crop_dHI_pre / 100)).
  { destruct (Rgt_dec Crop_dHI_pre 0) as [Hd | Hd].
    - inv_bind_as Hc Br HBr. inv_bind_as Hc l Hl.
      inv_bind_as Hc ratio_low Hlow. inv_bind_as Hc ratio_upp Hupp.
      destruct (_ && _); [|destruct (_ && _)]; injection Hc as <-; simpl;
        (split; [reflexivity|]); (split; [lra|]); intros _;
        try apply Hsin; lra.
    - injection Hc as <-. simpl. repeat split; lra. }
  destruct Hc' as (HCC & H1 & H2).
  destruct (Rle_dec (CC c) 0.01); injection H as <-; simpl;
    rewrite ?HCC in *; repeat split; intros; try lra; auto.
Qed.

Lemma HIadj_pre_anthesis_day30 :
  HIadj_pre_anthesis cond_day30 0 = Some (set_Fpre 1 cond_day30).
Proof.
  unfold HIadj_pre_anthesis.
  destruct (Rgt_dec 0 0); [lra|]. cbn [bind ret set_Fpre CC].
  destruct (Rle_dec (CC cond_day30) 0.01) as [H | H]; [|reflexivity].
  simpl in H. lra.
Qed.

Lemma HIadj_pre_anthesis_range_witness :
  Fpre (set_Fpre 1 cond_day30) = 1.
Proof.
  pose proof (HIadj_pre_anthesis_range cond_day30 0 _
                HIadj_pre_anthesis_day30) as (_ & _ & H & _).
  apply H; simpl; lra.
Defined.

(** ** Aeration stress: the day counter *)

(** A day counter between zero and the lag stays there: it returns to
    zero at or below the aeration threshold and otherwise advances by one
    day, stopping at the lag. *)
Theorem aeration_stress_day_counter (NewCond_AerDays Crop_LagAer : Z)
  (thRZ : thRZClass) (Ksa_Aer : R) (NewCond_AerDays' : Z) :
  aeration_stress NewCond_AerDays Crop_LagAer thRZ
    = Some (Ksa_Aer, NewCond_AerDays') ->
  (0 <= NewCond_AerDays <= Crop_LagAer)%Z ->
  (0 <= NewCond_AerDays' <= Crop_LagAer)%Z /\
  (thRZ_Act thRZ <= thRZ_Aer thRZ -> NewCond_AerDays' = 0%Z) /\
  (thRZ_Aer thRZ < thRZ_Act thRZ ->
   NewCond_AerDays' = Z.min (NewCond_AerDays + 1) Crop_LagAer).
Proof.
  intros H Hd. unfold aeration_stress in H.
  destruct (Rgt_dec (thRZ_Act thRZ) (thRZ_Aer thRZ)).
  - inv_bind_as H K HK. unfold ret in H. injection H as _ <-.
    destruct (Z.gtb_spec (NewCond_AerDays + 1) Crop_LagAer);
      repeat split; intros; try lia; lra.
  - injection H as _ <-. repeat split; intros; try lia; lra.
Qed.

Lemma aeration_stress_day_counter_witness :
  exists Ksa_Aer,
    aeration_stress 3 3 thRZ_saturated = Some (Ksa_Aer, 3%Z) /\
    (0 <= 3 <= 3)%Z.
Proof.
  destruct (aeration_stress_after_lag 3 3 thRZ_saturated) as (K & HK & _);
    [lia | simpl; lra |].
  exists K. split; [exact HK|].
  apply (aeration_stress_day_counter 3 3 thRZ_saturated K 3 HK). lia.
Defined.

(** ** Root-zone water accounting: depletion and available water *)

(** In the root zone and in the top soil alike, the total available water
    is not negative and the depletion never exceeds it.  When the rounded
    root depth does not exceed the top-soil depth, the top-soil values are
    the root-zone values. *)
Theorem root_zone_water_depletion (prof : SoilProfileClass)
  (InitCond_Zroot : R) (InitCond_th : list R)
  (Soil_zTop Crop_Zmin Crop_Aer : R)
  (WrAct_ : R) (Dr : DrClass) (TAW_ : TAWClass) (thRZ : thRZClass) :
  root_zone_water prof InitCond_Zroot InitCond_th Soil_zTop Crop_Zmin
    Crop_Aer = Some (WrAct_, Dr, TAW_, thRZ) ->
  0 <= TAW_Rz TAW_ /\ 0 <= TAW_Zt TAW_ /\
  Dr_Rz Dr <= TAW_Rz TAW_ /\ Dr_Zt Dr <= TAW_Zt TAW_ /\
  (round2 (Rmax InitCond_Zroot Crop_Zmin) <= Soil_zTop ->
   Dr_Zt Dr = Dr_Rz Dr /\ TAW_Zt TAW_ = TAW_Rz TAW_).
Proof.
  intros H. unfold root_zone_water in H.
  inv_bind_as H comp_sto Hcomp. inv_bind_as H w Hw.
  do 6 inv_bind H.
  assert (Hmax : forall x, 0 <= pymax x 0) by
    (intros x; destruct (pymax_spec x 0) as [[? ->]|[? ->]]; lra).
  assert (Hmin : forall x y, pymin x y <= y) by
    (intros x y; destruct (pymin_spec x y) as [[? ->]|[? ->]]; lra).
  destruct (Rgt_dec _ Soil_zTop).
  - inv_bind H. inv_bind_as H t Ht.
    destruct t as [[WrAct_Zt WrFC_Zt] WrWP_Zt].
    injection H as <- <- <- <-. simpl.
    repeat split; auto; lra.
  - injection H as <- <- <- <-. simpl. repeat split; auto.
Qed.

Lemma root_zone_water_depletion_witness :
  0 <= 15 /\ 0 <= 15 /\ 5 <= 15 /\ 5 <= 15 /\
  (round2 (Rmax 0.1 0.1) <= 0.1 -> 5 = 5 /\ 15 = 15).
Proof.
  exact (root_zone_water_depletion prof_one 0.1 [0.25] 0.1 0.1 5 _ _ _ _
           root_zone_water_prof_one).
Defined.

(** ** Irrigation: the days without irrigation *)

(** Outside the growing season nothing is applied and the cumulative
    counter is reset to zero.  In the growing season, with no irrigation
    (method 0) or net irrigation (method 4), nothing is applied and the
    counter keeps its value. *)
Theorem irrigation_none (InitCond : InitCondClass) (IrrMngt : IrrMngtStruct)
  (Crop : CropClass) (prof : SoilProfileClass) (Soil_zTop : R)
  (GrowingSeason : bool) (Rain Runoff : R)
  (NewCond : InitCondClass) (Irr : R) :
  irrigation InitCond IrrMngt Crop prof Soil_zTop GrowingSeason Rain Runoff
    = Some (NewCond, Irr) ->
  (GrowingSeason = false -> Irr = 0 /\ IrrCum NewCond = 0) /\
  (GrowingSeason = true ->
   (IrrMethod IrrMngt = 0 \/ IrrMethod IrrMngt = 4)%Z ->
   Irr = 0 /\ IrrCum NewCond = IrrCum InitCond).
Proof.
  intros H. unfold irrigation in H.
  inv_bind_as H p Hp. destruct p as [c Irr0].
  unfold ret in H. injection H as <- <-. simpl.
  assert (Hzero : forall x, 0 > x -> pymax 0 x = 0) by
    (intros x Hx; destruct (pymax_spec 0 x) as [[? ->]|[? ->]]; lra).
  split.
  - intros ->. injection Hp as <- <-. simpl.
    destruct (Rgt_dec (0 + 0) (MaxIrrSeason IrrMngt)) as [Hgt | Hle].
    + rewrite Hzero by lra. split; lra.
    + split; lra.
  - intros -> Hm.
    inv_bind_as Hp rz Hrz. destruct rz as [[[WrAct_ Dr_] TAW_] thRZ].
    inv_bind_as Hp Irr1 HIrr1. injection Hp as <- <-.
    assert (HIrr : Irr1 = 0).
    { unfold irrigation_depth, ret in HIrr1.
      destruct Hm as [Hm | Hm]; rewrite Hm in HIrr1; simpl in HIrr1;
        injection HIrr1 as <-; reflexivity. }
    subst Irr1.
    assert (H0 : pymax 0 0 = 0) by
      (destruct (pymax_spec 0 0) as [[? ->]|[? ->]]; lra).
    rewrite H0.
    destruct (DAP InitCond =? 1)%Z; simpl;
      destruct (Rgt_dec (IrrCum InitCond + 0) (MaxIrrSeason IrrMngt));
      rewrite ?Hzero by lra; split; lra.
Qed.

Lemma irrigation_off_season :
  irrigation cond_day30 irr_daily crop_maize prof_one 0.1 false 0 0 =
  Some (set_IrrCum (0 + 0) (set_IrrCum 0 cond_day30), 0).
Proof.
  unfold irrigation. cbn [bind ret]. cbn [IrrCum set_IrrCum].
  cbn [irr_daily MaxIrrSeason].
  destruct (Rgt_dec (0 + 0) 60); [lra | reflexivity].
Qed.

Lemma irrigation_none_witness :
  0 = 0 /\ IrrCum (set_IrrCum (0 + 0) (set_IrrCum 0 cond_day30)) = 0.
Proof.
  apply (proj1 (irrigation_none cond_day30 irr_daily crop_maize prof_one 0.1
                  false 0 0 _ 0 irrigation_off_season)).
  reflexivity.
Defined.

(** ** Growth stage *)

(** In the growing season the stage is between 1 and 4, and a later
    adjusted time never gives an earlier stage, whatever the order of the
    three thresholds. *)
Theorem growth_stage_monotone (Crop : Stage.CropClass)
  (c1 c2 c1' c2' : Stage.InitCondClass) (t1 t2 : R) :
  Stage.growth_stage Crop c1 true = Some c1' ->
  Stage.growth_stage Crop c2 true = Some c2' ->
  Stage.adjusted_time Crop c1 = Some t1 ->
  Stage.adjusted_time Crop c2 = Some t2 ->
  t1 <= t2 ->
  (1 <= Stage.GrowthStage c1' <= Stage.GrowthStage c2')%Z /\
  (Stage.GrowthStage c2' <= 4)%Z.
Proof.
  intros H1 H2 Ht1 Ht2 Hle. unfold Stage.growth_stage in H1, H2.
  rewrite Ht1 in H1. rewrite Ht2 in H2. cbn [bind] in H1, H2.
  unfold ret in H1, H2.
  destruct (Rle_dec t1 (Stage.Canopy10Pct Crop));
    [|destruct (Rle_dec t1 (Stage.MaxCanopy Crop));
      [|destruct (Rle_dec t1 (Stage.Senescence Crop));
        [|destruct (Rgt_dec t1 (Stage.Senescence Crop)); [|lra]]]];
    injection H1 as <-;
    (destruct (Rle_dec t2 (Stage.Canopy10Pct Crop));
     [|destruct (Rle_dec t2 (Stage.MaxCanopy Crop));
       [|destruct (Rle_dec t2 (Stage.Senescence Crop));
         [|destruct (Rgt_dec t2 (Stage.Senescence Crop)); [|lra]]]]);
    injection H2 as <-; simpl; try lia; lra.
Qed.

Lemma growth_stage_day (d : Z) (s : Z) :
  (if Rle_dec (IZR (d - 0)) 10 then s = 1%Z
   else if Rle_dec (IZR (d - 0)) 50 then s = 2%Z
   else if Rle_dec (IZR (d - 0)) 90 then s = 3%Z else s = 4%Z) ->
  Stage.growth_stage stage_crop (stage_cond d) true =
  Some (Stage.set_GrowthStage s (stage_cond d)).
Proof.
  intros Hs. unfold Stage.growth_stage, Stage.adjusted_time.
  cbn [stage_crop stage_cond Stage.CalendarType Stage.DAP
       Stage.DelayedCDs Stage.Canopy10Pct Stage.MaxCanopy
       Stage.Senescence Z.eqb Pos.eqb bind ret].
  destruct (Rle_dec (IZR (d - 0)) 10); [subst; reflexivity|].
  destruct (Rle_dec (IZR (d - 0)) 50); [subst; reflexivity|].
  destruct (Rle_dec (IZR (d - 0)) 90); [subst; reflexivity|].
  destruct (Rgt_dec (IZR (d - 0)) 90); [subst; reflexivity | lra].
Qed.

Lemma growth_stage_monotone_witness :
  (1 <= 1 <= 3)%Z /\ (3 <= 4)%Z.
Proof.
  assert (H5 : Stage.growth_stage stage_crop (stage_cond 5) true =
               Some (Stage.set_GrowthStage 1 (stage_cond 5))).
  { apply growth_stage_day. simpl.
    destruct (Rle_dec 5 10); [reflexivity | lra]. }
  assert (H60 : Stage.growth_stage stage_crop (stage_cond 60) true =
                Some (Stage.set_GrowthStage 3 (stage_cond 60))).
  { apply growth_stage_day. simpl.
    destruct (Rle_dec 60 10); [lra|].
    destruct (Rle_dec 60 50); [lra|].
    destruct (Rle_dec 60 90); [reflexivity | lra]. }
  apply (growth_stage_monotone stage_crop (stage_cond 5) (stage_cond 60)
           _ _ 5 60 H5 H60); try reflexivity. lra.
Defined.

(** ** Germination *)

Lemma round3_exact (x : R) (z : Z) :
  x * 1000 = IZR z -> round3 x = IZR z / 1000.
Proof.
  intros H. unfold round3. rewrite H, round_half_even_IZR. reflexivity.
Qed.

(** Germination is kept once reached, and the delay counters advance on
    exactly the days that end without germination.  In the growing
    season: a germinated crop stays germinated with its counters and seed
    protection untouched; a day that ends without germination adds one
    day and the day's [GDD] to the delay counters and clears the seed
    protection; on the day of germination the counters are untouched and
    the seed protection is the planting method.  The water contents are
    never written. *)
Theorem germination_delay (InitCond : Germ.InitCondClass) (Soil_zGerm : R)
  (prof : SoilProfileClass) (Crop_GermThr : R) (Crop_PlantMethod : bool)
  (GDD : R) (NewCond : Germ.InitCondClass) :
  Germ.germination InitCond Soil_zGerm prof Crop_GermThr Crop_PlantMethod
    GDD true = Some NewCond ->
  Germ.th NewCond = Germ.th InitCond /\
  (Germ.Germination InitCond = true ->
   Germ.Germination NewCond = true /\
   Germ.DelayedCDs NewCond = Germ.DelayedCDs InitCond /\
   Germ.DelayedGDDs NewCond = Germ.DelayedGDDs InitCond /\
   Germ.ProtectedSeed NewCond = Germ.ProtectedSeed InitCond) /\
  (Germ.Germination NewCond = false ->
   Germ.DelayedCDs NewCond = (Germ.DelayedCDs InitCond + 1)%Z /\
   Germ.DelayedGDDs NewCond = Germ.DelayedGDDs InitCond + GDD /\
   Germ.ProtectedSeed NewCond = false) /\
  (Germ.Germination InitCond = false -> Germ.Germination NewCond = true ->
   Germ.DelayedCDs NewCond = Germ.DelayedCDs InitCond /\
   Germ.DelayedGDDs NewCond = Germ.DelayedGDDs InitCond /\
   Germ.ProtectedSeed NewCond = Crop_PlantMethod).
Proof.
  intros H. unfold Germ.germination in H.
  inv_bind_as H WcProp HW. unfold ret in H. injection H as <-.
  destruct InitCond as [th0 g p cd gd]. simpl.
  destruct g; simpl.
  - rewrite andb_false_r. simpl. repeat split; intros; congruence.
  - rewrite andb_true_r.
    destruct (Rge_b WcProp Crop_GermThr); destruct Crop_PlantMethod; simpl;
      repeat split; intros; congruence.
Qed.

(** The seed bed of [germ_cond] on the one-compartment profile: the
    proportional water content is 2/3. *)
Lemma germination_water_prof_one :
  Germ.germination_water germ_cond 0.1 prof_one = Some (1 - 5 / 15).
Proof.
  unfold Germ.germination_water.
  cbn [prof_one dzsum argwhere_ge_first].
  destruct (Rge_dec 0.1 0.1); [|lra].
  cbn [bind]. unfold for_range.
  cbn [Nat.add seq fold_left bind].
  unfold Germ.germination_step, cover_factor.
  cbn [prof_one germ_cond Germ.th dzsum dz th_fc th_wp nth_error bind].
  destruct (Rgt_dec 0.1 0.1); [lra|].
  cbn [bind ret].
  rewrite (round3_exact (1 * 1000 * 0.25 * 0.1) 25000) by lra.
  rewrite (round3_exact (1 * 1000 * 0.3 * 0.1) 30000) by lra.
  rewrite (round3_exact (1 * 1000 * 0.15 * 0.1) 15000) by lra.
  destruct (Rlt_dec (0 + 25000 / 1000) 0); [lra|].
  rewrite fdiv_Some by lra. cbn [bind ret].
  unfold ret. f_equal. rfield.
Qed.

Lemma germination_day :
  Germ.germination germ_cond 0.1 prof_one 0.2 true 12 true =
  Some (Germ.set_ProtectedSeed true (Germ.set_Germination true germ_cond)).
Proof.
  unfold Germ.germination. rewrite germination_water_prof_one.
  cbn [bind ret]. unfold Rge_b.
  destruct (Rge_dec (1 - 5 / 15) 0.2); [reflexivity | lra].
Qed.

Lemma germination_delay_witness :
  Germ.DelayedCDs
    (Germ.set_ProtectedSeed true (Germ.set_Germination true germ_cond)) = 2%Z /\
  Germ.DelayedGDDs
    (Germ.set_ProtectedSeed true (Germ.set_Germination true germ_cond)) = 20 /\
  Germ.ProtectedSeed
    (Germ.set_ProtectedSeed true (Germ.set_Germination true germ_cond)) = true.
Proof.
  pose proof (germination_delay germ_cond 0.1 prof_one 0.2 true 12 _
                germination_day) as (_ & _ & _ & H).
  apply H; reflexivity.
Defined.

(** ** Reference harvest index *)

(** [HIref_current_day] keeps the reference harvest index between zero
    and [HI0] (for an initial value [HIini] of at least -0.004), sets it
    to zero until the build-up has started ([HIt <= 0]), and in the
    growing season sets the yield-formation flag exactly when
    [HIt >= 0]. *)
Theorem HIref_current_day_range (InitCond : ReferenceHI.InitCondClass)
  (Crop : ReferenceHI.CropClass) (GrowingSeason : bool)
  (NewCond : ReferenceHI.InitCondClass) :
  ReferenceHI.HIref_current_day InitCond Crop GrowingSeason = Some NewCond ->
  let HIt :=
    (ReferenceHI.DAP InitCond - ReferenceHI.DelayedCDs InitCond
     - ReferenceHI.HIstartCD Crop - 1)%Z in
  (0 <= ReferenceHI.HIref InitCond <= ReferenceHI.HI0 Crop ->
   -0.004 <= ReferenceHI.HIini Crop ->
   0 <= ReferenceHI.HIref NewCond <= ReferenceHI.HI0 Crop) /\
  (GrowingSeason = false \/ (HIt <= 0)%Z -> ReferenceHI.HIref NewCond = 0) /\
  (GrowingSeason = true ->
   (ReferenceHI.YieldForm NewCond = true <-> (0 <= HIt)%Z)).
Proof.
  intros H HIt. unfold ReferenceHI.HIref_current_day in H.
  destruct GrowingSeason.
  2:{ unfold ret in H. injection H as <-. simpl.
      repeat split; intros; try lra; discriminate. }
  cbn zeta in H.
  assert (HY : forall c,
             ReferenceHI.DAP
               (if (ReferenceHI.DAP InitCond - ReferenceHI.DelayedCDs InitCond
                    >? ReferenceHI.HIstartCD Crop)%Z
                then ReferenceHI.set_YieldForm true c
                else ReferenceHI.set_YieldForm false c) = ReferenceHI.DAP c /\
             ReferenceHI.DelayedCDs
               (if (ReferenceHI.DAP InitCond - ReferenceHI.DelayedCDs InitCond
                    >? ReferenceHI.HIstartCD Crop)%Z
                then ReferenceHI.set_YieldForm true c
                else ReferenceHI.set_YieldForm false c)
             = ReferenceHI.DelayedCDs c) by
    (intros c; destruct (_ >? _)%Z; split; reflexivity).
  destruct (HY InitCond) as [HD HDl]. rewrite HD, HDl in H. fold HIt in H.
  set (c0 := if (ReferenceHI.DAP InitCond - ReferenceHI.DelayedCDs InitCond
                 >? ReferenceHI.HIstartCD Crop)%Z
             then ReferenceHI.set_YieldForm true InitCond
             else ReferenceHI.set_YieldForm false InitCond) in *.
  assert (Hc0 : ReferenceHI.HIref c0 = ReferenceHI.HIref InitCond /\
                (ReferenceHI.YieldForm c0 = true <-> (0 <= HIt)%Z)).
  { unfold c0, HIt.
    destruct (Z.gtb_spec
                (ReferenceHI.DAP InitCond - ReferenceHI.DelayedCDs InitCond)
                (ReferenceHI.HIstartCD Crop)); simpl;
      (split; [reflexivity|]); split; intros; try lia; discriminate. }
  destruct Hc0 as [Hr0 Hy0].
  destruct (Z.leb_spec HIt 0).
  { unfold ret in H. injection H as <-. simpl.
    repeat split; intros; try lra; tauto. }
  destruct (Rle_dec (ReferenceHI.CCprev c0) _).
  { unfold ret in H. injection H as <-. simpl.
    repeat split; intros; try lra; try lia; tauto. }
  inv_bind_as H c1 Hc1. unfold ret in H. injection H as <-.
  assert (Hy1 : ReferenceHI.YieldForm c1 = ReferenceHI.YieldForm c0).
  { unfold ReferenceHI.HIref_build_up, ret in Hc1.
    repeat match type of Hc1 with
    | (if ?b then _ else _) = Some _ => destruct b
    | bind _ _ = Some _ => inv_bind Hc1
    | Some _ = Some _ => injection Hc1 as <-
    end; try reflexivity.
    destruct (Rge_dec _ _); reflexivity. }
  assert (Hlim : ReferenceHI.YieldForm (ReferenceHI.HIref_limit Crop c1)
                 = ReferenceHI.YieldForm c1 /\
                 (0 <= ReferenceHI.HI0 Crop ->
                  -0.004 <= ReferenceHI.HIini Crop ->
                  0 <= ReferenceHI.HIref (ReferenceHI.HIref_limit Crop c1)
                    <= ReferenceHI.HI0 Crop)).
  { unfold ReferenceHI.HIref_limit.
    destruct (Rgt_dec _ _); [simpl; split; [reflexivity | intros; lra]|].
    destruct (Rle_dec _ _); [simpl; split; [reflexivity | intros; lra]|].
    destruct (Rlt_dec _ _); simpl; split; try reflexivity; intros; lra. }
  destruct Hlim as [Hy2 Hr2].
  split; [intros; apply Hr2; lra|]. split.
  - intros [Hf | Hle]; [discriminate | lia].
  - intros _. rewrite Hy2, Hy1. exact Hy0.
Qed.

Lemma HIref_current_day_early :
  ReferenceHI.HIref_current_day hiref_cond hiref_crop true =
  Some (ReferenceHI.set_PctLagPhase 0
          (ReferenceHI.set_HIref 0
             (ReferenceHI.set_YieldForm false hiref_cond))).
Proof. reflexivity. Qed.

Lemma HIref_current_day_range_witness :
  ReferenceHI.HIref
    (ReferenceHI.set_PctLagPhase 0
       (ReferenceHI.set_HIref 0
          (ReferenceHI.set_YieldForm false hiref_cond))) = 0.
Proof.
  pose proof (HIref_current_day_range hiref_cond hiref_crop true _
                HIref_current_day_early) as (_ & H & _).
  apply H. right. simpl. lia.
Defined.

(** ** Rainfall partition *)

Lemma partition_balance (P CN Runoff_ Infl : R) :
  Runoff.partition P CN = Some (Runoff_, Infl) ->
  Runoff_ + Infl = P /\
  (0 < CN <= 100 -> 0 <= P -> 0 <= Runoff_ <= P).
Proof.
  intros H. unfold Runoff.partition, ret in H.
  inv_bind_as H q Hq. apply fdiv_inv in Hq as [HCN ->].
  set (S := 25400 / CN - 254) in *.
  destruct (Rle_dec (P - 5 / 100 * S) 0) as [Hterm | Hterm].
  - injection H as <- <-. split; [lra|]. intros; lra.
  - inv_bind_as H r Hr. injection H as <- <-.
    apply fdiv_inv in Hr as [Hden ->]. split; [lra|].
    intros [HCN0 HCN100] HP.
    assert (HS : 0 <= S).
    { unfold S.
      assert (254 <= 25400 / CN); [|lra].
      apply (Rmult_le_reg_r CN); [assumption|].
      unfold Rdiv. rewrite Rmult_assoc, Rinv_l by lra. lra. }
    assert (Hd : 0 < P + (1 - 5 / 100) * S) by nra.
    split.
    + apply Rmult_le_pos; [nra|]. left. apply Rinv_0_lt_compat. assumption.
    + apply (Rmult_le_reg_r (P + (1 - 5 / 100) * S)); [assumption|].
      unfold Rdiv. rewrite Rmult_assoc, Rinv_l by lra. nra.
Qed.

(** The infiltration is what the runoff leaves of the rainfall,
    [Infl = P - Runoff].  Where runoff is inhibited or bunds stand,
    there is no runoff, all the rainfall infiltrates and neither the
    condition nor the profile is touched; otherwise the submerged-day
    counter is reset and the water contents are kept.

    In exact real arithmetic, moreover, runoff and infiltration add up
    to the rainfall, and for a rainfall [P >= 0] and a curve number in
    (0, 100] the runoff lies between zero and [P].  These two are facts
    about real numbers: computed in binary64 the sum can differ from [P]
    in the last place, and at a curve number of 100 the runoff
    [P ^ 2 / P] can exceed [P] in the last place. *)
Theorem rainfall_partition_balance (P : R) (InitCond : Runoff.InitCondClass)
  (FieldMngt : Runoff.FieldMngtStruct) (Soil_CN : R) (Soil_AdjCN : Z)
  (Soil_zCN : R) (Soil_nComp : Z) (prof : SoilProfileClass)
  (Runoff_ Infl : R) (NewCond : Runoff.InitCondClass)
  (prof' : SoilProfileClass) :
  Runoff.rainfall_partition P InitCond FieldMngt Soil_CN Soil_AdjCN Soil_zCN
    Soil_nComp prof = Some (Runoff_, Infl, NewCond, prof') ->
  Infl = P - Runoff_ /\
  (Runoff.runoff_enabled FieldMngt = false ->
   Runoff_ = 0 /\ Infl = P /\ NewCond = InitCond /\ prof' = prof) /\
  (Runoff.runoff_enabled FieldMngt = true ->
   Runoff.DaySubmerged NewCond = 0%Z /\
   Runoff.th NewCond = Runoff.th InitCond) /\
  (forall CN,
      Runoff.runoff_enabled FieldMngt = true ->
      Runoff.curve_number InitCond FieldMngt Soil_CN Soil_AdjCN Soil_zCN
        Soil_nComp prof = Some (CN, prof') ->
      0 < CN <= 100 -> 0 <= P -> 0 <= Runoff_ <= P) /\
  Runoff_ + Infl = P.
Proof.
  intros H. unfold Runoff.rainfall_partition in H.
  destruct (Runoff.runoff_enabled FieldMngt).
  - inv_bind_as H p Hp. destruct p as [CN0 prof0].
    inv_bind_as H r Hr. destruct r as [R0 I0].
    unfold ret in H. injection H as <- <- <- <-.
    destruct (partition_balance _ _ _ _ Hr) as [Hbal Hbnd].
    split; [lra|]. split; [discriminate|].
    split; [intros _; split; reflexivity|].
    split; [|assumption].
    intros CN _ HCN. rewrite Hp in HCN. injection HCN as <-. assumption.
  - unfold ret in H. injection H as <- <- <- <-.
    split; [lra|]. split; [auto|]. split; [discriminate|].
    split; [discriminate | lra].
Qed.

(** Without the adjustment for antecedent moisture the routine returns
    for every non-negative rainfall and curve number in (0, 100]. *)
Lemma rainfall_partition_returns (P : R) (InitCond : Runoff.InitCondClass)
  (FieldMngt : Runoff.FieldMngtStruct) (Soil_CN : R) (Soil_AdjCN : Z)
  (Soil_zCN : R) (Soil_nComp : Z) (prof : SoilProfileClass) :
  Soil_AdjCN <> 1%Z ->
  0 < Soil_CN * (1 + Runoff.CNadjPct FieldMngt / 100) <= 100 ->
  0 <= P ->
  exists Runoff_ Infl NewCond,
    Runoff.rainfall_partition P InitCond FieldMngt Soil_CN Soil_AdjCN
      Soil_zCN Soil_nComp prof = Some (Runoff_, Infl, NewCond, prof).
Proof.
  intros HAdj [HCN0 HCN100] HP. unfold Runoff.rainfall_partition.
  destruct (Runoff.runoff_enabled FieldMngt); [|unfold ret; eauto].
  unfold Runoff.curve_number.
  destruct (Z.eqb_spec Soil_AdjCN 1); [contradiction|].
  cbn [bind ret]. unfold Runoff.partition.
  set (CN := Soil_CN * (1 + Runoff.CNadjPct FieldMngt / 100)) in *.
  rewrite fdiv_Some by lra. cbn [bind].
  destruct (Rle_dec _ 0); [cbn [bind ret]; eauto|].
  assert (HS : 0 <= 25400 / CN - 254).
  { assert (254 <= 25400 / CN); [|lra].
    apply (Rmult_le_reg_r CN); [assumption|].
    unfold Rdiv. rewrite Rmult_assoc, Rinv_l by lra. lra. }
  rewrite fdiv_Some by nra. cbn [bind ret]. eauto.
Qed.

(** *** The profile is left as it was *)

Lemma fold_none {St : Type} (body : nat -> St -> option St) (l : list nat) :
  fold_left (fun acc ii => s0 <- acc ;; body ii s0) l None = None.
Proof. induction l; simpl; auto. Qed.

Lemma fold_range_invariant {St : Type} (Inv : St -> Prop)
  (body : nat -> St -> option St) (n a : nat) (s s' : St) :
  (forall ii s0 s1,
      (a <= ii < a + n)%nat -> Inv s0 -> body ii s0 = Some s1 -> Inv s1) ->
  Inv s ->
  fold_left (fun acc ii => s0 <- acc ;; body ii s0) (seq a n) (Some s)
    = Some s' ->
  Inv s'.
Proof.
  revert a s. induction n as [|n IH]; intros a s Hstep Hs H; simpl in H.
  - injection H as <-. assumption.
  - destruct (body a s) as [s1|] eqn:E.
    + apply (IH (S a) s1); [| |assumption].
      * intros ii s0 s2 Hii. apply Hstep. lia.
      * apply (Hstep a s s1); [lia | assumption | assumption].
    + rewrite fold_none in H. discriminate.
Qed.

Lemma for_range_invariant {St : Type} (Inv : St -> Prop) (n : nat)
  (body : nat -> St -> option St) (s s' : St) :
  (forall ii s0 s1,
      (ii < n)%nat -> Inv s0 -> body ii s0 = Some s1 -> Inv s1) ->
  Inv s -> for_range n body s = Some s' -> Inv s'.
Proof.
  intros Hstep Hs H. apply (fold_range_invariant Inv body n 0 s s');
    try assumption.
  intros ii s0 s1 Hii. apply Hstep. lia.
Qed.

(** In a non-decreasing array the entries that are at least [x] come
    last. *)
Lemma sorted_below_count_ge (l : list R) (x : R) (ii : nat) (y : R) :
  StronglySorted Rle l ->
  (ii < List.length l - count_ge l x)%nat ->
  nth_error l ii = Some y -> y < x.
Proof.
  intros Hs. revert ii. induction Hs as [|y0 l Hs IH Hall]; intros ii Hii Hy.
  - destruct ii; discriminate.
  - cbn [List.length count_ge] in Hii.
    destruct (Rge_dec y0 x) as [Hge | Hlt].
    + assert (Hc : count_ge l x = List.length l).
      { clear - Hall Hge. induction l as [|z l IHl]; [reflexivity|].
        cbn [List.length count_ge]. inversion Hall; subst.
        destruct (Rge_dec z x); [|lra]. rewrite IHl; auto. }
      rewrite Hc in Hii. lia.
    + destruct ii as [|ii]; simpl in Hy.
      * injection Hy as <-. lra.
      * apply (IH ii); [lia | assumption].
Qed.

Lemma set_dzsum_same (prof : SoilProfileClass) :
  Runoff.set_dzsum (dzsum prof) prof = prof.
Proof. destruct prof. reflexivity. Qed.

(** On a profile whose cumulative depths do not decrease, with
    [Soil_nComp] the number of compartments, the store into [prof.dzsum]
    never takes place: [rainfall_partition] returns the profile it was
    given. *)
Theorem rainfall_partition_keeps_profile (P : R)
  (InitCond : Runoff.InitCondClass) (FieldMngt : Runoff.FieldMngtStruct)
  (Soil_CN : R) (Soil_AdjCN : Z) (Soil_zCN : R) (Soil_nComp : Z)
  (prof : SoilProfileClass)
  (Runoff_ Infl : R) (NewCond : Runoff.InitCondClass)
  (prof' : SoilProfileClass) :
  Runoff.rainfall_partition P InitCond FieldMngt Soil_CN Soil_AdjCN Soil_zCN
    Soil_nComp prof = Some (Runoff_, Infl, NewCond, prof') ->
  StronglySorted Rle (dzsum prof) ->
  Soil_nComp = Z.of_nat (List.length (dzsum prof)) ->
  prof' = prof.
Proof.
  intros H Hsorted HnComp. unfold Runoff.rainfall_partition in H.
  destruct (Runoff.runoff_enabled FieldMngt);
    [|unfold ret in H; injection H as _ _ _ <-; reflexivity].
  inv_bind_as H p Hp. destruct p as [CN0 prof0].
  inv_bind_as H r Hr. destruct r as [R0 I0].
  unfold ret in H. injection H as _ _ _ <-.
  unfold Runoff.curve_number in Hp.
  destruct (Soil_AdjCN =? 1)%Z;
    [|unfold ret in Hp; injection Hp as _ <-; reflexivity].
  inv_bind Hp. inv_bind_as Hp st Hst. destruct st as [[dzsum_ xx] wrel].
  inv_bind_as Hp wet Hwet. unfold ret in Hp. injection Hp as _ <-.
  assert (Hkeep : dzsum_ = dzsum prof);
    [|rewrite Hkeep; apply set_dzsum_same].
  set (n := Z.of_nat (count_ge (dzsum prof) Soil_zCN)) in *.
  assert (Hcomp : (Z.to_nat (if (n =? 0)%Z then Soil_nComp
                             else (Soil_nComp - n)%Z)
                   = List.length (dzsum prof)
                     - count_ge (dzsum prof) Soil_zCN)%nat).
  { destruct (Z.eqb_spec n 0); unfold n in *; lia. }
  rewrite Hcomp in Hst.
  apply (for_range_invariant
           (fun s : list R * R * list R => fst (fst s) = dzsum prof)
           _ _ _ _) in Hst; [exact Hst | | reflexivity].
  intros ii [[d0 x0] w0] [[d1 x1] w1] Hii Hinv Hstep. simpl in Hinv. subst d0.
  unfold Runoff.weighting_step in Hstep.
  inv_bind_as Hstep y Hy.
  pose proof (sorted_below_count_ge _ _ _ _ Hsorted Hii Hy) as Hlt.
  destruct (Rgt_dec y Soil_zCN); [lra|].
  cbn [bind ret] in Hstep.
  do 3 inv_bind Hstep. unfold ret in Hstep. injection Hstep as <- _ _.
  reflexivity.
Qed.

(** *** The curve number adjusted for antecedent moisture *)

Lemma round_half_even_lower (x : R) (z : Z) :
  IZR z <= x -> (z <= round_half_even x)%Z.
Proof.
  intros H. destruct (base_Int_part x) as [Hlo Hhi].
  assert (Hz : (z <= Int_part x)%Z).
  { apply Z.lt_succ_r. apply lt_IZR. rewrite succ_IZR. lra. }
  unfold round_half_even.
  destruct (Rlt_dec _ _); [assumption|].
  destruct (Rlt_dec _ _); [lia|].
  destruct (Z.even _); lia.
Qed.

Lemma round_half_even_upper (x : R) (z : Z) :
  x <= IZR z -> (round_half_even x <= z)%Z.
Proof.
  intros H. destruct (base_Int_part x) as [Hlo Hhi].
  assert (Hz : (Int_part x <= z)%Z) by (apply le_IZR; lra).
  assert (Hup : 1 / 2 <= frac_part x -> (Int_part x + 1 <= z)%Z).
  { unfold frac_part. intros Hf.
    apply Z.le_succ_l. apply lt_IZR. lra. }
  unfold round_half_even.
  destruct (Rlt_dec _ _); [assumption|].
  destruct (Rlt_dec _ _); [apply Hup; lra|].
  destruct (Z.even _); [assumption | apply Hup; lra].
Qed.

Lemma round0_between (lo hi : Z) (v : R) :
  IZR lo <= v <= IZR hi -> IZR lo <= round0 v <= IZR hi.
Proof.
  intros [Hlo Hhi]. unfold round0. split; apply IZR_le;
    [apply round_half_even_lower | apply round_half_even_upper]; assumption.
Qed.

Lemma exp_minus_14_ln_10 : 0 < exp (-14 * ln 10) < 1.
Proof.
  split; [apply exp_pos|].
  assert (Hln : 0 < ln 10) by (rewrite <- ln_1; apply ln_increasing; lra).
  rewrite <- exp_0. apply exp_increasing. lra.
Qed.

Lemma interpolation_round0 (zb zt : Z) (w : R) :
  0 <= w <= 1 ->
  Rmin (IZR zb) (IZR zt) <= round0 (IZR zb + (IZR zt - IZR zb) * w)
    <= Rmax (IZR zb) (IZR zt).
Proof.
  intros Hw.
  destruct (Z.le_ge_cases zb zt) as [Hle | Hle]; apply IZR_le in Hle.
  - rewrite Rmin_left, Rmax_right by assumption.
    apply round0_between. nra.
  - rewrite Rmin_right, Rmax_left by assumption.
    apply round0_between. nra.
Qed.

(** With the adjustment for antecedent moisture ([Soil_AdjCN = 1]) the
    curve number that is used lies between the two bounds [CNbot] and
    [CNtop] computed from the field's curve number, whatever the water
    contents of the top soil are. *)
Theorem curve_number_adjusted_range (InitCond : Runoff.InitCondClass)
  (FieldMngt : Runoff.FieldMngtStruct) (Soil_CN Soil_zCN : R)
  (Soil_nComp : Z) (prof : SoilProfileClass)
  (CN' : R) (prof' : SoilProfileClass) :
  Runoff.curve_number InitCond FieldMngt Soil_CN 1 Soil_zCN Soil_nComp prof
    = Some (CN', prof') ->
  let CN := Soil_CN * (1 + Runoff.CNadjPct FieldMngt / 100) in
  Rmin (Runoff.CNbot CN) (Runoff.CNtop CN) <= CN'
    <= Rmax (Runoff.CNbot CN) (Runoff.CNtop CN).
Proof.
  intros H CN. unfold Runoff.curve_number in H. fold CN in H.
  cbn [Z.eqb Pos.eqb] in H.
  inv_bind H. inv_bind_as H st Hst. destruct st as [[dzsum_ xx] wrel].
  inv_bind_as H wet Hwet. unfold ret in H. injection H as <- _.
  set (w := if Rgt_dec wet 1 then 1 else if Rlt_dec wet 0 then 0 else wet).
  assert (Hw : 0 <= w <= 1).
  { unfold w. destruct (Rgt_dec wet 1); [lra|].
    destruct (Rlt_dec wet 0); lra. }
  apply (interpolation_round0 _ _ w Hw).
Qed.

Lemma partition_returns (P CN : R) :
  0 < CN <= 100 -> 0 <= P ->
  exists Runoff_ Infl, Runoff.partition P CN = Some (Runoff_, Infl).
Proof.
  intros [HCN0 HCN100] HP. unfold Runoff.partition.
  rewrite fdiv_Some by lra. cbn [bind].
  destruct (Rle_dec _ 0); [cbn [bind ret]; eauto|].
  assert (HS : 0 <= 25400 / CN - 254).
  { assert (254 <= 25400 / CN); [|lra].
    apply (Rmult_le_reg_r CN); [assumption|].
    unfold Rdiv. rewrite Rmult_assoc, Rinv_l by lra. lra. }
  rewrite fdiv_Some by nra. cbn [bind ret]. eauto.
Qed.

Lemma curve_number_adjusted_example :
  exists CN',
    Runoff.curve_number runoff_cond field_open 70 1 0.3 1 prof_one
      = Some (CN', prof_one) /\
    0 < CN' <= 100.
Proof.
  unfold Runoff.curve_number, runoff_cond, field_open, prof_one.
  cbn [dzsum th_wp th_fc Runoff.th Runoff.CNadjPct Z.eqb Pos.eqb count_ge].
  destruct (Rge_dec 0.1 0.3); [lra|].
  change (Z.to_nat (if (Z.of_nat (0 + 0) =? 0)%Z then 1%Z else (1 - Z.of_nat (0 + 0))%Z)) with 1%nat.
  cbn [assert Z.leb Z.compare Z.of_nat Nat.add Z.eqb bind for_range seq fold_left repeat].
  unfold Runoff.weighting_step. cbn [nth_error bind].
  destruct (Rgt_dec 0.1 0.3); [lra|]. cbn [bind ret nth_error].
  rewrite fdiv_Some by lra. cbn [bind ret setitem].
  unfold Runoff.wetness_step, Runoff.set_dzsum.
  cbn [th_wp th_fc nth_error bind].
  rewrite fdiv_Some by lra. cbn [bind ret].
  eexists. split; [reflexivity|].
  set (wet := 0 + _ * (_ / _)). clearbody wet.
  set (w := if Rgt_dec wet 1 then 1 else if Rlt_dec wet 0 then 0 else wet).
  assert (Hw : 0 <= w <= 1) by
    (unfold w; destruct (Rgt_dec wet 1); [lra|];
     destruct (Rlt_dec wet 0); lra).
  pose proof exp_minus_14_ln_10 as He.
  assert (Hb : exists zb, Runoff.CNbot (70 * (1 + 0 / 100)) = IZR zb /\
                          46 <= IZR zb <= 49).
  { eexists. split; [reflexivity|]. apply (round0_between 46 49).
    cbn [pow]. lra. }
  assert (Ht : exists zt, Runoff.CNtop (70 * (1 + 0 / 100)) = IZR zt /\
                          86 <= IZR zt <= 93).
  { eexists. split; [reflexivity|]. apply (round0_between 86 93).
    cbn [pow]. lra. }
  destruct Hb as (zb & -> & Hb), Ht as (zt & -> & Ht).
  pose proof (interpolation_round0 zb zt w Hw) as Hin.
  revert Hin. unfold Rmin, Rmax.
  destruct (Rle_dec _ _); lra.
Qed.

Lemma rainfall_partition_adjusted_example :
  exists Runoff_ Infl NewCond,
    Runoff.rainfall_partition 50 runoff_cond field_open 70 1 0.3 1 prof_one
      = Some (Runoff_, Infl, NewCond, prof_one).
Proof.
  destruct curve_number_adjusted_example as (CN' & HCN & Hrange).
  destruct (partition_returns 50 CN' Hrange) as (Runoff_ & Infl & Hp);
    [lra|].
  unfold Runoff.rainfall_partition.
  change (Runoff.runoff_enabled field_open) with (negb false && (negb false || Rlt_b 0 0.001)).
  cbn [negb andb orb]. rewrite HCN. cbn [bind]. rewrite Hp. cbn [bind ret].
  eauto.
Qed.

Lemma curve_number_adjusted_range_witness :
  exists CN',
    Runoff.curve_number runoff_cond field_open 70 1 0.3 1 prof_one
      = Some (CN', prof_one) /\
    (Rmin (Runoff.CNbot (70 * (1 + 0 / 100)))
          (Runoff.CNtop (70 * (1 + 0 / 100))) <= CN'
       <= Rmax (Runoff.CNbot (70 * (1 + 0 / 100)))
               (Runoff.CNtop (70 * (1 + 0 / 100)))).
Proof.
  destruct curve_number_adjusted_example as (CN' & HCN & _).
  exists CN'. split; [exact HCN|].
  apply (curve_number_adjusted_range runoff_cond field_open 70 0.3 1
           prof_one CN' prof_one HCN).
Defined.

Lemma rainfall_partition_keeps_profile_witness :
  exists Runoff_ Infl NewCond prof',
    Runoff.rainfall_partition 50 runoff_cond field_open 70 1 0.3 1 prof_one
      = Some (Runoff_, Infl, NewCond, prof') /\
    StronglySorted Rle (dzsum prof_one) /\
    1%Z = Z.of_nat (List.length (dzsum prof_one)) /\
    prof' = prof_one.
Proof.
  destruct rainfall_partition_adjusted_example
    as (Runoff_ & Infl & NewCond & H).
  assert (Hs : StronglySorted Rle (dzsum prof_one))
    by (repeat constructor).
  exists Runoff_, Infl, NewCond, prof_one.
  split; [exact H|]. split; [exact Hs|]. split; [reflexivity|].
  apply (rainfall_partition_keeps_profile 50 runoff_cond field_open 70 1 0.3
           1 prof_one Runoff_ Infl NewCond prof_one H Hs).
  reflexivity.
Defined.

Lemma rainfall_partition_balance_witness :
  exists Runoff_ Infl NewCond,
    Runoff.rainfall_partition 50 runoff_cond field_open 70 0 0.3 1 prof_one
      = Some (Runoff_, Infl, NewCond, prof_one) /\
    Infl = 50 - Runoff_ /\
    Runoff_ + Infl = 50.
Proof.
  destruct (rainfall_partition_returns 50 runoff_cond field_open 70 0 0.3 1
              prof_one) as (Runoff_ & Infl & NewCond & H);
    [discriminate | simpl; lra | lra |].
  exists Runoff_, Infl, NewCond. split; [exact H|].
  destruct (rainfall_partition_balance 50 runoff_cond field_open 70 0 0.3 1
              prof_one Runoff_ Infl NewCond prof_one H)
    as (Hinfl & _ & _ & _ & Hsum).
  split; [exact Hinfl | exact Hsum].
Defined.

(** ** Loops that top compartments up *)

Lemma fold_range_invariant_ix {St : Type} (Inv : nat -> St -> Prop)
  (body : nat -> St -> option St) (n a : nat) (s s' : St) :
  (forall ii s0 s1,
      (a <= ii < a + n)%nat -> Inv ii s0 -> body ii s0 = Some s1 ->
      Inv (S ii) s1) ->
  Inv a s ->
  fold_left (fun acc ii => s0 <- acc ;; body ii s0) (seq a n) (Some s)
    = Some s' ->
  Inv (a + n)%nat s'.
Proof.
  revert a s. induction n as [|n IH]; intros a s Hstep Hs H; simpl in H.
  - injection H as <-. rewrite Nat.add_0_r. assumption.
  - destruct (body a s) as [s1|] eqn:E.
    + replace (a + S n)%nat with (S a + n)%nat by lia.
      apply (IH (S a) s1); [| |assumption].
      * intros ii s0 s2 Hii. apply Hstep. lia.
      * apply (Hstep a s s1); [lia | assumption | assumption].
    + rewrite fold_none in H. discriminate.
Qed.

Lemma fold_range_fixed {St : Type} (body : nat -> St -> option St)
  (n a : nat) (s : St) :
  (forall ii, (a <= ii < a + n)%nat -> body ii s = Some s) ->
  fold_left (fun acc ii => s0 <- acc ;; body ii s0) (seq a n) (Some s)
    = Some s.
Proof.
  revert a. induction n as [|n IH]; intros a H; simpl; [reflexivity|].
  rewrite (H a) by lia. apply IH. intros ii Hii. apply H. lia.
Qed.

Lemma setitem_length (a : list R) (i : nat) (v : R) (a' : list R) :
  setitem a i v = Some a' -> List.length a' = List.length a.
Proof.
  revert i a'. induction a as [|x a IH]; intros i a' H; simpl in H.
  - discriminate.
  - destruct i as [|i].
    + injection H as <-. reflexivity.
    + destruct (setitem a i v) as [b|] eqn:E; [|discriminate].
      injection H as <-. simpl. f_equal. apply (IH i). assumption.
Qed.

Lemma setitem_nth (a : list R) (i : nat) (v : R) (a' : list R) (j : nat) :
  setitem a i v = Some a' ->
  nth_error a' j = if (j =? i)%nat then Some v else nth_error a j.
Proof.
  revert i a' j. induction a as [|x a IH]; intros i a' j H; simpl in H.
  - discriminate.
  - destruct i as [|i].
    + injection H as <-. destruct j; reflexivity.
    + destruct (setitem a i v) as [b|] eqn:E; [|discriminate].
      injection H as <-. destruct j as [|j]; [reflexivity|].
      simpl. apply IH. assumption.
Qed.

Lemma profile_water_setitem (dz th : list R) (i : nat) (v t d : R)
  (th' : list R) :
  setitem th i v = Some th' ->
  nth_error th i = Some t -> nth_error dz i = Some d ->
  profile_water dz th' = profile_water dz th + (v - t) * 1000 * d.
Proof.
  revert dz i th'. induction th as [|x th IH]; intros dz i th' H Ht Hd;
    simpl in H; [discriminate|].
  destruct i as [|i].
  - injection H as <-. destruct dz as [|d0 dz]; [discriminate|].
    simpl in Ht, Hd. injection Ht as ->. injection Hd as ->. simpl. lra.
  - destruct (setitem th i v) as [b|] eqn:E; [|discriminate].
    injection H as <-. destruct dz as [|d0 dz]; [discriminate|].
    simpl in Ht, Hd. simpl. rewrite (IH dz i b E Ht Hd). lra.
Qed.

Lemma Forall2_Rle_setitem (l th : list R) (i : nat) (v t : R)
  (th' : list R) :
  Forall2 Rle l th -> setitem th i v = Some th' ->
  nth_error th i = Some t -> t <= v -> Forall2 Rle l th'.
Proof.
  intros HF. revert i th'.
  induction HF as [|x y l th Hxy HF IH]; intros i th' H Ht Hv;
    simpl in H; [discriminate|].
  destruct i as [|i].
  - injection H as <-. simpl in Ht. injection Ht as ->.
    constructor; [lra | assumption].
  - destruct (setitem th i v) as [b|] eqn:E; [|discriminate].
    injection H as <-. constructor; [assumption|].
    apply (IH i b); [exact E | exact Ht | exact Hv].
Qed.

Lemma Forall2_Rle_refl (l : list R) : Forall2 Rle l l.
Proof. induction l; constructor; [lra | assumption]. Qed.

Lemma Forall_nth_error (P : R -> Prop) (l : list R) (i : nat) (x : R) :
  Forall P l -> nth_error l i = Some x -> P x.
Proof.
  intros HF H. rewrite Forall_forall in HF. apply HF.
  apply (nth_error_In l i). assumption.
Qed.

Section TopUp.

(** A loop body that raises the water content of compartment [ii] to
    [target ii] where it is below, and adds the water this takes to the
    running total. *)
Variable dz_ : list R.
Variable target : nat -> option R.
Variable body : nat -> list R * R -> option (list R * R).

Hypothesis body_inv :
  forall ii th_ acc th' acc',
    body ii (th_, acc) = Some (th', acc') ->
    exists t g,
      nth_error th_ ii = Some t /\ target ii = Some g /\
      ((t < g /\
        exists d, nth_error dz_ ii = Some d /\
                  setitem th_ ii g = Some th' /\
                  acc' = acc + (g - t) * 1000 * d) \/
       (~ t < g /\ th' = th_ /\ acc' = acc)).

Hypothesis body_fixed :
  forall ii th_ acc t g,
    nth_error th_ ii = Some t -> target ii = Some g -> ~ t < g ->
    body ii (th_, acc) = Some (th_, acc).

Lemma top_up_fold (a n : nat) (th0 th' : list R) (acc' : R) :
  fold_left (fun acc ii => s0 <- acc ;; body ii s0) (seq a n)
    (Some (th0, 0)) = Some (th', acc') ->
  List.length th' = List.length th0 /\
  profile_water dz_ th' = profile_water dz_ th0 + acc' /\
  Forall2 Rle th0 th' /\
  (Forall (Rle 0) dz_ -> 0 <= acc') /\
  (forall ii, ~ (a <= ii < a + n)%nat ->
              nth_error th' ii = nth_error th0 ii) /\
  (forall ii, (a <= ii < a + n)%nat ->
     exists t g, nth_error th0 ii = Some t /\ target ii = Some g /\
                 nth_error th' ii = Some (Rmax t g)).
Proof.
  intros H.
  apply (fold_range_invariant_ix
    (fun k (s : list R * R) =>
       List.length (fst s) = List.length th0 /\
       profile_water dz_ (fst s) = profile_water dz_ th0 + snd s /\
       Forall2 Rle th0 (fst s) /\
       (Forall (Rle 0) dz_ -> 0 <= snd s) /\
       (forall ii, ~ (a <= ii < k)%nat ->
                   nth_error (fst s) ii = nth_error th0 ii) /\
       (forall ii, (a <= ii < k)%nat ->
          exists t g, nth_error th0 ii = Some t /\ target ii = Some g /\
                      nth_error (fst s) ii = Some (Rmax t g)))) in H.
  - exact H.
  - clear H. intros ii [th1 acc1] [th2 acc2] Hii
      (Hlen & Hbal & Hle & Hpos & Hout & Hin) Hb.
    cbn [fst snd] in *.
    destruct (body_inv _ _ _ _ _ Hb)
      as (t & g & Ht & Hg & [(Hlt & d & Hd & Hset & ->) | (Hge & -> & ->)]).
    + assert (Ht0 : nth_error th0 ii = Some t)
        by (rewrite <- Hout by lia; assumption).
      split; [rewrite (setitem_length _ _ _ _ Hset); assumption|].
      split; [rewrite (profile_water_setitem _ _ _ _ _ _ _ Hset Ht Hd); lra|].
      split; [apply (Forall2_Rle_setitem _ _ _ _ _ _ Hle Hset Ht); lra|].
      split.
      { intros Hdz. specialize (Hpos Hdz).
        pose proof (Forall_nth_error _ _ _ _ Hdz Hd) as Hd0. simpl in Hd0.
        nra. }
      split.
      { intros jj Hjj. rewrite (setitem_nth _ _ _ _ jj Hset).
        destruct (Nat.eqb_spec jj ii); [lia|]. apply Hout. lia. }
      intros jj Hjj. rewrite (setitem_nth _ _ _ _ jj Hset).
      destruct (Nat.eqb_spec jj ii) as [-> | Hne].
      * exists t, g. repeat split; try assumption.
        rewrite Rmax_right by lra. reflexivity.
      * apply Hin. lia.
    + split; [assumption|]. split; [assumption|]. split; [assumption|].
      split; [assumption|]. split; [intros jj Hjj; apply Hout; lia|].
      intros jj Hjj. destruct (Nat.eq_dec jj ii) as [-> | Hne].
      * exists t, g. rewrite Rmax_left by lra.
        rewrite <- (Hout ii) by lia. auto.
      * apply Hin. lia.
  - cbn [fst snd]. split; [reflexivity|]. split; [lra|].
    split; [apply Forall2_Rle_refl|]. split; [intros; lra|].
    split; [reflexivity|]. intros ii Hii. lia.
Qed.

(** The total is the sum over the compartments visited, in the order of
    the visits, of the water each has gained.  A compartment that was
    not topped up has gained nothing. *)
Lemma top_up_fold_sum_from (th0 th' : list R) (n a : nat) (th1 : list R)
  (acc1 acc' : R) :
  fold_left (fun acc ii => s0 <- acc ;; body ii s0) (seq a n)
    (Some (th1, acc1)) = Some (th', acc') ->
  (forall ii, (a <= ii)%nat -> nth_error th1 ii = nth_error th0 ii) ->
  (forall ii, (a <= ii < a + n)%nat ->
     exists t g, nth_error th0 ii = Some t /\ target ii = Some g /\
                 nth_error th' ii = Some (Rmax t g)) ->
  acc' = fold_left (add_water_gained dz_ th0 th') (seq a n) acc1.
Proof.
  revert a th1 acc1. induction n as [|n IH]; intros a th1 acc1 H Hpre Hfin;
    simpl in H |- *.
  - injection H as _ <-. reflexivity.
  - destruct (body a (th1, acc1)) as [[th2 acc2]|] eqn:E;
      [|rewrite fold_none in H; discriminate].
    destruct (Hfin a) as (t0 & g0 & Ht0 & Hg0 & Hth'); [lia|].
    destruct (body_inv _ _ _ _ _ E)
      as (t & g & Ht & Hg & [(Hlt & d & Hd & Hset & ->) | (Hge & -> & ->)]);
      rewrite Hpre in Ht by lia;
      rewrite Ht0 in Ht; injection Ht as ->;
      rewrite Hg0 in Hg; injection Hg as ->.
    + rewrite (IH _ _ _ H).
      * f_equal. unfold add_water_gained. rewrite Hth', Ht0, Hd.
        rewrite Rmax_right by lra. reflexivity.
      * intros ii Hii. rewrite (setitem_nth _ _ _ _ ii Hset).
        destruct (Nat.eqb_spec ii a); [lia|]. apply Hpre. lia.
      * intros ii Hii. apply Hfin. lia.
    + rewrite (IH _ _ _ H).
      * f_equal. unfold add_water_gained. rewrite Hth', Ht0.
        rewrite Rmax_left by lra.
        destruct (nth_error dz_ a); [ring | reflexivity].
      * intros ii Hii. apply Hpre. lia.
      * intros ii Hii. apply Hfin. lia.
Qed.

Lemma top_up_fold_sum (a n : nat) (th0 th' : list R) (acc' : R) :
  fold_left (fun acc ii => s0 <- acc ;; body ii s0) (seq a n)
    (Some (th0, 0)) = Some (th', acc') ->
  acc' = fold_left (add_water_gained dz_ th0 th') (seq a n) 0.
Proof.
  intros H.
  destruct (top_up_fold _ _ _ _ _ H) as (_ & _ & _ & _ & _ & Hin).
  apply (top_up_fold_sum_from th0 th' n a th0 0 acc' H); auto.
Qed.

(** Run on its own result, the loop finds nothing to add. *)
Lemma top_up_fold_again (a n : nat) (th0 th' : list R) (acc' : R) :
  fold_left (fun acc ii => s0 <- acc ;; body ii s0) (seq a n)
    (Some (th0, 0)) = Some (th', acc') ->
  fold_left (fun acc ii => s0 <- acc ;; body ii s0) (seq a n)
    (Some (th', 0)) = Some (th', 0).
Proof.
  intros H. destruct (top_up_fold _ _ _ _ _ H) as (_ & _ & _ & _ & _ & Hin).
  apply fold_range_fixed. intros ii Hii.
  destruct (Hin ii Hii) as (t & g & _ & Hg & Hth).
  apply (body_fixed ii th' 0 (Rmax t g) g Hth Hg).
  pose proof (Rmax_r t g). lra.
Qed.

End TopUp.

(** ** Pre-irrigation *)

Lemma pre_irrigation_step_inv (prof : SoilProfileClass)
  (IrrMngt : PreIrrigation.IrrMngtStruct) (ii : nat) (th_ : list R)
  (acc : R) (th' : list R) (acc' : R) :
  PreIrrigation.pre_irrigation_step prof IrrMngt ii (th_, acc)
    = Some (th', acc') ->
  exists t g,
    nth_error th_ ii = Some t /\
    PreIrrigation.thCrit prof IrrMngt ii = Some g /\
    ((t < g /\
      exists d, nth_error (dz prof) ii = Some d /\
                setitem th_ ii g = Some th' /\
                acc' = acc + (g - t) * 1000 * d) \/
     (~ t < g /\ th' = th_ /\ acc' = acc)).
Proof.
  unfold PreIrrigation.pre_irrigation_step. intros H.
  inv_bind_as H g Hg. inv_bind_as H t Ht. exists t, g.
  split; [assumption|]. split; [assumption|].
  destruct (Rlt_dec t g) as [Hlt | Hge].
  - left. split; [assumption|]. inv_bind_as H d Hd. inv_bind_as H b Hb.
    unfold ret in H. injection H as <- <-. exists d. auto.
  - right. unfold ret in H. injection H as <- <-. auto.
Qed.

Lemma pre_irrigation_step_fixed (prof : SoilProfileClass)
  (IrrMngt : PreIrrigation.IrrMngtStruct) (ii : nat) (th_ : list R)
  (acc t g : R) :
  nth_error th_ ii = Some t ->
  PreIrrigation.thCrit prof IrrMngt ii = Some g -> ~ t < g ->
  PreIrrigation.pre_irrigation_step prof IrrMngt ii (th_, acc)
    = Some (th_, acc).
Proof.
  intros Ht Hg Hge. unfold PreIrrigation.pre_irrigation_step.
  rewrite Hg. cbn [bind]. rewrite Ht. cbn [bind].
  destruct (Rlt_dec t g); [contradiction | reflexivity].
Qed.

Lemma pre_irrigation_off (prof : SoilProfileClass) (Crop : CropClass)
  (InitCond : PreIrrigation.InitCondClass) (GrowingSeason : bool)
  (IrrMngt : PreIrrigation.IrrMngtStruct) :
  GrowingSeason = false \/ PreIrrigation.IrrMethod IrrMngt <> 4%Z \/
    PreIrrigation.DAP InitCond <> 1%Z ->
  PreIrrigation.pre_irrigation prof Crop InitCond GrowingSeason IrrMngt
    = Some (InitCond, 0).
Proof.
  intros H. unfold PreIrrigation.pre_irrigation.
  destruct GrowingSeason; [|reflexivity].
  destruct (Z.eqb_spec (PreIrrigation.IrrMethod IrrMngt) 4);
    [|reflexivity].
  destruct (Z.eqb_spec (PreIrrigation.DAP InitCond) 1); [|reflexivity].
  destruct H as [H | [H | H]]; [discriminate | contradiction | contradiction].
Qed.

Lemma pre_irrigation_on (prof : SoilProfileClass) (Crop : CropClass)
  (InitCond : PreIrrigation.InitCondClass)
  (IrrMngt : PreIrrigation.IrrMngtStruct) :
  PreIrrigation.IrrMethod IrrMngt = 4%Z ->
  PreIrrigation.DAP InitCond = 1%Z ->
  PreIrrigation.pre_irrigation prof Crop InitCond true IrrMngt =
  (compRz <- argwhere_ge_first (dzsum prof)
               (round2 (pymax (PreIrrigation.Zroot InitCond) (Zmin Crop))) ;;
   ' (th_, PreIrr) <-
     for_range compRz (PreIrrigation.pre_irrigation_step prof IrrMngt)
       (PreIrrigation.th InitCond, 0) ;;
   ret (PreIrrigation.set_th th_ InitCond, PreIrr)).
Proof.
  intros HM HD. unfold PreIrrigation.pre_irrigation.
  rewrite HM, HD. reflexivity.
Qed.

(** Pre-irrigation only adds water: no compartment ends drier than it
    started; root depth and day counter are kept; with non-negative
    thicknesses [PreIrr] is not negative; outside the growing season,
    outside net-irrigation mode ([IrrMethod <> 4]) or after the first day
    nothing is applied and the condition is returned as it was; and
    where it is applied, [PreIrr] is the sum, over the compartments above
    the one that holds the root depth and in their order, of the water
    [(th' - th) * 1000 * dz] that each has gained.

    In exact real arithmetic it accounts for all the water: the water
    held by the profile after the call is the water held before plus
    [PreIrr].  This balance is an equality of real numbers; computed in
    binary64 its two sides agree up to rounding only. *)
Theorem pre_irrigation_balance (prof : SoilProfileClass) (Crop : CropClass)
  (InitCond : PreIrrigation.InitCondClass) (GrowingSeason : bool)
  (IrrMngt : PreIrrigation.IrrMngtStruct)
  (NewCond : PreIrrigation.InitCondClass) (PreIrr : R) :
  PreIrrigation.pre_irrigation prof Crop InitCond GrowingSeason IrrMngt
    = Some (NewCond, PreIrr) ->
  PreIrrigation.Zroot NewCond = PreIrrigation.Zroot InitCond /\
  PreIrrigation.DAP NewCond = PreIrrigation.DAP InitCond /\
  List.length (PreIrrigation.th NewCond)
    = List.length (PreIrrigation.th InitCond) /\
  profile_water (dz prof) (PreIrrigation.th NewCond)
    = profile_water (dz prof) (PreIrrigation.th InitCond) + PreIrr /\
  Forall2 Rle (PreIrrigation.th InitCond) (PreIrrigation.th NewCond) /\
  (Forall (Rle 0) (dz prof) -> 0 <= PreIrr) /\
  (GrowingSeason = false \/ PreIrrigation.IrrMethod IrrMngt <> 4%Z \/
     PreIrrigation.DAP InitCond <> 1%Z ->
   PreIrr = 0 /\ NewCond = InitCond) /\
  (GrowingSeason = true -> PreIrrigation.IrrMethod IrrMngt = 4%Z ->
   PreIrrigation.DAP InitCond = 1%Z ->
   exists compRz,
     argwhere_ge_first (dzsum prof)
       (round2 (pymax (PreIrrigation.Zroot InitCond) (Zmin Crop)))
       = Some compRz /\
     PreIrr =
       fold_left
         (add_water_gained (dz prof) (PreIrrigation.th InitCond)
            (PreIrrigation.th NewCond))
         (seq 0 compRz) 0).
Proof.
  intros H.
  assert (Hsum : GrowingSeason = true ->
                 PreIrrigation.IrrMethod IrrMngt = 4%Z ->
                 PreIrrigation.DAP InitCond = 1%Z ->
                 exists compRz,
                   argwhere_ge_first (dzsum prof)
                     (round2 (pymax (PreIrrigation.Zroot InitCond)
                                (Zmin Crop)))
                     = Some compRz /\
                   PreIrr =
                     fold_left
                       (add_water_gained (dz prof)
                          (PreIrrigation.th InitCond)
                          (PreIrrigation.th NewCond))
                       (seq 0 compRz) 0).
  { intros HG HM HD. rewrite HG in H.
    rewrite (pre_irrigation_on _ _ _ _ HM HD) in H.
    inv_bind_as H compRz Hc. inv_bind_as H st Hst. destruct st as [th_ acc].
    unfold ret in H. injection H as <- <-.
    cbn [PreIrrigation.set_th PreIrrigation.th].
    exists compRz. split; [exact Hc|].
    apply (top_up_fold_sum (dz prof) (PreIrrigation.thCrit prof IrrMngt)
             (PreIrrigation.pre_irrigation_step prof IrrMngt)
             (pre_irrigation_step_inv prof IrrMngt) 0 compRz _ _ _ Hst). }
  assert (Hoff : GrowingSeason = false \/
                 PreIrrigation.IrrMethod IrrMngt <> 4%Z \/
                 PreIrrigation.DAP InitCond <> 1%Z ->
                 PreIrr = 0 /\ NewCond = InitCond).
  { intros Hc. rewrite (pre_irrigation_off _ _ _ _ _ Hc) in H.
    injection H as <- <-. auto. }
  destruct GrowingSeason;
    [|destruct Hoff as [-> ->]; auto 12 using Forall2_Rle_refl with real].
  destruct (Z.eq_dec (PreIrrigation.IrrMethod IrrMngt) 4) as [HM | HM];
    [|destruct Hoff as [-> ->]; auto 12 using Forall2_Rle_refl with real].
  destruct (Z.eq_dec (PreIrrigation.DAP InitCond) 1) as [HD | HD];
    [|destruct Hoff as [-> ->]; auto 12 using Forall2_Rle_refl with real].
  rewrite (pre_irrigation_on _ _ _ _ HM HD) in H.
  inv_bind_as H compRz Hc. inv_bind_as H st Hst. destruct st as [th_ acc].
  unfold ret in H. injection H as <- <-. cbn [PreIrrigation.set_th
    PreIrrigation.Zroot PreIrrigation.DAP PreIrrigation.th] in *.
  destruct (top_up_fold (dz prof) (PreIrrigation.thCrit prof IrrMngt)
              (PreIrrigation.pre_irrigation_step prof IrrMngt)
              (pre_irrigation_step_inv prof IrrMngt)
              0 compRz _ _ _ Hst) as (Hlen & Hbal & Hle & Hpos & _ & _).
  auto 12.
Qed.

(** Pre-irrigation reaches the compartments above the one that holds the
    root depth, and no other: with [compRz] the first compartment whose
    cumulative depth is at least the rounded root depth, every
    compartment before [compRz] ends at the larger of its water content
    and the threshold [thCrit], and the compartments from [compRz] on
    keep their water content.  Called again on its own result, the
    routine applies nothing and changes nothing. *)
Theorem pre_irrigation_reach (prof : SoilProfileClass) (Crop : CropClass)
  (InitCond : PreIrrigation.InitCondClass) (GrowingSeason : bool)
  (IrrMngt : PreIrrigation.IrrMngtStruct)
  (NewCond : PreIrrigation.InitCondClass) (PreIrr : R) :
  PreIrrigation.pre_irrigation prof Crop InitCond GrowingSeason IrrMngt
    = Some (NewCond, PreIrr) ->
  PreIrrigation.pre_irrigation prof Crop NewCond GrowingSeason IrrMngt
    = Some (NewCond, 0) /\
  (GrowingSeason = true -> PreIrrigation.IrrMethod IrrMngt = 4%Z ->
   PreIrrigation.DAP InitCond = 1%Z ->
   exists compRz,
     argwhere_ge_first (dzsum prof)
       (round2 (pymax (PreIrrigation.Zroot InitCond) (Zmin Crop)))
       = Some compRz /\
     (forall ii, (compRz <= ii)%nat ->
        nth_error (PreIrrigation.th NewCond) ii
          = nth_error (PreIrrigation.th InitCond) ii) /\
     (forall ii, (ii < compRz)%nat ->
        exists t g,
          nth_error (PreIrrigation.th InitCond) ii = Some t /\
          PreIrrigation.thCrit prof IrrMngt ii = Some g /\
          nth_error (PreIrrigation.th NewCond) ii = Some (Rmax t g))).
Proof.
  intros H.
  destruct GrowingSeason;
    [|rewrite pre_irrigation_off in H by auto; injection H as <- <-;
      split; [apply pre_irrigation_off; auto | discriminate]].
  destruct (Z.eq_dec (PreIrrigation.IrrMethod IrrMngt) 4) as [HM | HM];
    [|rewrite pre_irrigation_off in H by auto; injection H as <- <-;
      split; [apply pre_irrigation_off; auto | contradiction]].
  destruct (Z.eq_dec (PreIrrigation.DAP InitCond) 1) as [HD | HD];
    [|rewrite pre_irrigation_off in H by auto; injection H as <- <-;
      split; [apply pre_irrigation_off; auto | contradiction]].
  rewrite (pre_irrigation_on _ _ _ _ HM HD) in H.
  inv_bind_as H compRz Hc. inv_bind_as H st Hst. destruct st as [th_ acc].
  unfold ret in H. injection H as <- <-.
  split.
  - rewrite pre_irrigation_on by assumption.
    cbn [PreIrrigation.set_th PreIrrigation.Zroot PreIrrigation.th].
    rewrite Hc. cbn [bind]. unfold for_range in *.
    rewrite (top_up_fold_again (dz prof)
               (PreIrrigation.thCrit prof IrrMngt)
               (PreIrrigation.pre_irrigation_step prof IrrMngt)
               (pre_irrigation_step_inv prof IrrMngt)
               (pre_irrigation_step_fixed prof IrrMngt)
               0 compRz _ _ _ Hst).
    reflexivity.
  - intros _ _ _. exists compRz. split; [exact Hc|].
    cbn [PreIrrigation.set_th PreIrrigation.th].
    destruct (top_up_fold (dz prof) (PreIrrigation.thCrit prof IrrMngt)
                (PreIrrigation.pre_irrigation_step prof IrrMngt)
                (pre_irrigation_step_inv prof IrrMngt)
                0 compRz _ _ _ Hst) as (_ & _ & _ & _ & Hout & Hin).
    split.
    + intros ii Hii. apply Hout. lia.
    + intros ii Hii. apply Hin. lia.
Qed.

Lemma pre_irrigation_example :
  PreIrrigation.pre_irrigation prof_three crop_maize preirr_cond true irr_net
  = Some ({| PreIrrigation.Zroot := 0.25; PreIrrigation.DAP := 1;
             PreIrrigation.th :=
               [0.15 + 80 / 100 * (0.3 - 0.15); 0.3; 0.1] |},
          0 + (0.15 + 80 / 100 * (0.3 - 0.15) - 0.1) * 1000 * 0.1).
Proof.
  rewrite pre_irrigation_on by reflexivity.
  unfold preirr_cond, crop_maize, prof_three, irr_net.
  cbn [PreIrrigation.Zroot Zmin dzsum PreIrrigation.th].
  unfold pymax. destruct (Rgt_dec 0.1 0.25); [lra|].
  rewrite (round2_exact 0.25 25) by lra.
  cbn [argwhere_ge_first].
  destruct (Rge_dec 0.1 (25 / 100)); [lra|].
  destruct (Rge_dec 0.2 (25 / 100)); [lra|].
  destruct (Rge_dec 0.3 (25 / 100)); [|lra].
  cbn [option_map bind for_range seq fold_left].
  unfold PreIrrigation.pre_irrigation_step, PreIrrigation.thCrit.
  cbn [th_wp th_fc dz nth_error bind ret PreIrrigation.NetIrrSMT].
  destruct (Rlt_dec 0.1 (0.15 + 80 / 100 * (0.3 - 0.15))); [|lra].
  cbn [bind ret setitem nth_error].
  destruct (Rlt_dec 0.3 (0.15 + 80 / 100 * (0.3 - 0.15))); [lra|].
  reflexivity.
Qed.

Lemma pre_irrigation_balance_witness :
  exists NewCond PreIrr,
    PreIrrigation.pre_irrigation prof_three crop_maize preirr_cond true
      irr_net = Some (NewCond, PreIrr) /\
    PreIrr = 17 /\
    profile_water (dz prof_three) (PreIrrigation.th NewCond)
      = profile_water (dz prof_three) (PreIrrigation.th preirr_cond)
        + PreIrr /\
    Forall2 Rle (PreIrrigation.th preirr_cond) (PreIrrigation.th NewCond) /\
    exists compRz,
      argwhere_ge_first (dzsum prof_three)
        (round2 (pymax (PreIrrigation.Zroot preirr_cond) (Zmin crop_maize)))
        = Some compRz /\
      PreIrr =
        fold_left
          (add_water_gained (dz prof_three) (PreIrrigation.th preirr_cond)
             (PreIrrigation.th NewCond))
          (seq 0 compRz) 0.
Proof.
  pose proof pre_irrigation_example as H.
  destruct (pre_irrigation_balance prof_three crop_maize preirr_cond true
              irr_net _ _ H) as (_ & _ & _ & Hbal & Hle & _ & _ & Hsum).
  eexists. eexists. split; [exact H|]. split; [lra|].
  split; [exact Hbal|]. split; [exact Hle|].
  apply Hsum; reflexivity.
Defined.

Lemma pre_irrigation_reach_witness :
  exists NewCond PreIrr,
    PreIrrigation.pre_irrigation prof_three crop_maize preirr_cond true
      irr_net = Some (NewCond, PreIrr) /\
    PreIrrigation.pre_irrigation prof_three crop_maize NewCond true irr_net
      = Some (NewCond, 0) /\
    nth_error (PreIrrigation.th NewCond) 2 = Some 0.1.
Proof.
  pose proof pre_irrigation_example as H.
  destruct (pre_irrigation_reach prof_three crop_maize preirr_cond true
              irr_net _ _ H) as [Hagain _].
  eexists. eexists. split; [exact H|]. split; [exact Hagain | reflexivity].
Defined.

(** ** Groundwater inflow *)

Lemma groundwater_inflow_step_inv (prof : Groundwater.SoilProfileClass)
  (ii : nat) (th_ : list R) (acc : R) (th' : list R) (acc' : R) :
  Groundwater.groundwater_inflow_step prof ii (th_, acc)
    = Some (th', acc') ->
  exists t g,
    nth_error th_ ii = Some t /\
    nth_error (Groundwater.th_s prof) ii = Some g /\
    ((t < g /\
      exists d, nth_error (Groundwater.dz prof) ii = Some d /\
                setitem th_ ii g = Some th' /\
                acc' = acc + (g - t) * 1000 * d) \/
     (~ t < g /\ th' = th_ /\ acc' = acc)).
Proof.
  unfold Groundwater.groundwater_inflow_step. intros H.
  inv_bind_as H t Ht. inv_bind_as H g Hg. exists t, g.
  split; [assumption|]. split; [assumption|].
  destruct (Rlt_dec t g) as [Hlt | Hge].
  - left. split; [assumption|]. inv_bind_as H b Hb. inv_bind_as H d Hd.
    unfold ret in H. injection H as <- <-. exists d. auto.
  - right. unfold ret in H. injection H as <- <-. auto.
Qed.

Lemma groundwater_inflow_step_fixed (prof : Groundwater.SoilProfileClass)
  (ii : nat) (th_ : list R) (acc t g : R) :
  nth_error th_ ii = Some t ->
  nth_error (Groundwater.th_s prof) ii = Some g -> ~ t < g ->
  Groundwater.groundwater_inflow_step prof ii (th_, acc) = Some (th_, acc).
Proof.
  intros Ht Hg Hge. unfold Groundwater.groundwater_inflow_step.
  rewrite Ht. cbn [bind]. rewrite Hg. cbn [bind].
  destruct (Rlt_dec t g); [contradiction | reflexivity].
Qed.

(** Groundwater inflow only adds water: no compartment ends drier than
    it started; the water-table fields are kept; with non-negative
    thicknesses [GwIn] is not negative; without a water table in the
    soil nothing flows in and the condition is returned as it was; and
    with one, [GwIn] is the sum, over the compartments from the first
    one whose mid-point lies at or below the water table and in their
    order, of the water [(th' - th) * 1000 * dz] that each has gained.

    In exact real arithmetic it accounts for all the water: the water
    held by the profile after the call is the water held before plus
    [GwIn].  This balance is an equality of real numbers; computed in
    binary64 its two sides agree up to rounding only. *)
Theorem groundwater_inflow_balance (prof : Groundwater.SoilProfileClass)
  (InitCond NewCond : Groundwater.InitCondClass) (GwIn : R) :
  Groundwater.groundwater_inflow prof InitCond = Some (NewCond, GwIn) ->
  Groundwater.WTinSoil NewCond = Groundwater.WTinSoil InitCond /\
  Groundwater.zGW NewCond = Groundwater.zGW InitCond /\
  List.length (Groundwater.th NewCond)
    = List.length (Groundwater.th InitCond) /\
  profile_water (Groundwater.dz prof) (Groundwater.th NewCond)
    = profile_water (Groundwater.dz prof) (Groundwater.th InitCond)
      + GwIn /\
  Forall2 Rle (Groundwater.th InitCond) (Groundwater.th NewCond) /\
  (Forall (Rle 0) (Groundwater.dz prof) -> 0 <= GwIn) /\
  (Groundwater.WTinSoil InitCond = false ->
   GwIn = 0 /\ NewCond = InitCond) /\
  (Groundwater.WTinSoil InitCond = true ->
   exists idx,
     argwhere_ge_first (Groundwater.zMid prof) (Groundwater.zGW InitCond)
       = Some idx /\
     GwIn =
       fold_left
         (add_water_gained (Groundwater.dz prof) (Groundwater.th InitCond)
            (Groundwater.th NewCond))
         (seq idx (List.length (Groundwater.Comp prof) - idx)) 0).
Proof.
  unfold Groundwater.groundwater_inflow. intros H.
  destruct (Groundwater.WTinSoil InitCond) eqn:HWT.
  - inv_bind_as H idx Hidx. inv_bind_as H st Hst. destruct st as [th_ acc].
    unfold ret in H. injection H as <- <-.
    cbn [Groundwater.set_th Groundwater.WTinSoil Groundwater.zGW
         Groundwater.th].
    unfold for_range_from in Hst.
    destruct (top_up_fold (Groundwater.dz prof)
                (nth_error (Groundwater.th_s prof))
                (Groundwater.groundwater_inflow_step prof)
                (groundwater_inflow_step_inv prof)
                _ _ _ _ _ Hst) as (Hlen & Hbal & Hle & Hpos & _ & _).
    pose proof (top_up_fold_sum (Groundwater.dz prof)
                  (nth_error (Groundwater.th_s prof))
                  (Groundwater.groundwater_inflow_step prof)
                  (groundwater_inflow_step_inv prof)
                  _ _ _ _ _ Hst) as Hsum.
    repeat split; try assumption; try discriminate.
    intros _. exists idx. split; [exact Hidx | exact Hsum].
  - unfold ret in H. injection H as <- <-.
    rewrite HWT. repeat split; try lra; try discriminate.
    apply Forall2_Rle_refl.
Qed.

(** Groundwater inflow saturates the compartments below the water table,
    and no other: with [idx] the first compartment whose mid-point lies
    at or below the water table, every compartment from [idx] on ends at
    the larger of its water content and its saturation, and the
    compartments before [idx] keep their water content.  Called again on
    its own result, the routine finds no inflow and changes nothing. *)
Theorem groundwater_inflow_saturates (prof : Groundwater.SoilProfileClass)
  (InitCond NewCond : Groundwater.InitCondClass) (GwIn : R) :
  Groundwater.groundwater_inflow prof InitCond = Some (NewCond, GwIn) ->
  Groundwater.groundwater_inflow prof NewCond = Some (NewCond, 0) /\
  (Groundwater.WTinSoil InitCond = true ->
   exists idx,
     argwhere_ge_first (Groundwater.zMid prof) (Groundwater.zGW InitCond)
       = Some idx /\
     (forall ii, (ii < idx)%nat ->
        nth_error (Groundwater.th NewCond) ii
          = nth_error (Groundwater.th InitCond) ii) /\
     (forall ii,
        (idx <= ii < List.length (Groundwater.Comp prof))%nat ->
        exists t g,
          nth_error (Groundwater.th InitCond) ii = Some t /\
          nth_error (Groundwater.th_s prof) ii = Some g /\
          nth_error (Groundwater.th NewCond) ii = Some (Rmax t g))).
Proof.
  unfold Groundwater.groundwater_inflow. intros H.
  destruct (Groundwater.WTinSoil InitCond) eqn:HWT.
  - inv_bind_as H idx Hidx. inv_bind_as H st Hst. destruct st as [th_ acc].
    unfold ret in H. injection H as <- <-.
    cbn [Groundwater.set_th Groundwater.WTinSoil Groundwater.zGW
         Groundwater.th].
    rewrite HWT, Hidx. cbn [bind]. unfold for_range_from in *.
    split.
    + rewrite (top_up_fold_again (Groundwater.dz prof)
                 (nth_error (Groundwater.th_s prof))
                 (Groundwater.groundwater_inflow_step prof)
                 (groundwater_inflow_step_inv prof)
                 (groundwater_inflow_step_fixed prof)
                 _ _ _ _ _ Hst).
      reflexivity.
    + intros _. exists idx. split; [reflexivity|].
      destruct (top_up_fold (Groundwater.dz prof)
                  (nth_error (Groundwater.th_s prof))
                  (Groundwater.groundwater_inflow_step prof)
                  (groundwater_inflow_step_inv prof)
                  _ _ _ _ _ Hst) as (_ & _ & _ & _ & Hout & Hin).
      split.
      * intros ii Hii. apply Hout. lia.
      * intros ii Hii. apply Hin. lia.
  - unfold ret in H. injection H as <- <-. rewrite HWT.
    split; [reflexivity | discriminate].
Qed.

Lemma groundwater_inflow_example :
  Groundwater.groundwater_inflow gw_prof gw_cond
  = Some ({| Groundwater.WTinSoil := true; Groundwater.zGW := 0.12;
             Groundwater.th := [0.2; 0.5; 0.5];
             Groundwater.th_fc_Adj := [0.3; 0.3; 0.3] |},
          0 + (0.5 - 0.3) * 1000 * 0.1).
Proof.
  unfold Groundwater.groundwater_inflow, gw_prof, gw_cond.
  cbn [Groundwater.WTinSoil Groundwater.zGW Groundwater.zMid
       Groundwater.Comp Groundwater.th argwhere_ge_first].
  destruct (Rge_dec 0.05 0.12); [lra|].
  destruct (Rge_dec 0.15 0.12); [|lra].
  cbn [option_map bind for_range_from List.length Nat.sub seq fold_left].
  unfold Groundwater.groundwater_inflow_step.
  cbn [Groundwater.th_s Groundwater.dz nth_error bind ret].
  destruct (Rlt_dec 0.3 0.5); [|lra].
  cbn [bind ret setitem option_map nth_error].
  destruct (Rlt_dec 0.5 0.5); [lra|].
  reflexivity.
Qed.

Lemma groundwater_inflow_balance_witness :
  exists NewCond GwIn,
    Groundwater.groundwater_inflow gw_prof gw_cond = Some (NewCond, GwIn) /\
    GwIn = 20 /\
    profile_water (Groundwater.dz gw_prof) (Groundwater.th NewCond)
      = profile_water (Groundwater.dz gw_prof) (Groundwater.th gw_cond)
        + GwIn /\
    Forall2 Rle (Groundwater.th gw_cond) (Groundwater.th NewCond) /\
    exists idx,
      argwhere_ge_first (Groundwater.zMid gw_prof) (Groundwater.zGW gw_cond)
        = Some idx /\
      GwIn =
        fold_left
          (add_water_gained (Groundwater.dz gw_prof) (Groundwater.th gw_cond)
             (Groundwater.th NewCond))
          (seq idx (List.length (Groundwater.Comp gw_prof) - idx)) 0.
Proof.
  pose proof groundwater_inflow_example as H.
  destruct (groundwater_inflow_balance gw_prof gw_cond _ _ H)
    as (_ & _ & _ & Hbal & Hle & _ & _ & Hsum).
  eexists. eexists. split; [exact H|]. split; [lra|].
  split; [exact Hbal|]. split; [exact Hle|].
  apply Hsum. reflexivity.
Defined.

Lemma groundwater_inflow_saturates_witness :
  exists NewCond GwIn,
    Groundwater.groundwater_inflow gw_prof gw_cond = Some (NewCond, GwIn) /\
    Groundwater.groundwater_inflow gw_prof NewCond = Some (NewCond, 0).
Proof.
  pose proof groundwater_inflow_example as H.
  destruct (groundwater_inflow_saturates gw_prof gw_cond _ _ H)
    as [Hagain _].
  eexists. eexists. split; [exact H | exact Hagain].
Defined.

(** ** Groundwater table *)

(** A loop that copies entries of [src] into the array, one index at a
    time. *)
Lemma copy_fold (src : list R) (body : nat -> list R -> option (list R))
  (a n : nat) (l0 l' : list R) :
  (forall ii l, body ii l = (x <- nth_error src ii ;; setitem l ii x)) ->
  fold_left (fun acc ii => s0 <- acc ;; body ii s0) (seq a n) (Some l0)
    = Some l' ->
  List.length l' = List.length l0 /\
  (forall ii, ~ (a <= ii < a + n)%nat -> nth_error l' ii = nth_error l0 ii) /\
  (forall ii, (a <= ii < a + n)%nat ->
     exists x, nth_error src ii = Some x /\ nth_error l' ii = Some x).
Proof.
  intros Hbody H.
  apply (fold_range_invariant_ix
    (fun k (l : list R) =>
       List.length l = List.length l0 /\
       (forall ii, ~ (a <= ii < k)%nat -> nth_error l ii = nth_error l0 ii) /\
       (forall ii, (a <= ii < k)%nat ->
          exists x, nth_error src ii = Some x /\ nth_error l ii = Some x)))
    in H.
  - exact H.
  - clear H. intros ii l1 l2 Hii (Hlen & Hout & Hin) Hb.
    rewrite Hbody in Hb. inv_bind_as Hb x Hx.
    split; [rewrite (setitem_length _ _ _ _ Hb); assumption|].
    split.
    + intros jj Hjj. rewrite (setitem_nth _ _ _ _ jj Hb).
      destruct (Nat.eqb_spec jj ii); [lia|]. apply Hout. lia.
    + intros jj Hjj. rewrite (setitem_nth _ _ _ _ jj Hb).
      destruct (Nat.eqb_spec jj ii) as [-> | Hne]; [eauto|].
      apply Hin. lia.
  - split; [reflexivity|]. split; [reflexivity|]. intros ii Hii. lia.
Qed.




Lemma check_groundwater_table_inv (t : Z)
  (prof : Groundwater.SoilProfileClass)
  (InitCond : Groundwater.InitCondClass) (zGW_ : R)
  (NewCond : Groundwater.InitCondClass)
  (prof' : Groundwater.SoilProfileClass) :
  Groundwater.check_groundwater_table t prof InitCond 1 zGW_
    = Some (NewCond, prof') ->
  let n := List.length (Groundwater.Comp prof) in
  let WT :=
    if Rge_dec zGW_ 0
    then negb (count_ge (Groundwater.zMid prof) zGW_ =? 0)%nat
    else Groundwater.WTinSoil InitCond in
  exists th_ adj,
    (if WT then
       exists idx,
         argwhere_ge_first (Groundwater.zMid prof) zGW_ = Some idx /\
         for_range_from idx n (Groundwater.saturate_step prof)
           (Groundwater.th InitCond) = Some th_
     else th_ = Groundwater.th InitCond) /\
    Groundwater.field_capacity_loop prof zGW_ n (repeat 0 n) = Some adj /\
    NewCond = {| Groundwater.WTinSoil := WT; Groundwater.zGW := zGW_;
                 Groundwater.th := th_; Groundwater.th_fc_Adj := adj |} /\
    prof' = Groundwater.set_prof_th_fc_Adj adj prof.
Proof.
  intros H n WT. unfold Groundwater.check_groundwater_table in H.
  cbn [Z.eqb Pos.eqb] in H. fold n in H.
  inv_bind_as H C1 HC1. inv_bind_as H adj Hadj.
  unfold ret in H. injection H as <- <-.
  assert (HWT : exists th_,
             (if WT then
                exists idx,
                  argwhere_ge_first (Groundwater.zMid prof) zGW_ = Some idx /\
                  for_range_from idx n (Groundwater.saturate_step prof)
                    (Groundwater.th InitCond) = Some th_
              else th_ = Groundwater.th InitCond) /\
             C1 = {| Groundwater.WTinSoil := WT; Groundwater.zGW := zGW_;
                     Groundwater.th := th_;
                     Groundwater.th_fc_Adj :=
                       Groundwater.th_fc_Adj InitCond |}).
  { revert HC1. unfold WT.
    cbn [Groundwater.set_zGW Groundwater.zGW].
    destruct (Rge_dec zGW_ 0).
    - destruct (count_ge (Groundwater.zMid prof) zGW_ =? 0)%nat;
        cbn [negb Groundwater.set_WTinSoil Groundwater.WTinSoil
             Groundwater.zGW Groundwater.th Groundwater.set_zGW]; intros HC1.
      + unfold ret in HC1. injection HC1 as <-. eexists.
        split; reflexivity.
      + inv_bind_as HC1 idx Hidx. inv_bind_as HC1 th_ Hth.
        unfold ret in HC1. injection HC1 as <-. exists th_.
        split; [exists idx; auto | reflexivity].
    - cbn [Groundwater.WTinSoil Groundwater.zGW Groundwater.th
           Groundwater.set_zGW].
      destruct (Groundwater.WTinSoil InitCond) eqn:E; intros HC1.
      + inv_bind_as HC1 idx Hidx. inv_bind_as HC1 th_ Hth.
        unfold ret in HC1. injection HC1 as <-. exists th_.
        split; [exists idx; auto|].
        unfold Groundwater.set_th. cbn. rewrite E. reflexivity.
      + unfold ret in HC1. injection HC1 as <-. eexists.
        split; [reflexivity|]. unfold Groundwater.set_zGW.
        rewrite E. reflexivity. }
  destruct HWT as (th_ & Hth & ->).
  exists th_, adj. split; [assumption|].
  cbn [Groundwater.zGW] in Hadj. split; [assumption|].
  split; reflexivity.
Qed.


(** Without a water table ([zGW < 0]) the loop over the compartments
    stops at the bottom compartment: every compartment but the last gets
    its own field capacity as adjusted field capacity, the last one is
    left at the zero the array was created with, and water contents and
    [WTinSoil] are decided by the [WTinSoil] the condition came with. *)
Theorem check_groundwater_table_no_table (t : Z)
  (prof : Groundwater.SoilProfileClass)
  (InitCond : Groundwater.InitCondClass) (zGW_ : R)
  (NewCond : Groundwater.InitCondClass)
  (prof' : Groundwater.SoilProfileClass) :
  zGW_ < 0 ->
  Groundwater.check_groundwater_table t prof InitCond 1 zGW_
    = Some (NewCond, prof') ->
  let n := List.length (Groundwater.Comp prof) in
  Groundwater.WTinSoil NewCond = Groundwater.WTinSoil InitCond /\
  (Groundwater.WTinSoil InitCond = false ->
   Groundwater.th NewCond = Groundwater.th InitCond) /\
  (forall ii, (S ii < n)%nat ->
     exists fc, nth_error (Groundwater.th_fc prof) ii = Some fc /\
                nth_error (Groundwater.th_fc_Adj NewCond) ii = Some fc) /\
  (forall ii, S ii = n ->
     nth_error (Groundwater.th_fc_Adj NewCond) ii = Some 0).
Proof.
  intros HzGW H n.
  destruct (check_groundwater_table_inv _ _ _ _ _ _ H)
    as (th_ & adj & Hth & Hadj & -> & ->).
  destruct (Rge_dec zGW_ 0) as [Hge | _]; [lra|].
  cbn [Groundwater.WTinSoil Groundwater.th Groundwater.th_fc_Adj].
  split; [reflexivity|].
  split; [intros E; rewrite E in Hth; assumption|].
  fold n in Hadj. clear Hth.
  destruct n as [|compi]; [split; intros ii Hii; lia|].
  cbn [Groundwater.field_capacity_loop] in Hadj.
  inv_bind_as Hadj fc Hfc.
  destruct (Rlt_dec zGW_ 0); [|lra]. cbn [bind ret] in Hadj.
  unfold for_range in Hadj.
  destruct (copy_fold (Groundwater.th_fc prof)
              (Groundwater.copy_step prof) 0 compi _ _
              (fun ii l => eq_refl) Hadj) as (_ & Hkeep & Hcopy).
  split.
  - intros ii Hii. apply Hcopy. lia.
  - intros ii Hii. injection Hii as ->. rewrite Hkeep by lia.
    apply nth_error_repeat. lia.
Qed.

(** Where [check_groundwater_table] finds the water table in the soil,
    the compartments from [idx] on, the first compartment whose
    mid-point is at or below the water table, are set to saturation and
    the others keep their water content; where it does not, the water
    contents are kept.  [groundwater_inflow], called on the result,
    finds nothing left to flow in. *)
Theorem check_groundwater_table_then_inflow (t : Z)
  (prof : Groundwater.SoilProfileClass)
  (InitCond : Groundwater.InitCondClass) (zGW_ : R)
  (NewCond : Groundwater.InitCondClass)
  (prof' : Groundwater.SoilProfileClass) :
  Groundwater.check_groundwater_table t prof InitCond 1 zGW_
    = Some (NewCond, prof') ->
  Groundwater.zGW NewCond = zGW_ /\
  (Groundwater.WTinSoil NewCond = false ->
   Groundwater.th NewCond = Groundwater.th InitCond) /\
  (Groundwater.WTinSoil NewCond = true ->
   exists idx,
     argwhere_ge_first (Groundwater.zMid prof) zGW_ = Some idx /\
     (forall ii, (ii < idx)%nat ->
        nth_error (Groundwater.th NewCond) ii
          = nth_error (Groundwater.th InitCond) ii) /\
     (forall ii, (idx <= ii < List.length (Groundwater.Comp prof))%nat ->
        exists s, nth_error (Groundwater.th_s prof) ii = Some s /\
                  nth_error (Groundwater.th NewCond) ii = Some s)) /\
  Groundwater.groundwater_inflow prof' NewCond = Some (NewCond, 0).
Proof.
  intros H.
  destruct (check_groundwater_table_inv _ _ _ _ _ _ H)
    as (th_ & adj & Hth & _ & -> & ->).
  cbn [Groundwater.zGW Groundwater.WTinSoil Groundwater.th].
  unfold Groundwater.groundwater_inflow.
  cbn [Groundwater.zGW Groundwater.WTinSoil Groundwater.th
       Groundwater.set_prof_th_fc_Adj Groundwater.zMid Groundwater.Comp].
  destruct (if Rge_dec zGW_ 0
            then negb (count_ge (Groundwater.zMid prof) zGW_ =? 0)%nat
            else Groundwater.WTinSoil InitCond).
  - destruct Hth as (idx & Hidx & Hsat). unfold for_range_from in *.
    destruct (copy_fold (Groundwater.th_s prof)
                (Groundwater.saturate_step prof) _ _ _ _
                (fun ii l => eq_refl) Hsat) as (_ & Hkeep & Hcopy).
    split; [reflexivity|]. split; [discriminate|]. split.
    + intros _. exists idx. split; [assumption|]. split.
      * intros ii Hii. apply Hkeep. lia.
      * intros ii Hii. apply Hcopy. lia.
    + rewrite Hidx. cbn [bind].
      rewrite fold_range_fixed; [reflexivity|].
      intros ii Hii. destruct (Hcopy ii Hii) as (x & Hx & Hthx).
      apply (groundwater_inflow_step_fixed _ ii th_ 0 x x Hthx);
        [assumption | lra].
  - subst th_. split; [reflexivity|]. split; [reflexivity|].
    split; [discriminate | reflexivity].
Qed.

Lemma Xmax_of_example : Groundwater.Xmax_of 0.3 = 2.
Proof. unfold Groundwater.Xmax_of. repeat decide_real. reflexivity. Qed.

Lemma check_groundwater_table_example :
  Groundwater.check_groundwater_table 0 gw_prof gw_cond 1 0.12
  = Some ({| Groundwater.WTinSoil := true; Groundwater.zGW := 0.12;
             Groundwater.th := [0.2; 0.5; 0.5];
             Groundwater.th_fc_Adj :=
               [0.3 + (0.5 - 0.3) / (2 * 2) * (0.05 - (0.12 - 2)) ^ 2;
                0.5; 0.5] |},
          Groundwater.set_prof_th_fc_Adj
            [0.3 + (0.5 - 0.3) / (2 * 2) * (0.05 - (0.12 - 2)) ^ 2;
             0.5; 0.5] gw_prof).
Proof.
  unfold Groundwater.check_groundwater_table, gw_prof, gw_cond.
  repeat (cbn; rewrite ?Xmax_of_example; unfold Rge_b; decide_real).
  rewrite fdiv_Some by lra. reflexivity.
Qed.

Lemma check_groundwater_table_example_none :
  Groundwater.check_groundwater_table 0 gw_prof gw_cond_none 1 (-1)
  = Some ({| Groundwater.WTinSoil := false; Groundwater.zGW := -1;
             Groundwater.th := [0.2; 0.3; 0.5];
             Groundwater.th_fc_Adj := [0.3; 0.3; 0] |},
          Groundwater.set_prof_th_fc_Adj [0.3; 0.3; 0] gw_prof).
Proof.
  unfold Groundwater.check_groundwater_table, gw_prof, gw_cond_none.
  repeat (cbn; rewrite ?Xmax_of_example; unfold Rge_b; decide_real).
  reflexivity.
Qed.


Lemma check_groundwater_table_no_table_witness :
  exists NewCond prof',
    -1 < 0 /\
    Groundwater.check_groundwater_table 0 gw_prof gw_cond_none 1 (-1)
      = Some (NewCond, prof') /\
    nth_error (Groundwater.th_fc_Adj NewCond) 2 = Some 0.
Proof.
  pose proof check_groundwater_table_example_none as H.
  assert (Hz : -1 < 0) by lra.
  destruct (check_groundwater_table_no_table _ _ _ _ _ _ Hz H)
    as (_ & _ & _ & Hlast).
  eexists. eexists. split; [exact Hz|]. split; [exact H|].
  apply (Hlast 2%nat). reflexivity.
Defined.

Lemma check_groundwater_table_then_inflow_witness :
  exists NewCond prof',
    Groundwater.check_groundwater_table 0 gw_prof gw_cond 1 0.12
      = Some (NewCond, prof') /\
    Groundwater.groundwater_inflow prof' NewCond = Some (NewCond, 0).
Proof.
  pose proof check_groundwater_table_example as H.
  destruct (check_groundwater_table_then_inflow _ _ _ _ _ _ H)
    as (_ & _ & _ & Hin).
  eexists. eexists. split; [exact H | exact Hin].
Defined.

(** ** Drainage *)

Lemma restrict_spec (drainsum excess cKsat d e : R) :
  Drainage.restrict drainsum excess cKsat = (d, e) ->
  d + e = drainsum + excess /\ d <= cKsat /\ excess <= e /\ d <= drainsum.
Proof.
  unfold Drainage.restrict. intros H.
  destruct (Rgt_dec drainsum cKsat); injection H as <- <-; lra.
Qed.

(** The water of one compartment is accounted for: what it holds
    afterwards, what drains on and what is in excess add up to what it
    held and what arrived from above. *)
Lemma drain_compartment_balance
  (cth_fc cth_s ctau cdz cdzsum cKsat th_ii fcAdj drainsum : R)
  (t' d' e' : R) :
  Drainage.drain_compartment cth_fc cth_s ctau cdz cdzsum cKsat th_ii fcAdj
    drainsum = Some (t', d', e') ->
  t' * 1000 * cdz + d' + e' = th_ii * 1000 * cdz + drainsum /\
  (0 <= cdz -> 0 <= e') /\
  (0 <= cKsat -> d' <= cKsat).
Proof.
  unfold Drainage.drain_compartment. intros H.
  inv_bind_as H dthdt Hab.
  destruct (Rle_dec drainsum _) as [Hdr | Hdr].
  - destruct (Drainage.restrict _ _ _) as [d e] eqn:Er.
    unfold ret in H. injection H as <- <- <-.
    apply restrict_spec in Er. split; [lra|]. split; intros; lra.
  - inv_bind_as H dthdt2 Hd2. inv_bind_as H thX HthX.
    destruct (Rle_dec thX cth_s) as [HX | HX].
    + inv_bind_as H q Hq. apply fdiv_inv in Hq as [Hdz ->].
      assert (Hq : drainsum / (1000 * cdz) * 1000 * cdz = drainsum)
        by (field; lra).
      destruct (Rgt_dec _ thX).
      * inv_bind_as H dthdt3 Hd3.
        destruct (Drainage.restrict _ _ _) as [d e] eqn:Er.
        unfold ret in H. injection H as <- <- <-.
        apply restrict_spec in Er. split; [nra|]. split; intros; lra.
      * destruct (Rgt_dec _ fcAdj).
        -- inv_bind_as H dthdt3 Hd3.
           destruct (Drainage.restrict _ _ _) as [d e] eqn:Er.
           unfold ret in H. injection H as <- <- <-.
           apply restrict_spec in Er. split; [nra|]. split; intros; lra.
        -- unfold ret in H. injection H as <- <- <-.
           split; [nra|]. split; intros; lra.
    + inv_bind_as H q Hq. apply fdiv_inv in Hq as [Hdz ->].
      assert (Hq : drainsum / (1000 * cdz) * 1000 * cdz = drainsum)
        by (field; lra).
      destruct (Rle_dec _ cth_s) as [Hs | Hs].
      * destruct (Rgt_dec _ fcAdj).
        -- inv_bind_as H dthdt3 Hd3.
           destruct (Drainage.restrict _ _ _) as [d e] eqn:Er.
           unfold ret in H. injection H as <- <- <-.
           apply restrict_spec in Er. split; [nra|]. split; intros; lra.
        -- unfold ret in H. injection H as <- <- <-.
           split; [nra|]. split; intros; lra.
      * inv_bind_as H dthdt3 Hd3.
        destruct (Drainage.restrict _ _ _) as [d e] eqn:Er.
        unfold ret in H. injection H as <- <- <-.
        apply restrict_spec in Er.
        destruct (Rgt_dec _ _) as [Hm | Hm].
        -- split; [nra|]. split; intros; [|lra]. nra.
        -- split; [nra|]. split; intros; [|lra]. nra.
Qed.

Lemma profile_water_firstn_S (dz_ th_ : list R) (k : nat) (t d : R) :
  nth_error th_ k = Some t -> nth_error dz_ k = Some d ->
  profile_water dz_ (firstn (S k) th_)
    = profile_water dz_ (firstn k th_) + 1000 * t * d.
Proof.
  revert dz_ th_. induction k as [|k IH]; intros dz_ th_ Ht Hd;
    destruct th_ as [|x th_]; try discriminate;
    destruct dz_ as [|y dz_]; try discriminate.
  - simpl in Ht, Hd. injection Ht as ->. injection Hd as ->. simpl.
    destruct dz_; simpl; lra.
  - simpl in Ht, Hd.
    change (firstn (S (S k)) (x :: th_)) with (x :: firstn (S k) th_).
    change (firstn (S k) (x :: th_)) with (x :: firstn k th_).
    change (profile_water (y :: dz_) (x :: firstn (S k) th_))
      with (1000 * x * y + profile_water dz_ (firstn (S k) th_)).
    change (profile_water (y :: dz_) (x :: firstn k th_))
      with (1000 * x * y + profile_water dz_ (firstn k th_)).
    rewrite (IH dz_ th_ Ht Hd). lra.
Qed.

(** The fluxes that the redistribution of excess touches only go down,
    and the flux of the compartment being drained is not touched. *)
Lemma redistribute_flux (prof : Drainage.SoilProfileClass) (ii k : nat)
  (excess : R) (thnew FluxOut thnew' FluxOut' : list R) :
  Drainage.redistribute prof ii k excess thnew FluxOut
    = Some (thnew', FluxOut') ->
  forall j f, nth_error FluxOut j = Some f ->
    exists f', nth_error FluxOut' j = Some f' /\ f' <= f /\
               ((ii <= j)%nat -> f' = f).
Proof.
  revert excess thnew FluxOut.
  induction k as [|precomp IH]; intros excess thnew FluxOut H j f Hf;
    simpl in H.
  - unfold ret in H. injection H as <- <-. exists f. auto with real.
  - destruct (Rgt_dec excess 0) as [He | He];
      [|unfold ret in H; injection H as <- <-; exists f; auto with real].
    inv_bind_as H F1 HF1.
    assert (Hstep : exists f1, nth_error F1 j = Some f1 /\ f1 <= f /\
                               ((ii <= j)%nat -> f1 = f)).
    { destruct (Nat.ltb_spec precomp ii) as [Hlt | Hge].
      - inv_bind_as HF1 f0 Hf0.
        rewrite (setitem_nth _ _ _ _ j HF1).
        destruct (Nat.eqb_spec j precomp) as [-> | Hne].
        + exists (f0 - excess). rewrite Hf0 in Hf. injection Hf as <-.
          split; [reflexivity|]. split; [lra | lia].
        + exists f. auto with real.
      - unfold ret in HF1. injection HF1 as <-. exists f. auto with real. }
    destruct Hstep as (f1 & Hf1 & Hle1 & Heq1).
    inv_bind_as H t Ht. inv_bind_as H dz_p Hdz. inv_bind_as H q Hq.
    inv_bind_as H T1 HT1. inv_bind_as H th_s_p Hs.
    destruct (Rgt_dec _ th_s_p).
    + inv_bind_as H T2 HT2.
      destruct (IH _ _ _ H j f1 Hf1) as (f' & Hf' & Hle' & Heq').
      exists f'. split; [assumption|]. split; [lra|].
      intros Hj. rewrite Heq', Heq1 by assumption. reflexivity.
    + destruct (IH _ _ _ H j f1 Hf1) as (f' & Hf' & Hle' & Heq').
      exists f'. split; [assumption|]. split; [lra|].
      intros Hj. rewrite Heq', Heq1 by assumption. reflexivity.
Qed.

(** The redistribution stores at most the excess it is given, in
    compartments before [k]. *)
Lemma redistribute_water (prof : Drainage.SoilProfileClass) (ii k : nat)
  (excess : R) (thnew FluxOut thnew' FluxOut' : list R) :
  Drainage.redistribute prof ii k excess thnew FluxOut
    = Some (thnew', FluxOut') ->
  0 <= excess -> Forall (Rle 0) (Drainage.dz prof) ->
  List.length thnew' = List.length thnew /\
  profile_water (Drainage.dz prof) thnew'
    <= profile_water (Drainage.dz prof) thnew + excess /\
  (forall j, (k <= j)%nat -> nth_error thnew' j = nth_error thnew j).
Proof.
  intros H He0 Hdz. revert excess thnew FluxOut H He0.
  induction k as [|precomp IH]; intros excess thnew FluxOut H He0;
    simpl in H.
  - unfold ret in H. injection H as <- <-.
    split; [reflexivity|]. split; [lra | reflexivity].
  - destruct (Rgt_dec excess 0) as [He | He];
      [|unfold ret in H; injection H as <- <-;
        split; [reflexivity|]; split; [lra | reflexivity]].
    inv_bind_as H F1 HF1. clear HF1.
    inv_bind_as H t Ht. inv_bind_as H dz_p Hd. inv_bind_as H q Hq.
    apply fdiv_inv in Hq as [Hdz0 ->].
    inv_bind_as H T1 HT1. inv_bind_as H th_s_p Hs.
    pose proof (Forall_nth_error _ _ _ _ Hdz Hd) as Hdpos. simpl in Hdpos.
    assert (Hq : excess / (1000 * dz_p) * 1000 * dz_p = excess)
      by (field; lra).
    pose proof (profile_water_setitem _ _ _ _ _ _ _ HT1 Ht Hd) as Hw1.
    destruct (Rgt_dec _ th_s_p) as [Hover | Hover].
    + inv_bind_as H T2 HT2.
      assert (Ht1 : nth_error T1 precomp
                    = Some (t + excess / (1000 * dz_p)))
        by (rewrite (setitem_nth _ _ _ _ precomp HT1), Nat.eqb_refl;
            reflexivity).
      pose proof (profile_water_setitem _ _ _ _ _ _ _ HT2 Ht1 Hd) as Hw2.
      destruct (IH _ _ _ H) as (Hlen & Hw & Hkeep); [nra|].
      split.
      { rewrite Hlen, (setitem_length _ _ _ _ HT2).
        apply (setitem_length _ _ _ _ HT1). }
      split; [nra|].
      intros j Hj. rewrite Hkeep by lia.
      rewrite (setitem_nth _ _ _ _ j HT2), (setitem_nth _ _ _ _ j HT1).
      destruct (Nat.eqb_spec j precomp); [lia | reflexivity].
    + destruct (IH _ _ _ H) as (Hlen & Hw & Hkeep); [lra|].
      split; [rewrite Hlen; apply (setitem_length _ _ _ _ HT1)|].
      split; [nra|].
      intros j Hj. rewrite Hkeep by lia.
      rewrite (setitem_nth _ _ _ _ j HT1).
      destruct (Nat.eqb_spec j precomp); [lia | reflexivity].
Qed.

Lemma drainage_step_inv (prof : Drainage.SoilProfileClass)
  (th_init th_fc_Adj_init : list R) (ii : nat)
  (thnew FluxOut : list R) (drainsum : R)
  (thnew' FluxOut' : list R) (drainsum' : R) :
  Drainage.drainage_step prof th_init th_fc_Adj_init ii
    (thnew, FluxOut, drainsum) = Some (thnew', FluxOut', drainsum') ->
  exists cth_fc cth_s ctau cdz cdzsum cKsat th_ii fcAdj t' e' T1 F1,
    nth_error (Drainage.dz prof) ii = Some cdz /\
    nth_error (Drainage.Ksat prof) ii = Some cKsat /\
    nth_error th_init ii = Some th_ii /\
    nth_error th_fc_Adj_init ii = Some fcAdj /\
    Drainage.drain_compartment cth_fc cth_s ctau cdz cdzsum cKsat th_ii
      fcAdj drainsum = Some (t', drainsum', e') /\
    setitem thnew ii t' = Some T1 /\
    setitem FluxOut ii drainsum' = Some F1 /\
    (if Rgt_dec e' 0
     then Drainage.redistribute prof ii (ii + 1) e' T1 F1
          = Some (thnew', FluxOut')
     else thnew' = T1 /\ FluxOut' = F1).
Proof.
  unfold Drainage.drainage_step. intros H.
  inv_bind_as H cth_fc H1. inv_bind_as H cth_s H2. inv_bind_as H ctau H3.
  inv_bind_as H cdz H4. inv_bind_as H cdzsum H5. inv_bind_as H cKsat H6.
  inv_bind_as H th_ii H7. inv_bind_as H fcAdj H8.
  inv_bind_as H r Hr. destruct r as [[t' d'] e'].
  inv_bind_as H T1 HT1. inv_bind_as H F1 HF1.
  inv_bind_as H p Hp. destruct p as [T2 F2].
  unfold ret in H. injection H as <- <- <-.
  exists cth_fc, cth_s, ctau, cdz, cdzsum, cKsat, th_ii, fcAdj, t', e', T1, F1.
  repeat (split; [assumption|]).
  destruct (Rgt_dec e' 0); [assumption|].
  unfold ret in Hp. injection Hp as <- <-. auto.
Qed.

(** In exact real arithmetic drainage never creates water: with
    non-negative thicknesses, the water held by the profile after
    drainage plus the deep percolation is at most the water held before.
    (What is missing is the excess that the redistribution could not
    store in the compartments above.)  Where nothing is missing the two
    sides are equal as real numbers, so that computed in binary64 the
    left side can exceed the right in the last place.  The new water
    contents have one entry per compartment. *)
Theorem drainage_conserves (prof : Drainage.SoilProfileClass)
  (th_init th_fc_Adj_init thnew : list R) (DeepPerc : R)
  (FluxOut : list R) :
  Drainage.drainage prof th_init th_fc_Adj_init
    = Some (thnew, DeepPerc, FluxOut) ->
  Forall (Rle 0) (Drainage.dz prof) ->
  List.length thnew = List.length th_init /\
  profile_water (Drainage.dz prof) thnew + DeepPerc
    <= profile_water (Drainage.dz prof) th_init.
Proof.
  unfold Drainage.drainage. intros H Hdz.
  inv_bind_as H st Hst. destruct st as [[T F] d].
  unfold ret in H. injection H as <- <- <-.
  set (n := List.length th_init) in *.
  unfold for_range in Hst.
  apply (fold_range_invariant_ix
    (fun k (s : list R * list R * R) =>
       let '(T, F, d) := s in
       List.length T = n /\
       (forall j, (k <= j < n)%nat -> nth_error T j = Some 0) /\
       profile_water (Drainage.dz prof) T + d
         <= profile_water (Drainage.dz prof) (firstn k th_init))) in Hst.
  - cbn [Nat.add] in Hst. destruct Hst as (Hlen & _ & Hw).
    unfold n in Hw. rewrite firstn_all in Hw. auto.
  - clear Hst T F d.
    intros ii [[T F] d] [[T' F'] d'] Hii (Hlen & Hzero & Hw) Hstep.
    destruct (drainage_step_inv _ _ _ _ _ _ _ _ _ _ Hstep)
      as (cth_fc & cth_s & ctau & cdz & cdzsum & cKsat & th_ii & fcAdj
          & t' & e' & T1 & F1 & Hcdz & _ & Hth & _ & Hc & HT1 & _ & Hre).
    destruct (drain_compartment_balance _ _ _ _ _ _ _ _ _ _ _ _ Hc)
      as (Hbal & He & _).
    pose proof (Forall_nth_error _ _ _ _ Hdz Hcdz) as Hd0. simpl in Hd0.
    specialize (He Hd0).
    assert (Hold : nth_error T ii = Some 0) by (apply Hzero; lia).
    pose proof (profile_water_setitem _ _ _ _ _ _ _ HT1 Hold Hcdz) as Hw1.
    rewrite (profile_water_firstn_S _ _ _ _ _ Hth Hcdz).
    assert (HT1len : List.length T1 = n)
      by (rewrite (setitem_length _ _ _ _ HT1); assumption).
    assert (HT1zero : forall j, (S ii <= j < n)%nat ->
                                nth_error T1 j = Some 0).
    { intros j Hj. rewrite (setitem_nth _ _ _ _ j HT1).
      destruct (Nat.eqb_spec j ii); [lia|]. apply Hzero. lia. }
    destruct (Rgt_dec e' 0).
    + destruct (redistribute_water _ _ _ _ _ _ _ _ Hre He Hdz)
        as (Hlen' & Hw' & Hkeep).
      split; [lia|]. split; [|nra].
      intros j Hj. rewrite Hkeep by lia. apply HT1zero. assumption.
    + destruct Hre as [-> ->]. split; [assumption|].
      split; [assumption | nra].
  - split; [apply repeat_length|]. split.
    + intros j Hj. apply nth_error_repeat. lia.
    + cbn [firstn].
      assert (Hz : forall (l : list R) m, profile_water l (repeat 0 m) = 0).
      { induction l as [|x l IHl]; intros [|m]; simpl; try reflexivity.
        rewrite IHl. lra. }
      rewrite Hz. destruct (Drainage.dz prof); simpl; lra.
Qed.

Lemma redistribute_flux_length (prof : Drainage.SoilProfileClass)
  (ii k : nat) (excess : R) (thnew FluxOut thnew' FluxOut' : list R) :
  Drainage.redistribute prof ii k excess thnew FluxOut
    = Some (thnew', FluxOut') ->
  List.length FluxOut' = List.length FluxOut.
Proof.
  revert excess thnew FluxOut.
  induction k as [|precomp IH]; intros excess thnew FluxOut H; simpl in H.
  - unfold ret in H. injection H as <- <-. reflexivity.
  - destruct (Rgt_dec excess 0);
      [|unfold ret in H; injection H as <- <-; reflexivity].
    inv_bind_as H F1 HF1.
    assert (HlenF1 : List.length F1 = List.length FluxOut).
    { destruct (precomp <? ii)%nat.
      - inv_bind_as HF1 f0 Hf0. apply (setitem_length _ _ _ _ HF1).
      - unfold ret in HF1. injection HF1 as <-. reflexivity. }
    inv_bind_as H t Ht. inv_bind_as H dz_p Hdz. inv_bind_as H q Hq.
    inv_bind_as H T1 HT1. inv_bind_as H th_s_p Hs.
    destruct (Rgt_dec _ th_s_p).
    + inv_bind_as H T2 HT2. rewrite (IH _ _ _ H). assumption.
    + rewrite (IH _ _ _ H). assumption.
Qed.

(** No compartment passes on more than its saturated hydraulic
    conductivity: with non-negative conductivities every flux in
    [FluxOut] is at most the [Ksat] of its compartment, and the deep
    percolation is the flux out of the bottom compartment (zero for a
    profile without compartments). *)
Theorem drainage_flux_capped (prof : Drainage.SoilProfileClass)
  (th_init th_fc_Adj_init thnew : list R) (DeepPerc : R)
  (FluxOut : list R) :
  Drainage.drainage prof th_init th_fc_Adj_init
    = Some (thnew, DeepPerc, FluxOut) ->
  Forall (Rle 0) (Drainage.Ksat prof) ->
  List.length FluxOut = List.length th_init /\
  (forall ii f, nth_error FluxOut ii = Some f ->
     exists K, nth_error (Drainage.Ksat prof) ii = Some K /\ f <= K) /\
  (th_init = [] -> DeepPerc = 0) /\
  (forall n', List.length th_init = S n' ->
     nth_error FluxOut n' = Some DeepPerc).
Proof.
  unfold Drainage.drainage. intros H HK.
  inv_bind_as H st Hst. destruct st as [[T F] d].
  unfold ret in H. injection H as <- <- <-.
  set (n := List.length th_init) in *.
  unfold for_range in Hst.
  apply (fold_range_invariant_ix
    (fun k (s : list R * list R * R) =>
       let '(T, F, d) := s in
       List.length F = n /\
       (forall j f, (j < k)%nat -> nth_error F j = Some f ->
          exists K, nth_error (Drainage.Ksat prof) j = Some K /\ f <= K) /\
       (k = 0%nat -> d = 0) /\
       (forall k', k = S k' -> nth_error F k' = Some d))) in Hst.
  - cbn [Nat.add] in Hst. destruct Hst as (Hlen & Hcap & Hzero & Hlast).
    split; [assumption|]. split.
    + intros ii f Hf. apply (Hcap ii f); [|assumption].
      rewrite <- Hlen. apply nth_error_Some. congruence.
    + split.
      * intros ->. apply Hzero. reflexivity.
      * intros n' Hn'. apply Hlast. assumption.
  - clear Hst T F d.
    intros ii [[T F] d] [[T' F'] d'] Hii (Hlen & Hcap & _ & _) Hstep.
    destruct (drainage_step_inv _ _ _ _ _ _ _ _ _ _ Hstep)
      as (cth_fc & cth_s & ctau & cdz & cdzsum & cKsat & th_ii & fcAdj
          & t' & e' & T1 & F1 & _ & HKsat & _ & _ & Hc & _ & HF1 & Hre).
    destruct (drain_compartment_balance _ _ _ _ _ _ _ _ _ _ _ _ Hc)
      as (_ & _ & Hd').
    pose proof (Forall_nth_error _ _ _ _ HK HKsat) as HK0. simpl in HK0.
    specialize (Hd' HK0).
    assert (HF1len : List.length F1 = n)
      by (rewrite (setitem_length _ _ _ _ HF1); assumption).
    assert (HF1cap : forall j f, (j < S ii)%nat ->
              nth_error F1 j = Some f ->
              exists K, nth_error (Drainage.Ksat prof) j = Some K /\ f <= K).
    { intros j f Hj Hf. rewrite (setitem_nth _ _ _ _ j HF1) in Hf.
      destruct (Nat.eqb_spec j ii) as [-> | Hne].
      - injection Hf as <-. eauto.
      - apply (Hcap j f); [lia | assumption]. }
    assert (HF1last : nth_error F1 ii = Some d')
      by (rewrite (setitem_nth _ _ _ _ ii HF1), Nat.eqb_refl; reflexivity).
    destruct (Rgt_dec e' 0).
    + split; [rewrite (redistribute_flux_length _ _ _ _ _ _ _ _ Hre);
              assumption|].
      split.
      { intros j f' Hj Hf'.
        destruct (nth_error_in_range F1 j) as [f Hf]; [lia|].
        destruct (redistribute_flux _ _ _ _ _ _ _ _ Hre j f Hf)
          as (f2 & Hf2 & Hle & _).
        rewrite Hf2 in Hf'. injection Hf' as <-.
        destruct (HF1cap j f Hj Hf) as (K & HKj & HfK).
        exists K. split; [assumption | lra]. }
      split; [lia|].
      intros k' Hk'. injection Hk' as <-.
      destruct (redistribute_flux _ _ _ _ _ _ _ _ Hre ii d' HF1last)
        as (f2 & Hf2 & _ & Heq).
      rewrite Hf2, Heq by lia. reflexivity.
    + destruct Hre as [-> ->]. split; [assumption|].
      split; [assumption|]. split; [lia|].
      intros k' Hk'. injection Hk' as <-. assumption.
  - split; [apply repeat_length|]. split; [intros j f Hj; lia|].
    split; [reflexivity | discriminate].
Qed.

Lemma drain_compartment_idle
  (cth_fc cth_s ctau cdz cdzsum cKsat th_ii fcAdj : R) (t' d' e' : R) :
  th_ii <= fcAdj -> 0 <= cKsat ->
  Drainage.drain_compartment cth_fc cth_s ctau cdz cdzsum cKsat th_ii fcAdj 0
    = Some (t', d', e') ->
  t' = th_ii /\ d' = 0 /\ e' = 0.
Proof.
  intros Hle HK. unfold Drainage.drain_compartment, Drainage.drainage_ability.
  destruct (Rle_dec th_ii fcAdj); [|contradiction].
  cbn [bind ret].
  destruct (Rle_dec 0 (0 * 1000 * (cdzsum - cdz))); [|exfalso; lra].
  unfold Drainage.restrict.
  destruct (Rgt_dec (0 + 0 * cdz * 1000) cKsat); [exfalso; lra|].
  intros H. injection H as <- <- <-. repeat split; lra.
Qed.

(** A profile in which no compartment is above its adjusted field
    capacity does not drain: the water contents are returned as they
    were, every flux is zero and there is no deep percolation. *)
Theorem drainage_at_field_capacity (prof : Drainage.SoilProfileClass)
  (th_init th_fc_Adj_init thnew : list R) (DeepPerc : R)
  (FluxOut : list R) :
  Drainage.drainage prof th_init th_fc_Adj_init
    = Some (thnew, DeepPerc, FluxOut) ->
  Forall (Rle 0) (Drainage.Ksat prof) ->
  Forall2 Rle th_init th_fc_Adj_init ->
  thnew = th_init /\ DeepPerc = 0 /\
  FluxOut = repeat 0 (List.length th_init).
Proof.
  unfold Drainage.drainage. intros H HK Hfc.
  inv_bind_as H st Hst. destruct st as [[T F] d].
  unfold ret in H. injection H as <- <- <-.
  set (n := List.length th_init) in *.
  unfold for_range in Hst.
  apply (fold_range_invariant_ix
    (fun k (s : list R * list R * R) =>
       let '(T, F, d) := s in
       d = 0 /\ List.length T = n /\ List.length F = n /\
       (forall j, (j < k)%nat -> nth_error T j = nth_error th_init j) /\
       (forall j, (j < n)%nat -> nth_error F j = Some 0))) in Hst.
  - cbn [Nat.add] in Hst. destruct Hst as (Hd & HlenT & HlenF & HT & HF).
    split; [|split; [assumption|]].
    + apply nth_error_ext. intros j.
      destruct (Nat.lt_ge_cases j n) as [Hj | Hj]; [apply HT; assumption|].
      transitivity (@None R); [|symmetry];
        apply nth_error_None; unfold n in *; lia.
    + apply nth_error_ext. intros j.
      destruct (Nat.lt_ge_cases j n) as [Hj | Hj].
      * rewrite HF by assumption. symmetry. apply nth_error_repeat.
        assumption.
      * transitivity (@None R); [|symmetry]; apply nth_error_None;
          [|rewrite repeat_length]; lia.
  - clear Hst T F d.
    intros ii [[T F] d] [[T' F'] d'] Hii (-> & HlenT & HlenF & HT & HF)
      Hstep.
    destruct (drainage_step_inv _ _ _ _ _ _ _ _ _ _ Hstep)
      as (cth_fc & cth_s & ctau & cdz & cdzsum & cKsat & th_ii & fcAdj
          & t' & e' & T1 & F1 & _ & HKsat & Hth & Hfa & Hc & HT1 & HF1
          & Hre).
    pose proof (Forall_nth_error _ _ _ _ HK HKsat) as HK0. simpl in HK0.
    assert (Hle : th_ii <= fcAdj).
    { clear - Hfc Hth Hfa. revert ii Hth Hfa.
      induction Hfc as [|x y l l' Hxy Hfc IH]; intros [|ii] Hth Hfa;
        simpl in Hth, Hfa; try discriminate.
      - injection Hth as <-. injection Hfa as <-. assumption.
      - apply (IH ii); assumption. }
    destruct (drain_compartment_idle _ _ _ _ _ _ _ _ _ _ _ Hle HK0 Hc)
      as (-> & -> & ->).
    destruct (Rgt_dec 0 0); [exfalso; lra|]. destruct Hre as [-> ->].
    split; [reflexivity|].
    split; [rewrite (setitem_length _ _ _ _ HT1); assumption|].
    split; [rewrite (setitem_length _ _ _ _ HF1); assumption|].
    split.
    + intros j Hj. rewrite (setitem_nth _ _ _ _ j HT1).
      destruct (Nat.eqb_spec j ii) as [-> | Hne];
        [symmetry; assumption | apply HT; lia].
    + intros j Hj. rewrite (setitem_nth _ _ _ _ j HF1).
      destruct (Nat.eqb_spec j ii); [reflexivity | apply HF; assumption].
  - split; [reflexivity|]. split; [apply repeat_length|].
    split; [apply repeat_length|]. split; [intros j Hj; lia|].
    intros j Hj. apply nth_error_repeat. assumption.
Qed.

Lemma drain_compartment_example_top :
  Drainage.drain_compartment 0.3 0.5 0.5 0.1 0.1 500 0.5 0.3 0
  = Some (0.5 - 0.5 * (0.5 - 0.3), 0 + 0.5 * (0.5 - 0.3) * 0.1 * 1000, 0).
Proof.
  unfold Drainage.drain_compartment, Drainage.drainage_ability,
    Drainage.restrict.
  repeat (cbn [bind ret]; decide_real).
  reflexivity.
Qed.

Lemma drain_compartment_example_bottom :
  Drainage.drain_compartment 0.3 0.5 0 0.1 0.2 500 0.2 0.3
    (0 + 0.5 * (0.5 - 0.3) * 0.1 * 1000)
  = Some (0.2 + (0 + 0.5 * (0.5 - 0.3) * 0.1 * 1000) / (1000 * 0.1), 0, 0).
Proof.
  unfold Drainage.drain_compartment, Drainage.drainage_ability,
    Drainage.theta_x, Drainage.restrict, fdiv.
  repeat (cbn [bind ret]; first [decide_real | decide_zero]).
  reflexivity.
Qed.

Lemma drainage_example :
  Drainage.drainage drain_prof [0.5; 0.2] [0.3; 0.3]
  = Some ([0.5 - 0.5 * (0.5 - 0.3);
           0.2 + (0 + 0.5 * (0.5 - 0.3) * 0.1 * 1000) / (1000 * 0.1)],
          0,
          [0 + 0.5 * (0.5 - 0.3) * 0.1 * 1000; 0]).
Proof.
  unfold Drainage.drainage, drain_prof, for_range, Drainage.drainage_step.
  cbn [List.length seq fold_left repeat bind ret nth_error
       Drainage.th_fc Drainage.th_s Drainage.tau Drainage.dz
       Drainage.dzsum Drainage.Ksat].
  rewrite drain_compartment_example_top.
  cbn [bind ret setitem option_map]. decide_real.
  cbn [bind ret nth_error].
  rewrite drain_compartment_example_bottom.
  cbn [bind ret setitem option_map]. decide_real.
  reflexivity.
Qed.

Lemma drainage_example_idle :
  exists thnew DeepPerc FluxOut,
    Drainage.drainage drain_prof [0.2; 0.25] [0.3; 0.3]
      = Some (thnew, DeepPerc, FluxOut).
Proof.
  do 3 eexists.
  unfold Drainage.drainage, drain_prof, for_range, Drainage.drainage_step.
  cbn [List.length seq fold_left repeat bind ret nth_error
       Drainage.th_fc Drainage.th_s Drainage.tau Drainage.dz
       Drainage.dzsum Drainage.Ksat].
  unfold Drainage.drain_compartment, Drainage.drainage_ability,
    Drainage.restrict.
  repeat (cbn [bind ret setitem option_map nth_error]; decide_real).
  reflexivity.
Qed.

Lemma drainage_conserves_witness :
  exists thnew DeepPerc FluxOut,
    Drainage.drainage drain_prof [0.5; 0.2] [0.3; 0.3]
      = Some (thnew, DeepPerc, FluxOut) /\
    Forall (Rle 0) (Drainage.dz drain_prof) /\
    profile_water (Drainage.dz drain_prof) thnew + DeepPerc
      <= profile_water (Drainage.dz drain_prof) [0.5; 0.2].
Proof.
  pose proof drainage_example as H.
  assert (Hdz : Forall (Rle 0) (Drainage.dz drain_prof))
    by (repeat constructor; simpl; lra).
  destruct (drainage_conserves _ _ _ _ _ _ H Hdz) as [_ Hw].
  do 3 eexists. split; [exact H|]. split; [exact Hdz | exact Hw].
Defined.

Lemma drainage_flux_capped_witness :
  exists thnew DeepPerc FluxOut,
    Drainage.drainage drain_prof [0.5; 0.2] [0.3; 0.3]
      = Some (thnew, DeepPerc, FluxOut) /\
    Forall (Rle 0) (Drainage.Ksat drain_prof) /\
    nth_error FluxOut 1 = Some DeepPerc.
Proof.
  pose proof drainage_example as H.
  assert (HK : Forall (Rle 0) (Drainage.Ksat drain_prof))
    by (repeat constructor; simpl; lra).
  destruct (drainage_flux_capped _ _ _ _ _ _ H HK) as (_ & _ & _ & Hlast).
  do 3 eexists. split; [exact H|]. split; [exact HK|].
  apply (Hlast 1%nat). reflexivity.
Defined.

Lemma drainage_at_field_capacity_witness :
  exists thnew DeepPerc FluxOut,
    Drainage.drainage drain_prof [0.2; 0.25] [0.3; 0.3]
      = Some (thnew, DeepPerc, FluxOut) /\
    Forall (Rle 0) (Drainage.Ksat drain_prof) /\
    Forall2 Rle [0.2; 0.25] [0.3; 0.3] /\
    thnew = [0.2; 0.25] /\ DeepPerc = 0.
Proof.
  destruct drainage_example_idle as (thnew & DeepPerc & FluxOut & H).
  assert (HK : Forall (Rle 0) (Drainage.Ksat drain_prof))
    by (repeat constructor; simpl; lra).
  assert (Hfc : Forall2 Rle [0.2; 0.25] [0.3; 0.3])
    by (repeat constructor; lra).
  destruct (drainage_at_field_capacity _ _ _ _ _ _ H HK Hfc)
    as (Hth & Hd & _).
  exists thnew, DeepPerc, FluxOut.
  split; [exact H|]. split; [exact HK|]. split; [exact Hfc|].
  split; [exact Hth | exact Hd].
Defined.

(** ** Infiltration *)

Lemma profile_water_setitem_twice (dz_ th_ : list R) (i : nat)
  (v w t d : R) (th1 th2 : list R) :
  setitem th_ i v = Some th1 -> setitem th1 i w = Some th2 ->
  nth_error th_ i = Some t -> nth_error dz_ i = Some d ->
  profile_water dz_ th2 = profile_water dz_ th_ + (w - t) * 1000 * d.
Proof.
  intros H1 H2 Ht Hd.
  assert (Hv : nth_error th1 i = Some v)
    by (rewrite (setitem_nth _ _ _ _ i H1), Nat.eqb_refl; reflexivity).
  rewrite (profile_water_setitem _ _ _ _ _ _ _ H2 Hv Hd),
    (profile_water_setitem _ _ _ _ _ _ _ H1 Ht Hd).
  lra.
Qed.

Lemma surface_storage_balance (prof : Infiltration.SoilProfileClass)
  (InitCond : Infiltration.InitCondClass) (Infl : R)
  (FieldMngt : Infiltration.FieldMngtStruct)
  (ToStore RunoffIni : R) (NewCond : Infiltration.InitCondClass) :
  Infiltration.surface_storage prof InitCond Infl FieldMngt
    (Infiltration.SurfaceStorage InitCond)
    = Some (ToStore, RunoffIni, NewCond) ->
  0 <= Infl -> 0 <= Infiltration.SurfaceStorage InitCond ->
  ToStore + RunoffIni + Infiltration.SurfaceStorage NewCond
    = Infl + Infiltration.SurfaceStorage InitCond /\
  Infiltration.th NewCond = Infiltration.th InitCond /\
  Infiltration.th_fc_Adj NewCond = Infiltration.th_fc_Adj InitCond.
Proof.
  unfold Infiltration.surface_storage. intros H HI HS.
  destruct (Infiltration.Bunds FieldMngt).
  - destruct (Rgt_dec (Infiltration.zBund FieldMngt) 0.001);
      [|discriminate].
    destruct (Rgt_dec _ 0).
    + inv_bind_as H K HK.
      destruct (Rgt_dec _ K);
        cbn [Infiltration.set_SurfaceStorage Infiltration.SurfaceStorage]
          in H;
        destruct (Rgt_dec _ _); unfold ret in H; injection H as <- <- <-;
        cbn; repeat split; lra.
    + unfold ret in H. injection H as <- <- <-. repeat split; lra.
  - inv_bind_as H K HK.
    destruct (Rgt_dec Infl K); unfold ret in H; injection H as <- <- <-;
      cbn; repeat split; lra.
Qed.

Lemma back_up_balance (prof : Infiltration.SoilProfileClass) (k : nat)
  (excess : R) (thnew FluxOut : list R)
  (excess' : R) (thnew' FluxOut' : list R) :
  Infiltration.back_up prof k excess thnew FluxOut
    = Some (excess', thnew', FluxOut') ->
  Forall (Rle 0) (Infiltration.dz prof) -> 0 <= excess ->
  0 <= excess' /\
  List.length thnew' = List.length thnew /\
  profile_water (Infiltration.dz prof) thnew' + excess'
    = profile_water (Infiltration.dz prof) thnew + excess.
Proof.
  intros H Hdz. revert excess thnew FluxOut H.
  induction k as [|precomp IH]; intros excess thnew FluxOut H He;
    simpl in H.
  - unfold ret in H. injection H as <- <- <-. auto.
  - destruct (Rgt_dec excess 0);
      [|unfold ret in H; injection H as <- <- <-; auto].
    inv_bind_as H f Hf. inv_bind_as H F1 HF1.
    inv_bind_as H t Ht. inv_bind_as H dz_p Hd. inv_bind_as H q Hq.
    apply fdiv_inv in Hq as [Hdz0 ->].
    inv_bind_as H T1 HT1. inv_bind_as H th_s_p Hs.
    pose proof (Forall_nth_error _ _ _ _ Hdz Hd) as Hdpos. simpl in Hdpos.
    assert (Hq : excess / (dz_p * 1000) * 1000 * dz_p = excess)
      by (field; lra).
    destruct (Rgt_dec _ th_s_p).
    + inv_bind_as H T2 HT2.
      destruct (IH _ _ _ H) as (Hpos & Hlen & Hw); [nra|].
      pose proof (profile_water_setitem_twice _ _ _ _ _ _ _ _ _
                    HT1 HT2 Ht Hd) as Hw2.
      split; [assumption|]. split.
      * rewrite Hlen, (setitem_length _ _ _ _ HT2).
        apply (setitem_length _ _ _ _ HT1).
      * nra.
    + destruct (IH _ _ _ H) as (Hpos & Hlen & Hw); [lra|].
      pose proof (profile_water_setitem _ _ _ _ _ _ _ HT1 Ht Hd) as Hw1.
      split; [assumption|].
      split; [rewrite Hlen; apply (setitem_length _ _ _ _ HT1) | nra].
Qed.

Lemma infiltrate_compartment_balance
  (prof : Infiltration.SoilProfileClass)
  (InitCond_th InitCond_th_fc_Adj : list R) (ii : nat) (ToStore : R)
  (thnew FluxOut : list R) (ToStore' excess : R)
  (thnew' FluxOut' : list R) :
  Infiltration.infiltrate_compartment prof InitCond_th InitCond_th_fc_Adj
    ii ToStore thnew FluxOut = Some (ToStore', excess, thnew', FluxOut') ->
  0 <= excess /\
  List.length thnew' = List.length thnew /\
  profile_water (Infiltration.dz prof) thnew' + ToStore' + excess
    = profile_water (Infiltration.dz prof) thnew + ToStore.
Proof.
  unfold Infiltration.infiltrate_compartment. intros H.
  inv_bind_as H tau_ii H1. inv_bind_as H th_s_ii H2.
  inv_bind_as H th_fc_ii H3. inv_bind_as H Ksat_ii H4.
  inv_bind_as H dz_ii Hd. inv_bind_as H factor H5.
  inv_bind_as H dthdt0 H6. apply fdiv_inv in H6 as [Hdz0 _].
  inv_bind_as H p Hp. destruct p as [theta0 dthdt1].
  inv_bind_as H F_ii HF. inv_bind_as H th_ii Hth.
  inv_bind_as H r Hr. destruct r as [T S].
  inv_bind_as H F1 HF1. unfold ret in H. injection H as <- <- <- <-.
  assert (Hstore : List.length T = List.length thnew /\
                   profile_water (Infiltration.dz prof) T + S
                   = profile_water (Infiltration.dz prof) thnew + ToStore).
  { destruct (Rgt_dec _ 0).
    - inv_bind_as Hr t Ht. inv_bind_as Hr q Hq.
      apply fdiv_inv in Hq as [_ ->]. inv_bind_as Hr T1 HT1.
      assert (Hq : ToStore / (1000 * dz_ii) * 1000 * dz_ii = ToStore)
        by (field; lra).
      destruct (Rgt_dec _ theta0).
      + inv_bind_as Hr T2 HT2. unfold ret in Hr. injection Hr as <- <-.
        pose proof (profile_water_setitem_twice _ _ _ _ _ _ _ _ _
                      HT1 HT2 Ht Hd) as Hw2.
        split; [|nra].
        rewrite (setitem_length _ _ _ _ HT2).
        apply (setitem_length _ _ _ _ HT1).
      + unfold ret in Hr. injection Hr as <- <-.
        pose proof (profile_water_setitem _ _ _ _ _ _ _ HT1 Ht Hd) as Hw1.
        split; [apply (setitem_length _ _ _ _ HT1) | nra].
    - unfold ret in Hr. injection Hr as <- <-. auto. }
  destruct Hstore as [Hlen Hw].
  split; [destruct (Rlt_dec _ 0); lra|].
  split; [assumption | lra].
Qed.

Lemma infiltrate_loop_balance (prof : Infiltration.SoilProfileClass)
  (InitCond_th InitCond_th_fc_Adj : list R) (k ii : nat)
  (ToStore Runoff : R) (thnew FluxOut : list R)
  (ToStore' Runoff' : R) (thnew' FluxOut' : list R) :
  Infiltration.infiltrate_loop prof InitCond_th InitCond_th_fc_Adj k ii
    ToStore Runoff thnew FluxOut
    = Some (ToStore', Runoff', thnew', FluxOut') ->
  Forall (Rle 0) (Infiltration.dz prof) ->
  List.length thnew' = List.length thnew /\
  profile_water (Infiltration.dz prof) thnew' + ToStore' + Runoff'
    = profile_water (Infiltration.dz prof) thnew + ToStore + Runoff.
Proof.
  intros H Hdz. revert ii ToStore Runoff thnew FluxOut H.
  induction k as [|k IH]; intros ii ToStore Runoff thnew FluxOut H;
    simpl in H.
  - unfold ret in H. injection H as <- <- <- <-. auto.
  - destruct (Rgt_dec ToStore 0);
      [|unfold ret in H; injection H as <- <- <- <-; auto].
    inv_bind_as H c Hc. destruct c as [[[S1 e1] T1] F1].
    inv_bind_as H b Hb. destruct b as [[R2 T2] F2].
    destruct (infiltrate_compartment_balance _ _ _ _ _ _ _ _ _ _ _ Hc)
      as (He1 & Hlen1 & Hw1).
    destruct (IH _ _ _ _ _ H) as [Hlen3 Hw3].
    assert (Hback : List.length T2 = List.length T1 /\
              profile_water (Infiltration.dz prof) T2 + R2
              = profile_water (Infiltration.dz prof) T1 + e1 + Runoff).
    { destruct (Rgt_dec e1 0).
      - inv_bind_as Hb u Hu. destruct u as [[e2 T3] F3].
        unfold ret in Hb. injection Hb as <- <- <-.
        destruct (back_up_balance _ _ _ _ _ _ _ _ Hu Hdz He1)
          as (He2 & Hlen2 & Hw2).
        split; [assumption|].
        destruct (Rgt_dec e2 0); lra.
      - unfold ret in Hb. injection Hb as <- <- <-. split; [reflexivity|].
        lra. }
    destruct Hback as [Hlen2 Hw2].
    split; [congruence | lra].
Qed.

Lemma pond_runoff_balance (FieldMngt : Infiltration.FieldMngtStruct)
  (Runoff RunoffIni : R) (NewCond : Infiltration.InitCondClass)
  (Runoff' : R) (NewCond' : Infiltration.InitCondClass) :
  Infiltration.pond_runoff FieldMngt Runoff RunoffIni NewCond
    = (Runoff', NewCond') ->
  Runoff' + Infiltration.SurfaceStorage NewCond'
    = Runoff + Infiltration.SurfaceStorage NewCond /\
  Infiltration.th_fc_Adj NewCond' = Infiltration.th_fc_Adj NewCond.
Proof.
  unfold Infiltration.pond_runoff. intros H.
  destruct (Rgt_dec Runoff RunoffIni);
    [|injection H as <- <-; auto].
  destruct (Infiltration.Bunds FieldMngt); [|injection H as <- <-; auto].
  destruct (Rgt_dec _ 0.001); [|injection H as <- <-; auto].
  cbn [Infiltration.set_SurfaceStorage Infiltration.SurfaceStorage] in H.
  destruct (Rgt_dec _ _); injection H as <- <-; cbn; split;
    try reflexivity; lra.
Qed.

(** What [infiltration] returns.  The incoming water [Infl_in] is the
    infiltration so far, plus the irrigation that reaches the field in
    the growing season; it is not negative.  The call works out a deep
    percolation [DeepPerc_] and a runoff [Runoff_] of its own and
    returns [DeepPerc_ + DeepPerc0], [Runoff_ + Runoff0] and
    [Infl_in - Runoff_]; the water contents keep their number and the
    adjusted field capacities are not touched.

    In exact real arithmetic, with non-negative thicknesses and
    conductivities and a non-negative surface storage to start from,
    the call accounts for all the water: the incoming water, the
    surface storage and the water held by the profile before the call
    add up to the water held by the profile, the surface storage,
    [DeepPerc_] and [Runoff_] after it.  This balance is an equality of
    real numbers; computed in binary64 its two sides agree up to
    rounding only. *)
Theorem infiltration_balance (prof : Infiltration.SoilProfileClass)
  (InitCond : Infiltration.InitCondClass) (Infl Irr IrrMngt_AppEff : R)
  (FieldMngt : Infiltration.FieldMngtStruct) (FluxOut : list R)
  (DeepPerc0 Runoff0 : R) (GrowingSeason : bool)
  (NewCond : Infiltration.InitCondClass) (DeepPerc RunoffTot Infl' : R)
  (FluxOut' : list R) :
  Infiltration.infiltration prof InitCond Infl Irr IrrMngt_AppEff FieldMngt
    FluxOut DeepPerc0 Runoff0 GrowingSeason
    = Some (NewCond, DeepPerc, RunoffTot, Infl', FluxOut') ->
  Forall (Rle 0) (Infiltration.dz prof) ->
  Forall (Rle 0) (Infiltration.Ksat prof) ->
  0 <= Infiltration.SurfaceStorage InitCond ->
  let Infl_in :=
    if GrowingSeason then Infl + Irr * (IrrMngt_AppEff / 100) else Infl in
  0 <= Infl_in /\
  (exists DeepPerc_ Runoff_,
      DeepPerc = DeepPerc_ + DeepPerc0 /\
      RunoffTot = Runoff_ + Runoff0 /\
      Infl' = Infl_in - Runoff_ /\
      Infl_in + Infiltration.SurfaceStorage InitCond
        + profile_water (Infiltration.dz prof) (Infiltration.th InitCond)
      = profile_water (Infiltration.dz prof) (Infiltration.th NewCond)
        + Infiltration.SurfaceStorage NewCond
        + DeepPerc_ + Runoff_) /\
  List.length (Infiltration.th NewCond)
    = List.length (Infiltration.th InitCond) /\
  Infiltration.th_fc_Adj NewCond = Infiltration.th_fc_Adj InitCond.
Proof.
  intros H Hdz HK HS Infl_in. unfold Infiltration.infiltration in H.
  fold Infl_in in H.
  inv_bind_as H u Hassert.
  assert (HI : 0 <= Infl_in).
  { unfold assert, Rge_b in Hassert.
    destruct (Rge_dec Infl_in 0); [lra | discriminate]. }
  inv_bind_as H p Hp. destruct p as [[ToStore RunoffIni] C1].
  inv_bind_as H q Hq. destruct q as [[[DP Ro] T] F].
  destruct (Infiltration.pond_runoff _ _ _ _) as [Ro' C2] eqn:Epond.
  unfold ret in H. injection H as <- <- <- <- <-.
  destruct (surface_storage_balance _ _ _ _ _ _ _ Hp HI HS)
    as (Hs & Hth & Hfc).
  destruct (pond_runoff_balance _ _ _ _ _ _ Epond) as [Hpond Hfc2].
  assert (Hloop : List.length T = List.length (Infiltration.th InitCond) /\
            profile_water (Infiltration.dz prof) T + DP + Ro
            = profile_water (Infiltration.dz prof) (Infiltration.th InitCond)
              + ToStore).
  { destruct (Rgt_dec ToStore 0).
    - destruct (infiltrate_loop_balance _ _ _ _ _ _ _ _ _ _ _ _ _ Hq Hdz)
        as [Hlen Hw].
      split; [assumption | lra].
    - unfold ret in Hq. injection Hq as <- <- <- <-.
      split; [reflexivity|].
      assert (ToStore = 0); [|lra].
      assert (0 <= ToStore); [|lra].
      revert Hp. clear - HI HS HK. unfold Infiltration.surface_storage.
      intros Hp.
      destruct (Infiltration.Bunds FieldMngt).
      + destruct (Rgt_dec _ 0.001); [|discriminate].
        destruct (Rgt_dec _ 0) as [Htot | Htot].
        * inv_bind_as Hp K HK0.
          pose proof (Forall_nth_error _ _ _ _ HK HK0) as HKpos.
          simpl in HKpos.
          destruct (Rgt_dec _ K);
            cbn [Infiltration.set_SurfaceStorage
                 Infiltration.SurfaceStorage] in Hp;
            destruct (Rgt_dec _ _); unfold ret in Hp;
            injection Hp as <- _ _; lra.
        * unfold ret in Hp. injection Hp as <- _ _. lra.
      + inv_bind_as Hp K HK0.
        pose proof (Forall_nth_error _ _ _ _ HK HK0) as HKpos.
        simpl in HKpos.
        destruct (Rgt_dec Infl_in K); unfold ret in Hp;
          injection Hp as <- _ _; lra. }
  destruct Hloop as [Hlen Hw].
  cbn [Infiltration.set_th Infiltration.th Infiltration.SurfaceStorage
       Infiltration.th_fc_Adj].
  split; [assumption|]. split.
  - exists DP, Ro'. repeat split; lra.
  - split; [assumption | congruence].
Qed.

Lemma infiltration_example :
  exists NewCond DeepPerc RunoffTot Infl' FluxOut',
    Infiltration.infiltration infl_prof infl_cond 50 0 100 field_flat
      [0; 0] 0 0 false
    = Some (NewCond, DeepPerc, RunoffTot, Infl', FluxOut').
Proof.
  do 5 eexists.
  unfold Infiltration.infiltration, infl_prof, infl_cond, field_flat,
    Infiltration.surface_storage, assert, Rge_b.
  repeat (cbn; unfold Infiltration.infiltrate_compartment,
            Infiltration.theta_0, Infiltration.pond_runoff, fdiv;
          first [decide_real | decide_zero]).
  reflexivity.
Qed.

Lemma infiltration_balance_witness :
  exists NewCond DeepPerc RunoffTot Infl' FluxOut',
    Infiltration.infiltration infl_prof infl_cond 50 0 100 field_flat
      [0; 0] 0 0 false
    = Some (NewCond, DeepPerc, RunoffTot, Infl', FluxOut') /\
    Forall (Rle 0) (Infiltration.dz infl_prof) /\
    Forall (Rle 0) (Infiltration.Ksat infl_prof) /\
    0 <= Infiltration.SurfaceStorage infl_cond /\
    exists DeepPerc_ Runoff_,
      DeepPerc = DeepPerc_ + 0 /\
      RunoffTot = Runoff_ + 0 /\
      Infl' = 50 - Runoff_ /\
      50 + Infiltration.SurfaceStorage infl_cond
        + profile_water (Infiltration.dz infl_prof)
            (Infiltration.th infl_cond)
      = profile_water (Infiltration.dz infl_prof) (Infiltration.th NewCond)
        + Infiltration.SurfaceStorage NewCond
        + DeepPerc_ + Runoff_.
Proof.
  destruct infiltration_example
    as (NewCond & DeepPerc & RunoffTot & Infl' & FluxOut' & H).
  assert (Hdz : Forall (Rle 0) (Infiltration.dz infl_prof))
    by (repeat constructor; simpl; lra).
  assert (HK : Forall (Rle 0) (Infiltration.Ksat infl_prof))
    by (repeat constructor; simpl; lra).
  assert (HS : 0 <= Infiltration.SurfaceStorage infl_cond)
    by (simpl; lra).
  destruct (infiltration_balance _ _ _ _ _ _ _ _ _ _ _ _ _ _ _
              H Hdz HK HS) as (_ & Hbal & _).
  exists NewCond, DeepPerc, RunoffTot, Infl', FluxOut'.
  split; [exact H|]. split; [exact Hdz|]. split; [exact HK|].
  split; [exact HS | exact Hbal].
Defined.

(** ** Water content of the evaporation layer *)

Lemma count_lt_cumsum_above (acc x : R) (l : list R) :
  Forall (fun d => 0 < d) l -> x <= acc ->
  count_lt (cumsum_from acc l) x = 0%nat.
Proof.
  intros Hl. revert acc. induction Hl as [|d l Hd Hl IH]; intros acc Hx;
    simpl; [reflexivity|].
  destruct (Rlt_dec (acc + d) x); [lra|]. rewrite IH by lra. reflexivity.
Qed.

(** In a profile whose cumulative depths are the running sums of
    positive thicknesses, the compartments the loop visits start at or
    above the evaporation depth. *)
Lemma cumsum_top_above (acc x : R) (l : list R) (ii : nat) (d z : R) :
  Forall (fun d => 0 < d) l -> acc <= x ->
  (ii <= count_lt (cumsum_from acc l) x)%nat ->
  nth_error l ii = Some d -> nth_error (cumsum_from acc l) ii = Some z ->
  z - d <= x.
Proof.
  intros Hl. revert acc ii.
  induction Hl as [|d0 l Hd0 Hl IH]; intros acc ii Hacc Hii Hd Hz.
  - destruct ii; discriminate.
  - destruct ii as [|ii]; simpl in Hd, Hz.
    + injection Hd as <-. injection Hz as <-. lra.
    + cbn [cumsum_from count_lt] in Hii.
      destruct (Rlt_dec (acc + d0) x) as [Hlt | Hge].
      * apply (IH (acc + d0) ii); [lra | lia | assumption | assumption].
      * rewrite count_lt_cumsum_above in Hii by (assumption || lra). lia.
Qed.

Lemma cover_factor_unit (prof : SoilProfileClass) (depth : R) (ii : nat)
  (factor : R) :
  dzsum prof = cumsum (dz prof) ->
  Forall (fun d => 0 < d) (dz prof) -> 0 <= depth ->
  (ii <= count_lt (dzsum prof) depth)%nat ->
  cover_factor prof depth ii = Some factor ->
  0 <= factor <= 1.
Proof.
  intros Hcum Hdz Hdepth Hii H. unfold cover_factor in H.
  inv_bind_as H z Hz. destruct (Rgt_dec z depth) as [Hgt | Hle];
    [|unfold ret in H; injection H as <-; lra].
  inv_bind_as H d Hd. inv_bind_as H q Hq.
  apply fdiv_inv in Hq as [Hd0 ->]. unfold ret in H. injection H as <-.
  pose proof (Forall_nth_error _ _ _ _ Hdz Hd) as Hdpos. simpl in Hdpos.
  rewrite Hcum in Hz, Hii. unfold cumsum in Hz, Hii.
  pose proof (cumsum_top_above 0 depth (dz prof) ii d z Hdz Hdepth Hii
                Hd Hz) as Htop.
  assert (Hq : 0 <= (z - depth) / d <= 1).
  { split.
    - apply Rmult_le_pos; [lra|]. left. apply Rinv_0_lt_compat. assumption.
    - apply (Rmult_le_reg_r d); [assumption|].
      unfold Rdiv. rewrite Rmult_assoc, Rinv_l by lra. lra. }
  lra.
Qed.

(** In a profile whose cumulative depths are the running sums of
    positive thicknesses, and whose compartments satisfy
    [0 <= th_dry <= th_wp <= th_fc <= th_s], the storages of the
    evaporation layer come out in the same order:
    [0 <= Wevap_Dry <= Wevap_Wp <= Wevap_Fc <= Wevap_Sat]; the actual
    storage is never negative, and it is at most [Wevap_Sat] when no
    compartment is above saturation. *)
Theorem evap_layer_water_content_order (InitCond_th : list R)
  (InitCond_EvapZ : R) (prof : SoilProfileClass)
  (Wevap_Sat Wevap_Fc Wevap_Wp Wevap_Dry Wevap_Act : R) :
  evap_layer_water_content InitCond_th InitCond_EvapZ prof
    = Some (Wevap_Sat, Wevap_Fc, Wevap_Wp, Wevap_Dry, Wevap_Act) ->
  dzsum prof = cumsum (dz prof) ->
  Forall (fun d => 0 < d) (dz prof) -> 0 <= InitCond_EvapZ ->
  (forall ii dry wp fc s,
     nth_error (th_dry prof) ii = Some dry ->
     nth_error (th_wp prof) ii = Some wp ->
     nth_error (th_fc prof) ii = Some fc ->
     nth_error (th_s prof) ii = Some s ->
     0 <= dry <= wp /\ wp <= fc <= s) ->
  0 <= Wevap_Dry <= Wevap_Wp /\ Wevap_Wp <= Wevap_Fc <= Wevap_Sat /\
  0 <= Wevap_Act /\
  (Forall2 Rle InitCond_th (th_s prof) -> Wevap_Act <= Wevap_Sat).
Proof.
  unfold evap_layer_water_content. intros H Hcum Hdz Hz Hsoil.
  inv_bind_as H w Hw. destruct w as [[[[Sat Fc] Wp] Dry] Act].
  unfold ret in H. injection H as <- <- <- <- <-.
  apply (for_range_invariant
    (fun w : R * R * R * R * R =>
       let '(Sat, Fc, Wp, Dry, Act) := w in
       0 <= Dry <= Wp /\ Wp <= Fc <= Sat /\
       (Forall2 Rle InitCond_th (th_s prof) -> Act <= Sat))) in Hw.
  - destruct Hw as (HDW & HWF & HA).
    split; [assumption|]. split; [assumption|].
    destruct (Rlt_dec Act 0); split; try lra; assumption.
  - clear Hw Sat Fc Wp Dry Act.
    intros ii [[[[Sat Fc] Wp] Dry] Act] [[[[Sat' Fc'] Wp'] Dry'] Act'] Hii
      (HDW & HWF & HA) Hstep.
    unfold evap_layer_step in Hstep.
    inv_bind_as Hstep factor Hf. inv_bind_as Hstep th_ii Hth.
    inv_bind_as Hstep dz_ii Hd. inv_bind_as Hstep s Hs.
    inv_bind_as Hstep fc Hfc. inv_bind_as Hstep wp Hwp.
    inv_bind_as Hstep dry Hdry.
    unfold ret in Hstep. injection Hstep as <- <- <- <- <-.
    assert (Hfac : 0 <= factor <= 1)
      by (apply (cover_factor_unit prof InitCond_EvapZ ii); try assumption;
          lia).
    pose proof (Forall_nth_error _ _ _ _ Hdz Hd) as Hdpos. simpl in Hdpos.
    destruct (Hsoil ii dry wp fc s Hdry Hwp Hfc Hs) as [Hdw Hfs].
    assert (Hk : 0 <= factor * 1000 * dz_ii) by nra.
    split; [nra|]. split; [nra|].
    intros Hsat. specialize (HA Hsat).
    assert (Hle : th_ii <= s).
    { clear - Hsat Hth Hs. revert ii Hth Hs.
      induction Hsat as [|x y l l' Hxy Hsat IH]; intros [|ii] Hth Hs;
        simpl in Hth, Hs; try discriminate.
      - injection Hth as <-. injection Hs as <-. assumption.
      - apply (IH ii); assumption. }
    nra.
  - repeat split; lra.
Qed.

Lemma evap_layer_water_content_example :
  exists Wevap_Sat Wevap_Fc Wevap_Wp Wevap_Dry Wevap_Act,
    evap_layer_water_content [0.25; 0.25; 0.25] 0.15 prof_three
      = Some (Wevap_Sat, Wevap_Fc, Wevap_Wp, Wevap_Dry, Wevap_Act).
Proof.
  do 5 eexists.
  unfold evap_layer_water_content, prof_three, for_range, evap_layer_step,
    cover_factor, fdiv.
  repeat (cbn [dzsum dz th_s th_fc th_wp th_dry count_lt Nat.add seq
               fold_left bind ret nth_error];
          first [decide_real | decide_zero]).
  reflexivity.
Qed.

Lemma evap_layer_water_content_order_witness :
  exists Wevap_Sat Wevap_Fc Wevap_Wp Wevap_Dry Wevap_Act,
    evap_layer_water_content [0.25; 0.25; 0.25] 0.15 prof_three
      = Some (Wevap_Sat, Wevap_Fc, Wevap_Wp, Wevap_Dry, Wevap_Act) /\
    dzsum prof_three = cumsum (dz prof_three) /\
    Forall (fun d => 0 < d) (dz prof_three) /\ 0 <= 0.15 /\
    (0 <= Wevap_Dry <= Wevap_Wp) /\ (Wevap_Wp <= Wevap_Fc <= Wevap_Sat).
Proof.
  destruct evap_layer_water_content_example
    as (Sat & Fc & Wp & Dry & Act & H).
  assert (Hcum : dzsum prof_three = cumsum (dz prof_three)).
  { unfold prof_three, cumsum. cbn [dzsum dz cumsum_from].
    repeat (f_equal; try lra). }
  assert (Hdz : Forall (fun d => 0 < d) (dz prof_three))
    by (repeat constructor; simpl; lra).
  assert (Hz : 0 <= 0.15) by lra.
  assert (Hsoil : forall ii dry wp fc s,
     nth_error (th_dry prof_three) ii = Some dry ->
     nth_error (th_wp prof_three) ii = Some wp ->
     nth_error (th_fc prof_three) ii = Some fc ->
     nth_error (th_s prof_three) ii = Some s ->
     0 <= dry <= wp /\ wp <= fc <= s).
  { intros ii dry wp fc s Hdry Hwp Hfc Hs.
    do 3 (destruct ii as [|ii];
          [simpl in *; injection Hdry as <-; injection Hwp as <-;
           injection Hfc as <-; injection Hs as <-; lra|]).
    destruct ii; discriminate. }
  destruct (evap_layer_water_content_order _ _ _ _ _ _ _ _ H Hcum Hdz Hz
              Hsoil) as (HDW & HWF & _).
  exists Sat, Fc, Wp, Dry, Act.
  split; [exact H|]. split; [exact Hcum|]. split; [exact Hdz|].
  split; [exact Hz|]. split; [exact HDW | exact HWF].
Defined.

(** ** Biomass accumulation: non-finite increments *)

Module Binary64Facts.

Import Binary64.
Local Open Scope float_scope.

(** Claim C3, evaluated on a day with [Et0 = 0].  Under IEEE division
    the NaN increment [dB] is replaced by zero but the NaN increment
    [dB_NS] is not, so [B_NS] becomes NaN; an infinite increment
    (positive transpiration) is not replaced either, so [B] and [B_NS]
    become infinite; and where division by zero raises, no condition is
    returned at all.  The previous totals are finite in each case. *)
Theorem biomass_accumulation_non_finite :
  is_finite (B cond0) = true /\ is_finite (B_NS cond0) = true /\
  (exists c,
      biomass_accumulation NumpyModel crop0 cond0 0 0 0 true = Some c /\
      B c = 100 /\ is_nan (B_NS c) = true) /\
  (exists c,
      biomass_accumulation NumpyModel crop0 cond0 1 1 0 true = Some c /\
      is_infinity (B c) = true /\ is_infinity (B_NS c) = true) /\
  biomass_accumulation PythonModel crop0 cond0 0 0 0 true = None.
Proof.
  repeat split.
  - eexists. split; [vm_compute; reflexivity|]. split; reflexivity.
  - eexists. split; [vm_compute; reflexivity|]. split; reflexivity.
Qed.


End Binary64Facts.
